(* ===== verification/_CoqProject ===== *)
-Q . S2P
Prelude.v
CString.v
Kernel.v
Mp1.v
Mp1State.v
Mp1Entry.v
Mp1Read.v
Mp1Monitor.v
Mp1User.v
Mp1Run.v
Mp2.v
Mp2Run.v
Mp2State.v
Mp2Sched.v
Mp2Admission.v
Mp2User.v
Mp2Client.v
Mp2Proc.v
Mp2Refine.v
Mp2System.v
Mp2Dump.v
Mp3.v
Mp3Run.v
Mp3Pages.v
Mp3State.v
Mp3User.v
Mp3Profile.v
Mp3Entry.v
Mp3Refine.v
Mp3Work.v
Mp4.v
Mp4Run.v
Mp4Policy.v
Mp4Hooks.v
Mp4Cred.v
Mp4Refine.v
