(* ===== verification/Prelude.v ===== *)
(** * Verification of four Linux kernel modules

    The repository holds four kernel modules and the programs that use them:

    - MP1 (src/MP1), a monitor of CPU time: programs write their pid to
      /proc/mp1/status; every five seconds a timer queues a work item that
      updates the time of each process and forgets the dead ones; reading the
      file prints the list;
    - MP2 (src/MP2), a rate-monotonic scheduler: programs register a period
      and a computation time, an admission test keeps the utilisation below
      0.693, a dispatcher thread runs the awake task of shortest period, and
      programs yield at the end of each job;
    - MP3 (src/MP3), a page fault profiler: while some process is registered a
      delayed work samples fault counts and CPU time twenty times a second into
      a buffer that the monitor maps and prints;
    - MP4 (src/MP4), a Linux security module: programs executed from a file
      with the target label are confined by the labels of the files they use.

    ** How the code is modelled

    The C code is embedded shallowly.  Each module is a record of its globals,
    with what it sees of the kernel (clock, pid table, task counters, heap, the
    calls it makes) as further fields, and each C function is a definition of the
    same name in the state and error monad [M] of this file.  A fault of the
    kernel is a value: a dereference of NULL ([NullDeref]) or of memory that is
    no live block ([BadAccess]), an access past an array ([OutOfBounds]), a
    [BUG_ON], and waiting for a lock that is never released ([Deadlock]).
    Integers are [Z] with the wrap-around of their C type written out ([u32],
    [i32], [u64]; [ul] in MP3, where the size of a long is a parameter).  Text is
    a list of characters; buffers have their C sizes.  printk has no effect,
    but the dereferences of its arguments are kept.

    What is not in the repository is a class with laws that state documented
    behaviour ([Kernel.KList], [Allocator], [Kstrto], [KConst]; [Mp1.Clock];
    [Mp3.Arch]; [Mp3Work.Libc]; [Mp2Dump.Msecs]; [Mp4.Masks], [Mp4.Vfs]).
    Allocation may fail at any request.  Each class has a concrete instance, and
    each theorem with hypotheses a witness that applies it to a concrete state.

    ** Files

    - [Prelude]: tactics, machine integers, the monad, loops, the rules of
      weakest preconditions [wp m Q E s] (which also bound the faults), list
      lemmas; [CString]: C strings, the printf and scanf conversions used;
      [Kernel]: the interfaces above, typed heaps, a reference kernel.
    - MP1.  [Mp1]: mp1.c and mp1_given.h.  [Mp1State]: the invariant, and the
      registry (pid and time, in order) a state stands for.  [Mp1Entry]: what
      the write, the work and the timer do.  [Mp1Read]: the status file and its
      capacity.  [Mp1Monitor]: the transition system, its refinement of a
      registry, liveness of the update, unloading.  [Mp1User]: userapp.c.
      [Mp1Run]: a concrete run and the witnesses.
    - MP2.  [Mp2]: mp2.c and mp2_given.h.  [Mp2Run]: a concrete run.
      [Mp2State]: the invariant and the effect of each operation.  [Mp2Sched]:
      reachability, the dispatcher, yields and timers, unloading.  [Mp2Refine]:
      the module as an abstract scheduler of a table of jobs.
      [Mp2Admission]: the admission test as exact arithmetic on fractions.
      [Mp2User]: userapp.c.  [Mp2Client]: any number of its programs over an
      interface (a class) that says what they rely on.  [Mp2Proc]: the messages
      between program and module, and the status file.  [Mp2System]: the module
      is an instance of the interface; programs and module together.  [Mp2Dump]:
      mp2_dump.c, an older version, and what the newer one changed.
    - MP3.  [Mp3]: mp3.c and mp3_given.h; the work is split at its lock, so that
      the other entries can run in between.  [Mp3Run]: concrete runs on 32 and
      64 bits.  [Mp3Pages]: marking and mapping the pages.  [Mp3State]: the
      invariant and one sample.  [Mp3User]: monitor.c.  [Mp3Profile]: what is
      recorded is what is printed.  [Mp3Entry]: registration, reachability, the
      bounds of the buffer, the lock.  [Mp3Refine]: the module as an
      abstract profiler.  [Mp3Work]: work.c.
    - MP4.  [Mp4]: mp4.c and mp4_given.h.  [Mp4Run]: a concrete system.
      [Mp4Policy]: the decision against what mp4_given.h documents of the labels
      and of directories ([documented], a reading of its comments).
      [Mp4Hooks]: the permission and inode hooks.  [Mp4Cred]: the credential
      hooks as a transition system.  [Mp4Refine]: the hooks as a reference
      monitor of confined and unconfined programs.

    ** What the theorems show

    Refinement and equivalence: without pointers and buffers, the MP1 module is a
    registry of processes, the MP2 module a rate-monotonic scheduler of jobs, the
    MP3 module a profiler of members and the MP4 module a reference monitor
    whose decision is the documented one, two labels apart.  Invariants by rule
    induction over the steps of each module: no dangling pointers, no leaks, at
    most one running task, whole samples, one owner per label.  Functional
    behaviour on every branch: the dispatcher is rate monotonic, admission is
    exact while the products fit, a yield sleeps until exactly the end of its
    period, a sample is the sum of the counters, an execution confines exactly
    under conditions that are written out.  Composition: the modules decode what
    their programs write, programs that follow the protocol of MP2 never make its
    module fault and leave nothing registered, and the programs find and print
    what the modules record.  Liveness: a sleeping task runs again, the monitor's
    update happens.
    Bounds and error paths: where the buffers overrun, products wrap, locks are
    kept or taken twice, dead processes are followed.

    ** Bounds and fuel

    Loops over a list recurse on it.  [Mp1.freell] gets the length of the list
    ([Mp1Monitor.freell_run] shows it empties it); the page loops of MP3 get one
    turn more than the buffer has pages of 4096 bytes ([Mp3Pages.page_count_turns]);
    the monitor gets as many turns as its range has elements
    ([Mp3Profile.monitor_ends]); [Mp2.findchar] gets the characters left;
    [Mp2User.App.factorial_ends] says how many turns the busy loop takes.
    [Mp2.dispatch_fn] runs once for each wake-up it is given.

    ** What is not modelled

    Build files, src/MP3/test.c (which prints addresses) and the terminal output
    of userapp.c and work.c have no logic to verify; what a clock, [open], [mmap]
    or [ctime] give is an argument.  Interrupts and preemption inside an entry are
    not modelled, except where a callback of MP1 or MP3 meets the spin lock; MP2
    takes no lock, and its entries run one at a time. *)
From Stdlib Require Import Ascii String.
From stdpp Require Import base gmap sets list strings.
From Stdlib Require Import ZArith Lia.

Open Scope Z_scope.

(** ** Tactics shared by the development *)

(** Opens existentials, conjunctions and pairs of the context. *)
Ltac deex :=
  repeat match goal with
  | H : ∃ x, _ |- _ => let x' := fresh x in destruct H as [x' H]
  | H : _ ∧ _ |- _ => let H' := fresh H in destruct H as [H H']
  end.

(** Case analysis on the first boolean test or match of the goal, with the
    tests reflected into propositions. *)
Ltac zbool :=
  repeat match goal with
  | H : (_ =? _) = true |- _ => apply Z.eqb_eq in H
  | H : (_ =? _) = false |- _ => apply Z.eqb_neq in H
  | H : (_ <? _) = true |- _ => apply Z.ltb_lt in H
  | H : (_ <? _) = false |- _ => apply Z.ltb_ge in H
  | H : (_ <=? _) = true |- _ => apply Z.leb_le in H
  | H : (_ <=? _) = false |- _ => apply Z.leb_gt in H
  | H : (_ && _)%bool = true |- _ => apply andb_true_iff in H; destruct H
  | H : (_ || _)%bool = false |- _ => apply orb_false_iff in H; destruct H
  | H : negb _ = true |- _ => apply negb_true_iff in H
  | H : negb _ = false |- _ => apply negb_false_iff in H
  end.

Ltac cases :=
  repeat (case_match; try discriminate; zbool; simplify_eq/=).

(** ** Machine integers *)

(** An [unsigned int], an [unsigned long] (64 bits) and an [int]. *)
Definition u32 (x : Z) : Z := x mod 2 ^ 32.
Definition u64 (x : Z) : Z := x mod 2 ^ 64.
Definition i32 (x : Z) : Z := (x + 2 ^ 31) mod 2 ^ 32 - 2 ^ 31.

Definition INT_MAX : Z := 2147483647.
Definition INT_MIN : Z := -2147483648.

Definition is_u32 (x : Z) : Prop := 0 <= x < 2 ^ 32.
Definition is_u64 (x : Z) : Prop := 0 <= x < 2 ^ 64.
Definition is_i32 (x : Z) : Prop := INT_MIN <= x <= INT_MAX.

Lemma u32_range x : is_u32 (u32 x).
Proof. unfold is_u32, u32. apply Z.mod_pos_bound. lia. Qed.

Lemma u64_range x : is_u64 (u64 x).
Proof. unfold is_u64, u64. apply Z.mod_pos_bound. lia. Qed.

Lemma i32_range x : is_i32 (i32 x).
Proof.
  unfold is_i32, i32, INT_MIN, INT_MAX.
  pose proof (Z.mod_pos_bound (x + 2 ^ 31) (2 ^ 32)). lia.
Qed.

Lemma u32_id x : is_u32 x → u32 x = x.
Proof. apply Z.mod_small. Qed.

Lemma u64_id x : is_u64 x → u64 x = x.
Proof. apply Z.mod_small. Qed.

Lemma i32_id x : is_i32 x → i32 x = x.
Proof.
  unfold is_i32, i32, INT_MIN, INT_MAX. intros H.
  rewrite Z.mod_small; lia.
Qed.

Lemma i32_u32 x : i32 (u32 x) = i32 x.
Proof.
  unfold u32, i32. by rewrite Zplus_mod_idemp_l.
Qed.

Lemma u32_i32 x : u32 (i32 x) = u32 x.
Proof.
  unfold u32, i32. rewrite Zminus_mod_idemp_l. f_equal. lia.
Qed.

(** Drops the wrap-arounds of values that [lia] shows to fit. *)
Ltac words :=
  repeat match goal with
  | |- context [u64 ?x] => rewrite (u64_id x) by (unfold is_u64; lia)
  | |- context [u32 ?x] => rewrite (u32_id x) by (unfold is_u32; lia)
  | |- context [i32 ?x] => rewrite (i32_id x) by (unfold is_i32, INT_MIN, INT_MAX; lia)
  end.

(** ** Outcomes *)

(** What stops a kernel path: a dereference of NULL, an access to memory that
    is not an allocated block of the type, an access past the end of an array,
    a [BUG_ON], and a lock that is never released. *)
Inductive fault : Type :=
  | NullDeref
  | BadAccess
  | OutOfBounds
  | BugOn
  | Deadlock.

#[export] Instance fault_eq_dec : EqDecision fault.
Proof. solve_decision. Defined.

Inductive res (A : Type) : Type :=
  | Ok (a : A)
  | Oops (f : fault).
Arguments Ok {A} a.
Arguments Oops {A} f.

(** ** A state and error monad: C code over a record of globals *)

Definition M (S A : Type) : Type := S → res (A * S).

Definition ret {S A} (a : A) : M S A := λ s, Ok (a, s).
Definition bind {S A B} (m : M S A) (f : A → M S B) : M S B := λ s,
  match m s with
  | Ok (a, s') => f a s'
  | Oops e => Oops e
  end.
Definition fail {S A} (e : fault) : M S A := λ _, Oops e.
Definition get {S} : M S S := λ s, Ok (s, s).
Definition gets {S A} (f : S → A) : M S A := λ s, Ok (f s, s).
Definition modify {S} (f : S → S) : M S unit := λ s, Ok (tt, f s).

Declare Scope c_scope.
Delimit Scope c_scope with c.
Open Scope c_scope.

Notation "'let!' x ':=' m 'in' k" := (bind m (λ x, k))
  (at level 10, x pattern, m at level 100, k at level 200,
   format "'[v' 'let!'  x  ':='  m  'in' '//' k ']'") : c_scope.
Notation "m ';!' k" := (bind m (λ _, k))
  (at level 100, k at level 200, right associativity,
   format "'[v' m  ';!' '//' k ']'") : c_scope.

(** The state a run ends in, [d] if it faults. *)
Definition state_of {S A} (d : S) (r : res (A * S)) : S :=
  match r with Ok (_, s) => s | Oops _ => d end.

(** [if (b) m;] *)
Definition when {S} (b : bool) (m : M S unit) : M S unit :=
  if b then m else ret tt.

(** The body of a loop run for the elements of a list, in order. *)
Fixpoint for_each {S A} (l : list A) (body : A → M S unit) : M S unit :=
  match l with
  | [] => ret tt
  | x :: l' => body x ;! for_each l' body
  end.

(** A loop that carries local variables. *)
Fixpoint fold_each {S A B} (l : list A) (acc : B) (body : B → A → M S B) : M S B :=
  match l with
  | [] => ret acc
  | x :: l' => let! acc' := body acc x in fold_each l' acc' body
  end.

(** A loop whose body may [return] a value out of the function. *)
Fixpoint find_each {S A B} (l : list A) (body : A → M S (option B)) : M S (option B) :=
  match l with
  | [] => ret None
  | x :: l' =>
      let! r := body x in
      match r with
      | Some b => ret (Some b)
      | None => find_each l' body
      end
  end.

(** ** Weakest preconditions

    [wp m Q E s]: run from [s], [m] ends in a value and state that satisfy [Q],
    or in a fault that satisfies [E]. *)

Definition wp {S A} (m : M S A) (Q : A → S → Prop) (E : fault → Prop) (s : S) : Prop :=
  match m s with
  | Ok (a, s') => Q a s'
  | Oops e => E e
  end.

(** The two fault postconditions in use: no fault, and any fault. *)
Definition safe : fault → Prop := λ _, False.
Definition any : fault → Prop := λ _, True.

Section wp_rules.
Context {S : Type}.
Implicit Types (s : S) (E : fault → Prop).

Lemma wp_ret {A} (a : A) (Q : A → S → Prop) E s : Q a s → wp (ret a) Q E s.
Proof. done. Qed.

Lemma wp_bind {A B} (m : M S A) (f : A → M S B) Q E s :
  wp m (λ a s', wp (f a) Q E s') E s → wp (bind m f) Q E s.
Proof. unfold wp, bind. destruct (m s) as [[a s']|e]; done. Qed.

Lemma wp_get (Q : S → S → Prop) E s : Q s s → wp get Q E s.
Proof. done. Qed.

Lemma wp_gets {A} (f : S → A) (Q : A → S → Prop) E s : Q (f s) s → wp (gets f) Q E s.
Proof. done. Qed.

Lemma wp_modify (f : S → S) (Q : unit → S → Prop) E s : Q tt (f s) → wp (modify f) Q E s.
Proof. done. Qed.

Lemma wp_fail {A} (e : fault) (Q : A → S → Prop) E s : E e → wp (fail e) Q E s.
Proof. done. Qed.

Lemma wp_when (b : bool) m (Q : unit → S → Prop) E s :
  (b = true → wp m Q E s) → (b = false → Q tt s) → wp (when b m) Q E s.
Proof. destruct b; intros H1 H2; [by apply H1 | by apply H2]. Qed.

Lemma wp_mono {A} (m : M S A) (Q Q' : A → S → Prop) (E E' : fault → Prop) s :
  wp m Q E s → (∀ a s', Q a s' → Q' a s') → (∀ e, E e → E' e) → wp m Q' E' s.
Proof. unfold wp. destruct (m s) as [[a s']|e]; naive_solver. Qed.

(** A run that succeeds satisfies the postcondition. *)
Lemma wp_run {A} (m : M S A) Q E s a s' : wp m Q E s → m s = Ok (a, s') → Q a s'.
Proof. unfold wp. intros H Hr. by rewrite Hr in H. Qed.

(** A safe program returns. *)
Lemma wp_safe_runs {A} (m : M S A) Q s :
  wp m Q safe s → ∃ a s', m s = Ok (a, s') ∧ Q a s'.
Proof. unfold wp. destruct (m s) as [[a s']|e]; [eauto | done]. Qed.

(** A run is found by stepping through it. *)
Lemma run_of_wp {A} (m : M S A) r s : wp m (λ a s', (a, s') = r) safe s → m s = Ok r.
Proof. unfold wp. destruct (m s) as [[a s']|e]; [by intros -> | done]. Qed.

(** [returns m E r s]: [m] ends in [r], or in a fault that [E] admits. *)
Definition returns {A} (m : M S A) (E : fault → Prop) (r : A * S) (s : S) : Prop :=
  wp m (λ a s', (a, s') = r) E s.

(** A side condition that only a program that must not fault has to meet. *)
Definition permits (E : fault → Prop) (P : Prop) : Prop := P ∨ ∀ e, E e.

Lemma permits_any P : permits any P.
Proof. by right. Qed.

Lemma permits_yes E (P : Prop) : P → permits E P.
Proof. by left. Qed.

Lemma permits_mono E (P P' : Prop) : (P → P') → permits E P → permits E P'.
Proof. unfold permits. naive_solver. Qed.

Lemma returns_safe {A} (m : M S A) r s : returns m safe r s → m s = Ok r.
Proof. apply run_of_wp. Qed.

Lemma returns_any {A} (m : M S A) r r' s : returns m any r s → m s = Ok r' → r' = r.
Proof. unfold returns, wp. intros Hr He. rewrite He in Hr. by destruct r'. Qed.

Lemma returns_run {A} (m : M S A) E r s : m s = Ok r → returns m E r s.
Proof. unfold returns, wp. intros ->. by destruct r. Qed.

Lemma wp_returns {A} (m : M S A) (Q : A → S → Prop) E a s s' :
  returns m E (a, s') s → Q a s' → wp m Q E s.
Proof.
  unfold returns, wp. destruct (m s) as [[b s'']|e]; [|done]. by intros [= -> ->].
Qed.

Lemma wp_of_run {A} (m : M S A) (Q : A → S → Prop) E s a s' :
  m s = Ok (a, s') → Q a s' → wp m Q E s.
Proof. unfold wp. by intros ->. Qed.

(** Loops: the invariant speaks of the elements already visited. *)
Lemma wp_for_each {A} (body : A → M S unit) (I : list A → S → Prop) E l s :
  I [] s →
  (∀ pre x post s', l = pre ++ x :: post → I pre s' →
     wp (body x) (λ _, I (pre ++ [x])) E s') →
  wp (for_each l body) (λ _, I l) E s.
Proof.
  intros H0 Hstep.
  assert (∀ post pre s', l = pre ++ post → I pre s' →
    wp (for_each post body) (λ _, I l) E s') as Hgen; [|by apply (Hgen l [])].
  induction post as [|x post IH]; intros pre s' Hl HI; simpl.
  - rewrite app_nil_r in Hl. by subst.
  - apply wp_bind. eapply wp_mono; [by apply (Hstep pre x post) | | done].
    intros [] s'' HI'. apply (IH (pre ++ [x])); [by rewrite <- app_assoc | done].
Qed.

Lemma wp_fold_each {A B} (body : B → A → M S B) (I : list A → B → S → Prop) E l acc s :
  I [] acc s →
  (∀ pre x post b s', l = pre ++ x :: post → I pre b s' →
     wp (body b x) (I (pre ++ [x])) E s') →
  wp (fold_each l acc body) (I l) E s.
Proof.
  intros H0 Hstep.
  assert (∀ post pre b s', l = pre ++ post → I pre b s' →
    wp (fold_each post b body) (I l) E s') as Hgen; [|by apply (Hgen l [])].
  induction post as [|x post IH]; intros pre b s' Hl HI; simpl.
  - rewrite app_nil_r in Hl. by subst.
  - apply wp_bind. eapply wp_mono; [by apply (Hstep pre x post) | | done].
    intros b' s'' HI'. apply (IH (pre ++ [x])); [by rewrite <- app_assoc | done].
Qed.
End wp_rules.

(** ** Loops that only read *)

(** The first result a function gives along a list. *)
Fixpoint find_map {A B} (g : A → option B) (l : list A) : option B :=
  match l with
  | [] => None
  | x :: l' => match g x with Some b => Some b | None => find_map g l' end
  end.

Lemma find_map_None {A B} (g : A → option B) l :
  find_map g l = None ↔ ∀ x, x ∈ l → g x = None.
Proof.
  induction l as [|x l IH]; simpl.
  - split; [|done]. intros _ x Hx. by apply elem_of_nil in Hx.
  - destruct (g x) as [b|] eqn:Hx.
    + split; [done|]. intros H. rewrite H in Hx; [done|]. apply elem_of_cons. by left.
    + rewrite IH. split.
      * by intros H y [->|Hy]%elem_of_cons; [|apply H].
      * intros H y Hy. apply H, elem_of_cons. by right.
Qed.

Lemma find_map_Some {A B} (g : A → option B) l b :
  find_map g l = Some b ↔
  ∃ pre x post, l = pre ++ x :: post ∧ g x = Some b ∧ ∀ y, y ∈ pre → g y = None.
Proof.
  induction l as [|x l IH]; simpl.
  - split; [done|]. by intros ([|] & ? & ? & ? & _).
  - destruct (g x) as [b'|] eqn:Hx.
    + split.
      * intros [= ->]. exists [], x, l. split_and!; [done..|].
        intros y Hy. by apply elem_of_nil in Hy.
      * intros ([|z pre] & y & post & [= -> ->] & Hy & Hpre); [congruence|].
        rewrite Hpre in Hx; [done|]. apply elem_of_cons. by left.
    + rewrite IH. split.
      * intros (pre & y & post & -> & Hy & Hpre). exists (x :: pre), y, post.
        split_and!; [done..|]. intros z [->|Hz]%elem_of_cons; [done|by apply Hpre].
      * intros ([|z pre] & y & post & [= -> ->] & Hy & Hpre); [congruence|].
        exists pre, y, post. split_and!; [done..|].
        intros z' Hz'. apply Hpre, elem_of_cons. by right.
Qed.

Lemma find_each_read {S A B} (body : A → M S (option B)) (g : A → option B) l (s : S) :
  (∀ x, x ∈ l → body x s = Ok (g x, s)) → find_each l body s = Ok (find_map g l, s).
Proof.
  induction l as [|x l IH]; intros Hb; simpl; [done|].
  unfold bind. rewrite Hb by (apply elem_of_cons; by left).
  destruct (g x); [done|]. apply IH. intros y Hy. apply Hb, elem_of_cons. by right.
Qed.

Lemma fold_each_read {S A B} (body : B → A → M S B) (g : B → A → B) l acc (s : S) :
  (∀ b x, x ∈ l → body b x s = Ok (g b x, s)) →
  fold_each l acc body s = Ok (foldl g acc l, s).
Proof.
  revert acc. induction l as [|x l IH]; intros acc Hb; simpl; [done|].
  unfold bind. rewrite Hb by (apply elem_of_cons; by left).
  apply IH. intros b y Hy. apply Hb, elem_of_cons. by right.
Qed.

(** ** Lists emptied one element at a time *)

Lemma filter_none_removed (l : list Z) : filter (λ b, b ∉ []) l = l.
Proof.
  induction l as [|x l IH]; [done|].
  rewrite filter_cons_True, IH; [done|]. by intros ?%elem_of_nil.
Qed.

Lemma filter_not_in (a : Z) (l : list Z) : a ∉ l → filter (λ b, b ≠ a) l = l.
Proof.
  induction l as [|x l IH]; intros Hl; [done|]. apply not_elem_of_cons in Hl as [Hx Hl].
  rewrite filter_cons_True by congruence. by rewrite IH.
Qed.

Lemma filter_all_removed (l l' : list Z) :
  (∀ x, x ∈ l → x ∈ l') → filter (λ b, b ∉ l') l = [].
Proof.
  induction l as [|x l IH]; intros Hl; [done|]. rewrite filter_cons_False.
  - apply IH. intros y Hy. apply Hl, elem_of_cons. by right.
  - intros Hx. apply Hx, Hl, elem_of_cons. by left.
Qed.

Create HintDb wp.
#[export] Hint Resolve permits_any permits_yes returns_run : wp.

(** Steps through binds and pure statements of a goal [wp m Q E s]. *)
Ltac wp_pure :=
  repeat (lazymatch goal with
    | |- wp (bind _ _) _ _ _ => apply wp_bind
    | |- wp (ret _) _ _ _ => apply wp_ret
    | |- wp get _ _ _ => apply wp_get
    | |- wp (gets _) _ _ _ => apply wp_gets
    | |- wp (modify _) _ _ _ => apply wp_modify
    end; cbn beta iota).

(** Inverts [bind m f s = Ok r] in the context into the runs of its parts. *)
Lemma bind_ok_inv {S A B} (m : M S A) (f : A → M S B) s r :
  bind m f s = Ok r → ∃ a s', m s = Ok (a, s') ∧ f a s' = Ok r.
Proof. unfold bind. destruct (m s) as [[a s']|e]; naive_solver. Qed.

Ltac run_inv H :=
  let a := fresh "a" in let s := fresh "s" in let Hm := fresh "Hrun" in
  apply bind_ok_inv in H as (a & s & Hm & H).
