(* ===== verification/CString.v ===== *)
(** * C strings and formatted output

    The part of the C string library the modules use: NUL-terminated strings
    inside byte buffers, [strlen], [strcmp], [strncmp], and the [%d], [%u] and
    [%lu] conversions of [sprintf].  A buffer is a [list ascii]; the string it
    holds at an offset ends at the first NUL. *)
From Stdlib Require Import Ascii String.
From stdpp Require Import base gmap sets list strings.
From Stdlib Require Import ZArith Lia.
From S2P Require Import Prelude.

Open Scope Z_scope.

(** ** NUL-terminated strings *)

Definition NUL : ascii := Ascii.zero.

(** A string literal. *)
Definition str (s : string) : list ascii := list_ascii_of_string s.
Definition ch (s : string) : ascii := hd NUL (str s).
Definition newline : ascii := Ascii.ascii_of_nat 10.

(** The string held at the start of a buffer. *)
Fixpoint c_str (buf : list ascii) : list ascii :=
  match buf with
  | [] => []
  | c :: buf' => if decide (c = NUL) then [] else c :: c_str buf'
  end.

Definition strlen (buf : list ascii) : Z := Z.of_nat (length (c_str buf)).

Definition code (c : ascii) : Z := Z.of_N (N_of_ascii c).

(** Past its end a buffer holds its terminator. *)
Fixpoint strcmp (s t : list ascii) : Z :=
  match s with
  | [] => 0 - code (hd NUL t)
  | c :: s' =>
      let d := hd NUL t in
      if decide (c = d) then if decide (c = NUL) then 0 else strcmp s' (tl t)
      else code c - code d
  end.

Fixpoint strncmp (s t : list ascii) (n : nat) : Z :=
  match n with
  | O => 0
  | S n' =>
      let c := hd NUL s in
      let d := hd NUL t in
      if decide (c = d) then if decide (c = NUL) then 0 else strncmp (tl s) (tl t) n'
      else code c - code d
  end.

Lemma code_inj c d : code c = code d → c = d.
Proof.
  unfold code. intros H%N2Z.inj.
  rewrite <- (ascii_N_embedding c), <- (ascii_N_embedding d). by f_equal.
Qed.

Lemma code_NUL c : code c = 0 ↔ c = NUL.
Proof.
  split; [|by intros ->]. intros H. apply code_inj. by rewrite H.
Qed.

Lemma c_str_app s t : NUL ∉ s → c_str (s ++ t) = s ++ c_str t.
Proof.
  induction s as [|c s IH]; simpl; [done|]. intros Hs.
  rewrite decide_False by set_solver. f_equal. apply IH. set_solver.
Qed.

Lemma c_str_app_NUL s t : NUL ∉ s → c_str (s ++ NUL :: t) = s.
Proof. intros H. rewrite c_str_app by done. simpl. by rewrite app_nil_r. Qed.

Lemma c_str_id s : NUL ∉ s → c_str s = s.
Proof. intros H. rewrite <- (app_nil_r s) at 1. rewrite c_str_app by done. apply app_nil_r. Qed.

Lemma c_str_NUL_free s : NUL ∉ c_str s.
Proof. induction s as [|c s IH]; simpl; [set_solver|]. case_decide; set_solver. Qed.

Lemma strlen_nonneg s : 0 <= strlen s.
Proof. unfold strlen. lia. Qed.

Lemma strcmp_eq s t : strcmp s t = 0 ↔ c_str s = c_str t.
Proof.
  revert t. induction s as [|c s IH]; intros t; simpl.
  - destruct t as [|d t]; simpl; [done|].
    case_decide as Hd; [subst; done|].
    split; [|done]. intros H. destruct Hd. apply code_NUL. lia.
  - destruct t as [|d t]; simpl.
    + case_decide as Hc; [done|]. split; [|done].
      intros H. destruct Hc. apply code_NUL. change (code NUL) with 0 in H. lia.
    + destruct (decide (c = d)) as [->|Hcd].
      * case_decide; [done|]. rewrite IH. split; [by intros -> | by intros [= ->]].
      * split.
        -- intros H. destruct Hcd. apply code_inj. lia.
        -- repeat case_decide; congruence.
Qed.

Lemma strncmp_prefix s t :
  NUL ∉ t → strncmp s t (length t) = 0 ↔ t `prefix_of` s.
Proof.
  revert s. induction t as [|d t IH]; intros s Hnul; simpl.
  - split; [intros _; apply prefix_nil | done].
  - destruct s as [|c s]; simpl.
    + rewrite decide_False by set_solver. split.
      * intros H. assert (code d = 0) as ->%code_NUL by (change (code NUL) with 0 in H; lia).
        set_solver.
      * intros H. by apply prefix_nil_not in H.
    + case_decide as Hcd.
      * subst. rewrite decide_False by set_solver.
        rewrite IH by set_solver. split.
        -- intros H. by apply prefix_cons.
        -- intros H. by apply prefix_cons_inv_2 in H.
      * split.
        -- intros H. destruct Hcd. apply code_inj. lia.
        -- intros H. destruct Hcd. symmetry. by apply prefix_cons_inv_1 in H.
Qed.

(** ** Decimal conversions of [sprintf]

    [digits fuel n] writes the decimal digits of [n]; [fuel] digits are enough
    below [10 ^ fuel] (lemma [digits_value]).  [%lu] uses 20, which covers 64
    bits, and [%d] and [%u] use 10, which covers 32 bits. *)

Definition digit (d : Z) : ascii := ascii_of_N (Z.to_N (48 + d)).

Fixpoint digits (fuel : nat) (n : Z) : list ascii :=
  match fuel with
  | O => []
  | S f => if n <? 10 then [digit n] else digits f (n / 10) ++ [digit (n mod 10)]
  end.

Definition is_digit (c : ascii) : bool := (48 <=? code c) && (code c <=? 57).

(** The number a digit string denotes. *)
Definition undec (s : list ascii) : Z := foldl (λ a c, 10 * a + (code c - 48)) 0 s.

(** The conversions: [%lu] of an [unsigned long], [%u] of an [unsigned int],
    and [%d] of an [int] (an [unsigned int] argument is read as an [int]). *)
Definition fmt_lu (n : Z) : list ascii := digits 20 (u64 n).
Definition fmt_u (n : Z) : list ascii := digits 10 (u32 n).
Definition fmt_d (n : Z) : list ascii :=
  let v := i32 n in
  if v <? 0 then ch "-" :: digits 10 (- v) else digits 10 v.

Lemma code_digit d : 0 <= d < 10 → code (digit d) = 48 + d.
Proof.
  intros Hd. unfold code, digit. rewrite N_ascii_embedding; lia.
Qed.

Lemma is_digit_digit d : 0 <= d < 10 → is_digit (digit d) = true.
Proof. intros Hd. unfold is_digit. rewrite code_digit by done. lia. Qed.

Lemma digits_all fuel n : 0 <= n → Forall (λ c, is_digit c = true) (digits fuel n).
Proof.
  revert n. induction fuel as [|f IH]; intros n Hn; simpl; [constructor|].
  case_match; zbool.
  - constructor; [|constructor]. apply is_digit_digit. lia.
  - apply Forall_app. split; [apply IH; apply Z.div_pos; lia|].
    constructor; [|constructor]. apply is_digit_digit. apply Z.mod_pos_bound. lia.
Qed.

Lemma digits_value fuel n :
  0 <= n < 10 ^ Z.of_nat fuel → undec (digits fuel n) = n.
Proof.
  unfold undec. revert n. induction fuel as [|f IH]; intros n Hn.
  - simpl in *. lia.
  - cbn [digits]. case_match eqn:Hlt; zbool.
    + cbn [foldl]. rewrite code_digit; lia.
    + rewrite foldl_app. cbn [foldl]. rewrite IH.
      * rewrite code_digit by (apply Z.mod_pos_bound; lia).
        pose proof (Z.div_mod n 10). lia.
      * rewrite Nat2Z.inj_succ, Z.pow_succ_r in Hn by lia.
        split; [apply Z.div_pos; lia | apply Z.div_lt_upper_bound; lia].
Qed.

Lemma digits_length fuel (k : nat) n :
  (1 <= k)%nat → 0 <= n < 10 ^ Z.of_nat k → (length (digits fuel n) <= k)%nat.
Proof.
  revert k n. induction fuel as [|f IH]; intros k n Hk Hn; simpl; [lia|].
  case_match; zbool; simpl; [lia|].
  rewrite length_app. simpl.
  destruct k as [|[|k]]; [lia| simpl in Hn; lia |].
  assert (length (digits f (n / 10)) ≤ S k)%nat; [|lia].
  apply IH; [lia|].
  rewrite (Nat2Z.inj_succ (S k)), Z.pow_succ_r in Hn by lia.
  split; [apply Z.div_pos; lia | apply Z.div_lt_upper_bound; lia].
Qed.

Lemma digits_nonempty fuel n : (0 < fuel)%nat → digits fuel n ≠ [].
Proof.
  destruct fuel as [|f]; [lia|]. intros _. simpl. case_match; [done|].
  by intros []%app_nil.
Qed.

Arguments digits : simpl never.

Lemma is_digit_not (c : ascii) (s : list ascii) :
  is_digit c = false → Forall (λ c, is_digit c = true) s → c ∉ s.
Proof. rewrite Forall_forall. intros Hc Hs Hin. apply Hs in Hin. congruence. Qed.

Lemma fmt_lu_length n : (length (fmt_lu n) <= 20)%nat.
Proof.
  apply digits_length; [lia|]. pose proof (u64_range n) as [??].
  split; [done|]. assert (2 ^ 64 < 10 ^ Z.of_nat 20) by (vm_compute; reflexivity). lia.
Qed.

Lemma fmt_d_length n : (length (fmt_d n) <= 11)%nat.
Proof.
  unfold fmt_d. pose proof (i32_range n) as Hr. unfold is_i32, INT_MIN, INT_MAX in Hr.
  assert (10 ^ Z.of_nat 10 = 10000000000) as Hp by reflexivity.
  case_match; zbool; simpl.
  - apply le_n_S. apply digits_length; lia.
  - transitivity 10%nat; [|lia]. apply digits_length; lia.
Qed.

Lemma fmt_d_nonempty n : fmt_d n ≠ [].
Proof. unfold fmt_d. case_match; [done|]. apply digits_nonempty. lia. Qed.

(** A character that is no digit and no sign does not occur in [%d]. *)
Lemma fmt_d_not_in c n : is_digit c = false → c ≠ ch "-" → c ∉ fmt_d n.
Proof.
  intros Hc Hm. unfold fmt_d. case_match; zbool.
  - apply not_elem_of_cons. split; [done|].
    apply is_digit_not; [done|]. apply digits_all. lia.
  - apply is_digit_not; [done|]. apply digits_all. lia.
Qed.

Lemma fmt_lu_not_in c n : is_digit c = false → c ∉ fmt_lu n.
Proof.
  intros Hc. apply is_digit_not; [done|]. apply digits_all. apply u64_range.
Qed.

Lemma fmt_d_NUL n : NUL ∉ fmt_d n.
Proof. by apply fmt_d_not_in. Qed.

Lemma fmt_lu_NUL n : NUL ∉ fmt_lu n.
Proof. by apply fmt_lu_not_in. Qed.

Lemma fmt_u_length n : (length (fmt_u n) <= 10)%nat.
Proof.
  apply digits_length; [lia|]. pose proof (u32_range n) as [??].
  split; [done|]. assert (2 ^ 32 < 10 ^ Z.of_nat 10) by (vm_compute; reflexivity). lia.
Qed.

Lemma fmt_u_NUL n : NUL ∉ fmt_u n.
Proof. apply is_digit_not; [done|]. apply digits_all. apply u32_range. Qed.

Create HintDb cstr.
#[export] Hint Resolve fmt_d_NUL fmt_lu_NUL fmt_u_NUL : cstr.

(** ** Byte buffers *)

(** Bytes written from offset [off]; past the end is a fault. *)
Definition put (buf : list ascii) (off : nat) (bytes : list ascii) : res (list ascii) :=
  if decide (off + length bytes <= length buf)%nat
  then Ok (take off buf ++ bytes ++ drop (off + length bytes) buf)
  else Oops OutOfBounds.

(** [sprintf(buf + off, ...)] whose output is [out]: the terminator included. *)
Definition sprintf (buf : list ascii) (off : nat) (out : list ascii) : res (list ascii) :=
  put buf off (out ++ [NUL]).

(** The string at [buf + off]; an offset past the last byte is a fault. *)
Definition string_at (buf : list ascii) (off : nat) : res (list ascii) :=
  if decide (off < length buf)%nat then Ok (c_str (drop off buf)) else Oops OutOfBounds.

Definition lift {S A} (r : res A) : M S A := λ s,
  match r with Ok a => Ok (a, s) | Oops e => Oops e end.

Lemma wp_put {S} buf off bytes (Q : list ascii → S → Prop) E s :
  ((off + length bytes <= length buf)%nat →
     Q (take off buf ++ bytes ++ drop (off + length bytes) buf) s) →
  ((length buf < off + length bytes)%nat → E OutOfBounds) →
  wp (lift (put buf off bytes)) Q E s.
Proof. intros HQ HE. unfold wp, lift, put. case_decide; [by apply HQ | apply HE; lia]. Qed.

Lemma put_length buf off bytes buf' :
  put buf off bytes = Ok buf' → length buf' = length buf.
Proof.
  unfold put. case_decide; [|done]. intros [= <-].
  rewrite !length_app, length_take, length_drop. lia.
Qed.

(** Appending to the string a buffer holds. *)
Lemma sprintf_append buf out done' rest :
  NUL ∉ done' → NUL ∉ out → buf = done' ++ NUL :: rest →
  (length done' + length out < length buf)%nat →
  ∃ rest', sprintf buf (length done') out = Ok ((done' ++ out) ++ NUL :: rest')
    ∧ length ((done' ++ out) ++ NUL :: rest') = length buf.
Proof.
  intros Hd Ho -> Hlen. unfold sprintf, put.
  rewrite decide_True by (rewrite length_app; simpl; lia).
  rewrite take_app_length.
  exists (drop (length done' + length (out ++ [NUL])) (done' ++ NUL :: rest)). split.
  - by rewrite <- !app_assoc.
  - rewrite !length_app in *. simpl in *. rewrite length_drop, length_app. simpl. lia.
Qed.

(** [sprintf] at the end of what a buffer holds so far. *)
Lemma sprintf_at done' rest out :
  (length done' + length out < length (done' ++ rest))%nat →
  ∃ rest', sprintf (done' ++ rest) (length done') out = Ok ((done' ++ out) ++ NUL :: rest') ∧
    length ((done' ++ out) ++ NUL :: rest') = length (done' ++ rest).
Proof.
  intros Hlen. unfold sprintf, put. rewrite decide_True by (rewrite length_app; simpl; lia).
  rewrite take_app_length.
  exists (drop (length done' + length (out ++ [NUL])) (done' ++ rest)). split.
  - by rewrite <- !app_assoc.
  - rewrite !length_app in *. simpl in *. rewrite length_drop, length_app. simpl. lia.
Qed.

Lemma sprintf_over buf off out :
  (length buf <= off + length out)%nat → sprintf buf off out = Oops OutOfBounds.
Proof.
  intros Hlen. unfold sprintf, put. rewrite decide_False; [done|].
  rewrite length_app. simpl. lia.
Qed.

(** ** Reading text: [fgets] and the [%d] of [sscanf] *)

(** [fgets(line, n + 1, f)] on the bytes left in [f]: the line read and what
    follows it, or [None] at the end of the file. *)
Fixpoint read_line (n : nat) (bytes : list ascii) : list ascii * list ascii :=
  match n, bytes with
  | O, _ | _, [] => ([], bytes)
  | S n', c :: bytes' =>
      if decide (c = newline) then ([c], bytes')
      else let '(l, rest) := read_line n' bytes' in (c :: l, rest)
  end.

Definition fgets (size : nat) (bytes : list ascii) : option (list ascii * list ascii) :=
  match bytes with [] => None | _ => Some (read_line (size - 1) bytes) end.

Definition is_space (c : ascii) : bool := (code c =? 32) || ((9 <=? code c) && (code c <=? 13)).

Fixpoint skip_space (s : list ascii) : list ascii :=
  match s with
  | c :: s' => if is_space c then skip_space s' else s
  | [] => []
  end.

Fixpoint take_digits (s : list ascii) : list ascii :=
  match s with
  | c :: s' => if is_digit c then c :: take_digits s' else []
  | [] => []
  end.

Definition scan_nat (s : list ascii) : option Z :=
  match take_digits s with [] => None | ds => Some (undec ds) end.

(** [sscanf(s, "%d", &x)]: the value stored, or [None] when nothing matches. *)
Definition scan_d (s : list ascii) : option Z :=
  match skip_space (c_str s) with
  | c :: s' =>
      if decide (c = ch "-") then (λ v, i32 (- v)) <$> scan_nat s'
      else if decide (c = ch "+") then i32 <$> scan_nat s'
      else i32 <$> scan_nat (c :: s')
  | [] => None
  end.

Lemma read_line_newline n l rest :
  newline ∉ l → (length l < n)%nat →
  read_line n (l ++ newline :: rest) = (l ++ [newline], rest).
Proof.
  revert n. induction l as [|c l IH]; intros [|n] Hl Hn; simpl in *; try lia.
  - done.
  - rewrite decide_False by set_solver. rewrite IH; [done|set_solver|lia].
Qed.

Lemma fgets_newline size l rest :
  newline ∉ l → (length l + 1 < size)%nat →
  fgets size (l ++ newline :: rest) = Some (l ++ [newline], rest).
Proof.
  intros Hl Hn. unfold fgets. rewrite read_line_newline by (done || lia). by destruct l.
Qed.

Lemma take_digits_app ds s :
  Forall (λ c, is_digit c = true) ds → take_digits (ds ++ s) = ds ++ take_digits s.
Proof. induction 1 as [|c ds Hc _ IH]; simpl; [done|]. by rewrite Hc, IH. Qed.

Lemma scan_nat_digits fuel n s :
  (0 < fuel)%nat → 0 <= n < 10 ^ Z.of_nat fuel →
  (∀ c, head s = Some c → is_digit c = false) →
  scan_nat (digits fuel n ++ s) = Some n.
Proof.
  intros Hf Hn Hs. unfold scan_nat.
  rewrite take_digits_app by (apply digits_all; lia).
  assert (take_digits s = []) as ->.
  { destruct s as [|c s]; simpl; [done|]. by rewrite Hs. }
  rewrite app_nil_r. destruct (digits fuel n) eqn:Hd; [by apply digits_nonempty in Hd|].
  rewrite <- Hd. by rewrite digits_value.
Qed.

Lemma is_digit_not_space c : is_digit c = true → is_space c = false.
Proof. unfold is_digit, is_space. lia. Qed.

(** [%d] reads back what [%d] printed. *)
Lemma scan_d_print n : is_i32 n → scan_d (fmt_d n ++ [newline]) = Some n.
Proof.
  intros Hn. unfold scan_d. rewrite c_str_id.
  2:{ intros [Hin|Hin]%elem_of_app; [by apply fmt_d_NUL in Hin|].
      by apply list_elem_of_singleton in Hin. }
  unfold fmt_d. rewrite i32_id by done. unfold is_i32, INT_MIN, INT_MAX in Hn.
  assert (10 ^ Z.of_nat 10 = 10000000000) as Hp by reflexivity.
  assert (∀ c, head [newline] = Some c → is_digit c = false) as Hnl by by intros c [= <-].
  destruct (n <? 0) eqn:Hneg; zbool.
  - simpl. rewrite scan_nat_digits by (done || lia).
    simpl. f_equal. rewrite Z.opp_involutive. by apply i32_id.
  - destruct (digits 10 n) as [|c s] eqn:Hd; [by apply digits_nonempty in Hd; [|lia]|].
    assert (is_digit c = true) as Hc.
    { pose proof (digits_all 10 n ltac:(lia)) as Hall. rewrite Hd in Hall. by inversion Hall. }
    simpl. rewrite is_digit_not_space by done.
    rewrite !decide_False by (intros ->; done).
    change (c :: s ++ [newline]) with ((c :: s) ++ [newline]). rewrite <- Hd.
    rewrite scan_nat_digits by (done || lia). simpl. f_equal. by apply i32_id.
Qed.
