(* ===== verification/Kernel.v ===== *)
(** * The kernel services the modules call

    The modules of src/ call the Linux kernel, which is not part of the
    repository.  Each service they rely on is a class: the operations are
    parameters of the models, and the laws state the documented behaviour the
    theorems use.  [Module Reference] gives every class a concrete instance, so
    that the models run and the laws are seen to be satisfiable.

    - [KList]: <linux/list.h>, an intrusive list seen as the sequence of its
      nodes;
    - [Allocator]: kmalloc, kzalloc and kmem_cache_alloc, which may fail;
    - [Kstrto]: kstrtoint, base 10;
    - [KConst]: error numbers, the page size and USER_HZ.

    The heap of typed blocks at the end gives C pointers their meaning: a
    dereference of NULL or of an address that holds no block is a fault. *)
From Stdlib Require Import Ascii String.
From stdpp Require Import base gmap sets list strings.
From Stdlib Require Import ZArith Lia.
From S2P Require Import Prelude CString.

Open Scope Z_scope.
Open Scope c_scope.

(** ** Interfaces *)

(** A [struct list_head]; nodes are named by the address of their container. *)
Class KList (L : Type) : Type := {
  INIT_LIST_HEAD : L;
  list_empty : L → bool;
  list_add_tail : Z → L → L;
  list_del : Z → L → L;
  (** the nodes [list_for_each_entry] and its [_safe] variant visit, in order *)
  list_nodes : L → list Z
}.

Class KListLaws (L : Type) `{KList L} : Prop := {
  nodes_init : list_nodes INIT_LIST_HEAD = [];
  nodes_empty : ∀ l, list_empty l = true ↔ list_nodes l = [];
  nodes_add_tail : ∀ a l, (a ∉ list_nodes l) →
    list_nodes (list_add_tail a l) = list_nodes l ++ [a];
  nodes_del : ∀ a l, NoDup (list_nodes l) → a ∈ list_nodes l →
    list_nodes (list_del a l) = filter (λ b, b ≠ a) (list_nodes l)
}.

(** Constants of the kernel headers. *)
Class KConst : Type := {
  EACCES : Z; ENOENT : Z; ENOMEM : Z; EOPNOTSUPP : Z;
  PAGE_SIZE : Z;
  USER_HZ : Z
}.

Class KConstLaws `{KConst} : Prop := {
  errno_pos : 0 < EACCES ∧ 0 < ENOENT ∧ 0 < ENOMEM ∧ 0 < EOPNOTSUPP;
  page_large : 4096 <= PAGE_SIZE <= 1048576;
  user_hz_pos : 0 < USER_HZ
}.

Definition NULL : Z := 0.

(** The allocator: the address of the [n]-th request made while the blocks
    [used] are live, or [None] when it fails. *)
Class Allocator : Type := {
  alloc_addr : nat → gset Z → option Z;
  (** what the bytes of the [n]-th request, of a given size, hold at first *)
  stale_bytes : nat → nat → list ascii
}.

Class AllocatorLaws `{KConst} `{Allocator} : Prop := {
  alloc_fresh : ∀ n used a, alloc_addr n used = Some a → (a ∉ used) ∧ PAGE_SIZE <= a;
  stale_length : ∀ n size, length (stale_bytes n size) = size
}.

(** [kstrtoint(s, 10, &r)]: a negative error number, or the value written to
    [r].  The documentation allows one newline before the terminating NUL. *)
Class Kstrto : Type := {
  kstrtoint : list ascii → Z + Z
}.

Class KstrtoLaws `{Kstrto} : Prop := {
  kstrtoint_print : ∀ n, is_i32 n → kstrtoint (fmt_d n) = inr n;
  kstrtoint_print_nl : ∀ n, is_i32 n → kstrtoint (fmt_d n ++ [newline]) = inr n;
  kstrtoint_range : ∀ s n, kstrtoint s = inr n → is_i32 n;
  kstrtoint_err : ∀ s e, kstrtoint s = inl e → e < 0
}.

(** The value [kstrtoint] leaves in a variable that held [old]. *)
Definition kstrtoint_into `{Kstrto} (s : list ascii) (old : Z) : Z :=
  match kstrtoint s with inl _ => old | inr v => v end.

Lemma alloc_not_null `{AllocatorLaws} `{!KConstLaws} n used a :
  alloc_addr n used = Some a → a ≠ NULL.
Proof.
  intros Ha. apply alloc_fresh in Ha as [_ Ha]. pose proof page_large. unfold NULL. lia.
Qed.

(** ** Heaps of typed blocks *)

Record heap (T : Type) : Type := mkHeap {
  blocks : gmap Z T;
  n_alloc : nat
}.
Arguments mkHeap {T}.
Arguments blocks {T}.
Arguments n_alloc {T}.

Definition empty_heap {T} : heap T := mkHeap ∅ 0.

(** A record of globals [S] with a heap of [T]. *)
Class HasHeap (S T : Type) : Type := {
  heap_of : S → heap T;
  with_heap : heap T → S → S;
  heap_of_with : ∀ h s, heap_of (with_heap h s) = h;
  with_heap_of : ∀ s, with_heap (heap_of s) s = s;
  with_heap_twice : ∀ h h' s, with_heap h (with_heap h' s) = with_heap h s
}.

Section heap_ops.
Context {S T : Type} `{!HasHeap S T} `{Allocator}.

Definition mem (s : S) : gmap Z T := blocks (heap_of s).
Definition set_mem (m : gmap Z T) (s : S) : S :=
  with_heap (mkHeap m (n_alloc (heap_of s))) s.

(** [*p] *)
Definition load (p : Z) : M S T := λ s,
  if p =? NULL then Oops NullDeref
  else match mem s !! p with
       | Some v => Ok (v, s)
       | None => Oops BadAccess
       end.

(** An assignment to fields of [*p]. *)
Definition update (p : Z) (f : T → T) : M S unit := λ s,
  if p =? NULL then Oops NullDeref
  else match mem s !! p with
       | Some v => Ok (tt, set_mem (<[p := f v]> (mem s)) s)
       | None => Oops BadAccess
       end.

(** A new block with the content [v] ([kmalloc] leaves what was there), or
    NULL. *)
Definition kmalloc (v : T) : M S Z := λ s,
  let n := n_alloc (heap_of s) in
  match alloc_addr n (dom (mem s)) with
  | Some p => Ok (p, with_heap (mkHeap (<[p := v]> (mem s)) (Datatypes.S n)) s)
  | None => Ok (NULL, with_heap (mkHeap (mem s) (Datatypes.S n)) s)
  end.

(** A byte buffer of [size] bytes, used inside one function: its address and
    its first content.  It is no block of the typed heap. *)
Definition kmalloc_buf (size : nat) : M S (Z * list ascii) := λ s,
  let n := n_alloc (heap_of s) in
  let p := default NULL (alloc_addr n (dom (mem s))) in
  Ok ((p, stale_bytes n size), with_heap (mkHeap (mem s) (Datatypes.S n)) s).

Definition kfree (p : Z) : M S unit := λ s,
  if p =? NULL then Ok (tt, s)
  else match mem s !! p with
       | Some _ => Ok (tt, set_mem (delete p (mem s)) s)
       | None => Oops BadAccess
       end.
End heap_ops.
Arguments mem : simpl never.
Arguments set_mem : simpl never.

Section heap_rules.
Context {S T : Type} `{!HasHeap S T} `{Allocator}.
Implicit Types (s : S) (v : T) (E : fault → Prop).

Lemma mem_set_mem m s : mem (set_mem m s) = m.
Proof. unfold mem, set_mem. by rewrite heap_of_with. Qed.

Lemma load_run p v s : p ≠ NULL → mem s !! p = Some v → load p s = Ok (v, s).
Proof. unfold load. intros Hp Hv. by rewrite (proj2 (Z.eqb_neq p NULL)), Hv by done. Qed.

Lemma wp_load p v (Q : T → S → Prop) E s :
  p ≠ NULL → mem s !! p = Some v → Q v s → wp (load p) Q E s.
Proof.
  unfold wp, load. intros Hp Hv HQ.
  by rewrite (proj2 (Z.eqb_neq p NULL)), Hv by done.
Qed.

Lemma wp_load_any p (Q : T → S → Prop) s :
  (∀ v, p ≠ NULL → mem s !! p = Some v → Q v s) → wp (load p) Q any s.
Proof. unfold wp, load, any. intros HQ. cases; naive_solver. Qed.

Lemma wp_update p v f (Q : unit → S → Prop) E s :
  p ≠ NULL → mem s !! p = Some v → Q tt (set_mem (<[p := f v]> (mem s)) s) →
  wp (update p f) Q E s.
Proof.
  unfold wp, update. intros Hp Hv HQ.
  by rewrite (proj2 (Z.eqb_neq p NULL)), Hv by done.
Qed.

Lemma wp_update_any p f (Q : unit → S → Prop) s :
  (∀ v, p ≠ NULL → mem s !! p = Some v → Q tt (set_mem (<[p := f v]> (mem s)) s)) →
  wp (update p f) Q any s.
Proof. unfold wp, update, any. intros HQ. cases; naive_solver. Qed.

Lemma wp_kfree p v (Q : unit → S → Prop) E s :
  p ≠ NULL → mem s !! p = Some v → Q tt (set_mem (delete p (mem s)) s) →
  wp (kfree p) Q E s.
Proof.
  unfold wp, kfree. intros Hp Hv HQ.
  by rewrite (proj2 (Z.eqb_neq p NULL)), Hv by done.
Qed.

Lemma wp_kmalloc_buf `{!KConst, !AllocatorLaws} size (Q : Z * list ascii → S → Prop) E s :
  (∀ p buf s', length buf = size → mem s' = mem s → (∃ h, s' = with_heap h s) →
     Q (p, buf) s') →
  wp (kmalloc_buf size) Q E s.
Proof.
  unfold wp, kmalloc_buf. intros HQ.
  apply HQ; [apply stale_length | | eauto]. unfold mem. by rewrite heap_of_with.
Qed.

Lemma wp_kmalloc `{!KConst, !KConstLaws, !AllocatorLaws} v (Q : Z → S → Prop) E s :
  (∀ s', mem s' = mem s → (∃ h, s' = with_heap h s) → Q NULL s') →
  (∀ p s', p ≠ NULL → p ∉ dom (mem s) → mem s' = <[p := v]> (mem s) →
     (∃ h, s' = with_heap h s) → Q p s') →
  wp (kmalloc v) Q E s.
Proof.
  unfold wp, kmalloc. intros Hnull Hsome.
  destruct (alloc_addr _ _) as [p|] eqn:Ha.
  - apply Hsome; [by eapply alloc_not_null | by eapply alloc_fresh | | eauto].
    unfold mem. by rewrite heap_of_with.
  - apply Hnull; [|eauto]. unfold mem. by rewrite heap_of_with.
Qed.
End heap_rules.

(** Steps over loads and updates of blocks that are known to be there; [norm]
    brings heap lookups in the goal to map lookups. *)
Ltac wp_heap norm :=
  lazymatch goal with
  | |- wp (load _) _ _ _ => eapply wp_load; [done | norm; by simplify_map_eq | ]
  | |- wp (update _ _) _ _ _ => eapply wp_update; [done | norm; by simplify_map_eq | ]
  | |- wp (kfree _) _ _ _ => eapply wp_kfree; [done | norm; by simplify_map_eq | ]
  end.

(** ** A reference kernel *)

(** Concrete instances of the services, for running the models.  The list is a
    sequence; the allocator hands out addresses above all live ones and fails
    after [budget] requests; [kstrtoint] is the documented parser. *)
Module Reference.

#[export] Instance ref_klist : KList (list Z) := {
  INIT_LIST_HEAD := [];
  list_empty l := match l with [] => true | _ => false end;
  list_add_tail a l := l ++ [a];
  list_del a l := filter (λ b, b ≠ a) l;
  list_nodes l := l
}.

#[export] Instance ref_klist_laws : KListLaws (list Z).
Proof. split; try done. by intros []. Qed.

#[export] Instance ref_const : KConst := {
  EACCES := 13; ENOENT := 2; ENOMEM := 12; EOPNOTSUPP := 95;
  PAGE_SIZE := 4096;
  USER_HZ := 100
}.

#[export] Instance ref_const_laws : KConstLaws.
Proof. split; simpl; lia. Qed.

Definition top (used : gset Z) : Z := set_fold Z.max 4096 used.

Definition ref_alloc (budget : nat) : Allocator := {|
  alloc_addr n used := if (n <? budget)%nat then Some (top used + 1) else None;
  stale_bytes _ size := replicate size (ch "?")
|}.

Lemma top_ge used : 4096 <= top used.
Proof.
  unfold top. apply (set_fold_ind_L (λ r _, 4096 <= r)); intros; lia.
Qed.

Lemma top_bound used a : a ∈ used → a <= top used.
Proof.
  unfold top. revert a.
  apply (set_fold_ind_L (λ r X, ∀ a, a ∈ X → a <= r)); [set_solver|].
  intros x X r _ IH a [->%elem_of_singleton|Ha]%elem_of_union; [lia|].
  apply IH in Ha. lia.
Qed.

Lemma ref_alloc_laws budget : @AllocatorLaws ref_const (ref_alloc budget).
Proof.
  split; [|intros; apply length_replicate].
  intros n used a. simpl. case_match; [|done]. intros [= <-]. split.
  - intros Hin%top_bound. lia.
  - pose proof (top_ge used). lia.
Qed.

#[export] Instance alloc_plenty : Allocator := ref_alloc 4000.
#[export] Instance alloc_plenty_laws : AllocatorLaws.
Proof. apply ref_alloc_laws. Qed.

(** An allocator that does not fail. *)
Definition alloc_always : Allocator := {|
  alloc_addr _ used := Some (top used + 1);
  stale_bytes _ size := replicate size (ch "?")
|}.

Lemma alloc_always_laws : @AllocatorLaws ref_const alloc_always.
Proof.
  split; [|intros; apply length_replicate]. intros n used a [= <-]. split.
  - intros Hin%top_bound. lia.
  - pose proof (top_ge used). simpl. lia.
Qed.

(** *** kstrtoint *)

Definition strip_newline (s : list ascii) : list ascii :=
  match last s with
  | Some c => if decide (c = newline) then take (length s - 1) s else s
  | None => s
  end.

Definition parse_digits (s : list ascii) : option Z :=
  match s with
  | [] => None
  | _ => if forallb is_digit s then Some (undec s) else None
  end.

Definition parse_int (s : list ascii) : option Z :=
  match s with
  | c :: s' =>
      if decide (c = ch "-") then Z.opp <$> parse_digits s'
      else if decide (c = ch "+") then parse_digits s'
      else parse_digits s
  | [] => None
  end.

#[export] Instance ref_kstrto : Kstrto := {
  kstrtoint s :=
    match parse_int (strip_newline s) with
    | None => inl (-22)
    | Some n => if (INT_MIN <=? n) && (n <=? INT_MAX) then inr n else inl (-34)
    end
}.

Lemma parse_digits_digits fuel n :
  (0 < fuel)%nat → 0 <= n < 10 ^ Z.of_nat fuel → parse_digits (digits fuel n) = Some n.
Proof.
  intros Hf Hn. unfold parse_digits.
  destruct (digits fuel n) eqn:Hd; [by apply digits_nonempty in Hd|].
  rewrite <- Hd.
  assert (forallb is_digit (digits fuel n) = true) as ->.
  { apply forallb_forall. intros c Hc.
    assert (Forall (λ c, is_digit c = true) (digits fuel n)) as Hall by (apply digits_all; lia).
    rewrite Forall_forall in Hall. apply Hall. by apply list_elem_of_In. }
  by rewrite digits_value.
Qed.

Lemma digits_head_not fuel n c s :
  0 <= n → digits fuel n = c :: s → is_digit c = true.
Proof.
  intros Hn Hd. pose proof (digits_all fuel n Hn) as Hall.
  rewrite Hd in Hall. by inversion Hall.
Qed.

Lemma parse_int_print n : is_i32 n → parse_int (fmt_d n) = Some n.
Proof.
  intros Hn. unfold fmt_d. rewrite i32_id by done.
  unfold is_i32, INT_MIN, INT_MAX in Hn.
  assert (10 ^ Z.of_nat 10 = 10000000000) as Hp by reflexivity.
  case_match; zbool.
  - unfold parse_int. rewrite decide_True by done.
    rewrite parse_digits_digits by lia. simpl. f_equal. lia.
  - destruct (digits 10 n) as [|c s] eqn:Hd; [by apply digits_nonempty in Hd; [|lia]|].
    pose proof (digits_head_not 10 n c s ltac:(lia) Hd) as Hc.
    unfold parse_int. rewrite !decide_False by (intros ->; done).
    rewrite <- Hd. apply parse_digits_digits; lia.
Qed.

Lemma strip_newline_none s : newline ∉ s → strip_newline s = s.
Proof.
  intros Hs. unfold strip_newline. destruct (last s) as [c|] eqn:Hl; [|done].
  rewrite decide_False; [done|]. intros ->. by apply last_Some_elem_of in Hl.
Qed.

Lemma strip_newline_one s : strip_newline (s ++ [newline]) = s.
Proof.
  unfold strip_newline. rewrite last_snoc, decide_True by done.
  rewrite length_app. simpl. rewrite take_app_le, take_ge by (simpl; lia). done.
Qed.

#[export] Instance ref_kstrto_laws : KstrtoLaws.
Proof.
  assert (∀ n, is_i32 n → (INT_MIN <=? n) && (n <=? INT_MAX) = true) as Hr.
  { unfold is_i32. intros. lia. }
  split.
  - intros n Hn. simpl. rewrite strip_newline_none by (by apply fmt_d_not_in).
    by rewrite parse_int_print, Hr.
  - intros n Hn. simpl. by rewrite strip_newline_one, parse_int_print, Hr.
  - intros s n. simpl. unfold is_i32. repeat case_match; naive_solver lia.
  - intros s e. simpl. repeat case_match; naive_solver lia.
Qed.
End Reference.
