(* ===== verification/Mp1.v ===== *)
(** * MP1: the CPU time monitor module

    src/MP1/mp1.c and src/MP1/mp1_given.h, function by function, over a record
    of the module's globals.  Nodes of the list and work items share the kernel
    heap.  The spin lock is a flag: taking it while it is held and never released
    is the fault [Deadlock]. *)
From Stdlib Require Import Ascii String.
From stdpp Require Import base gmap sets list strings.
From Stdlib Require Import ZArith Lia.
From S2P Require Import Prelude CString Kernel.

Open Scope Z_scope.
Open Scope c_scope.

(** The kernel's clock rate. *)
Class Clock : Type := {
  msecs_to_jiffies : Z → Z
}.

Section mp1.
Context {L : Type} `{!KList L, !KConst, !Allocator, !Kstrto, !Clock}.

(** ** Data *)

Record proc_cpu : Type := mkProc {
  cpu_usage : Z;
  pid : Z
}.

(** What the module allocates. *)
Inductive block : Type :=
  | NODE (p : proc_cpu)
  | WORK.

Inductive kcall : Type :=
  | ProcCreate (parent : Z)
  | ProcRemove (entry : Z)
  | DestroyWorkqueue (q : Z).

(** The globals of mp1.c ([tm] is the expiry of a pending timer); then what the
    module sees of the kernel: the heap, the items on the workqueue, the clock,
    the pid table and the [utime] of every task_struct. *)
Record mp1 : Type := mkMp1 {
  entry : Z;
  list : L;
  size : Z;
  tm : option Z;
  wq : Z;
  lock : bool;
  slab : heap block;
  queue : Datatypes.list Z;
  jiffies : Z;
  pids : gmap Z Z;
  tasks : gmap Z Z;
  calls : Datatypes.list kcall
}.

Definition set_entry x s := mkMp1 x (list s) (size s) (tm s) (wq s) (lock s) (slab s) (queue s) (jiffies s) (pids s) (tasks s) (calls s).
Definition set_list x s := mkMp1 (entry s) x (size s) (tm s) (wq s) (lock s) (slab s) (queue s) (jiffies s) (pids s) (tasks s) (calls s).
Definition set_size x s := mkMp1 (entry s) (list s) x (tm s) (wq s) (lock s) (slab s) (queue s) (jiffies s) (pids s) (tasks s) (calls s).
Definition set_tm x s := mkMp1 (entry s) (list s) (size s) x (wq s) (lock s) (slab s) (queue s) (jiffies s) (pids s) (tasks s) (calls s).
Definition set_wq x s := mkMp1 (entry s) (list s) (size s) (tm s) x (lock s) (slab s) (queue s) (jiffies s) (pids s) (tasks s) (calls s).
Definition set_lock x s := mkMp1 (entry s) (list s) (size s) (tm s) (wq s) x (slab s) (queue s) (jiffies s) (pids s) (tasks s) (calls s).
Definition set_slab x s := mkMp1 (entry s) (list s) (size s) (tm s) (wq s) (lock s) x (queue s) (jiffies s) (pids s) (tasks s) (calls s).
Definition set_queue x s := mkMp1 (entry s) (list s) (size s) (tm s) (wq s) (lock s) (slab s) x (jiffies s) (pids s) (tasks s) (calls s).
Definition set_kernel j p t s := mkMp1 (entry s) (list s) (size s) (tm s) (wq s) (lock s) (slab s) (queue s) j p t (calls s).
Definition log c s := mkMp1 (entry s) (list s) (size s) (tm s) (wq s) (lock s) (slab s) (queue s) (jiffies s) (pids s) (tasks s) (calls s ++ [c]).

#[export, refine] Instance mp1_heap : HasHeap mp1 block := {
  heap_of := slab; with_heap := set_slab }.
Proof. all: intros; try done. by destruct s. Defined.

(** ** The kernel *)

Definition spin_lock : M mp1 unit :=
  let! held := gets lock in
  if held : bool then fail Deadlock else modify (set_lock true).
Definition spin_unlock : M mp1 unit := modify (set_lock false).

(** [*p] of a [struct proc_cpu]. *)
Definition load_node (p : Z) : M mp1 proc_cpu :=
  let! b := load p in
  match b with NODE v => ret v | WORK => fail BadAccess end.
Definition update_node (p : Z) (f : proc_cpu → proc_cpu) : M mp1 unit :=
  let! v := load_node p in update p (λ _, NODE (f v)).

(** List insertion and removal write to the node of the container [p]. *)
Definition list_add_tail_to (p : Z) : M mp1 unit :=
  let! _ := load_node p in modify (λ s, set_list (list_add_tail p (list s)) s).
Definition list_del_from (p : Z) : M mp1 unit :=
  let! _ := load_node p in modify (λ s, set_list (list_del p (list s)) s).

Definition mod_timer (expires : Z) : M mp1 unit := modify (set_tm (Some expires)).
Definition del_timer_sync : M mp1 unit := modify (set_tm None).

(** A new item is not yet on the queue. *)
Definition queue_work (w : Z) : M mp1 unit :=
  let! s := get in
  if wq s =? NULL then fail NullDeref else modify (set_queue (queue s ++ [w])).

(** ** mp1_given.h *)

Definition find_task_by_pid (nr : Z) : M mp1 Z :=
  let! s := get in ret (default NULL (pids s !! nr)).

(** [f] stores the CPU time in the caller's variable. *)
Definition get_cpu_use (pid : Z) (f : Z → M mp1 unit) : M mp1 Z :=
  let! task := find_task_by_pid pid in
  if task =? NULL then ret (-1)
  else
    let! s := get in
    match tasks s !! task with
    | None => fail BadAccess
    | Some utime => f utime ;! ret 0
    end.

(** ** mp1.c *)

Definition errinfo : Datatypes.list ascii := str "No PID is regiested :(" ++ [newline].

Definition buffsize : nat := 2048.

Definition proc_line (v : proc_cpu) : Datatypes.list ascii :=
  str "PID" ++ fmt_d (pid v) ++ str ": " ++ fmt_lu (cpu_usage v) ++ str " ms " ++ [newline].

(** The bytes handed to [copy_to_user], the value returned and the new file
    offset. *)
Definition myread (offset : Z) : M mp1 (Datatypes.list ascii * Z * Z) :=
  let! s := get in
  let '(copied, offset) :=
    if size s =? 0 then (errinfo ++ [NUL], offset + (strlen errinfo + 1)) else ([], offset) in
  if 0 <? offset then ret (copied, 0, offset)
  else
    let! (kbuf_p, kbuf) := kmalloc_buf buffsize in
    spin_lock ;!
    let! s := get in
    let! (shift, kbuf) :=
      (if list_empty (list s) then ret (0%nat, kbuf)
       else
         fold_each (list_nodes (list s)) (0%nat, kbuf) (λ '(shift, kbuf) j,
           let! v := load_node j in
           (if kbuf_p =? NULL then fail NullDeref else ret tt) ;!
           let! kbuf := lift (sprintf kbuf shift (proc_line v)) in
           ret (length (c_str kbuf), kbuf))) in
    (if kbuf_p =? NULL then fail NullDeref else ret tt) ;!
    spin_unlock ;!
    ret (copied ++ take (shift + 1) kbuf, Z.of_nat shift + 1, offset + Z.of_nat shift).

(** What the memory of a new node holds. *)
Variable stale : proc_cpu.

(** [ubuf] is what [copy_from_user] delivers, [len] bytes. *)
Definition mywrite (ubuf : Datatypes.list ascii) : M mp1 Z :=
  let kbuf := ubuf ++ [NUL] in
  let len := Z.of_nat (length ubuf) in
  match kstrtoint (c_str kbuf) with
  | inl err => ret err
  | inr curr_pid =>
      let! newnode := kmalloc (NODE stale) in
      update_node newnode (λ v, mkProc (cpu_usage v) curr_pid) ;!
      update_node newnode (λ v, mkProc 0 (pid v)) ;!
      spin_lock ;!
      list_add_tail_to newnode ;!
      modify (λ s, set_size (i32 (size s + 1)) s) ;!
      spin_unlock ;!
      ret len
  end.

(** [while (!list_empty(curr_head))]: a node is freed in every turn. *)
Fixpoint freell (fuel : nat) : M mp1 unit :=
  match fuel with
  | O => ret tt
  | Datatypes.S fuel' =>
      let! s := get in
      match list_nodes (list s) with
      | [] => ret tt
      | curr :: _ =>
          load_node curr ;!
          list_del_from curr ;!
          kfree curr ;!
          freell fuel'
      end
  end.

(** One node in the loop of the callback. *)
Definition refresh_node (curr : Z) : M mp1 unit :=
  let! v := load_node curr in
  let! r := get_cpu_use (pid v) (λ utime, update_node curr (λ v, mkProc utime (pid v))) in
  if r =? 0 then ret tt
  else
    list_del_from curr ;!
    kfree curr ;!
    modify (λ s, set_size (i32 (size s - 1)) s).

Definition wq_callback (work : Z) : M mp1 unit :=
  spin_lock ;!
  let! s := get in
  for_each (list_nodes (list s)) refresh_node ;!
  spin_unlock ;!
  kfree work.

(** Runs what is queued, in order, and waits for it. *)
Definition destroy_workqueue : M mp1 unit :=
  let! s := get in
  modify (set_queue []) ;!
  for_each (queue s) wq_callback ;!
  modify (log (DestroyWorkqueue (wq s))).

Definition tm_callback : M mp1 unit :=
  let! s := get in
  mod_timer (u64 (jiffies s + msecs_to_jiffies 5000)) ;!
  let! work := kmalloc WORK in
  if work =? NULL then ret tt else queue_work work.

(** [d] and [q] are what proc_mkdir and create_workqueue return. *)
Definition mp1_init (d q : Z) : M mp1 Z :=
  modify (set_size 0) ;!
  modify (set_lock false) ;!
  modify (set_entry d) ;!
  modify (log (ProcCreate d)) ;!
  if d =? NULL then
    modify (log (ProcRemove d)) ;! ret (- ENOMEM)
  else
    modify (set_list INIT_LIST_HEAD) ;!
    modify (set_tm None) ;!
    let! s := get in
    mod_timer (u64 (jiffies s + msecs_to_jiffies 5000)) ;!
    modify (set_wq q) ;!
    ret 0.

Definition mp1_exit : M mp1 unit :=
  del_timer_sync ;!
  spin_lock ;!
  let! s := get in
  modify (log (ProcRemove (entry s))) ;!
  destroy_workqueue ;!
  let! s := get in
  freell (length (list_nodes (list s))) ;!
  spin_unlock.
End mp1.
