(* ===== verification/Mp1State.v ===== *)
(** * MP1: the state of the monitor

    The invariant of the globals of src/MP1/mp1.c, the registry they stand for
    (pid and CPU time in order of registration), and what each operation does to
    both. *)
From Stdlib Require Import Ascii String.
From stdpp Require Import base gmap sets list strings.
From Stdlib Require Import ZArith Lia.
From S2P Require Import Prelude CString Kernel Mp1.

Open Scope Z_scope.
Open Scope c_scope.

Definition nodes {L} `{!KList L} (s : @mp1 L) : Datatypes.list Z := list_nodes (list s).

(** ** The registry *)

Definition registry_t : Type := Datatypes.list (Z * Z).

Definition entry_of (m : gmap Z block) (a : Z) : option (Z * Z) :=
  match m !! a with Some (NODE v) => Some (pid v, cpu_usage v) | _ => None end.

Definition entries (m : gmap Z block) (l : Datatypes.list Z) : registry_t := omap (entry_of m) l.

(** The update of the registry: the CPU time of every process that is alive;
    the others are dropped. *)
Definition refresh (cpu : Z → option Z) (r : registry_t) : registry_t :=
  omap (λ e, (λ u, (e.1, u)) <$> cpu e.1) r.

Lemma omap_app_list {A B} (f : A → option B) (l k : Datatypes.list A) :
  omap f (l ++ k) = omap f l ++ omap f k.
Proof. induction l as [|x l IH]; [done|]. cbn. destruct (f x); cbn; by rewrite IH. Qed.

Lemma omap_ext_in {A B} (f g : A → option B) (l : Datatypes.list A) :
  (∀ x, x ∈ l → f x = g x) → omap f l = omap g l.
Proof.
  induction l as [|x l IH]; intros Hfg; [done|]. cbn.
  rewrite (Hfg x) by (apply elem_of_cons; by left).
  rewrite IH by (intros y Hy; apply Hfg, elem_of_cons; by right). done.
Qed.

Lemma entries_same m m' l :
  (∀ a, a ∈ l → m !! a = m' !! a) → entries m l = entries m' l.
Proof. intros Hm. apply omap_ext_in. intros a Ha. unfold entry_of. by rewrite Hm. Qed.

Lemma refresh_app cpu r r' : refresh cpu (r ++ r') = refresh cpu r ++ refresh cpu r'.
Proof. apply omap_app_list. Qed.

Section state.
Context {L : Type} `{!KList L, !KConst, !Allocator, !Kstrto, !Clock}.
Context `{!KListLaws L, !KConstLaws, !AllocatorLaws, !KstrtoLaws}.
Implicit Types s : @mp1 L.

Definition registry s : registry_t := entries (mem s) (nodes s).

(** The CPU time of a live process. *)
Definition cpu_time s (p : Z) : option Z :=
  match pids s !! p with Some t => tasks s !! t | None => None end.

Definition kernel_ok s : Prop :=
  ∀ p t, pids s !! p = Some t → t ≠ NULL ∧ is_Some (tasks s !! t).

(** [own] are the work items that are queued or being run: they and the nodes
    of the list are the blocks allocated, each one once. *)
Record wf (own : Datatypes.list Z) s : Prop := mkWf {
  wf_nodup : NoDup (nodes s ++ own);
  wf_node : ∀ a, a ∈ nodes s → ∃ v, mem s !! a = Some (NODE v);
  wf_work : ∀ a, a ∈ own → mem s !! a = Some WORK;
  wf_owned : ∀ a, is_Some (mem s !! a) → a ∈ nodes s ++ own;
  wf_null : mem s !! NULL = None;
  wf_size : size s = i32 (Z.of_nat (length (nodes s)));
  wf_kernel : kernel_ok s
}.

(** What the operations on the list leave alone. *)
Definition frame s :=
  (entry s, tm s, wq s, queue s, (jiffies s, pids s, tasks s), calls s).

Lemma registry_wf_ext own s s' :
  nodes s' = nodes s → mem s' = mem s → size s' = size s → pids s' = pids s → tasks s' = tasks s →
  wf own s → wf own s'.
Proof.
  intros Hn Hm Hs Hp Ht [W1 W2 W3 W4 W5 W6 W7].
  split; rewrite ?Hn, ?Hm, ?Hs; try done. intros p t. rewrite Hp, Ht. apply W7.
Qed.

Lemma frame_cpu s s' : frame s' = frame s → cpu_time s' = cpu_time s.
Proof. unfold frame, cpu_time. by intros [= _ _ _ _ _ -> -> _]. Qed.

Lemma wf_not_null own s a : wf own s → a ∈ nodes s ++ own → a ≠ NULL.
Proof.
  intros Hw Ha ->. pose proof (wf_null own s Hw) as Hn.
  apply elem_of_app in Ha as [Ha|Ha].
  - destruct (wf_node own s Hw _ Ha) as [v Hv]. congruence.
  - pose proof (wf_work own s Hw _ Ha). congruence.
Qed.

Lemma nodes_add a s :
  a ∉ nodes s → nodes (set_list (list_add_tail a (list s)) s) = nodes s ++ [a].
Proof. apply nodes_add_tail. Qed.

Lemma nodes_remove own s a :
  wf own s → a ∈ nodes s →
  nodes (set_list (list_del a (list s)) s) = filter (λ b, b ≠ a) (nodes s).
Proof.
  intros Hw Ha. apply nodes_del; [|done]. pose proof (wf_nodup own s Hw) as Hnd.
  by apply NoDup_app in Hnd as (? & _).
Qed.

(** ** Heap accesses *)

Lemma load_node_run a v s :
  a ≠ NULL → mem s !! a = Some (NODE v) → load_node a s = Ok (v, s).
Proof. intros Ha Hv. unfold load_node, bind. by rewrite (load_run a (NODE v)). Qed.

Lemma update_node_run a f v s :
  a ≠ NULL → mem s !! a = Some (NODE v) →
  update_node a f s = Ok (tt, set_mem (<[a := NODE (f v)]> (mem s)) s).
Proof.
  intros Ha Hv. unfold update_node, bind. rewrite (load_node_run a v) by done.
  unfold update. by rewrite (proj2 (Z.eqb_neq a NULL) Ha), Hv.
Qed.

Lemma kfree_run a b s :
  a ≠ NULL → mem s !! a = Some b → kfree a s = Ok (tt, set_mem (delete a (mem s)) s).
Proof. intros Ha Hb. unfold kfree. by rewrite (proj2 (Z.eqb_neq a NULL) Ha), Hb. Qed.

Lemma list_del_run a v s :
  a ≠ NULL → mem s !! a = Some (NODE v) →
  list_del_from a s = Ok (tt, set_list (list_del a (list s)) s).
Proof. intros Ha Hv. unfold list_del_from, bind. by rewrite (load_node_run a v). Qed.

Lemma mp1_cpu_use_dead s p f :
  kernel_ok s → cpu_time s p = None → get_cpu_use p f s = Ok (-1, s).
Proof.
  intros Hk Hc. unfold cpu_time in Hc. unfold get_cpu_use, find_task_by_pid, bind, get, ret.
  destruct (pids s !! p) as [t|] eqn:Hp; [|done].
  destruct (Hk p t Hp) as [_ [u Hu]]. congruence.
Qed.

Lemma mp1_cpu_use_live s p f u s' :
  kernel_ok s → cpu_time s p = Some u → f u s = Ok (tt, s') → get_cpu_use p f s = Ok (0, s').
Proof.
  intros Hk Hc Hf. unfold cpu_time in Hc. unfold get_cpu_use, find_task_by_pid, bind, get, ret.
  destruct (pids s !! p) as [t|] eqn:Hp; [|done]. destruct (Hk p t Hp) as [Ht _].
  simpl. by rewrite (proj2 (Z.eqb_neq t NULL) Ht), Hc, Hf.
Qed.

(** ** The callback of the work *)

Definition removed (a : Z) s : @mp1 L :=
  let s1 := set_list (list_del a (list s)) s in
  set_size (i32 (size s - 1)) (set_mem (delete a (mem s)) s1).

Definition refreshed (a : Z) s : @mp1 L :=
  match mem s !! a with
  | Some (NODE v) =>
      match cpu_time s (pid v) with
      | Some u => set_mem (<[a := NODE (mkProc u (pid v))]> (mem s)) s
      | None => removed a s
      end
  | _ => s
  end.

Lemma refresh_node_run own s a :
  wf own s → a ∈ nodes s → refresh_node a s = Ok (tt, refreshed a s).
Proof.
  intros Hw Ha. destruct (wf_node own s Hw a Ha) as [v Hv].
  assert (a ≠ NULL) as Hnn by (eapply wf_not_null; [done|apply elem_of_app; by left]).
  pose proof (wf_kernel own s Hw) as Hk.
  unfold refresh_node, refreshed. rewrite Hv.
  unfold bind at 1. rewrite (load_node_run a v) by done. unfold bind at 1.
  destruct (cpu_time s (pid v)) as [u|] eqn:Hc.
  - rewrite (mp1_cpu_use_live s (pid v) _ u (set_mem (<[a := NODE (mkProc u (pid v))]> (mem s)) s));
      [done..|]. by rewrite (update_node_run a _ v).
  - rewrite mp1_cpu_use_dead by done. cbn -[kfree set_mem].
    unfold bind. rewrite (list_del_run a v) by done.
    rewrite (kfree_run a (NODE v)) by done. done.
Qed.

Lemma mem_removed a s : mem (removed a s) = delete a (mem s).
Proof. done. Qed.

Lemma removed_wf own s a : wf own s → a ∈ nodes s → wf own (removed a s).
Proof.
  intros Hw Ha. pose proof (wf_nodup own s Hw) as Hnd.
  apply NoDup_app in Hnd as (Hn1 & Hdisj & Hn2).
  assert (nodes (removed a s) = filter (λ b, b ≠ a) (nodes s)) as Hn
    by by apply (nodes_remove own).
  split; rewrite ?Hn, ?mem_removed.
  - apply NoDup_app. split_and!; [by apply NoDup_filter| |done].
    intros b [_ Hb]%list_elem_of_filter. by apply Hdisj.
  - intros b [Hne Hb]%list_elem_of_filter. rewrite lookup_delete_ne by done. by apply (wf_node own).
  - intros b Hb. rewrite lookup_delete_ne; [by apply (wf_work own)|].
    intros <-. by apply (Hdisj a).
  - intros b [w Hb]. apply lookup_delete_Some in Hb as [Hne Hb].
    assert (b ∈ nodes s ++ own) as Hin by (apply (wf_owned own s Hw); by exists w).
    apply elem_of_app in Hin as [Hin|Hin]; apply elem_of_app; [left|by right].
    by apply list_elem_of_filter.
  - apply lookup_delete_None. right. apply Hw.
  - change (size (removed a s)) with (i32 (size s - 1)). rewrite (wf_size own s Hw).
    apply list_elem_of_split in Ha as (pre & post & Hl).
    rewrite Hl in Hn1 |- *. apply NoDup_app in Hn1 as (_ & Hd & [Hp _]%NoDup_cons).
    rewrite filter_app, filter_cons_False by naive_solver.
    rewrite !filter_not_in by (try done; intros Hin; by apply (Hd a Hin), elem_of_cons; left).
    rewrite !length_app. cbn [length]. unfold i32. f_equal.
    
    replace (Z.of_nat (length pre + Datatypes.S (length post)) + 2 ^ 31)
      with (Z.of_nat (length pre + length post) + 1 + 2 ^ 31) by lia.
    set (x := Z.of_nat (length pre + length post)).
    replace ((x + 1 + 2 ^ 31) mod 2 ^ 32 - 2 ^ 31 - 1 + 2 ^ 31)
      with ((x + 1 + 2 ^ 31) mod 2 ^ 32 - 1) by lia.
    rewrite Zminus_mod_idemp_l. f_equal. lia.
  - exact (wf_kernel own s Hw).
Qed.

Lemma usage_wf own s a v u :
  wf own s → a ∈ nodes s → wf own (set_mem (<[a := NODE (mkProc u v)]> (mem s)) s).
Proof.
  intros Hw Ha. set (s' := set_mem _ s).
  assert (nodes s' = nodes s) as Hn by done.
  assert (mem s' = <[a := NODE (mkProc u v)]> (mem s)) as Hm by done.
  pose proof (wf_nodup own s Hw) as Hnd. apply NoDup_app in Hnd as (_ & Hdisj & _).
  split; rewrite ?Hn, ?Hm; try apply Hw.
  - intros b Hb. rewrite lookup_insert. case_decide; [by eexists|by apply (wf_node own)].
  - intros b Hb. rewrite lookup_insert_ne; [by apply (wf_work own)|].
    intros <-. by apply (Hdisj a).
  - intros b [w Hb]. apply lookup_insert_Some in Hb as [[<- _]|[_ Hb]];
      [apply elem_of_app; by left|]. apply (wf_owned own s Hw). by exists w.
  - rewrite lookup_insert_ne; [apply Hw|].
    eapply wf_not_null; [done|apply elem_of_app; by left].
Qed.

Lemma refreshed_wf own s a : wf own s → a ∈ nodes s → wf own (refreshed a s).
Proof.
  intros Hw Ha. destruct (wf_node own s Hw a Ha) as [v Hv]. unfold refreshed. rewrite Hv.
  destruct (cpu_time s (pid v)); [by apply usage_wf|by apply removed_wf].
Qed.

Lemma refreshed_frame a s :
  frame (refreshed a s) = frame s ∧ lock (refreshed a s) = lock s.
Proof. unfold refreshed. by repeat case_match. Qed.

Definition refresh_all (l : Datatypes.list Z) s : @mp1 L := foldl (λ s a, refreshed a s) s l.

(** What one turn makes of the list and of the entries: the node stays with its
    new time, or goes. *)
Lemma refreshed_other s a b : b ≠ a → mem (refreshed a s) !! b = mem s !! b.
Proof.
  intros Hb. unfold refreshed. destruct (mem s !! a) as [[v|]|]; try done.
  destruct (cpu_time s (pid v)).
  - by rewrite mem_set_mem, lookup_insert_ne.
  - by rewrite mem_removed, lookup_delete_ne.
Qed.

Lemma refreshed_entries s a l : a ∉ l → entries (mem (refreshed a s)) l = entries (mem s) l.
Proof.
  intros Ha. symmetry. apply entries_same. intros b Hb. rewrite refreshed_other; [done|by intros ->].
Qed.

Lemma refreshed_node own s pre a post :
  wf own s → nodes s = pre ++ a :: post → a ∉ pre → a ∉ post →
  ∃ kept, nodes (refreshed a s) = (pre ++ kept) ++ post ∧
    entries (mem (refreshed a s)) kept = refresh (cpu_time s) (entries (mem s) [a]).
Proof.
  intros Hw Hl Hpre Hpost. assert (a ∈ nodes s) as Ha by (rewrite Hl; set_solver).
  destruct (wf_node own s Hw a Ha) as [v Hv].
  assert (entries (mem s) [a] = [(pid v, cpu_usage v)]) as ->
    by (unfold entries, entry_of; cbn; by rewrite Hv).
  unfold refreshed. rewrite Hv. cbn. destruct (cpu_time s (pid v)) as [u|] eqn:Hc.
  - exists [a]. split; [by rewrite <- app_assoc|].
    unfold entries, entry_of. cbn. by rewrite mem_set_mem, lookup_insert_eq.
  - exists []. split; [|done]. rewrite app_nil_r.
    change (nodes (removed a s)) with (nodes (set_list (list_del a (list s)) s)).
    rewrite (nodes_remove own) by done.
    rewrite Hl, filter_app, filter_cons_False by naive_solver.
    by rewrite !filter_not_in.
Qed.

(** Visiting the rest [post] of the list. *)
Lemma refresh_loop own post : ∀ s pre,
  wf own s → nodes s = pre ++ post →
  for_each post refresh_node s = Ok (tt, refresh_all post s) ∧
  wf own (refresh_all post s) ∧
  registry (refresh_all post s) =
    entries (mem s) pre ++ refresh (cpu_time s) (entries (mem s) post) ∧
  frame (refresh_all post s) = frame s ∧ lock (refresh_all post s) = lock s.
Proof.
  induction post as [|a post IH]; intros s pre Hw Hl.
  - split_and!; try done. change (registry s = entries (mem s) pre ++ []).
    unfold registry. by rewrite Hl, !app_nil_r.
  - assert (a ∈ nodes s) as Ha by (rewrite Hl; set_solver).
    assert (a ∉ pre ∧ a ∉ post) as [Hpre Hpost].
    { pose proof (wf_nodup own s Hw) as Hnd. apply NoDup_app in Hnd as (Hnd & _ & _).
      rewrite Hl in Hnd. apply NoDup_app in Hnd as (_ & Hd & [Hp _]%NoDup_cons).
      split; [|done]. intros Hin. apply (Hd a Hin), elem_of_cons. by left. }
    cbn [for_each refresh_all foldl]. unfold bind. rewrite (refresh_node_run own) by done.
    pose proof (refreshed_wf own s a Hw Ha) as Hw1.
    destruct (refreshed_frame a s) as [Hf1 Hl1].
    assert (cpu_time (refreshed a s) = cpu_time s) as Hc1 by by apply frame_cpu.
    destruct (refreshed_node own s pre a post Hw Hl Hpre Hpost) as (kept & Hn1 & Hkept).
    destruct (IH (refreshed a s) (pre ++ kept) Hw1 Hn1) as (Hrun & Hw' & Hreg & Hf & Hlk).
    split_and!; [done|done| |by rewrite <- Hf1|by rewrite <- Hl1].
    unfold refresh_all in Hreg. rewrite Hreg, Hc1. rewrite (refreshed_entries s a post) by done.
    unfold entries at 1. rewrite omap_app_list. fold (entries (mem (refreshed a s)) pre).
    fold (entries (mem (refreshed a s)) kept). rewrite Hkept, (refreshed_entries s a pre) by done.
    rewrite <- app_assoc. f_equal.
    change (a :: post) with ([a] ++ post). unfold entries at 3. rewrite omap_app_list.
    by rewrite refresh_app.
Qed.
End state.
