(* ===== verification/Mp1Entry.v ===== *)
(** * MP1: the monitor's operations

    Registering, the periodic update, reading the status file, and unloading,
    of src/MP1/mp1.c: what each does to the registry, what the whole module
    refines, and where it fails. *)
From Stdlib Require Import Ascii String.
From stdpp Require Import base gmap sets list strings.
From Stdlib Require Import ZArith Lia.
From S2P Require Import Prelude CString Kernel Mp1 Mp1State.

Open Scope Z_scope.
Open Scope c_scope.

Section entry.
Context {L : Type} `{!KList L, !KConst, !Allocator, !Kstrto, !Clock}.
Context `{!KListLaws L, !KConstLaws, !AllocatorLaws, !KstrtoLaws}.
Implicit Types s : @mp1 L.
Variable stale : proc_cpu.

(** The next block the allocator gives. *)
Definition next_block s : option Z := alloc_addr (n_alloc (slab s)) (dom (mem s)).

Lemma next_block_fresh own s a :
  wf own s → next_block s = Some a → a ≠ NULL ∧ mem s !! a = None ∧ a ∉ nodes s ++ own.
Proof.
  intros Hw Ha. assert (mem s !! a = None) as Hm
    by (apply not_elem_of_dom; by eapply alloc_fresh).
  split_and!; [by eapply alloc_not_null|done|].
  intros [Hin|Hin]%elem_of_app.
  - destruct (wf_node own s Hw a Hin) as [v Hv]. congruence.
  - pose proof (wf_work own s Hw a Hin). congruence.
Qed.

(** ** Registering *)

Definition registered s (a p : Z) : @mp1 L :=
  mkMp1 (entry s) (list_add_tail a (list s)) (i32 (size s + 1)) (tm s) (wq s) false
    (mkHeap (<[a := NODE (mkProc 0 p)]> (mem s)) (Datatypes.S (n_alloc (slab s))))
    (queue s) (jiffies s) (pids s) (tasks s) (calls s).

Lemma mywrite_refused s ubuf e :
  kstrtoint (c_str (ubuf ++ [NUL])) = inl e → mywrite stale ubuf s = Ok (e, s).
Proof. intros He. unfold mywrite. by rewrite He. Qed.

Lemma mywrite_no_memory s ubuf p :
  kstrtoint (c_str (ubuf ++ [NUL])) = inr p → next_block s = None →
  mywrite stale ubuf s = Oops NullDeref.
Proof.
  intros Hk Ha. unfold mywrite. rewrite Hk. unfold bind at 1, kmalloc.
  change (alloc_addr _ _) with (next_block s). by rewrite Ha.
Qed.

Lemma mywrite_run s ubuf p a :
  lock s = false → kstrtoint (c_str (ubuf ++ [NUL])) = inr p → next_block s = Some a →
  a ≠ NULL → mywrite stale ubuf s = Ok (Z.of_nat (length ubuf), registered s a p).
Proof.
  intros Hl Hk Ha Hnn. unfold mywrite. rewrite Hk. unfold bind at 1, kmalloc.
  change (alloc_addr _ _) with (next_block s). rewrite Ha.
  set (s1 := with_heap _ s).
  assert (mem s1 !! a = Some (NODE stale)) as Hs1 by apply lookup_insert_eq.
  unfold bind at 1. rewrite (update_node_run a _ stale s1) by done.
  set (s2 := set_mem _ s1). cbn beta.
  assert (mem s2 !! a = Some (NODE (mkProc (cpu_usage stale) p))) as Hs2 by apply lookup_insert_eq.
  unfold bind at 1. rewrite (update_node_run a _ (mkProc (cpu_usage stale) p) s2) by done.
  set (s3 := set_mem _ s2). cbn beta.
  assert (mem s3 !! a = Some (NODE (mkProc 0 p))) as Hs3 by apply lookup_insert_eq.
  unfold bind at 1, spin_lock, bind at 1, gets.
  change (lock s3) with (lock s). rewrite Hl. unfold modify at 1.
  unfold bind at 1, list_add_tail_to, bind at 1.
  rewrite (load_node_run a (mkProc 0 p)); [|done|exact Hs3].
  unfold modify, bind, spin_unlock, modify, ret, registered.
  assert (mem s3 = <[a := NODE (mkProc 0 p)]> (mem s)) as Hm.
  { change (mem s3) with (<[a := NODE (mkProc 0 p)]> (<[a := NODE (mkProc (cpu_usage stale) p)]>
      (<[a := NODE stale]> (mem s)))). by rewrite !insert_insert_eq. }
  change (slab s3) with (mkHeap (mem s3) (Datatypes.S (n_alloc (slab s)))).
  rewrite <- Hm. done.
Qed.

Lemma mp1_registered_nodes s a p : a ∉ nodes s → nodes (registered s a p) = nodes s ++ [a].
Proof. apply nodes_add_tail. Qed.

Lemma registered_wf own s a p :
  wf own s → next_block s = Some a → wf own (registered s a p).
Proof.
  intros Hw Ha. destruct (next_block_fresh own s a Hw Ha) as (Hnn & Hm & Hin).
  apply not_elem_of_app in Hin as [Hin Hown].
  pose proof (mp1_registered_nodes s a p Hin) as Hn.
  assert (mem (registered s a p) = <[a := NODE (mkProc 0 p)]> (mem s)) as Hm' by done.
  pose proof (wf_nodup own s Hw) as Hnd. split; rewrite ?Hn, ?Hm'.
  - rewrite <- app_assoc. apply NoDup_app in Hnd as (Hn1 & Hd & Hn2).
    apply NoDup_app. split_and!; [done| |].
    + intros x Hx [->|Hx']%elem_of_cons; [done|by apply (Hd x)].
    + by apply NoDup_cons.
  - intros b Hb. rewrite lookup_insert. case_decide; [by eexists|].
    apply (wf_node own s Hw). apply elem_of_app in Hb as [Hb|Hb]; [done|].
    apply list_elem_of_singleton in Hb. congruence.
  - intros b Hb. rewrite lookup_insert_ne by (by intros <-). by apply (wf_work own).
  - intros b [w Hb]. apply lookup_insert_Some in Hb as [[<- _]|[_ Hb]]; [set_solver|].
    assert (b ∈ nodes s ++ own) by (apply (wf_owned own s Hw); by exists w). set_solver.
  - rewrite lookup_insert_ne by done. apply Hw.
  - change (size (registered s a p)) with (i32 (size s + 1)).
    rewrite (wf_size own s Hw), length_app. cbn [length]. unfold i32.
    set (x := Z.of_nat (length (nodes s))).
    replace ((x + 2 ^ 31) mod 2 ^ 32 - 2 ^ 31 + 1 + 2 ^ 31)
      with ((x + 2 ^ 31) mod 2 ^ 32 + 1) by lia.
    rewrite Zplus_mod_idemp_l. do 2 f_equal. lia.
  - exact (wf_kernel own s Hw).
Qed.

Lemma registered_registry own s a p :
  wf own s → next_block s = Some a → registry (registered s a p) = registry s ++ [(p, 0)].
Proof.
  intros Hw Ha. destruct (next_block_fresh own s a Hw Ha) as (Hnn & Hm & Hin).
  apply not_elem_of_app in Hin as [Hin Hown]. unfold registry.
  rewrite (mp1_registered_nodes s a p Hin). unfold entries. rewrite omap_app_list. f_equal.
  - apply omap_ext_in. intros b Hb. unfold entry_of.
    change (mem (registered s a p)) with (<[a := NODE (mkProc 0 p)]> (mem s)).
    by rewrite lookup_insert_ne by (by intros <-).
  - cbn. unfold entry_of. change (mem (registered s a p)) with (<[a := NODE (mkProc 0 p)]> (mem s)).
    by rewrite lookup_insert_eq.
Qed.

(** ** The update *)

Lemma wq_callback_run own s w :
  wf (w :: own) s → lock s = false →
  ∃ s', wq_callback w s = Ok (tt, s') ∧ wf own s' ∧ frame s' = frame s ∧ lock s' = false ∧
    registry s' = refresh (cpu_time s) (registry s).
Proof.
  intros Hw Hl. set (s1 := set_lock true s).
  assert (wf (w :: own) s1) as Hw1 by (by apply (registry_wf_ext _ s)).
  destruct (refresh_loop (w :: own) (nodes s1) s1 [] Hw1 eq_refl) as (Hrun & Hw2 & Hreg & Hf & _).
  set (s2 := refresh_all (nodes s1) s1) in *. set (s3 := set_lock false s2).
  assert (wf (w :: own) s3) as Hw3 by (by apply (registry_wf_ext _ s2)).
  assert (mem s3 !! w = Some WORK) as Hwk by (apply (wf_work _ s3 Hw3), elem_of_cons; by left).
  assert (w ≠ NULL) as Hnn by (eapply wf_not_null; [exact Hw3|set_solver]).
  exists (set_mem (delete w (mem s3)) s3). split_and!.
  - unfold wq_callback, bind at 1, spin_lock, bind at 1, gets. rewrite Hl.
    unfold modify at 1, bind at 1, get. fold s1. unfold bind at 1.
    change (list_nodes (list s1)) with (nodes s1). rewrite Hrun.
    unfold bind, spin_unlock, modify. fold s3. by apply (kfree_run w WORK).
  - pose proof (wf_nodup _ s3 Hw3) as Hnd. apply NoDup_app in Hnd as (Hn1 & Hd & Hn2).
    apply NoDup_cons in Hn2 as [Hwo Hn2].
    assert (w ∉ nodes s3) as Hwn by (intros Hin; apply (Hd w Hin), elem_of_cons; by left).
    set (s4 := set_mem _ s3). assert (nodes s4 = nodes s3) as Hn by done.
    assert (mem s4 = delete w (mem s3)) as Hm by done.
    split; rewrite ?Hn, ?Hm; try apply Hw3.
    + apply NoDup_app. split_and!; [done| |done]. intros x Hx Hx'. apply (Hd x Hx). set_solver.
    + intros b Hb. rewrite lookup_delete_ne by (by intros <-). by apply (wf_node _ s3 Hw3).
    + intros b Hb. rewrite lookup_delete_ne by (by intros <-). apply (wf_work _ s3 Hw3). set_solver.
    + intros b [x Hb]. apply lookup_delete_Some in Hb as [Hne Hb].
      assert (b ∈ nodes s3 ++ w :: own) by (apply (wf_owned _ s3 Hw3); by exists x). set_solver.
    + apply lookup_delete_None. right. apply Hw3.
  - exact Hf.
  - done.
  - pose proof (wf_nodup _ s3 Hw3) as Hnd. apply NoDup_app in Hnd as (_ & Hd & _).
    transitivity (registry s2).
    + apply entries_same. intros b Hb.
      change (mem (set_mem (delete w (mem s3)) s3)) with (delete w (mem s2)).
      rewrite lookup_delete_ne; [done|]. intros <-. by apply (Hd w Hb), elem_of_cons; left.
    + rewrite Hreg. done.
Qed.

(** ** The timer *)

Definition ticked s (r : option Z) : @mp1 L :=
  mkMp1 (entry s) (list s) (size s) (Some (u64 (jiffies s + msecs_to_jiffies 5000))) (wq s) (lock s)
    (mkHeap (match r with Some w => <[w := WORK]> (mem s) | None => mem s end)
       (Datatypes.S (n_alloc (slab s))))
    (match r with Some w => queue s ++ [w] | None => queue s end)
    (jiffies s) (pids s) (tasks s) (calls s).

Lemma mp1_tick_run s :
  wq s ≠ NULL → (∀ w, next_block s = Some w → w ≠ NULL) →
  tm_callback s = Ok (tt, ticked s (next_block s)).
Proof.
  intros Hq Hnn. unfold tm_callback, mod_timer, kmalloc, queue_work, bind, get, modify, ret.
  change (alloc_addr _ _) with (next_block s). destruct (next_block s) as [w|] eqn:Hw; [|done].
  rewrite (proj2 (Z.eqb_neq w NULL)) by by apply Hnn.
  change (wq (with_heap ?h ?x)) with (wq s). by rewrite (proj2 (Z.eqb_neq _ _) Hq).
Qed.

Lemma ticked_wf s : wf (queue s) s → wf (queue (ticked s (next_block s))) (ticked s (next_block s)).
Proof.
  intros Hw. destruct (next_block s) as [w|] eqn:Hb; cbn [ticked queue].
  - destruct (next_block_fresh _ s w Hw Hb) as (Hnn & Hm & Hin).
    set (s1 := ticked s (Some w)). assert (nodes s1 = nodes s) as Hn by done.
    assert (mem s1 = <[w := WORK]> (mem s)) as Hm1 by done.
    apply not_elem_of_app in Hin as [Hin Hq].
    split; rewrite ?Hn, ?Hm1; try apply Hw.
    + rewrite app_assoc. apply NoDup_app. split_and!; [apply Hw| |apply NoDup_singleton].
      intros x Hx Hx'%list_elem_of_singleton. subst. by apply elem_of_app in Hx as [?|?].
    + intros b Hb'. rewrite lookup_insert_ne by (by intros <-). by apply (wf_node _ s Hw).
    + intros b [Hb'| ->%list_elem_of_singleton]%elem_of_app; [|by rewrite lookup_insert_eq].
      rewrite lookup_insert_ne by (by intros <-). by apply (wf_work _ s Hw).
    + intros b [x Hx]. apply lookup_insert_Some in Hx as [[<- _]|[_ Hx]]; [set_solver|].
      assert (b ∈ nodes s ++ queue s) by (apply (wf_owned _ s Hw); by exists x). set_solver.
    + rewrite lookup_insert_ne by done. apply Hw.
  - by apply (registry_wf_ext _ s).
Qed.

Lemma ticked_registry s :
  wf (queue s) s → registry (ticked s (next_block s)) = registry s.
Proof.
  intros Hw. destruct (next_block s) as [w|] eqn:Hb; [|done].
  destruct (next_block_fresh _ s w Hw Hb) as (_ & _ & Hin). apply entries_same. intros b Hb'.
  change (mem (ticked s (Some w))) with (<[w := WORK]> (mem s)).
  rewrite lookup_insert_ne; [done|]. intros <-. set_solver.
Qed.
End entry.
