(* ===== verification/Mp1Read.v ===== *)
(** * MP1: the status file

    What [myread] of src/MP1/mp1.c gives to readers of /proc/mp1/status, and
    how many processes fit in its buffer. *)
From Stdlib Require Import Ascii String.
From stdpp Require Import base gmap sets list strings.
From Stdlib Require Import ZArith Lia.
From S2P Require Import Prelude CString Kernel Mp1 Mp1State.

Open Scope Z_scope.
Open Scope c_scope.

(** The line of one registered process, and the text of the file. *)
Definition line_of (e : Z * Z) : Datatypes.list ascii := proc_line (mkProc e.2 e.1).
Definition text (r : registry_t) : Datatypes.list ascii := concat (line_of <$> r).

Lemma text_cons e r : text (e :: r) = line_of e ++ text r.
Proof. done. Qed.

Lemma text_app r r' : text (r ++ r') = text r ++ text r'.
Proof. unfold text. by rewrite fmap_app, concat_app. Qed.

Lemma line_NUL e : NUL ∉ line_of e.
Proof.
  unfold line_of, proc_line. rewrite !elem_of_app, list_elem_of_singleton.
  intros [Hin|[Hin|[Hin|[Hin|[Hin|Hin]]]]].
  - by vm_compute in Hin; repeat (apply elem_of_cons in Hin as [?|Hin]; [done|]);
      apply elem_of_nil in Hin.
  - by apply fmt_d_NUL in Hin.
  - by vm_compute in Hin; repeat (apply elem_of_cons in Hin as [?|Hin]; [done|]);
      apply elem_of_nil in Hin.
  - by apply fmt_lu_NUL in Hin.
  - by vm_compute in Hin; repeat (apply elem_of_cons in Hin as [?|Hin]; [done|]);
      apply elem_of_nil in Hin.
  - done.
Qed.

Lemma text_NUL r : NUL ∉ text r.
Proof.
  induction r as [|e r IH]; [by intros ?%elem_of_nil|]. rewrite text_cons, elem_of_app.
  intros [Hin|Hin]; [by apply line_NUL in Hin|done].
Qed.

Lemma digits_pos fuel n : (0 < fuel)%nat → (1 <= length (digits fuel n))%nat.
Proof. intros Hf. pose proof (digits_nonempty fuel n Hf). destruct (digits fuel n); [done|simpl; lia]. Qed.

Lemma line_length e : (12 <= length (line_of e) <= 41)%nat.
Proof.
  unfold line_of, proc_line. rewrite !length_app. cbn [cpu_usage pid].
  pose proof (fmt_d_length e.1). pose proof (fmt_lu_length e.2).
  assert (1 <= length (fmt_d e.1))%nat
    by (pose proof (fmt_d_nonempty e.1); destruct (fmt_d e.1); [done|simpl; lia]).
  assert (1 <= length (fmt_lu e.2))%nat by (apply digits_pos; lia).
  change (length (str "PID")) with 3%nat. change (length (str ": ")) with 2%nat.
  change (length (str " ms ")) with 4%nat. change (length [newline]) with 1%nat. lia.
Qed.

Lemma text_length r : (12 * length r <= length (text r) <= 41 * length r)%nat.
Proof.
  induction r as [|e r IH]; [cbn; lia|]. rewrite text_cons, length_app. cbn [length].
  pose proof (line_length e). lia.
Qed.

Section read.
Context {L : Type} `{!KList L, !KConst, !Allocator, !Kstrto, !Clock}.
Context `{!KListLaws L, !KConstLaws, !AllocatorLaws, !KstrtoLaws}.
Implicit Types s : @mp1 L.

(** The loop of [myread]: the lines so far, and a terminator after them. *)
Definition read_so_far s (pre : Datatypes.list Z) (acc : nat * Datatypes.list ascii) s' : Prop :=
  s' = s ∧ ∃ rest, acc = (length (text (entries (mem s) pre)), text (entries (mem s) pre) ++ rest)
    ∧ length (text (entries (mem s) pre) ++ rest) = buffsize
    ∧ (pre ≠ [] → head rest = Some NUL).

Definition read_overrun s (e : fault) : Prop :=
  e = OutOfBounds ∧ (buffsize <= length (text (registry s)))%nat.

Lemma status_loop own s p kbuf :
  wf own s → p ≠ NULL → length kbuf = buffsize →
  wp (fold_each (nodes s) (0%nat, kbuf) (λ '(shift, kbuf) j,
        let! v := load_node j in
        (if p =? NULL then fail NullDeref else ret tt) ;!
        let! kbuf := lift (sprintf kbuf shift (proc_line v)) in
        ret (length (c_str kbuf), kbuf)))
     (read_so_far s (nodes s)) (read_overrun s) s.
Proof.
  intros Hw Hp Hlen. apply (wp_fold_each _ (read_so_far s)).
  { split; [done|]. by exists kbuf. }
  intros pre a post acc s' Hl (-> & rest & -> & Hb & _).
  assert (a ∈ nodes s) as Ha by (rewrite Hl; set_solver).
  destruct (wf_node own s Hw a Ha) as [v Hv].
  assert (a ≠ NULL) as Hnn by (eapply wf_not_null; [done|set_solver]).
  apply wp_bind. eapply wp_of_run; [by apply (load_node_run a v)|]. cbn beta.
  rewrite (proj2 (Z.eqb_neq p NULL)) by done. wp_pure.
  assert (entries (mem s) (pre ++ [a]) = entries (mem s) pre ++ [(pid v, cpu_usage v)]) as Hent.
  { unfold entries. rewrite omap_app_list. f_equal. cbn. unfold entry_of. by rewrite Hv. }
  assert (proc_line v = line_of (pid v, cpu_usage v)) as -> by by destruct v.
  set (e := (pid v, cpu_usage v)) in *. set (t := text (entries (mem s) pre)) in *.
  assert (text (entries (mem s) (pre ++ [a])) = t ++ line_of e) as Ht.
  { rewrite Hent, text_app, text_cons. by rewrite app_nil_r. }
  destruct (decide (length t + length (line_of e) < buffsize)%nat) as [Hfit|Hno].
  - destruct (sprintf_at t rest (line_of e)) as (rest' & Hs & Hl'); [by rewrite Hb|].
    unfold wp at 1, lift. rewrite Hs. split; [done|]. exists (NUL :: rest').
    rewrite Ht. split_and!; [|by rewrite Hl'|done].
    rewrite c_str_app_NUL; [done|]. rewrite <- Ht. apply text_NUL.
  - unfold wp at 1, lift. rewrite sprintf_over by lia. split; [done|].
    unfold registry. rewrite Hl. replace (pre ++ a :: post) with ((pre ++ [a]) ++ post)
      by by rewrite <- app_assoc.
    unfold entries. rewrite omap_app_list. fold (entries (mem s) (pre ++ [a])).
    rewrite text_app, length_app, Ht, length_app. lia.
Qed.

(** [kmalloc] of the buffer, and the lock taken and released. *)
Definition read_done s : @mp1 L :=
  set_lock false (set_slab (mkHeap (mem s) (Datatypes.S (n_alloc (slab s)))) s).

Lemma registry_length own s : wf own s → length (registry s) = length (nodes s).
Proof.
  intros Hw. unfold registry. pose proof (wf_node own s Hw) as Hn. revert Hn.
  generalize (nodes s) as l. induction l as [|a l IH]; intros Hn; [done|].
  destruct (Hn a) as [v Hv]; [apply elem_of_cons; by left|].
  unfold entries. cbn. unfold entry_of at 1. rewrite Hv. cbn. f_equal.
  apply IH. intros b Hb. apply Hn, elem_of_cons. by right.
Qed.

(** What a read from the start gives: [size] is the length of the registry. *)
Lemma mp1_read_wp own s p :
  wf own s → lock s = false → nodes s ≠ [] → size s ≠ 0 →
  alloc_addr (n_alloc (slab s)) (dom (mem s)) = Some p →
  wp (myread 0)
    (λ r s', (length (text (registry s)) < buffsize)%nat ∧ s' = read_done s ∧
       let n := Z.of_nat (length (text (registry s))) in
       r = (text (registry s) ++ [NUL], n + 1, n))
    (read_overrun s) s.
Proof.
  intros Hw Hlk Hn Hsz Hp. pose proof (alloc_not_null _ _ _ Hp) as Hnn.
  unfold myread. wp_pure. rewrite (proj2 (Z.eqb_neq _ _) Hsz). cbn [Z.ltb Z.compare]. wp_pure.
  unfold wp at 1, kmalloc_buf. cbn [heap_of mp1_heap with_heap]. rewrite Hp. change (default NULL (Some p)) with p.
  pose proof (stale_length (n_alloc (slab s)) buffsize) as Hlen.
  set (kbuf := stale_bytes _ _) in *. set (s1 := set_slab _ s).
  unfold spin_lock. wp_pure. change (lock s1) with (lock s). rewrite Hlk. wp_pure.
  set (s2 := set_lock true s1).
  assert (wf own s2) as Hw2 by by apply (registry_wf_ext _ s).
  assert (list_empty (list s2) = false) as ->.
  { destruct (list_empty (list s2)) eqn:He; [|done]. apply nodes_empty in He.
    by destruct Hn. }
  change (list_nodes (list s2)) with (nodes s2).
  eapply wp_mono; [by eapply (status_loop own s2 p kbuf)| |].
  - intros acc s' (-> & rest & -> & Hb & Hhd). specialize (Hhd Hn).
    change (entries (mem s2) (nodes s2)) with (registry s) in *.
    cbn beta iota. rewrite (proj2 (Z.eqb_neq p NULL)) by done. unfold spin_unlock. wp_pure.
    destruct rest as [|c rest]; [done|]. injection Hhd as ->.
    rewrite length_app in Hb. cbn [length] in Hb.
    split; [lia|]. split; [done|]. cbn.
    change (NUL :: rest) with ([NUL] ++ rest). rewrite app_assoc, take_app_le, take_ge;
      [done|rewrite length_app; simpl; lia|rewrite length_app; simpl; lia].
  - intros e He. exact He.
Qed.

(** Reading the status file from its start, when something is registered,
    gives one line "PID<pid>: <time> ms" per process in order of registration
    and a final NUL, when they are shorter than the buffer of 2048 bytes, and
    overruns the kernel buffer otherwise.  The value returned is one more than
    the step of the file offset. *)
Theorem status_contents own s p :
  wf own s → lock s = false → nodes s ≠ [] → Z.of_nat (length (nodes s)) <= INT_MAX →
  alloc_addr (n_alloc (slab s)) (dom (mem s)) = Some p →
  let n := length (text (registry s)) in
  ((n < buffsize)%nat →
     myread 0 s = Ok ((text (registry s) ++ [NUL], Z.of_nat n + 1, Z.of_nat n), read_done s)) ∧
  ((buffsize <= n)%nat → myread 0 s = Oops OutOfBounds).
Proof.
  intros Hw Hlk Hn Hmax Hp n.
  assert (size s ≠ 0) as Hsz.
  { rewrite (wf_size own s Hw), i32_id.
    - destruct (nodes s); [done|simpl; lia].
    - unfold is_i32, INT_MIN. lia. }
  pose proof (mp1_read_wp own s p Hw Hlk Hn Hsz Hp) as Hrun. unfold wp in Hrun.
  split; intros Hlt; (destruct (myread 0 s) as [[r s']|e];
    [destruct Hrun as (? & -> & ->); [done || lia]|destruct Hrun as [-> Hge]; [done || lia]]).
Qed.

(** C27: The capacity of the status file: with at most 49 registered processes a
    read never overruns the buffer, whatever their pids and times, and with 171
    or more it always does. *)
Theorem status_capacity own s p :
  wf own s → lock s = false → nodes s ≠ [] → Z.of_nat (length (nodes s)) <= INT_MAX →
  alloc_addr (n_alloc (slab s)) (dom (mem s)) = Some p →
  ((length (nodes s) <= 49)%nat → ∃ r s', myread 0 s = Ok (r, s')) ∧
  ((171 <= length (nodes s))%nat → myread 0 s = Oops OutOfBounds).
Proof.
  intros Hw Hlk Hn Hmax Hp.
  assert (size s ≠ 0) as Hsz.
  { rewrite (wf_size own s Hw), i32_id.
    - destruct (nodes s); [done|simpl; lia].
    - unfold is_i32, INT_MIN. lia. }
  pose proof (mp1_read_wp own s p Hw Hlk Hn Hsz Hp) as Hrun. unfold wp in Hrun.
  pose proof (text_length (registry s)) as Ht. rewrite (registry_length own s Hw) in Ht.
  unfold read_overrun, buffsize in *.
  split; intros Hlen; destruct (myread 0 s) as [[r s']|e].
  - by do 2 eexists.
  - destruct Hrun as [-> Hge]. lia.
  - destruct Hrun as [Hlt _]. lia.
  - by destruct Hrun as [-> _].
Qed.

(** With nothing registered a reader gets nothing: the message of the empty
    registry is copied out, but the file offset is moved past it first, and the
    read returns 0; every further read of a file position after the start
    returns 0 too. *)
Theorem empty_status_unread s offset :
  0 <= offset →
  (size s = 0 → myread offset s = Ok ((errinfo ++ [NUL], 0, offset + 24), s)) ∧
  (size s ≠ 0 → 0 < offset → myread offset s = Ok (([], 0, offset), s)).
Proof.
  intros Ho. unfold myread, bind, get. split.
  - intros ->. cbn [Z.eqb]. change (strlen errinfo + 1) with 24.
    by rewrite (proj2 (Z.ltb_lt 0 (offset + 24))) by lia.
  - intros Hs Hlt. rewrite (proj2 (Z.eqb_neq _ _) Hs). by rewrite (proj2 (Z.ltb_lt 0 offset)).
Qed.
End read.
