(* ===== verification/Mp1Monitor.v ===== *)
(** * MP1: the module as a whole

    The entries of src/MP1/mp1.c as steps of a transition system, its
    refinement of a registry of processes, the periodic update, and the
    unloading of the module. *)
From Stdlib Require Import Ascii String.
From stdpp Require Import base gmap sets list strings.
From Stdlib Require Import ZArith Lia.
From S2P Require Import Prelude CString Kernel Mp1 Mp1State Mp1Entry Mp1Read.

Open Scope Z_scope.
Open Scope c_scope.

(** What happens to the module, with what its callers see of it. *)
Inductive event : Type :=
  | Write (ubuf : Datatypes.list ascii) (r : Z)
  | Read (offset : Z) (r : Datatypes.list ascii * Z * Z)
  | Tick
  | Work
  | Kernel.

(** ** The specification: a registry of processes *)

Definition read_result (r : registry_t) (offset : Z) : Datatypes.list ascii * Z * Z :=
  if i32 (Z.of_nat (length r)) =? 0 then (errinfo ++ [NUL], 0, offset + 24)
  else if 0 <? offset then ([], 0, offset)
  else let n := Z.of_nat (length (text r)) in (text r ++ [NUL], n + 1, n).

Inductive spec_step `{Kstrto} (cpu : Z → option Z) : event → registry_t → registry_t → Prop :=
  | spec_register ubuf p r : kstrtoint (c_str (ubuf ++ [NUL])) = inr p →
      spec_step cpu (Write ubuf (Z.of_nat (length ubuf))) r (r ++ [(p, 0)])
  | spec_refuse ubuf e r : kstrtoint (c_str (ubuf ++ [NUL])) = inl e →
      spec_step cpu (Write ubuf e) r r
  | spec_read offset r : spec_step cpu (Read offset (read_result r offset)) r r
  | spec_tick r : spec_step cpu Tick r r
  | spec_refresh r : spec_step cpu Work r (refresh cpu r)
  | spec_kernel r : spec_step cpu Kernel r r.

Section monitor.
Context {L : Type} `{!KList L, !KConst, !Allocator, !Kstrto, !Clock}.
Context `{!KListLaws L, !KConstLaws, !AllocatorLaws, !KstrtoLaws}.
Implicit Types s : @mp1 L.
Variable stale : proc_cpu.

(** ** The steps of the module *)

Inductive step : event → @mp1 L → @mp1 L → Prop :=
  | step_write ubuf r s s' : mywrite stale ubuf s = Ok (r, s') → step (Write ubuf r) s s'
  | step_read offset r s s' : 0 <= offset → myread offset s = Ok (r, s') →
      step (Read offset r) s s'
  | step_tick d s s' : tm s = Some d → d <= jiffies s →
      tm_callback (set_tm None s) = Ok (tt, s') → step Tick s s'
  | step_work w q s s' : queue s = w :: q → wq_callback w (set_queue q s) = Ok (tt, s') →
      step Work s s'
  | step_kernel j p t s : kernel_ok (set_kernel j p t s) → step Kernel s (set_kernel j p t s).

Inductive loaded : @mp1 L → Prop :=
  | loaded_init d q s0 s : mem s0 = ∅ → queue s0 = [] → kernel_ok s0 → q ≠ NULL →
      mp1_init d q s0 = Ok (0, s) → loaded s.

Definition reachable s : Prop :=
  ∃ s0, loaded s0 ∧ rtc (λ s1 s2, ∃ e, step e s1 s2) s0 s.

Record inv s : Prop := mkInv {
  inv_wf : wf (queue s) s;
  inv_lock : lock s = false;
  inv_tm : tm s ≠ None;
  inv_wq : wq s ≠ NULL
}.

Lemma monitor_loaded_inv s : loaded s → inv s ∧ nodes s = [] ∧ queue s = [].
Proof.
  intros [d q s0 s' Hm Hq0 Hk Hq Hrun]. unfold mp1_init, mod_timer in Hrun.
  pose proof errno_pos as (_ & _ & He & _).
  unfold bind, get, modify, ret in Hrun. cbn in Hrun.
  destruct (d =? NULL); cbn in Hrun; [injection Hrun; lia|]. injection Hrun as <-.
  assert (list_nodes INIT_LIST_HEAD = []) as Hnil by apply nodes_init.
  split_and!; [|done|done]. split; [|done..]. split; unfold nodes; cbn -[mem]; rewrite ?Hnil, ?Hq0.
  - constructor.
  - by intros a ?%elem_of_nil.
  - by intros a ?%elem_of_nil.
  - intros a [b Hb]. change (mem s0 !! a = Some b) in Hb. by rewrite Hm in Hb.
  - change (mem s0 !! NULL = None). by rewrite Hm.
  - done.
  - exact Hk.
Qed.

(** ** Each operation, in a state of the invariant *)

Lemma size_zero s : inv s → size s = i32 (Z.of_nat (length (registry s))).
Proof. intros Hi. rewrite (registry_length _ s (inv_wf s Hi)). apply (inv_wf s Hi). Qed.

Lemma myread_no_memory s :
  inv s → size s ≠ 0 → next_block s = None → myread 0 s = Oops NullDeref.
Proof.
  intros Hi Hs Hb. pose proof (inv_wf s Hi) as Hw.
  destruct (nodes s) as [|a l] eqn:Hn; [by rewrite (wf_size _ s Hw), Hn in Hs|].
  destruct (wf_node _ s Hw a) as [v Hv]; [rewrite Hn; set_solver|].
  assert (a ≠ NULL) as Hnn by (eapply wf_not_null; [exact Hw|rewrite Hn; set_solver]).
  unfold myread, bind, get. rewrite (proj2 (Z.eqb_neq _ _) Hs).
  change (0 <? 0) with false. cbn iota. unfold kmalloc_buf.
  change (alloc_addr _ _) with (next_block s). rewrite Hb. unfold default.
  unfold spin_lock, bind, gets. change (lock (with_heap ?h s)) with (lock s).
  rewrite (inv_lock s Hi). unfold modify.
  set (s2 := set_lock true _). assert (list_empty (list s2) = false) as ->.
  { destruct (list_empty (list s2)) eqn:He; [|done]. apply nodes_empty in He.
    change (nodes s = []) in He. congruence. }
  change (list_nodes (list s2)) with (nodes s). rewrite Hn. cbn [fold_each].
  unfold bind. rewrite (load_node_run a v s2) by done. done.
Qed.

(** A read leaves the registry and the invariant alone. *)
Lemma read_done_inv s : inv s → inv (read_done s) ∧ registry (read_done s) = registry s.
Proof.
  intros [Hw Hl Ht Hq]. split; [|done]. split; try done. by apply (registry_wf_ext _ s).
Qed.

Lemma myread_step s offset r s' :
  inv s → 0 <= offset → myread offset s = Ok (r, s') →
  r = read_result (registry s) offset ∧ inv s' ∧ registry s' = registry s.
Proof.
  intros Hi Ho Hrun. pose proof (inv_wf s Hi) as Hw. unfold read_result.
  rewrite <- size_zero by done.
  destruct (Z.eqb_spec (size s) 0) as [Hz|Hz].
  { unfold myread, bind, get in Hrun. rewrite Hz in Hrun. cbn iota in Hrun.
    change (strlen errinfo + 1) with 24 in Hrun. change (0 =? 0) with true in Hrun.
    cbn iota in Hrun. rewrite (proj2 (Z.ltb_lt 0 (offset + 24))) in Hrun by lia.
    by injection Hrun as <- <-. }
  destruct (Z.ltb_spec 0 offset) as [Hlt|Hge].
  { unfold myread, bind, get in Hrun. rewrite (proj2 (Z.eqb_neq _ _) Hz) in Hrun.
    rewrite (proj2 (Z.ltb_lt 0 offset) Hlt) in Hrun. by injection Hrun as <- <-. }
  replace offset with 0 in * by lia.
  destruct (next_block s) as [p|] eqn:Hp; [|by rewrite (myread_no_memory s Hi Hz Hp) in Hrun].
  assert (nodes s ≠ []) as Hn.
  { intros Hn. by rewrite (wf_size _ s Hw), Hn in Hz. }
  destruct (wp_run _ _ _ _ _ _ (mp1_read_wp _ s p Hw (inv_lock s Hi) Hn Hz Hp) Hrun)
    as (_ & -> & ->).
  destruct (read_done_inv s Hi) as [Hi' Hreg]. by split_and!.
Qed.

Lemma mywrite_step s ubuf r s' :
  inv s → mywrite stale ubuf s = Ok (r, s') →
  spec_step (cpu_time s) (Write ubuf r) (registry s) (registry s') ∧ inv s'.
Proof.
  intros Hi Hrun. pose proof (inv_wf s Hi) as Hw.
  destruct (kstrtoint (c_str (ubuf ++ [NUL]))) as [e|p] eqn:Hk.
  { rewrite (mywrite_refused stale s ubuf e Hk) in Hrun. injection Hrun as <- <-.
    split; [by constructor|done]. }
  destruct (next_block s) as [a|] eqn:Ha;
    [|by rewrite (mywrite_no_memory stale s ubuf p Hk Ha) in Hrun].
  destruct (next_block_fresh _ s a Hw Ha) as (Hnn & _).
  rewrite (mywrite_run stale s ubuf p a (inv_lock s Hi) Hk Ha Hnn) in Hrun. injection Hrun as <- <-.
  rewrite (registered_registry _ s a p Hw Ha).
  split; [by constructor|]. destruct Hi. split; try done. by apply registered_wf.
Qed.

Lemma tick_step s s' :
  inv s → tm_callback (set_tm None s) = Ok (tt, s') → inv s' ∧ registry s' = registry s.
Proof.
  intros Hi Hrun. pose proof (inv_wf s Hi) as Hw. set (s1 := set_tm None s) in *.
  assert (wf (queue s1) s1) as Hw1 by by apply (registry_wf_ext _ s).
  rewrite mp1_tick_run in Hrun; [|apply Hi|].
  - injection Hrun as <-. split; [|by rewrite ticked_registry].
    split; [by apply ticked_wf|apply Hi|done|apply Hi].
  - intros w Hb. by destruct (next_block_fresh _ s1 w Hw1 Hb).
Qed.

Lemma work_step s w q s' :
  inv s → queue s = w :: q → wq_callback w (set_queue q s) = Ok (tt, s') →
  inv s' ∧ registry s' = refresh (cpu_time s) (registry s) ∧ queue s' = q ∧ tm s' = tm s.
Proof.
  intros Hi Hq Hrun. pose proof (inv_wf s Hi) as Hw. rewrite Hq in Hw.
  destruct (wq_callback_run q (set_queue q s) w) as (s2 & Hrun2 & Hw2 & Hf & Hl & Hreg);
    [by apply (registry_wf_ext _ s)|apply Hi|].
  rewrite Hrun2 in Hrun. injection Hrun as <-. unfold frame in Hf.
  injection Hf as _ Htm Hwq Hqu _ _ _ _. split_and!; [|done|exact Hqu|exact Htm].
  split; [by rewrite Hqu|done|rewrite Htm; apply Hi|rewrite Hwq; apply Hi].
Qed.

Lemma monitor_step_inv e s s' : inv s → step e s s' → inv s'.
Proof.
  intros Hi Hstep. destruct Hstep.
  - by eapply mywrite_step.
  - by eapply myread_step.
  - by eapply tick_step.
  - by eapply work_step.
  - destruct Hi as [[] ? ? ?]. split; [by split|done..].
Qed.

Lemma monitor_reachable_inv s : reachable s → inv s.
Proof.
  intros (s0 & Hl & Hsteps). apply monitor_loaded_inv in Hl as [Hi _].
  induction Hsteps as [|s0 s1 s2 [e Hstep] _ IH]; [done|]. apply IH. by eapply monitor_step_inv.
Qed.

(** ** The theorems *)

(** C1: The module refines a registry of processes.  It starts empty; and every
    step from a reachable state is a step of the registry: a write of a number
    appends it with time 0, another write is refused with the parser's error and
    changes nothing, a read gives the text of the registry, and a run of the
    work gives every live process its CPU time and drops the others, keeping
    their order. *)
Theorem monitor_refines_registry :
  (∀ s, loaded s → registry s = []) ∧
  (∀ e s s', reachable s → step e s s' → spec_step (cpu_time s) e (registry s) (registry s')).
Proof.
  split.
  - intros s Hl. apply monitor_loaded_inv in Hl as (_ & Hn & _). unfold registry. by rewrite Hn.
  - intros e s s' Hi%monitor_reachable_inv Hstep.
    destruct Hstep as [ubuf r s s' Hrun|offset r s s' Ho Hrun|d s s' Ht Hd Hrun|w q s s' Hq Hrun|].
    + by apply mywrite_step.
    + destruct (myread_step s offset r s' Hi Ho Hrun) as (-> & _ & ->). constructor.
    + destruct (tick_step s s' Hi Hrun) as [_ ->]. constructor.
    + destruct (work_step s w q s' Hi Hq Hrun) as (_ & -> & _). constructor.
    + constructor.
Qed.

(** C16: In every reachable state the nodes of the list and the queued work items
    are exactly the allocated blocks, each once; [size] is the length of the
    list, as an int; the lock is free; and the timer is armed. *)
Theorem monitor_invariant s :
  reachable s →
  NoDup (nodes s ++ queue s) ∧ (∀ a, is_Some (mem s !! a) ↔ a ∈ nodes s ++ queue s) ∧
  size s = i32 (Z.of_nat (length (nodes s))) ∧ lock s = false ∧ tm s ≠ None.
Proof.
  intros [Hw Hl Ht _]%monitor_reachable_inv. split_and!; try done; try apply Hw.
  intros a. split; [apply Hw|]. intros [Ha|Ha]%elem_of_app.
  - destruct (wf_node _ s Hw a Ha) as [v Hv]. by exists (NODE v).
  - exists WORK. by apply (wf_work _ s Hw).
Qed.

(** C17: The monitor keeps going.  From a reachable state with an empty queue,
    when the timer is due and memory for the work is there, the timer and then
    the work run to their end: the registry is updated, the timer is armed five
    seconds ahead, and the queue is empty again. *)
Theorem update_happens s d w :
  reachable s → queue s = [] → tm s = Some d → d <= jiffies s → next_block s = Some w →
  ∃ s1 s2, step Tick s s1 ∧ step Work s1 s2 ∧
    registry s2 = refresh (cpu_time s) (registry s) ∧
    tm s2 = Some (u64 (jiffies s + msecs_to_jiffies 5000)) ∧ queue s2 = [].
Proof.
  intros Hi%monitor_reachable_inv Hq Hd Hdue Hb. pose proof (inv_wf s Hi) as Hw.
  set (s0 := set_tm None s). assert (wf (queue s0) s0) as Hw0 by by apply (registry_wf_ext _ s).
  assert (tm_callback s0 = Ok (tt, ticked s0 (Some w))) as Htick.
  { rewrite <- Hb. apply (mp1_tick_run s0); [apply Hi|].
    intros x Hx. by destruct (next_block_fresh _ s0 x Hw0 Hx). }
  destruct (tick_step s _ Hi Htick) as [Hi1 Hreg1]. set (s1 := ticked s0 (Some w)) in *.
  assert (queue s1 = [w]) as Hq1 by (change (queue s ++ [w] = [w]); by rewrite Hq).
  pose proof (inv_wf s1 Hi1) as Hw1. rewrite Hq1 in Hw1.
  destruct (wq_callback_run [] (set_queue [] s1) w) as (s2 & Hrun & _);
    [by apply (registry_wf_ext _ s1)|apply Hi1|].
  destruct (work_step s1 w [] s2 Hi1 Hq1 Hrun) as (_ & Hreg & Hq2 & Ht2).
  exists s1, s2. split_and!; [by eapply step_tick|by eapply step_work| |by rewrite Ht2|done].
  by rewrite Hreg, Hreg1.
Qed.

(** ** Unloading *)

Record freeable s : Prop := mkFreeable {
  fr_nodup : NoDup (nodes s);
  fr_node : ∀ a, a ∈ nodes s → ∃ v, mem s !! a = Some (NODE v);
  fr_owned : ∀ a, is_Some (mem s !! a) → a ∈ nodes s;
  fr_null : mem s !! NULL = None
}.

Lemma freell_run n : ∀ s,
  length (nodes s) = n → freeable s →
  ∃ s', freell n s = Ok (tt, s') ∧ nodes s' = [] ∧ mem s' = ∅ ∧ frame s' = frame s.
Proof.
  induction n as [|n IH]; intros s Hn Hf.
  - exists s. apply nil_length_inv in Hn. split_and!; try done. apply map_empty. intros a.
    destruct (mem s !! a) eqn:Ha; [|done].
    assert (a ∈ nodes s) as Hin by (apply (fr_owned s Hf); by eexists).
    rewrite Hn in Hin. by apply elem_of_nil in Hin.
  - destruct (nodes s) as [|a l] eqn:Hl; [done|]. injection Hn as Hn.
    destruct (fr_node s Hf a) as [v Hv]; [rewrite Hl; set_solver|].
    assert (a ≠ NULL) as Hnn by (intros ->; rewrite (fr_null s Hf) in Hv; done).
    cbn [freell]. unfold bind at 1, get. fold (nodes s). rewrite Hl.
    unfold bind at 1. rewrite (load_node_run a v) by done.
    unfold bind at 1. rewrite (list_del_run a v) by done.
    set (s1 := set_list _ s). unfold bind at 1.
    rewrite (kfree_run a (NODE v) s1) by done. set (s2 := set_mem _ s1).
    pose proof (fr_nodup s Hf) as Hnd. pose proof Hnd as Hnd'.
    rewrite Hl in Hnd'. apply NoDup_cons in Hnd' as [Hal Hndl].
    assert (nodes s2 = l) as Hn2.
    { change (list_nodes (list_del a (list s)) = l). rewrite nodes_del; [|done|].
      - fold (nodes s). rewrite Hl, filter_cons_False by naive_solver. by apply filter_not_in.
      - fold (nodes s). rewrite Hl. set_solver. }
    assert (mem s2 = delete a (mem s)) as Hm2 by done.
    destruct (IH s2) as (s' & Hrun & H1' & H2' & H3'); [by rewrite Hn2| |by exists s'].
    split; rewrite ?Hn2, ?Hm2; [done|..].
    + intros b Hb. rewrite lookup_delete_ne by (by intros <-).
      apply (fr_node s Hf). rewrite Hl. set_solver.
    + intros b [x Hx]. apply lookup_delete_Some in Hx as [Hne Hx].
      assert (b ∈ nodes s) as Hin by (apply (fr_owned s Hf); by eexists).
      rewrite Hl in Hin. set_solver.
    + apply lookup_delete_None. right. apply Hf.
Qed.

(** C35: Unloading with no work queued frees everything: the timer is stopped, no
    block is left, the list is empty and the lock is free. *)
Theorem idle_exit_frees_all s :
  reachable s → queue s = [] →
  ∃ s', mp1_exit s = Ok (tt, s') ∧ nodes s' = [] ∧ mem s' = ∅ ∧ tm s' = None ∧ lock s' = false ∧
    calls s' = calls s ++ [ProcRemove (entry s); DestroyWorkqueue (wq s)].
Proof.
  intros Hi%monitor_reachable_inv Hq. pose proof (inv_wf s Hi) as Hw. rewrite Hq in Hw.
  unfold mp1_exit, del_timer_sync, spin_lock, destroy_workqueue, bind, gets, get, modify.
  change (lock (set_tm None s)) with (lock s). rewrite (inv_lock s Hi).
  change (queue (log ?c (set_lock ?b (set_tm None s)))) with (queue s). rewrite Hq. cbn [for_each ret].
  set (s1 := log (DestroyWorkqueue _) _).
  destruct (freell_run (length (nodes s1)) s1 eq_refl) as (s2 & Hrun & Hn & Hm & Hf).
  { change (nodes s1) with (nodes s). split; try apply Hw.
    - pose proof (wf_nodup _ s Hw) as Hnd. by rewrite app_nil_r in Hnd.
    - intros a Ha. pose proof (wf_owned _ s Hw a Ha) as Hin. by rewrite app_nil_r in Hin. }
  change (length (list_nodes (list s1))) with (length (nodes s1)). rewrite Hrun.
  exists (set_lock false s2). unfold frame in Hf. injection Hf as _ Ht _ _ _ _ _ Hc.
  split_and!; try done. change (calls (set_lock false s2)) with (calls s2). rewrite Hc.
  change (calls s1) with ((calls s ++ [ProcRemove (entry s)]) ++ [DestroyWorkqueue (wq s)]).
  by rewrite <- app_assoc.
Qed.

(** C34: Unloading while work is queued deadlocks: [mp1_exit] holds the lock when
    it waits for the queue, and the callback it waits for needs the lock. *)
Theorem busy_exit_deadlocks s :
  reachable s → queue s ≠ [] → mp1_exit s = Oops Deadlock.
Proof.
  intros Hi%monitor_reachable_inv Hq. destruct (queue s) as [|w q] eqn:Hs; [done|].
  unfold mp1_exit, del_timer_sync, spin_lock, destroy_workqueue, bind, gets, get, modify.
  change (lock (set_tm None s)) with (lock s). rewrite (inv_lock s Hi).
  change (queue (log ?c (set_lock ?b (set_tm None s)))) with (queue s). rewrite Hs. done.
Qed.
End monitor.
