(* ===== verification/Mp1User.v ===== *)
(** * MP1: the test program

    src/MP1/userapp.c: it asks the shell to write its pid to the status file,
    works for fifteen seconds, and prints the file. *)
From Stdlib Require Import Ascii String.
From stdpp Require Import base gmap sets list strings.
From Stdlib Require Import ZArith Lia.
From S2P Require Import Prelude CString Kernel Mp1 Mp1State Mp1Entry.

Open Scope Z_scope.
Open Scope c_scope.

Module Client.
(** The calls that leave the program, in order. *)
Inductive act : Type :=
  | System (cmd : Datatypes.list ascii)
  | Printf (out : Datatypes.list ascii)
  | Execlp (file arg : Datatypes.list ascii).

Record client : Type := mkClient { acts : Datatypes.list act }.

Definition emit (a : act) : M client unit := modify (λ c, mkClient (acts c ++ [a])).

Definition filename : Datatypes.list ascii := str "/proc/mp1/status".

Definition command (pid : Z) : Datatypes.list ascii := str "echo " ++ fmt_d pid ++ str " > " ++ filename.

(** The busy loop: [ticks] are the seconds the clock shows at each turn, [t1]
    the second it started; the turns left when it ends, or None when it reads the
    clock more often. *)
Fixpoint workfunc1 (dur t1 : Z) (ticks : Datatypes.list Z) : option (Datatypes.list Z) :=
  match ticks with
  | [] => None
  | t2 :: ticks' => if dur <? t2 - t1 then Some ticks' else workfunc1 dur t1 ticks'
  end.

(** One turn of [workfunc]: its inner loop needs [result > 0], which is 0 at
    first. *)
Fixpoint fibonacci (fuel : nat) (i j result : Z) : Z :=
  match fuel with
  | O => result
  | S fuel' => if 0 <? result then fibonacci fuel' j (i32 (i + j)) (i32 (i + j)) else result
  end.

Fixpoint workfunc (fuel : nat) (times : Z) (results : Datatypes.list Z) : Datatypes.list Z :=
  match fuel with
  | O => results
  | S fuel' =>
      if 0 <? times then workfunc fuel' (i32 (times - 1)) (results ++ [fibonacci 47 0 1 0])
      else results
  end.

Definition kernel_cat : M client unit :=
  emit (Printf (str "start read the proc/mp1/status" ++ [newline])) ;!
  emit (Execlp (str "cat") filename).

(** [status] is what [system] answers; the program ends here when the clock
    never shows the end of the work. *)
Definition main (pid status t1 : Z) (ticks : Datatypes.list Z) : M client unit :=
  let! cmd := lift (sprintf (replicate 256 NUL) 0 (command pid)) in
  emit (System (c_str cmd)) ;!
  emit (Printf (str "system call:" ++ c_str cmd ++ [newline])) ;!
  emit (Printf (str "system call return: " ++ fmt_d status ++ [newline])) ;!
  match workfunc1 15 t1 ticks with
  | Some _ => kernel_cat
  | None => ret tt
  end.

(** [fread(buf, 2048, 1, fp)] counts whole items of 2048 bytes. *)
Definition kernel_syscall (avail : Datatypes.list ascii) : option (Datatypes.list ascii) :=
  let readval := if (2048 <=? length avail)%nat then 1%nat else 0%nat in
  if (readval <? 1)%nat then None
  else Some (c_str (take readval avail ++ [NUL])).

(** What [echo] writes for the shell. *)
Definition echoed (pid : Z) : Datatypes.list ascii := fmt_d pid ++ [newline].

Lemma workfunc1_ends dur t1 ticks :
  (∃ t, t ∈ ticks ∧ dur < t - t1) ↔ is_Some (workfunc1 dur t1 ticks).
Proof.
  induction ticks as [|t ticks IH]; cbn.
  - split; [by intros (? & ?%elem_of_nil & _)|by intros [? ?]].
  - destruct (Z.ltb_spec dur (t - t1)) as [Hlt|Hge].
    + split; [by eexists|]. intros _. exists t. split; [apply elem_of_cons; by left|lia].
    + rewrite <- IH. split.
      * intros (t' & [->|Hin]%elem_of_cons & Ht'); [lia|]. by exists t'.
      * intros (t' & Hin & Ht'). exists t'. split; [apply elem_of_cons; by right|done].
Qed.
End Client.
Import Client.

Section user.
Context {L : Type} `{!KList L, !KConst, !Allocator, !Kstrto, !Clock}.
Context `{!KListLaws L, !KConstLaws, !AllocatorLaws, !KstrtoLaws}.
Implicit Types s : @mp1 L.
Variable stale : proc_cpu.

(** The test program registers itself: its command fits its buffer of 256
    bytes and names its pid, and what the shell's echo then writes to the status
    file appends the pid to the registry, with CPU time 0. *)
Theorem client_registers own s pid status t1 ticks a c :
  wf own s → lock s = false → is_i32 pid → next_block s = Some a →
  (∃ c', Client.main pid status t1 ticks c = Ok (tt, c') ∧
     acts c' !! length (acts c) = Some (System (command pid))) ∧
  ∃ s', mywrite stale (echoed pid) s = Ok (Z.of_nat (length (echoed pid)), s') ∧
    registry s' = registry s ++ [(pid, 0)].
Proof.
  intros Hw Hl Hp Ha. split.
  - assert (length (command pid) <= 35)%nat as Hlen.
    { unfold command. rewrite !length_app. pose proof (fmt_d_length pid).
      change (length (str "echo ")) with 5%nat. change (length (str " > ")) with 3%nat.
      change (length filename) with 16%nat. lia. }
    assert (NUL ∉ command pid) as Hnul.
    { unfold command. rewrite !elem_of_app. intros [Hin|[Hin|[Hin|Hin]]];
        [|by apply fmt_d_NUL in Hin|..];
        revert Hin; apply (bool_decide_unpack _); by vm_compute. }
    destruct (sprintf_append (replicate 256 NUL) (command pid) [] (replicate 255 NUL))
      as (rest & Hs & _);
      [by intros ?%elem_of_nil|done|done|rewrite length_replicate; cbn [length]; lia|].
    unfold Client.main, bind at 1, lift. cbn [length] in Hs. rewrite Hs. cbn [app].
    rewrite c_str_app_NUL by done.
    unfold kernel_cat, emit, bind, modify, ret.
    destruct (workfunc1 15 t1 ticks); (eexists; split; [done|]);
      cbn [acts]; rewrite <- !app_assoc; cbn [app]; by rewrite list_lookup_middle.
  - destruct (next_block_fresh own s a Hw Ha) as (Hnn & _). exists (registered s a pid).
    split; [|by apply (registered_registry own)].
    apply mywrite_run; [done| |done|done].
    unfold echoed. rewrite c_str_app_NUL; [by apply kstrtoint_print_nl|].
    rewrite elem_of_app, list_elem_of_singleton. intros [Hin|]; [by apply fmt_d_NUL in Hin|done].
Qed.
End user.

(** The workload [workfunc] does no work: its inner loop runs while a result
    that starts at 0 is positive, so every turn ends at once with 0; it ends
    after [times] turns. *)
Theorem workload_is_empty times :
  is_i32 times →
  workfunc (Z.to_nat times) times [] = replicate (Z.to_nat times) 0.
Proof.
  intros Ht.
  assert (∀ n t res, is_i32 t → Z.to_nat t = n →
    workfunc n t res = res ++ replicate n 0) as Hgen; [|by apply (Hgen _ times [])].
  induction n as [|n IH]; intros t res Hi Hn; cbn [workfunc replicate].
  - by rewrite app_nil_r.
  - unfold is_i32, INT_MIN, INT_MAX in *. rewrite (proj2 (Z.ltb_lt 0 t)) by lia.
    rewrite i32_id by (unfold is_i32, INT_MIN, INT_MAX; lia).
    rewrite IH by lia. rewrite <- app_assoc. done.
Qed.
