(* ===== verification/Mp1Run.v ===== *)
(** * MP1: a concrete run

    The monitor loaded on the reference kernel with a few registered processes,
    and the MP1 theorems at these states. *)
From Stdlib Require Import Ascii String.
From stdpp Require Import base gmap sets list strings.
From Stdlib Require Import ZArith Lia.
From S2P Require Import Prelude CString Kernel Mp1 Mp1State Mp1Entry Mp1Read Mp1Monitor Mp1User.
Import Reference.

Open Scope Z_scope.
Open Scope c_scope.

(** A clock of 250 ticks a second. *)
#[export] Instance ref_clock : Clock := { msecs_to_jiffies m := m / 4 }.

Definition stale_proc : proc_cpu := mkProc 77 88.

(** Pids 1 and 2 are alive, 3 is not. *)
Definition bare : @mp1 (Datatypes.list Z) :=
  mkMp1 0 [] 0 None 0 false empty_heap [] 1000
    (list_to_map [(1, 5001); (2, 5002)]) (list_to_map [(5001, 40); (5002, 50)]) [].

Definition boot : @mp1 (Datatypes.list Z) := state_of bare (mp1_init 11 12 bare).

(** Numbers written one after the other. *)
Fixpoint writes (l : Datatypes.list Z) : M (@mp1 (Datatypes.list Z)) unit :=
  match l with
  | [] => ret tt
  | p :: l' => mywrite stale_proc (Client.echoed p) ;! writes l'
  end.

Definition after_writes (l : Datatypes.list Z) : @mp1 (Datatypes.list Z) :=
  state_of bare (writes l boot).

(** Pids 1, 3 and 2 registered, and then the timer due. *)
Definition three : @mp1 (Datatypes.list Z) := after_writes [1; 3; 2].
Definition three_due : @mp1 (Datatypes.list Z) :=
  set_kernel 2250 (pids three) (tasks three) three.
Definition three_queued : @mp1 (Datatypes.list Z) :=
  state_of bare (tm_callback (set_tm None three_due)).

Lemma mp1_bare_kernel p t : pids bare !! p = Some t → t ≠ NULL ∧ is_Some (tasks bare !! t).
Proof.
  change (pids bare) with (list_to_map [(1, 5001); (2, 5002)] : gmap Z Z).
  cbn [list_to_map foldr fst snd]. rewrite !lookup_insert.
  repeat case_decide; intros [= <-]; (split; [done|by eexists]).
Qed.

Lemma boot_is_loaded : loaded boot.
Proof.
  apply (loaded_init 11 12 bare); [done|done|exact mp1_bare_kernel|done|]. by vm_compute.
Qed.

Lemma writes_steps l : ∀ s s',
  writes l s = Ok (tt, s') → rtc (λ s1 s2, ∃ e, step stale_proc e s1 s2) s s'.
Proof.
  induction l as [|p l IH]; intros s s' Hrun.
  - injection Hrun as <-. constructor.
  - cbn [writes] in Hrun. run_inv Hrun. eapply rtc_l; [|by apply IH].
    eexists. by eapply step_write.
Qed.

Lemma writes_reachable l s : writes l boot = Ok (tt, s) → reachable stale_proc s.
Proof. intros Hrun. exists boot. split; [apply boot_is_loaded|by eapply writes_steps]. Qed.

Lemma boot_reachable : reachable stale_proc boot.
Proof. by apply (writes_reachable []). Qed.

Lemma three_reachable : reachable stale_proc three.
Proof. apply (writes_reachable [1; 3; 2]). by vm_compute. Qed.

Lemma same_kernel j (s : @mp1 (Datatypes.list Z)) :
  kernel_ok s → step stale_proc Kernel s (set_kernel j (pids s) (tasks s) s).
Proof. intros Hk. apply step_kernel. exact Hk. Qed.

Lemma three_due_step : step stale_proc Kernel three three_due.
Proof.
  apply same_kernel. apply (wf_kernel (queue three)).
  apply (inv_wf three), (monitor_reachable_inv stale_proc three three_reachable).
Qed.

Lemma three_queued_reachable : reachable stale_proc three_queued.
Proof.
  destruct three_reachable as (s0 & Hl & Hr). exists s0. split; [exact Hl|].
  eapply rtc_r; [eapply rtc_r; [exact Hr|]|].
  - exists Kernel. apply three_due_step.
  - exists Tick. apply (step_tick stale_proc 2250); by vm_compute.
Qed.

(** ** Witnesses *)

Lemma spec_work_inv cpu r r' : spec_step cpu Work r r' → r' = refresh cpu r.
Proof. by inversion 1. Qed.

Lemma monitor_refines_registry_witness :
  ∃ s', wq_callback 4100 (set_queue [] three_queued) = Ok (tt, s') ∧
    registry s' = [(1, 40); (2, 50)].
Proof.
  destruct (monitor_refines_registry stale_proc) as [_ Hstep].
  destruct (wq_callback 4100 (set_queue [] three_queued)) as [[[] s']|e] eqn:Hrun;
    [|vm_compute in Hrun; discriminate].
  exists s'. split; [reflexivity|].
  assert (step stale_proc Work three_queued s') as Hs
    by (apply (step_work stale_proc 4100 []); [by vm_compute|exact Hrun]).
  specialize (Hstep Work three_queued s' three_queued_reachable Hs).
  apply spec_work_inv in Hstep. rewrite Hstep. by vm_compute.
Defined.

Lemma monitor_invariant_witness :
  NoDup (nodes three ++ queue three) ∧ size three = i32 (Z.of_nat (length (nodes three))).
Proof.
  destruct (monitor_invariant stale_proc three three_reachable) as (Hn & _ & Hs & _).
  split; [exact Hn|exact Hs].
Defined.

Lemma update_happens_witness :
  ∃ s1 s2, step stale_proc Tick three_due s1 ∧ step stale_proc Work s1 s2 ∧
    registry s2 = refresh (cpu_time three_due) (registry three_due) ∧ queue s2 = [].
Proof.
  assert (reachable stale_proc three_due) as Hr.
  { destruct three_reachable as (s0 & Hl & Hsteps). exists s0. split; [exact Hl|].
    eapply rtc_r; [exact Hsteps|]. exists Kernel. apply three_due_step. }
  destruct (update_happens stale_proc three_due 2250 4100 Hr) as (s1 & s2 & H1 & H2 & H3 & _ & H5);
    [by vm_compute..|].
  exists s1, s2. split_and!; assumption.
Defined.

Lemma idle_exit_frees_all_witness :
  ∃ s', mp1_exit three = Ok (tt, s') ∧ mem s' = ∅.
Proof.
  destruct (idle_exit_frees_all stale_proc three three_reachable) as (s' & Hrun & _ & Hm & _);
    [by vm_compute|].
  exists s'. split; [exact Hrun|exact Hm].
Defined.

Lemma busy_exit_deadlocks_witness : mp1_exit three_queued = Oops Deadlock.
Proof.
  apply (busy_exit_deadlocks stale_proc three_queued three_queued_reachable). by vm_compute.
Defined.

Lemma three_wf : wf (queue three) three ∧ lock three = false.
Proof.
  pose proof (monitor_reachable_inv stale_proc three three_reachable) as Hi.
  split; [apply (inv_wf three Hi)|apply (inv_lock three Hi)].
Qed.

Lemma status_contents_witness :
  ∃ s', myread 0 three =
    Ok ((str "PID1: 0 ms " ++ newline :: str "PID3: 0 ms " ++ newline ::
         str "PID2: 0 ms " ++ [newline; NUL], 37, 36), s').
Proof.
  destruct three_wf as [Hw Hl].
  destruct (status_contents (queue three) three 4100 Hw Hl) as [Hread _];
    [by vm_compute|by vm_compute|by vm_compute|].
  exists (read_done three). rewrite Hread by (apply Nat.ltb_lt; by vm_compute). by vm_compute.
Defined.

(** The same number registered many times. *)
Definition crowd : @mp1 (Datatypes.list Z) := after_writes (replicate 171 1).

Lemma status_capacity_witness :
  (∃ r s', myread 0 three = Ok (r, s')) ∧ myread 0 crowd = Oops OutOfBounds.
Proof.
  destruct three_wf as [Hw Hl]. split.
  - destruct (status_capacity (queue three) three 4100 Hw Hl) as [Hread _];
      [by vm_compute|by vm_compute|by vm_compute|].
    apply Hread. apply Nat.leb_le. by vm_compute.
  - assert (reachable stale_proc crowd) as Hr
      by (apply (writes_reachable (replicate 171 1)); by vm_compute).
    pose proof (monitor_reachable_inv stale_proc crowd Hr) as Hi.
    destruct (status_capacity (queue crowd) crowd 4268 (inv_wf crowd Hi) (inv_lock crowd Hi))
      as [_ Hover]; [by vm_compute|by vm_compute|by vm_compute|].
    apply Hover. apply Nat.leb_le. by vm_compute.
Defined.

Lemma empty_status_unread_witness :
  myread 0 boot = Ok ((errinfo ++ [NUL], 0, 24), boot) ∧ myread 5 three = Ok (([], 0, 5), three).
Proof.
  split.
  - destruct (empty_status_unread boot 0) as [Hread _]; [done|]. apply Hread. by vm_compute.
  - destruct (empty_status_unread three 5) as [_ Hread]; [done|]. by apply Hread; vm_compute.
Defined.

Lemma client_registers_witness :
  ∃ s', mywrite stale_proc (Client.echoed 2) three = Ok (2, s') ∧
    registry s' = [(1, 0); (3, 0); (2, 0); (2, 0)].
Proof.
  destruct three_wf as [Hw Hl].
  assert (next_block three = Some 4100) as Hb by by vm_compute.
  assert (is_i32 2) as H2 by (clear; by vm_compute).
  destruct (client_registers stale_proc (queue three) three 2 0 0 [] 4100 (Client.mkClient [])
    Hw Hl H2 Hb) as [_ (s' & Hrun & Hreg)].
  exists s'. split; [exact Hrun|]. rewrite Hreg. by vm_compute.
Defined.

Lemma workload_is_empty_witness : Client.workfunc 3 3 [] = [0; 0; 0].
Proof. apply (workload_is_empty 3). by vm_compute. Defined.
