(* ===== verification/Mp2.v ===== *)
(** * MP2: the rate-monotonic scheduler module

    src/MP2/mp2.c and src/MP2/mp2_given.h, function by function, over a record
    of the module's globals.  [LOCK_FREE] is defined in the source, so the spin
    lock macros are empty.  The kernel calls that have no effect on the globals
    are logged in [calls] in the order they are made. *)
From Stdlib Require Import Ascii String.
From stdpp Require Import base gmap sets list strings.
From Stdlib Require Import ZArith Lia.
From S2P Require Import Prelude CString Kernel.

Open Scope Z_scope.
Open Scope c_scope.

Section mp2.
Context {L : Type} `{!KList L, !KConst, !Allocator, !Kstrto}.

(** ** Data *)

Definition READY : Z := 1.
Definition RUNNING : Z := 2.
Definition SLEEPING : Z := 0.

(** [tm] is the expiry of a pending timer. *)
Record mp2_task_struct : Type := mkTask {
  tsk : Z;
  tm : option Z;
  period : Z;
  computation : Z;
  pid : Z;
  state : Z;
  next_period : Z
}.

Definition set_tsk x t := mkTask x (tm t) (period t) (computation t) (pid t) (state t) (next_period t).
Definition set_tm x t := mkTask (tsk t) x (period t) (computation t) (pid t) (state t) (next_period t).
Definition set_period x t := mkTask (tsk t) (tm t) x (computation t) (pid t) (state t) (next_period t).
Definition set_computation x t := mkTask (tsk t) (tm t) (period t) x (pid t) (state t) (next_period t).
Definition set_pid x t := mkTask (tsk t) (tm t) (period t) (computation t) x (state t) (next_period t).
Definition set_state x t := mkTask (tsk t) (tm t) (period t) (computation t) (pid t) x (next_period t).
Definition set_next_period x t := mkTask (tsk t) (tm t) (period t) (computation t) (pid t) (state t) x.

Inductive policy : Type := SCHED_NORMAL | SCHED_FIFO.
Inductive task_state : Type := TASK_INTERRUPTIBLE | TASK_UNINTERRUPTIBLE.

(** The kernel calls a path makes, on task_struct pointers. *)
Inductive kcall : Type :=
  | WakeUp (p : Z)
  | SetScheduler (p : Z) (pol : policy) (prio : Z)
  | SetTaskState (p : Z) (st : task_state)
  | SetCurrentState (st : task_state)
  | Schedule
  | ProcRemove (entry : Z)
  | KthreadStop (p : Z)
  | CacheDestroy (c : Z).

(** The globals of mp2.c; then what the module sees of the kernel: the heap
    its slab cache serves, the clock, the pid table ([find_vpid]), the live
    task_structs, and the calls made. *)
Record mp2 : Type := mkMp2 {
  fp : Z;
  dir : Z;
  HEAD : L;
  dispatch_kth : Z;
  denominator : Z;
  numerator : Z;
  curr_tsk : Z;
  mycache : Z;
  slab : heap mp2_task_struct;
  jiffies : Z;
  pids : gmap Z Z;
  tasks : gset Z;
  calls : list kcall
}.

Definition set_proc f d s := mkMp2 f d (HEAD s) (dispatch_kth s) (denominator s) (numerator s) (curr_tsk s) (mycache s) (slab s) (jiffies s) (pids s) (tasks s) (calls s).
Definition set_HEAD x s := mkMp2 (fp s) (dir s) x (dispatch_kth s) (denominator s) (numerator s) (curr_tsk s) (mycache s) (slab s) (jiffies s) (pids s) (tasks s) (calls s).
Definition set_dispatch_kth x s := mkMp2 (fp s) (dir s) (HEAD s) x (denominator s) (numerator s) (curr_tsk s) (mycache s) (slab s) (jiffies s) (pids s) (tasks s) (calls s).
Definition set_denominator x s := mkMp2 (fp s) (dir s) (HEAD s) (dispatch_kth s) x (numerator s) (curr_tsk s) (mycache s) (slab s) (jiffies s) (pids s) (tasks s) (calls s).
Definition set_numerator x s := mkMp2 (fp s) (dir s) (HEAD s) (dispatch_kth s) (denominator s) x (curr_tsk s) (mycache s) (slab s) (jiffies s) (pids s) (tasks s) (calls s).
Definition set_curr_tsk x s := mkMp2 (fp s) (dir s) (HEAD s) (dispatch_kth s) (denominator s) (numerator s) x (mycache s) (slab s) (jiffies s) (pids s) (tasks s) (calls s).
Definition set_mycache x s := mkMp2 (fp s) (dir s) (HEAD s) (dispatch_kth s) (denominator s) (numerator s) (curr_tsk s) x (slab s) (jiffies s) (pids s) (tasks s) (calls s).
Definition set_slab x s := mkMp2 (fp s) (dir s) (HEAD s) (dispatch_kth s) (denominator s) (numerator s) (curr_tsk s) (mycache s) x (jiffies s) (pids s) (tasks s) (calls s).
Definition set_jiffies x s := mkMp2 (fp s) (dir s) (HEAD s) (dispatch_kth s) (denominator s) (numerator s) (curr_tsk s) (mycache s) (slab s) x (pids s) (tasks s) (calls s).
Definition set_procs p t s := mkMp2 (fp s) (dir s) (HEAD s) (dispatch_kth s) (denominator s) (numerator s) (curr_tsk s) (mycache s) (slab s) (jiffies s) p t (calls s).
Definition log c s := mkMp2 (fp s) (dir s) (HEAD s) (dispatch_kth s) (denominator s) (numerator s) (curr_tsk s) (mycache s) (slab s) (jiffies s) (pids s) (tasks s) (calls s ++ [c]).

#[export, refine] Instance mp2_heap : HasHeap mp2 mp2_task_struct := {
  heap_of := slab; with_heap := set_slab }.
Proof. all: intros; try done. by destruct s. Defined.

(** ** Kernel calls *)

(** A call that dereferences a task_struct pointer. *)
Definition on_task (p : Z) (c : kcall) : M mp2 unit := λ s,
  if p =? NULL then Oops NullDeref
  else if decide (p ∈ tasks s) then Ok (tt, log c s) else Oops BadAccess.

Definition wake_up_process (p : Z) : M mp2 unit := on_task p (WakeUp p).
Definition sched_setscheduler (p : Z) (pol : policy) (prio : Z) : M mp2 unit :=
  on_task p (SetScheduler p pol prio).
Definition set_task_state (p : Z) (st : task_state) : M mp2 unit :=
  on_task p (SetTaskState p st).
Definition schedule : M mp2 unit := modify (log Schedule).

(** The macros of lines 18-23, with [LOCK_FREE] defined. *)
Definition spin_lock : M mp2 unit := ret tt.
Definition spin_unlock : M mp2 unit := ret tt.

(** [kmem_cache_alloc(mycache, ...)] and [kmem_cache_free(mycache, ...)]. *)
Definition kmem_cache_alloc (stale : mp2_task_struct) : M mp2 Z :=
  let! c := gets mycache in
  if c =? NULL then fail NullDeref else kmalloc stale.
Definition kmem_cache_free (p : Z) : M mp2 unit :=
  let! c := gets mycache in
  if c =? NULL then fail NullDeref else kfree p.

(** List insertion and removal write to the node of the container [p]. *)
Definition head_add_tail (p : Z) : M mp2 unit :=
  let! _ := load p in modify (λ s, set_HEAD (list_add_tail p (HEAD s)) s).
Definition head_del (p : Z) : M mp2 unit :=
  let! _ := load p in modify (λ s, set_HEAD (list_del p (HEAD s)) s).

(** ** mp2_given.h *)

Definition find_task_by_pid (nr : Z) : M mp2 Z :=
  let! s := get in ret (default NULL (pids s !! i32 nr)).

(** ** Admission control *)

(** [numerator] and [denominator] are [unsigned long]; the parameters are
    [unsigned int], so [computation * 1000 <= 693 * period] is computed on 32
    bits and the other products on 64. *)
Definition admission_control (period computation pid flag : Z) : M mp2 Z :=
  let! num := gets numerator in
  let! den := gets denominator in
  if flag =? 1 then
    (if u64 (num * period) <=? u64 (computation * den)
     then modify (set_numerator 0)
     else
       modify (set_numerator (u64 (u64 (num * period) - u64 (computation * den)))) ;!
       modify (set_denominator (u64 (den * period)))) ;!
    ret 1
  else if num =? 0 then
    if u32 (computation * 1000) <=? u32 (693 * period) then
      modify (set_denominator period) ;!
      modify (set_numerator computation) ;!
      ret 0
    else ret 1
  else
    let curr_den := u64 (den * period) in
    let curr_n := u64 (u64 (num * period) + u64 (computation * den)) in
    if u64 (curr_n * 1000) <=? u64 (693 * curr_den) then
      modify (set_numerator curr_n) ;!
      modify (set_denominator curr_den) ;!
      ret 0
    else ret 1.

(** ** Callbacks and entries *)

Definition tm_callback (data : Z) : M mp2 unit :=
  let! t := load data in
  when (state t =? SLEEPING) (update data (set_state READY)) ;!
  let! d := gets dispatch_kth in
  wake_up_process d.

Definition del_timer_sync (p : Z) : M mp2 unit := update p (set_tm None).
Definition setup_timer (p : Z) : M mp2 unit := update p (set_tm None).
Definition mod_timer (p expires : Z) : M mp2 unit := update p (set_tm (Some expires)).

Definition freeone (itr : Z) : M mp2 Z :=
  let! _ := load itr in
  del_timer_sync itr ;!
  head_del itr ;!
  kmem_cache_free itr ;!
  ret 0.

(** What the slab memory of a new block holds. *)
Variable stale : mp2_task_struct.

Definition reg_entry (pid period computation : Z) : M mp2 Z :=
  spin_lock ;!
  let! refused := admission_control period computation pid 0 in
  if negb (refused =? 0) then ret 1
  else
    let! tsk := kmem_cache_alloc stale in
    head_add_tail tsk ;!
    spin_unlock ;!
    update tsk (set_pid (u32 pid)) ;!
    update tsk (set_period period) ;!
    update tsk (set_computation computation) ;!
    let! task := find_task_by_pid (u32 pid) in
    update tsk (set_tsk task) ;!
    update tsk (set_next_period 0) ;!
    update tsk (set_state SLEEPING) ;!
    setup_timer tsk ;!
    ret 0.

(** The address of the first struct on the list with this pid, or NULL; the
    [int] argument is compared with an [unsigned int] field. *)
Definition find_by_pid (p : Z) : M mp2 Z :=
  let! s := get in
  if list_empty (HEAD s) then ret NULL
  else
    let! r := find_each (list_nodes (HEAD s)) (λ itr,
      let! t := load itr in
      ret (if pid t =? u32 p then Some itr else None)) in
    ret (default NULL r).

Definition set_task_sleep (p : Z) : M mp2 Z :=
  spin_lock ;!
  let! tmp := find_by_pid p in
  spin_unlock ;!
  if tmp =? NULL then ret 0
  else
    let! curr := gets curr_tsk in
    when (tmp =? curr) (modify (set_curr_tsk NULL)) ;!
    update tmp (set_state SLEEPING) ;!
    let! t := load tmp in
    set_task_state (tsk t) TASK_UNINTERRUPTIBLE ;!
    ret 1.

(** [(period * USER_HZ) / 1000], on [unsigned int]. *)
Definition period_jiffies (period : Z) : Z := u32 (period * USER_HZ) / 1000.

Definition yield_entry (p : Z) : M mp2 unit :=
  let! curr := gets curr_tsk in
  when (negb (curr =? NULL)) (let! _ := load curr in ret tt) ;!
  let! yield_tsk := find_by_pid p in
  let! t := load yield_tsk in
  (if next_period t =? 0 then
     let! now := gets jiffies in
     update yield_tsk (set_next_period (u64 (now + period_jiffies (period t)))) ;!
     update yield_tsk (set_state READY)
   else
     let! now := gets jiffies in
     when (now <? next_period t)
       (set_task_sleep p ;!
        let! t := load yield_tsk in
        mod_timer yield_tsk (next_period t)) ;!
     update yield_tsk (λ t,
       set_next_period (u64 (next_period t + period_jiffies (period t))) t)) ;!
  let! d := gets dispatch_kth in
  wake_up_process d ;!
  schedule.

Definition dereg_entry (p : Z) : M mp2 Z :=
  let! t := find_by_pid p in
  if t =? NULL then ret 1
  else
    let! curr := gets curr_tsk in
    when (t =? curr) (modify (set_curr_tsk NULL)) ;!
    let! v := load t in
    admission_control (period v) (computation v) (pid v) 1 ;!
    freeone t ;!
    let! d := gets dispatch_kth in
    wake_up_process d ;!
    ret 0.

(** ** The proc file *)

(** The loop of [findchar]: [fuel] is at least the bytes left to look at. *)
Fixpoint findchar_loop (fuel : nat) (s : list ascii) (c : ascii) (i : Z) : Z :=
  match fuel with
  | O => -1
  | Datatypes.S fuel' =>
      if i <? strlen s then
        if decide (nth (Z.to_nat i) s NUL = c) then i
        else findchar_loop fuel' s c (i + 1)
      else -1
  end.

Definition findchar (s : list ascii) (c : ascii) (start : Z) : Z :=
  findchar_loop (Z.to_nat (strlen s - start)) s c start.

(** [buff + off], as an argument of [kstrtoint]. *)
Definition arg_at (buff : list ascii) (off : Z) : M mp2 (list ascii) :=
  lift (string_at buff (Z.to_nat off)).

(** The three integers of a request: the locals [pid], [period] and
    [computation] after lines 284-300. *)
Definition parse_request (buff : list ascii) : M mp2 (Z * Z * Z) :=
  let second := findchar buff (ch ",") 2 in
  let third := findchar buff (ch ",") (second + 1) in
  if second =? -1 then
    let! a := arg_at buff 2 in
    ret (kstrtoint_into a 0, 0, 0)
  else if negb (third =? -1) && (third + 2 <? strlen buff) then
    let buff' := <[Z.to_nat third := NUL]> (<[Z.to_nat second := NUL]> buff) in
    let! a := arg_at buff' 2 in
    let! b := arg_at buff' (second + 1) in
    let! c := arg_at buff' (third + 1) in
    ret (kstrtoint_into a 0, kstrtoint_into b 0, kstrtoint_into c 0)
  else ret (0, 0, 0).

(** [ubuf] is what [copy_from_user] delivers, [len] bytes. *)
Definition mywrite (ubuf : list ascii) : M mp2 Z :=
  let buff := ubuf ++ [NUL] in
  let! (pid, period, computation) := parse_request buff in
  let op := hd NUL buff in
  (if decide (op = ch "R") then
     reg_entry pid (u32 period) (u32 computation) ;! ret tt
   else if decide (op = ch "Y") then yield_entry pid
   else if decide (op = ch "D") then dereg_entry pid ;! ret tt
   else ret tt) ;!
  ret (Z.of_nat (length ubuf)).

Definition buffsize : nat := 2048.

(** The bytes handed to [copy_to_user], the value returned and the new file
    offset. *)
Definition myread (offset : Z) : M mp2 (list ascii * Z * Z) :=
  if 0 <? offset then ret ([], 0, offset)
  else
    let! (tmp_p, tmpbuf) := kmalloc_buf buffsize in
    (if tmp_p =? NULL then fail NullDeref else ret tt) ;!
    let! tmpbuf := lift (put tmpbuf 0 [NUL]) in
    let! (buf_p, buf) := kmalloc_buf buffsize in
    let! s := get in
    let! (off, size, tmpbuf) :=
      (if list_empty (HEAD s) then ret (0%nat, 0, tmpbuf)
       else
         fold_each (list_nodes (HEAD s)) (0%nat, 0, tmpbuf) (λ '(off, size, tmpbuf) itr,
           let! t := load itr in
           let! tmpbuf := lift (sprintf tmpbuf off (fmt_d (pid t) ++ [newline])) in
           ret (length (c_str tmpbuf), i32 (size + 1), tmpbuf))) in
    (if buf_p =? NULL then fail NullDeref else ret tt) ;!
    let! buf := lift (sprintf buf 0 (fmt_d size ++ [newline])) in
    let n := length (c_str buf) in
    let total_len := (n + off)%nat in
    let! buf := lift (put buf n (take (off + 1) tmpbuf)) in
    ret (take (total_len + 1) buf, Z.of_nat total_len + 1, offset + (Z.of_nat total_len + 1)).

(** ** The dispatcher thread *)

Definition set_new_task (p : Z) : M mp2 unit :=
  let! t := load p in
  wake_up_process (tsk t) ;!
  update p (set_state RUNNING) ;!
  let! t := load p in
  sched_setscheduler (tsk t) SCHED_FIFO 99 ;!
  modify (set_curr_tsk p).

Definition set_old_task (p : Z) : M mp2 unit :=
  let! t := load p in
  when (state t =? RUNNING) (update p (set_state READY)) ;!
  let! t := load p in
  sched_setscheduler (tsk t) SCHED_NORMAL 0.

(** The list walk of [dispatch_fn]: the shortest period so far and the struct
    that has it. *)
Definition choose (acc : Z * Z) (itr : Z) : M mp2 (Z * Z) :=
  let '(min_period, next) := acc in
  let! t := load itr in
  ret (if negb (state t =? SLEEPING) && (period t <? min_period)
       then (period t, itr) else (min_period, next)).

Definition select_next : M mp2 Z :=
  let! s := get in
  let! (_, next) :=
    (if list_empty (HEAD s) then ret (INT_MAX, NULL)
     else fold_each (list_nodes (HEAD s)) (INT_MAX, NULL) choose) in
  ret next.

(** One turn of the loop of [dispatch_fn]. *)
Definition dispatch_body : M mp2 unit :=
  let! next := select_next in
  when (negb (next =? NULL)) (let! _ := load next in ret tt) ;!
  let! curr := gets curr_tsk in
  when (negb (next =? NULL) && negb (curr =? next))
    (when (negb (curr =? NULL)) (set_old_task curr) ;!
     set_new_task next) ;!
  modify (log (SetCurrentState TASK_INTERRUPTIBLE)) ;!
  schedule.

(** [dispatch_fn]: [others] is what the rest of the system does each time the
    thread sleeps in [schedule]; the list ends when [kthread_should_stop]
    answers true. *)
Fixpoint dispatch_fn (others : list (M mp2 unit)) : M mp2 Z :=
  match others with
  | [] => ret 0
  | o :: os => dispatch_body ;! o ;! dispatch_fn os
  end.

(** ** Loading and unloading *)

(** [thread] is what [kthread_create] returns. *)
Definition init_mykernel (thread : Z) : M mp2 unit :=
  modify (set_dispatch_kth thread) ;!
  let! d := gets dispatch_kth in
  if d =? NULL then ret tt else wake_up_process d.

(** [cache] is what [kmem_cache_create] returns. *)
Definition init_slab (cache : Z) : M mp2 unit := modify (set_mycache cache).

(** [d] and [f] are the proc entries, NULL when creation fails. *)
Definition mp2_init (d f cache thread : Z) : M mp2 Z :=
  modify (set_proc f d) ;!
  if f =? NULL then
    modify (log (ProcRemove d)) ;! ret (- ENOMEM)
  else
    modify (set_curr_tsk NULL) ;!
    modify (set_denominator 0) ;!
    modify (set_numerator 0) ;!
    modify (set_HEAD INIT_LIST_HEAD) ;!
    init_slab cache ;!
    init_mykernel thread ;!
    ret 0.

Definition freeall : M mp2 Z :=
  modify (set_curr_tsk NULL) ;!
  spin_lock ;!
  let! s := get in
  (if list_empty (HEAD s) then ret tt
   else for_each (list_nodes (HEAD s)) (λ itr, freeone itr ;! ret tt)) ;!
  spin_unlock ;!
  ret 0.

Definition mp2_exit : M mp2 Z :=
  let! s := get in
  modify (log (ProcRemove (fp s))) ;!
  modify (log (ProcRemove (dir s))) ;!
  freeall ;!
  modify (log (KthreadStop (dispatch_kth s))) ;!
  when (negb (mycache s =? NULL)) (modify (log (CacheDestroy (mycache s)))) ;!
  ret 0.
End mp2.
