(* ===== verification/Mp2Run.v ===== *)
(** * MP2: a concrete run

    The module loaded on the reference kernel, and a few registered tasks: the
    states at which the MP2 theorems are instantiated. *)
From Stdlib Require Import Ascii String.
From stdpp Require Import base gmap sets list strings.
From Stdlib Require Import ZArith Lia.
From S2P Require Import Prelude CString Kernel Mp2.
Import Reference.

Open Scope Z_scope.
Open Scope c_scope.

Definition stale_task : mp2_task_struct := mkTask 1 (Some 7) 8 9 10 RUNNING 3.

(** The dispatcher is the task at 5000; pids 1, 2 and 3 are alive. *)
Definition bare : @mp2 (list Z) :=
  mkMp2 0 0 [] 0 9 9 9 0 empty_heap 1000
    (list_to_map [(1, 5001); (2, 5002); (3, 5003)])
    (list_to_set [5000; 5001; 5002; 5003]) [].

(** After [mp2_init] with proc entries 11 and 12, cache 13 and thread 5000. *)
Definition boot : @mp2 (list Z) := state_of bare (mp2_init 11 12 13 5000 bare).

(** A sequence of writes to the proc file. *)
Fixpoint writes (l : list (list ascii)) : M (@mp2 (list Z)) unit :=
  match l with
  | [] => ret tt
  | b :: l' => mywrite stale_task b ;! writes l'
  end.

Definition line (s : string) : list ascii := str s ++ [newline].

(** Task 1 has period 500 and computation 86, task 2 has 300 and 43. *)
Definition two_tasks : @mp2 (list Z) :=
  state_of bare (writes [line "R,1,500,86"; line "R,2,300,43"] boot).

(** Both have yielded once, so both are READY. *)
Definition two_ready : @mp2 (list Z) :=
  state_of bare (writes [line "Y,1"; line "Y,2"] two_tasks).
