(* ===== verification/Mp2State.v ===== *)
(** * MP2: the invariant of the module's state

    What every operation of src/MP2/mp2.c keeps: the list holds exactly the
    allocated structs, once each; [curr_tsk] is NULL or a registered struct;
    only the current task is RUNNING.  Each operation comes with its behaviour
    on such a state, in the form the other MP2 files use. *)
From Stdlib Require Import Ascii String.
From stdpp Require Import base gmap sets list strings.
From Stdlib Require Import ZArith Lia.
From S2P Require Import Prelude CString Kernel Mp2.

Open Scope Z_scope.
Open Scope c_scope.

Definition nodes {L} `{!KList L} (s : @mp2 L) : list Z := list_nodes (HEAD s).

Definition valid_state (x : Z) : Prop := x = SLEEPING ∨ x = READY ∨ x = RUNNING.

Record wf {L} `{!KList L} (s : @mp2 L) : Prop := mkWf {
  wf_nodup : NoDup (nodes s);
  wf_dom : ∀ a, a ∈ nodes s ↔ is_Some (mem s !! a);
  wf_null : mem s !! NULL = None;
  wf_curr : curr_tsk s = NULL ∨ curr_tsk s ∈ nodes s;
  wf_running : ∀ a t, mem s !! a = Some t → state t = RUNNING → curr_tsk s = a;
  wf_valid : ∀ a t, mem s !! a = Some t → valid_state (state t);
  wf_cache : mycache s ≠ NULL
}.

(** Puts a state in constructor form, so that the models compute. *)
Ltac open_state s :=
  let m := fresh "m" in let n := fresh "n" in
  destruct s as [? ? ? ? ? ? ? ? [m n] ? ? ? ?];
  unfold mem, set_mem in *; simpl in *.

(** Computes field updates and projections. *)
Ltac mp2_norm :=
  cbv [set_proc set_HEAD set_dispatch_kth set_denominator set_numerator set_curr_tsk
       set_mycache set_slab set_jiffies set_procs log
       fp dir HEAD dispatch_kth denominator numerator curr_tsk mycache slab jiffies pids
       tasks calls
       set_tsk set_tm set_period set_computation set_pid set_state set_next_period
       tsk tm period computation pid state next_period
       mem set_mem heap_of with_heap mp2_heap blocks n_alloc].

(** Runs a path whose blocks are known. *)
Ltac mp2_run :=
  repeat (wp_pure; mp2_norm; try wp_heap mp2_norm; mp2_norm; rewrite ?insert_insert_eq).

Section state.
Context {L : Type} `{!KList L, !KConst, !Allocator, !Kstrto}.
Context `{!KListLaws L, !KConstLaws, !AllocatorLaws, !KstrtoLaws}.
Implicit Types s : @mp2 L.

(** ** Consequences of the invariant *)

Lemma wf_node s a : wf s → a ∈ nodes s → a ≠ NULL ∧ ∃ t, mem s !! a = Some t.
Proof.
  intros Hw Ha. apply (wf_dom s Hw) in Ha as [t Ht]. split; [|by exists t].
  intros ->. by rewrite (wf_null s Hw) in Ht.
Qed.

Lemma wf_lookup s a t : wf s → mem s !! a = Some t → a ≠ NULL ∧ a ∈ nodes s.
Proof.
  intros Hw Ht. split; [|apply (wf_dom s Hw); by eexists].
  intros ->. by rewrite (wf_null s Hw) in Ht.
Qed.

(** Two RUNNING structs are the same struct. *)
Lemma wf_one_running s a b t u :
  wf s → mem s !! a = Some t → mem s !! b = Some u →
  state t = RUNNING → state u = RUNNING → a = b.
Proof.
  intros Hw Ha Hb Ht Hu.
  by rewrite <- (wf_running s Hw a t Ha Ht), (wf_running s Hw b u Hb Hu).
Qed.

(** The invariant depends on four fields. *)
Lemma wf_ext s s' :
  HEAD s' = HEAD s → mem s' = mem s → curr_tsk s' = curr_tsk s →
  mycache s' = mycache s → wf s → wf s'.
Proof.
  intros HH Hm Hc Hk [? ? ? ? ? ? ?]. unfold nodes in *.
  split; unfold nodes; rewrite ?HH, ?Hm, ?Hc, ?Hk; done.
Qed.

(** With nothing registered. *)
Lemma wf_fresh s :
  mem s = ∅ → HEAD s = INIT_LIST_HEAD → curr_tsk s = NULL → mycache s ≠ NULL → wf s.
Proof.
  intros Hm HH Hc Hk. split; unfold nodes; rewrite ?HH, ?Hm, ?Hc, ?nodes_init; try done.
  - constructor.
  - intros a. rewrite lookup_empty. split; [by intros ?%elem_of_nil | by intros []].
  - by left.
Qed.

(** Changing one struct, and perhaps which one is current. *)
Lemma wf_change s s' a t t' :
  wf s → mem s !! a = Some t →
  HEAD s' = HEAD s → mem s' = <[a := t']> (mem s) → mycache s' = mycache s →
  valid_state (state t') →
  (curr_tsk s' = NULL ∨ curr_tsk s' ∈ nodes s) →
  (state t' = RUNNING → curr_tsk s' = a) →
  (∀ b u, b ≠ a → mem s !! b = Some u → state u = RUNNING → curr_tsk s' = b) →
  wf s'.
Proof.
  intros [Hn Hd Hz Hc Hr Hv Hk] Ha HH Hm Hmc Hvt Hcu Hrt Hro.
  split; rewrite ?Hm, ?Hmc; unfold nodes; rewrite ?HH; fold (nodes s); try done.
  - intros b. rewrite Hd, lookup_insert. case_decide as Hb; [subst|done].
    rewrite Ha. split; intros; by eexists.
  - rewrite lookup_insert_ne; [done|]. intros ->. congruence.
  - intros b u. rewrite lookup_insert. case_decide as Hb; [|naive_solver].
    subst. by intros [= ->].
  - intros b u. rewrite lookup_insert. case_decide as Hb; [|apply Hv].
    by intros [= ->].
Qed.

(** ** Looking up a pid *)

Definition has_pid (m : gmap Z mp2_task_struct) (p a : Z) : option Z :=
  match m !! a with
  | Some t => if pid t =? u32 p then Some a else None
  | None => None
  end.

(** The first registered struct with the pid. *)
Definition first_with_pid s (p : Z) : option Z := find_map (has_pid (mem s) p) (nodes s).

Lemma find_by_pid_run s p :
  wf s → find_by_pid p s = Ok (default NULL (first_with_pid s p), s).
Proof.
  intros Hw. unfold find_by_pid, bind, get. simpl.
  unfold first_with_pid. fold (nodes s).
  destruct (list_empty (HEAD s)) eqn:He.
  - apply nodes_empty in He. unfold nodes. by rewrite He.
  - rewrite (find_each_read _ (has_pid (mem s) p)); [done|].
    intros a Ha. apply (wf_node s a Hw) in Ha as [Hnn [t Ht]].
    unfold bind, load, has_pid. rewrite (proj2 (Z.eqb_neq a NULL) Hnn), Ht. done.
Qed.

Lemma first_with_pid_Some s p a :
  wf s → first_with_pid s p = Some a →
  a ∈ nodes s ∧ ∃ t, mem s !! a = Some t ∧ pid t = u32 p.
Proof.
  intros Hw (pre & x & post & Hl & Hx & _)%find_map_Some.
  unfold has_pid in Hx. cases. split; [|by eexists].
  rewrite Hl. set_solver.
Qed.

Lemma first_with_pid_None s p :
  wf s → first_with_pid s p = None → ∀ a t, mem s !! a = Some t → pid t ≠ u32 p.
Proof.
  intros Hw Hf a t Ht Hp. pose proof (proj1 (find_map_None _ _) Hf a) as Hn.
  unfold has_pid in Hn. rewrite Ht, (proj2 (Z.eqb_eq _ _) Hp) in Hn.
  discriminate Hn. by eapply wf_lookup.
Qed.

(** ** Registration *)

(** A registration is refused without effect or accepted with new sums; a
    removal always answers 1. *)
Lemma admission_control_cases per comp p s :
  admission_control per comp p 0 s = Ok (1, s) ∨
  ∃ n d, admission_control per comp p 0 s =
    Ok (0, set_numerator n (set_denominator d s)).
Proof.
  open_state s. unfold admission_control, bind, gets, modify, ret. simpl.
  cases; first [by left | right; by do 2 eexists].
Qed.

Lemma admission_control_release per comp p s :
  ∃ n d, admission_control per comp p 1 s =
    Ok (1, set_numerator n (set_denominator d s)).
Proof.
  open_state s. unfold admission_control, bind, gets, modify, ret. simpl.
  cases; by do 2 eexists.
Qed.

(** The struct [reg_entry] puts on the list. *)
Definition new_task s (p per comp : Z) : mp2_task_struct :=
  mkTask (default NULL (pids s !! i32 p)) None per comp (u32 p) SLEEPING 0.

(** The part of [reg_entry] after the admission. *)
Definition enlist (stale : mp2_task_struct) (p per comp : Z) : M (@mp2 L) Z :=
  let! tsk := kmem_cache_alloc stale in
  head_add_tail tsk ;!
  update tsk (set_pid (u32 p)) ;!
  update tsk (set_period per) ;!
  update tsk (set_computation comp) ;!
  let! task := find_task_by_pid (u32 p) in
  update tsk (set_tsk task) ;!
  update tsk (set_next_period 0) ;!
  update tsk (set_state SLEEPING) ;!
  setup_timer tsk ;!
  ret 0.

Lemma reg_entry_admitted stale s s1 p per comp :
  admission_control per comp p 0 s = Ok (0, s1) →
  reg_entry stale p per comp s = enlist stale p per comp s1.
Proof.
  intros Hadm. unfold reg_entry, enlist, spin_lock, spin_unlock, bind, ret.
  rewrite Hadm. cbn. destruct (kmem_cache_alloc stale s1) as [[a s2]|]; [|done].
  by destruct (head_add_tail a s2) as [[[] s3]|].
Qed.

(** The state with the new struct at [a]. *)
Definition enlisted (a p per comp : Z) s : @mp2 L :=
  mkMp2 (fp s) (dir s) (list_add_tail a (HEAD s)) (dispatch_kth s) (denominator s) (numerator s)
    (curr_tsk s) (mycache s)
    (mkHeap (<[a := new_task s p per comp]> (mem s)) (Datatypes.S (n_alloc (slab s))))
    (jiffies s) (pids s) (tasks s) (calls s).

Lemma enlist_run stale s p per comp a :
  mycache s ≠ NULL → alloc_addr (n_alloc (slab s)) (dom (mem s)) = Some a →
  enlist stale p per comp s = Ok (0, enlisted a p per comp s).
Proof.
  intros Hc Ha. pose proof (alloc_not_null _ _ _ Ha) as Hnn.
  open_state s. apply run_of_wp. unfold enlist, kmem_cache_alloc. mp2_run.
  rewrite (proj2 (Z.eqb_neq _ _) Hc).
  eapply wp_of_run.
  { unfold kmalloc. mp2_norm. by rewrite Ha. }
  unfold head_add_tail, find_task_by_pid, setup_timer.
  mp2_run. unfold enlisted, new_task. mp2_norm. by rewrite i32_u32.
Qed.

(** An allocation failure is not tested for. *)
Lemma enlist_no_memory stale s p per comp :
  mycache s ≠ NULL → alloc_addr (n_alloc (slab s)) (dom (mem s)) = None →
  enlist stale p per comp s = Oops NullDeref.
Proof.
  intros Hc Ha. open_state s. unfold enlist, kmem_cache_alloc, kmalloc, bind, ret, gets.
  simpl. rewrite (proj2 (Z.eqb_neq _ _) Hc). mp2_norm. by rewrite Ha.
Qed.

Lemma reg_entry_run stale s p per comp n d a :
  admission_control per comp p 0 s = Ok (0, set_numerator n (set_denominator d s)) →
  mycache s ≠ NULL →
  alloc_addr (n_alloc (slab s)) (dom (mem s)) = Some a →
  reg_entry stale p per comp s =
    Ok (0, mkMp2 (fp s) (dir s) (list_add_tail a (HEAD s)) (dispatch_kth s) d n
             (curr_tsk s) (mycache s)
             (mkHeap (<[a := new_task s p per comp]> (mem s))
                     (Datatypes.S (n_alloc (slab s))))
             (jiffies s) (pids s) (tasks s) (calls s)).
Proof.
  intros Hadm Hc Ha. rewrite (reg_entry_admitted stale s _ p per comp Hadm).
  exact (enlist_run stale (set_numerator n (set_denominator d s)) p per comp a Hc Ha).
Qed.

(** A refused registration changes nothing. *)
Lemma reg_entry_refused stale s p per comp :
  admission_control per comp p 0 s = Ok (1, s) →
  reg_entry stale p per comp s = Ok (1, s).
Proof.
  intros Hadm. apply run_of_wp. unfold reg_entry, spin_lock. wp_pure.
  eapply wp_of_run; [exact Hadm|]. simpl. by wp_pure.
Qed.

Lemma reg_entry_no_memory stale s p per comp n d :
  admission_control per comp p 0 s = Ok (0, set_numerator n (set_denominator d s)) →
  mycache s ≠ NULL →
  alloc_addr (n_alloc (slab s)) (dom (mem s)) = None →
  reg_entry stale p per comp s = Oops NullDeref.
Proof.
  intros Hadm Hc Ha. rewrite (reg_entry_admitted stale s _ p per comp Hadm).
  by apply enlist_no_memory.
Qed.

(** ** Kernel calls on task_structs *)

(** A task_struct pointer the kernel can follow. *)
Definition live s (p : Z) : Prop := p ≠ NULL ∧ p ∈ tasks s.

Lemma wp_on_task p c (Q : unit → @mp2 L → Prop) E s :
  permits E (live s p) → Q tt (log c s) → wp (on_task p c) Q E s.
Proof.
  unfold wp, on_task, live. intros [[Hp Hl]|HE] HQ.
  - by rewrite (proj2 (Z.eqb_neq _ _) Hp), decide_True.
  - destruct (p =? NULL); [done|]. case_decide; done.
Qed.

(** ** Removal *)

Lemma freeone_run s a t :
  mycache s ≠ NULL → a ≠ NULL → mem s !! a = Some t →
  freeone a s = Ok (0, set_HEAD (list_del a (HEAD s)) (set_mem (delete a (mem s)) s)).
Proof.
  intros Hc Hnn Ht. open_state s. apply run_of_wp.
  unfold freeone, del_timer_sync, head_del, kmem_cache_free.
  mp2_run. rewrite (proj2 (Z.eqb_neq _ _) Hc). mp2_run.
  by rewrite delete_insert_eq.
Qed.

Definition forget_curr (a : Z) s : @mp2 L :=
  if a =? curr_tsk s then set_curr_tsk NULL s else s.

Lemma dereg_entry_unknown s p :
  wf s → first_with_pid s p = None → dereg_entry p s = Ok (1, s).
Proof.
  intros Hw Hf. unfold dereg_entry, bind. by rewrite find_by_pid_run, Hf.
Qed.

Lemma dereg_entry_run E s p a t n d :
  wf s → first_with_pid s p = Some a → mem s !! a = Some t →
  permits E (live s (dispatch_kth s)) →
  admission_control (period t) (computation t) (pid t) 1 (forget_curr a s) =
    Ok (1, set_numerator n (set_denominator d (forget_curr a s))) →
  returns (dereg_entry p) E
    (0, log (WakeUp (dispatch_kth s))
          (set_HEAD (list_del a (HEAD s)) (set_mem (delete a (mem s))
            (set_numerator n (set_denominator d (forget_curr a s)))))) s.
Proof.
  intros Hw Hf Ht Hd Hadm. destruct (wf_lookup s a t Hw Ht) as [Hnn _].
  pose proof (wf_cache s Hw) as Hc.
  unfold returns, dereg_entry. wp_pure.
  eapply wp_of_run; [by apply find_by_pid_run|]. rewrite Hf. simpl.
  rewrite (proj2 (Z.eqb_neq _ _) Hnn). wp_pure.
  eapply wp_of_run with (a := tt) (s' := forget_curr a s).
  { unfold forget_curr. by destruct (a =? curr_tsk s). }
  assert (mem (forget_curr a s) = mem s) as Hm by (unfold forget_curr; by case_match).
  assert (HEAD (forget_curr a s) = HEAD s) as HH by (unfold forget_curr; by case_match).
  assert (dispatch_kth (forget_curr a s) = dispatch_kth s) as Hk
    by (unfold forget_curr; by case_match).
  assert (tasks (forget_curr a s) = tasks s) as Hts by (unfold forget_curr; by case_match).
  assert (mycache (forget_curr a s) = mycache s) as Hmc
    by (unfold forget_curr; by case_match).
  wp_pure. eapply wp_load; [done | by rewrite Hm |]. wp_pure.
  eapply wp_of_run; [exact Hadm|]. wp_pure.
  eapply wp_of_run.
  { apply (freeone_run _ a t); [|done|].
    - change (mycache (forget_curr a s) ≠ NULL). by rewrite Hmc.
    - change (mem (forget_curr a s) !! a = Some t). by rewrite Hm. }
  wp_pure. unfold wake_up_process.
  change (dispatch_kth (set_HEAD _ _)) with (dispatch_kth (forget_curr a s)).
  rewrite Hk. apply wp_on_task.
  { unfold live. change (tasks (set_HEAD _ _)) with (tasks (forget_curr a s)).
    by rewrite Hts. }
  wp_pure. do 3 f_equal.
  - change (HEAD (set_numerator _ _)) with (HEAD (forget_curr a s)). by rewrite HH.
  - change (mem (set_numerator _ _)) with (mem (forget_curr a s)). by rewrite Hm.
Qed.

(** ** Yielding *)

(** What one yield makes of the caller's struct at time [now], where [conv]
    converts its period to jiffies. *)
Definition yielded_by (conv : Z → Z) (now : Z) (t : mp2_task_struct) : mp2_task_struct :=
  if next_period t =? 0 then
    set_state READY (set_next_period (u64 (now + conv (period t))) t)
  else
    let t' := if now <? next_period t
              then set_tm (Some (next_period t)) (set_state SLEEPING t) else t in
    set_next_period (u64 (next_period t + conv (period t))) t'.

Definition yielded : Z → mp2_task_struct → mp2_task_struct := yielded_by period_jiffies.

(** It goes to sleep iff it has been activated and its period is not over. *)
Definition sleeps (now : Z) (t : mp2_task_struct) : bool :=
  negb (next_period t =? 0) && (now <? next_period t).

Definition yield_calls s (t : mp2_task_struct) : list kcall :=
  (if sleeps (jiffies s) t then [SetTaskState (tsk t) TASK_UNINTERRUPTIBLE] else []) ++
  [WakeUp (dispatch_kth s); Schedule].

Definition add_calls (cs : list kcall) s : @mp2 L :=
  mkMp2 (fp s) (dir s) (HEAD s) (dispatch_kth s) (denominator s) (numerator s)
    (curr_tsk s) (mycache s) (slab s) (jiffies s) (pids s) (tasks s) (calls s ++ cs).

Lemma yield_entry_unknown s p :
  wf s → first_with_pid s p = None → yield_entry p s = Oops NullDeref.
Proof.
  intros Hw Hf. unfold yield_entry, bind, gets.
  assert (when (negb (curr_tsk s =? NULL)) (let! _ := load (curr_tsk s) in ret tt) s
          = Ok (tt, s)) as Hdbg.
  { destruct (wf_curr s Hw) as [->|Hc]; [done|].
    apply (wf_node s _ Hw) in Hc as [Hnn [t Ht]].
    rewrite (proj2 (Z.eqb_neq _ _) Hnn). simpl.
    unfold bind, load. by rewrite (proj2 (Z.eqb_neq _ _) Hnn), Ht. }
  unfold bind in Hdbg. rewrite Hdbg. by rewrite find_by_pid_run, Hf.
Qed.

Lemma set_task_sleep_run E s p a t :
  wf s → first_with_pid s p = Some a → mem s !! a = Some t → permits E (live s (tsk t)) →
  returns (set_task_sleep p) E
    (1, add_calls [SetTaskState (tsk t) TASK_UNINTERRUPTIBLE]
          (forget_curr a (set_mem (<[a := set_state SLEEPING t]> (mem s)) s))) s.
Proof.
  intros Hw Hf Ht Hl. destruct (wf_lookup s a t Hw Ht) as [Hnn _].
  unfold returns, set_task_sleep, spin_lock, spin_unlock. wp_pure.
  eapply wp_of_run; [by apply find_by_pid_run|]. rewrite Hf. simpl. wp_pure.
  rewrite (proj2 (Z.eqb_neq _ _) Hnn). clear Hw Hf.
  open_state s. unfold forget_curr. mp2_norm. unfold set_task_state.
  wp_pure. mp2_norm. destruct (a =? _); unfold when; mp2_run;
    by apply wp_on_task.
Qed.

Lemma wp_curr_debug s (Q : unit → @mp2 L → Prop) E :
  wf s → Q tt s →
  wp (when (negb (curr_tsk s =? NULL)) (let! _ := load (curr_tsk s) in ret tt)) Q E s.
Proof.
  intros Hw HQ. apply wp_when; [|done]. intros Hc%negb_true_iff%Z.eqb_neq.
  destruct (wf_curr s Hw) as [?|Hin]; [done|].
  apply (wf_node s _ Hw) in Hin as [_ [t Ht]].
  wp_pure. eapply wp_load; [done..|]. by wp_pure.
Qed.

Lemma yield_entry_run E s p a t :
  wf s → first_with_pid s p = Some a → mem s !! a = Some t →
  permits E (live s (dispatch_kth s)) →
  (sleeps (jiffies s) t = true → permits E (live s (tsk t))) →
  returns (yield_entry p) E
    (tt, add_calls (yield_calls s t)
      (set_mem (<[a := yielded (jiffies s) t]> (mem s))
         (if sleeps (jiffies s) t then forget_curr a s else s))) s.
Proof.
  intros Hw Hf Ht Hd Hl. destruct (wf_lookup s a t Hw Ht) as [Hnn _].
  unfold returns, yield_entry, schedule, wake_up_process. wp_pure.
  apply wp_curr_debug; [done|]. wp_pure.
  eapply wp_of_run; [by apply find_by_pid_run|]. rewrite Hf. simpl. wp_pure.
  eapply wp_load; [done..|]. wp_pure.
  unfold yielded, yielded_by, yield_calls, sleeps in *.
  destruct (next_period t =? 0) eqn:Hz; simpl in *.
  - clear Hw Hf Hl. open_state s. mp2_run.
    apply wp_on_task; [done|]. mp2_run. by rewrite <- app_assoc.
  - destruct (jiffies s <? next_period t) eqn:Hlt; simpl in *; wp_pure; rewrite Hlt.
    + unfold when. wp_pure.
      eapply wp_returns; [by apply (set_task_sleep_run E s p a t); [..|apply Hl]|].
      clear Hw Hf. open_state s. unfold forget_curr, add_calls, mod_timer. mp2_norm.
      destruct (a =? _); mp2_run; (apply wp_on_task; [done|]); mp2_run;
        by rewrite <- !app_assoc.
    + clear Hw Hf Hl. open_state s. unfold when. mp2_run.
      apply wp_on_task; [done|]. mp2_run. by rewrite <- app_assoc.
Qed.

(** ** The timer *)

Definition woken (t : mp2_task_struct) : mp2_task_struct :=
  if state t =? SLEEPING then set_state READY t else t.

Lemma tm_callback_run E s a t :
  a ≠ NULL → mem s !! a = Some t → permits E (live s (dispatch_kth s)) →
  returns (tm_callback a) E
    (tt, log (WakeUp (dispatch_kth s)) (set_mem (<[a := woken t]> (mem s)) s)) s.
Proof.
  intros Hnn Ht Hd. unfold returns, tm_callback, wake_up_process, woken.
  open_state s. mp2_run. unfold when. destruct (_ =? SLEEPING); mp2_run.
  - by apply wp_on_task.
  - rewrite insert_id by done. by apply wp_on_task.
Qed.

(** ** Choosing the next task *)

Definition choose_pure (m : gmap Z mp2_task_struct) (acc : Z * Z) (a : Z) : Z * Z :=
  match m !! a with
  | Some t => if negb (state t =? SLEEPING) && (period t <? fst acc) then (period t, a) else acc
  | None => acc
  end.

Definition best (m : gmap Z mp2_task_struct) (l : list Z) : Z :=
  snd (foldl (choose_pure m) (INT_MAX, NULL) l).

Lemma select_next_run s : wf s → select_next s = Ok (best (mem s) (nodes s), s).
Proof.
  intros Hw. unfold select_next, bind, get. simpl.
  destruct (list_empty (HEAD s)) eqn:He.
  - apply nodes_empty in He. unfold nodes, best. by rewrite He.
  - rewrite (fold_each_read _ (choose_pure (mem s))).
    + unfold best, nodes. by destruct (foldl _ _ _).
    + intros [q c] a Ha. apply (wf_node s a Hw) in Ha as [Hnn [t Ht]].
      unfold choose, bind, load, choose_pure.
      rewrite (proj2 (Z.eqb_neq _ _) Hnn), Ht. simpl. by case_match.
Qed.

(** A task the dispatcher may run. *)
Definition eligible (t : mp2_task_struct) : Prop := state t ≠ SLEEPING ∧ period t < INT_MAX.

(** [a] has the shortest period of the eligible tasks of [l], and is the
    first of those in list order. *)
Definition is_best (m : gmap Z mp2_task_struct) (l : list Z) (a : Z) : Prop :=
  ∃ pre post t, l = pre ++ a :: post ∧ m !! a = Some t ∧ eligible t ∧
    (∀ b u, b ∈ pre → m !! b = Some u → eligible u → period t < period u) ∧
    (∀ b u, b ∈ post → m !! b = Some u → eligible u → period t <= period u).

Lemma is_best_minimal m l a t b u :
  is_best m l a → m !! a = Some t → b ∈ l → m !! b = Some u → eligible u →
  period t <= period u.
Proof.
  intros (pre & post & t' & -> & Ht' & _ & Hlt & Hle) Ht Hb Hu He. simplify_eq.
  apply elem_of_app in Hb as [Hb|[->|Hb]%elem_of_cons].
  - apply Z.lt_le_incl. by eapply Hlt.
  - simplify_eq. lia.
  - by eapply Hle.
Qed.

Lemma is_best_keep m l a t c :
  is_best m l a → m !! a = Some t →
  (∀ v, m !! c = Some v → eligible v → period t <= period v) →
  is_best m (l ++ [c]) a.
Proof.
  intros (pre & post & t' & -> & Ht' & He & Hlt & Hle) Ht Hc.
  assert (t' = t) as -> by congruence.
  exists pre, (post ++ [c]), t. rewrite <- app_assoc. split_and!; [done..|].
  intros b u [Hb| ->%list_elem_of_singleton]%elem_of_app Hu Heu; [by eapply Hle | by apply Hc].
Qed.

Lemma is_best_new m l c v :
  m !! c = Some v → eligible v →
  (∀ b u, b ∈ l → m !! b = Some u → eligible u → period v < period u) →
  is_best m (l ++ [c]) c.
Proof.
  intros Hv He Hlt. exists l, [], v. split_and!; [done..|].
  intros b u Hb. by apply elem_of_nil in Hb.
Qed.

Lemma best_invariant m l :
  let '(q, a) := foldl (choose_pure m) (INT_MAX, NULL) l in
  (q = INT_MAX ∧ a = NULL ∧ ∀ b u, b ∈ l → m !! b = Some u → ¬ eligible u) ∨
  (is_best m l a ∧ ∃ t, m !! a = Some t ∧ eligible t ∧ q = period t).
Proof.
  induction l as [|c l IH] using rev_ind.
  - left. split_and!; [done..|]. intros b u Hb. by apply elem_of_nil in Hb.
  - rewrite foldl_app. simpl. destruct (foldl _ _ l) as [q a].
    assert (∀ v, m !! c = Some v → choose_pure m (q, a) c =
      if decide (state v ≠ SLEEPING ∧ period v < q) then (period v, c) else (q, a)) as Hch.
    { intros v Hv. unfold choose_pure. rewrite Hv. simpl.
      case_decide as Hd; case_match eqn:Hm; done || (exfalso; lia). }
    destruct (m !! c) as [v|] eqn:Hv; [rewrite (Hch v eq_refl); case_decide as Hs|].
    + right. split; [|exists v].
      * destruct IH as [(-> & -> & Hno)|[Hb (t & Ht & [_ He] & ->)]];
          (apply (is_best_new m l c v); [done | split; unfold eligible in *; lia |]).
        -- intros b u Hin Hu Heu. by destruct (Hno b u Hin Hu).
        -- intros b u Hin Hu Heu. pose proof (is_best_minimal m l a t b u Hb Ht Hin Hu Heu). lia.
      * split_and!; [done | | done]. split; [lia|].
        destruct IH as [(-> & _)|[_ (t & _ & [_ ?] & ->)]]; lia.
    + destruct IH as [(-> & -> & Hno)|[Hb (t & Ht & He & ->)]]; [left|right].
      * split_and!; [done..|].
        intros b u [Hin| ->%list_elem_of_singleton]%elem_of_app Hu; [by eapply Hno|].
        simplify_eq. unfold eligible. lia.
      * split; [|by exists t]. apply (is_best_keep m l a t c Hb Ht).
        intros u Hu [? ?]. simplify_eq. lia.
    + unfold choose_pure. rewrite Hv.
      destruct IH as [(-> & -> & Hno)|[Hb (t & Ht & He & ->)]]; [left|right].
      * split_and!; [done..|].
        intros b u [Hin| ->%list_elem_of_singleton]%elem_of_app Hu; [by eapply Hno | congruence].
      * split; [|by exists t]. apply (is_best_keep m l a t c Hb Ht). congruence.
Qed.

Lemma best_cases m l :
  (best m l = NULL ∧ ∀ b u, b ∈ l → m !! b = Some u → ¬ eligible u) ∨
  is_best m l (best m l).
Proof.
  unfold best. pose proof (best_invariant m l) as Hi.
  destruct (foldl _ _ l) as [q a]. simpl.
  destruct Hi as [(_ & -> & Hno)|[Hb _]]; [by left | by right].
Qed.

(** ** One turn of the dispatcher *)

Definition preempted (t : mp2_task_struct) : mp2_task_struct :=
  if state t =? RUNNING then set_state READY t else t.

Lemma set_old_task_run E s a t :
  a ≠ NULL → mem s !! a = Some t → permits E (live s (tsk t)) →
  returns (set_old_task a) E
    (tt, log (SetScheduler (tsk t) SCHED_NORMAL 0)
              (set_mem (<[a := preempted t]> (mem s)) s)) s.
Proof.
  intros Hnn Ht Hl. unfold returns, set_old_task, sched_setscheduler, preempted.
  open_state s. mp2_run. unfold when. destruct (_ =? RUNNING); mp2_run.
  - by apply wp_on_task.
  - rewrite insert_id by done. by apply wp_on_task.
Qed.

Lemma set_new_task_run E s a t :
  a ≠ NULL → mem s !! a = Some t → permits E (live s (tsk t)) →
  returns (set_new_task a) E
    (tt, set_curr_tsk a (add_calls [WakeUp (tsk t); SetScheduler (tsk t) SCHED_FIFO 99]
              (set_mem (<[a := set_state RUNNING t]> (mem s)) s))) s.
Proof.
  intros Hnn Ht Hl. unfold returns, set_new_task, sched_setscheduler, wake_up_process.
  open_state s. mp2_run. apply wp_on_task; [done|]. mp2_run.
  apply wp_on_task; [done|]. mp2_run. by rewrite <- app_assoc.
Qed.

(** The switch from the current task to [next]. *)
Definition switch_to (next : Z) (t : mp2_task_struct) s : @mp2 L :=
  let s1 :=
    match mem s !! curr_tsk s with
    | Some o => add_calls [SetScheduler (tsk o) SCHED_NORMAL 0]
                  (set_mem (<[curr_tsk s := preempted o]> (mem s)) s)
    | None => s
    end in
  set_curr_tsk next (add_calls [WakeUp (tsk t); SetScheduler (tsk t) SCHED_FIFO 99]
    (set_mem (<[next := set_state RUNNING t]> (mem s1)) s1)).

Definition dispatched s : @mp2 L :=
  let next := best (mem s) (nodes s) in
  add_calls [SetCurrentState TASK_INTERRUPTIBLE; Schedule]
    (match mem s !! next with
     | Some t => if next =? curr_tsk s then s else switch_to next t s
     | None => s
     end).

(** Every registered struct points to a task the kernel still has. *)
Definition all_live s : Prop := ∀ a (t : mp2_task_struct), mem s !! a = Some t → live s (tsk t).

Lemma best_mem s t : wf s → mem s !! best (mem s) (nodes s) = Some t →
  best (mem s) (nodes s) ≠ NULL ∧ eligible t.
Proof.
  intros Hw Ht. split; [by eapply (wf_lookup s _ t)|].
  destruct (best_cases (mem s) (nodes s)) as [[Hn _]|(? & ? & u & _ & Hu & He & _)].
  - rewrite Hn, (wf_null s Hw) in Ht. done.
  - by simplify_eq.
Qed.

Lemma dispatch_body_run E s :
  wf s → permits E (all_live s) → returns dispatch_body E (tt, dispatched s) s.
Proof.
  intros Hw Hlive.
  assert (∀ a t, mem s !! a = Some t → permits E (live s (tsk t))) as Hlv.
  { intros a t Ht. eapply permits_mono; [|done]. intros Ha. by eapply Ha. }
  unfold returns, dispatch_body, schedule. wp_pure.
  eapply wp_of_run; [by apply select_next_run|]. unfold dispatched.
  set (next := best _ _).
  destruct (best_cases (mem s) (nodes s)) as [[Hn _]|(pre & post & t & Hl & Ht & _)].
  - fold next in Hn. rewrite Hn, (wf_null s Hw). mp2_run. simpl. mp2_run.
    by rewrite <- app_assoc.
  - fold next in Hl, Ht. rewrite Ht. destruct (wf_lookup s next t Hw Ht) as [Hnn _].
    rewrite (proj2 (Z.eqb_neq _ _) Hnn). simpl. unfold when. wp_pure.
    eapply wp_load; [done..|]. wp_pure. rewrite (Z.eqb_sym next).
    destruct (Z.eqb_spec (curr_tsk s) next) as [Hcn|Hcn]; simpl.
    + mp2_run. by rewrite <- app_assoc.
    + wp_pure. unfold switch_to. destruct (Z.eqb_spec (curr_tsk s) NULL) as [Hc|Hc]; simpl.
      * rewrite Hc, (wf_null s Hw). wp_pure.
        eapply wp_returns; [by apply set_new_task_run; [..|eapply Hlv]|]. wp_pure.
        unfold add_calls. mp2_norm. by rewrite <- !app_assoc.
      * destruct (wf_curr s Hw) as [?|Hin]; [done|].
        apply (wf_node s _ Hw) in Hin as [_ [o Ho]]. rewrite Ho.
        eapply wp_returns; [by apply set_old_task_run; [..|eapply Hlv]|]. wp_pure.
        eapply wp_returns.
        { apply set_new_task_run; [done | | by apply (Hlv next)].
          change (mem (log _ _)) with (mem (set_mem (<[curr_tsk s := preempted o]> (mem s)) s)).
          by rewrite mem_set_mem, lookup_insert_ne. }
        wp_pure. unfold add_calls. mp2_norm. by rewrite <- !app_assoc.
Qed.
End state.
