(* ===== verification/Mp2Sched.v ===== *)
(** * MP2: scheduling

    The invariant [wf] of Mp2State holds in every state the module can reach,
    whatever requests, timers, dispatcher turns and process exits occur; the
    dispatcher runs the ready task of shortest period (rate monotonic), does not
    fault while the registered processes are alive, and the yields of a task
    release it once per period. *)
From Stdlib Require Import Ascii String.
From stdpp Require Import base gmap sets list strings relations.
From Stdlib Require Import ZArith Lia.
From S2P Require Import Prelude CString Kernel Mp2 Mp2Run Mp2State.

Open Scope Z_scope.
Open Scope c_scope.

Section sched.
Context {L : Type} `{!KList L, !KConst, !Allocator, !Kstrto}.
Context `{!KListLaws L, !KConstLaws, !AllocatorLaws, !KstrtoLaws}.
Implicit Types s : @mp2 L.

(** ** Every operation keeps the invariant *)

Lemma wf_register s a d n t :
  wf s → a ≠ NULL → a ∉ dom (mem s) → state t = SLEEPING →
  wf (mkMp2 (fp s) (dir s) (list_add_tail a (HEAD s)) (dispatch_kth s) d n
        (curr_tsk s) (mycache s) (mkHeap (<[a := t]> (mem s)) (Datatypes.S (n_alloc (slab s))))
        (jiffies s) (pids s) (tasks s) (calls s)).
Proof.
  intros [Hn Hd Hz Hc Hr Hv Hk] Hnn Hfresh%not_elem_of_dom Ht.
  assert (a ∉ nodes s) as Hna by (rewrite Hd, Hfresh; by intros []).
  split; unfold nodes, mem; simpl; rewrite ?nodes_add_tail by done; fold (nodes s);
    fold (mem s).
  - apply NoDup_app. split_and!; [done | set_solver | apply NoDup_singleton].
  - intros b. rewrite elem_of_app, list_elem_of_singleton, Hd, lookup_insert.
    case_decide; subst; [|naive_solver]. split; [by eexists | by right].
  - by rewrite lookup_insert_ne.
  - destruct Hc; [by left | right; set_solver].
  - intros b u. rewrite lookup_insert. case_decide; [|apply Hr].
    intros [= <-]. rewrite Ht. done.
  - intros b u. rewrite lookup_insert. case_decide; [|apply Hv].
    intros [= <-]. by left.
  - done.
Qed.

Lemma wf_remove s s' a t :
  wf s → mem s !! a = Some t →
  HEAD s' = list_del a (HEAD s) → mem s' = delete a (mem s) →
  curr_tsk s' = (if a =? curr_tsk s then NULL else curr_tsk s) →
  mycache s' = mycache s → wf s'.
Proof.
  intros Hw Ht HH Hm Hc' Hmc. pose proof (wf_lookup s a t Hw Ht) as [Hnn Hin].
  destruct Hw as [Hn Hd Hz Hc Hr Hv Hk].
  split; rewrite ?Hm, ?Hmc, ?Hc'; unfold nodes; rewrite ?HH, ?nodes_del by done;
    fold (nodes s); try done.
  - by apply NoDup_filter.
  - intros b. rewrite list_elem_of_filter, Hd, lookup_delete.
    case_decide; [subst; split; [by intros [[] _] | by intros []] | naive_solver].
  - by rewrite lookup_delete_ne.
  - destruct (Z.eqb_spec a (curr_tsk s)); [by left|].
    destruct Hc as [?|Hin']; [by left|right]. by rewrite list_elem_of_filter.
  - intros b u. rewrite lookup_delete. case_decide; [done|]. intros Hb Hu.
    rewrite (Hr b u Hb Hu). by rewrite (proj2 (Z.eqb_neq a b)).
  - intros b u. rewrite lookup_delete. case_decide; [done|]. apply Hv.
Qed.

Lemma wf_yielded conv s a t cs :
  wf s → mem s !! a = Some t →
  wf (add_calls cs (set_mem (<[a := yielded_by conv (jiffies s) t]> (mem s))
         (if sleeps (jiffies s) t then forget_curr a s else s))).
Proof.
  intros Hw Ht. pose proof (wf_valid s Hw a t Ht) as Hv.
  assert (∀ b, b ≠ a → ∀ u, mem s !! b = Some u → state u = RUNNING →
    curr_tsk s = b ∧ curr_tsk s ≠ a) as Hro.
  { intros b Hb u Hu Hr. pose proof (wf_running s Hw b u Hu Hr). by subst. }
  unfold forget_curr, sleeps, yielded_by.
  destruct (next_period t =? 0); simpl; [|destruct (jiffies s <? next_period t); simpl].
  - eapply (wf_change s _ a t); [done..|reflexivity|reflexivity|reflexivity| | | |].
    + by right; left.
    + apply (wf_curr s Hw).
    + done.
    + intros b u Hb Hu Hr. by eapply Hro.
  - destruct (Z.eqb_spec a (curr_tsk s)) as [->|Hac].
    + eapply (wf_change s _ _ t); [done..|reflexivity|reflexivity|reflexivity| | | |].
      * by left.
      * by left.
      * done.
      * intros b u Hb Hu Hr. by destruct (Hro b Hb u Hu Hr).
    + eapply (wf_change s _ a t); [done..|reflexivity|reflexivity|reflexivity| | | |].
      * by left.
      * apply (wf_curr s Hw).
      * done.
      * intros b u Hb Hu Hr. by eapply Hro.
  - eapply (wf_change s _ a t); [done..|reflexivity|reflexivity|reflexivity| | | |].
    + done.
    + apply (wf_curr s Hw).
    + intros Hr. by eapply (wf_running s Hw).
    + intros b u Hb Hu Hr. by eapply Hro.
Qed.

Lemma wf_add_calls cs s : wf s → wf (add_calls cs s).
Proof. by apply wf_ext. Qed.

Lemma wf_log c s : wf s → wf (log c s).
Proof. by apply wf_ext. Qed.

Lemma wf_procs p t s : wf s → wf (set_procs p t s).
Proof. by apply wf_ext. Qed.

Lemma wf_timer s a t :
  wf s → mem s !! a = Some t →
  wf (set_mem (<[a := woken (set_tm None t)]> (mem s)) s).
Proof.
  intros Hw Ht. pose proof (wf_valid s Hw a t Ht) as Hv.
  eapply (wf_change s _ a t); [done..|reflexivity|reflexivity|reflexivity| | | |].
  - unfold woken. case_match; [by right; left | done].
  - apply (wf_curr s Hw).
  - unfold woken. case_match; [done|]. intros Hr. by eapply (wf_running s Hw a t).
  - intros b u _ Hu Hr. by eapply (wf_running s Hw b u).
Qed.

Lemma wf_switch s next t :
  wf s → mem s !! next = Some t → next ≠ curr_tsk s → wf (switch_to next t s).
Proof.
  intros Hw Ht Hne. destruct (wf_lookup s next t Hw Ht) as [_ Hin].
  assert (∀ b u, mem s !! b = Some u → state u = RUNNING → b = curr_tsk s) as Hrun
    by (intros; symmetry; by eapply (wf_running s Hw)).
  unfold switch_to. destruct (mem s !! curr_tsk s) as [o|] eqn:Ho.
  - pose proof (wf_valid s Hw _ o Ho) as Hv.
    assert (state (preempted o) ≠ RUNNING ∧ valid_state (state (preempted o))) as [Hnr Hvp].
    { unfold preempted. case_match eqn:Hs; zbool; [split; [done | by right; left] | done]. }
    assert (wf (set_mem (<[curr_tsk s := preempted o]> (mem s)) s)) as Hw1.
    { eapply (wf_change s _ (curr_tsk s) o);
        [done..|reflexivity|reflexivity|reflexivity|done|apply (wf_curr s Hw)|done|].
      intros b u Hb Hu Hr. by eapply (wf_running s Hw). }
    eapply (wf_change _ _ next t); [exact Hw1| |reflexivity..| | | |].
    + by rewrite mem_set_mem, lookup_insert_ne.
    + by right; right.
    + by right.
    + done.
    + intros b u Hb. rewrite mem_set_mem, lookup_insert.
      case_decide; [by intros [= <-]|]. intros Hu Hr. by destruct (Hrun b u Hu Hr).
  - eapply (wf_change s _ next t); [done..|reflexivity|reflexivity|reflexivity| | | |].
    + by right; right.
    + by right.
    + done.
    + intros b u Hb Hu Hr. pose proof (Hrun b u Hu Hr). congruence.
Qed.

Lemma wf_dispatched s : wf s → wf (dispatched s).
Proof.
  intros Hw. unfold dispatched. apply wf_add_calls.
  destruct (mem s !! best _ _) as [t|] eqn:Ht; [|done].
  destruct (Z.eqb_spec (best (mem s) (nodes s)) (curr_tsk s)); [done|].
  by apply wf_switch.
Qed.

(** ** The invariant through the entry points *)

Lemma reg_entry_wf stale s p per comp r s' :
  wf s → reg_entry stale p per comp s = Ok (r, s') → wf s'.
Proof.
  intros Hw Hrun. destruct (admission_control_cases per comp p s) as [Hadm|(n & d & Hadm)].
  - rewrite (reg_entry_refused stale s p per comp Hadm) in Hrun. by simplify_eq.
  - destruct (alloc_addr (n_alloc (slab s)) (dom (mem s))) as [a|] eqn:Ha.
    + erewrite reg_entry_run in Hrun by (done || by apply wf_cache). simplify_eq.
      apply wf_register; [done | by eapply alloc_not_null | by eapply alloc_fresh | done].
    + erewrite reg_entry_no_memory in Hrun by (done || by apply wf_cache). done.
Qed.

Lemma forget_curr_frame a s :
  mem (forget_curr a s) = mem s ∧ HEAD (forget_curr a s) = HEAD s ∧
  mycache (forget_curr a s) = mycache s ∧
  curr_tsk (forget_curr a s) = (if a =? curr_tsk s then NULL else curr_tsk s).
Proof. unfold forget_curr. by case_match. Qed.

Lemma dereg_entry_wf s p r s' :
  wf s → dereg_entry p s = Ok (r, s') → wf s'.
Proof.
  intros Hw Hrun. destruct (first_with_pid s p) as [a|] eqn:Hf.
  - destruct (first_with_pid_Some s p a Hw Hf) as [_ (t & Ht & _)].
    destruct (admission_control_release (period t) (computation t) (pid t) (forget_curr a s))
      as (n & d & Hadm).
    eapply returns_any in Hrun; [|by eapply dereg_entry_run; auto with wp]. simplify_eq.
    destruct (forget_curr_frame a s) as (Hm & HH & Hmc & Hc).
    eapply (wf_remove s _ a t); try done.
  - rewrite (dereg_entry_unknown s p Hw Hf) in Hrun. by simplify_eq.
Qed.

Lemma yield_entry_wf s p r s' :
  wf s → yield_entry p s = Ok (r, s') → wf s'.
Proof.
  intros Hw Hrun. destruct (first_with_pid s p) as [a|] eqn:Hf.
  - destruct (first_with_pid_Some s p a Hw Hf) as [_ (t & Ht & _)].
    eapply returns_any in Hrun; [|by eapply yield_entry_run; auto with wp]. simplify_eq.
    by apply wf_yielded.
  - by rewrite (yield_entry_unknown s p Hw Hf) in Hrun.
Qed.

Lemma parse_request_read buff s v s' : parse_request buff s = Ok (v, s') → s' = s.
Proof.
  unfold parse_request, arg_at, lift, bind, ret. intros Hr.
  repeat case_match; by simplify_eq.
Qed.

Lemma mywrite_wf stale ubuf s r s' :
  wf s → mywrite stale ubuf s = Ok (r, s') → wf s'.
Proof.
  intros Hw Hrun. unfold mywrite in Hrun.
  run_inv Hrun. apply parse_request_read in Hrun0 as ->.
  destruct a as [[p per] comp]. run_inv Hrun. unfold ret in Hrun. simplify_eq.
  repeat case_decide.
  - run_inv Hrun0. unfold ret in Hrun0. simplify_eq. by eapply reg_entry_wf.
  - by eapply yield_entry_wf.
  - run_inv Hrun0. unfold ret in Hrun0. simplify_eq. by eapply dereg_entry_wf.
  - unfold ret in Hrun0. by simplify_eq.
Qed.

Lemma dispatch_body_wf s r s' : wf s → dispatch_body s = Ok (r, s') → wf s'.
Proof.
  intros Hw Hrun. eapply returns_any in Hrun; [|by apply dispatch_body_run; auto with wp].
  simplify_eq. by apply wf_dispatched.
Qed.

(** ** The system: requests, timers, the dispatcher, and the rest of the kernel *)

Variable stale : mp2_task_struct.

(** The timer softirq takes a pending timer that has expired off its queue and
    calls its function. *)
Definition timer_fires (a : Z) : M (@mp2 L) unit :=
  update a (set_tm None) ;! tm_callback a.

Inductive event : Type :=
  | Write (ubuf : list ascii)
  | Timer (a : Z)
  | Dispatch
  | Tick
  | Process (p : gmap Z Z) (t : gset Z).

(** One event runs to its end; processes come and go at any time. *)
Inductive step : event → @mp2 L → @mp2 L → Prop :=
  | step_write ubuf r s s' : mywrite stale ubuf s = Ok (r, s') → step (Write ubuf) s s'
  | step_timer a t e s s' :
      mem s !! a = Some t → tm t = Some e → e <= jiffies s →
      timer_fires a s = Ok (tt, s') → step (Timer a) s s'
  | step_dispatch s s' : dispatch_body s = Ok (tt, s') → step Dispatch s s'
  | step_tick s : step Tick s (set_jiffies (u64 (jiffies s + 1)) s)
  | step_process p t s : step (Process p t) s (set_procs p t s).

(** Loading succeeds with an empty cache. *)
Inductive loaded : @mp2 L → Prop :=
  | loaded_init d f cache thread s0 s :
      mem s0 = ∅ → cache ≠ NULL →
      mp2_init d f cache thread s0 = Ok (0, s) → loaded s.

(** States reached by events that satisfy [ok] where they occur. *)
Definition reaches (ok : event → @mp2 L → Prop) s : Prop :=
  ∃ s0, loaded s0 ∧ rtc (λ s1 s2, ∃ e, ok e s1 ∧ step e s1 s2) s0 s.

Definition reachable s : Prop := reaches (λ _ _, True) s.

Lemma mp2_init_wf d f cache thread s0 :
  mem s0 = ∅ → cache ≠ NULL →
  wp (mp2_init d f cache thread) (λ r s, r = 0 → wf s) any s0.
Proof.
  intros Hm Hc. pose proof errno_pos as (_ & _ & He & _).
  unfold mp2_init, init_slab, init_mykernel, wake_up_process. wp_pure.
  destruct (f =? NULL); [wp_pure; lia|]. wp_pure.
  match goal with |- wp _ _ _ ?s => assert (wf s) as Hw by by apply wf_fresh end.
  destruct (_ =? NULL); wp_pure; [done|].
  apply wp_on_task; [apply permits_any|]. wp_pure. intros _. by apply wf_log.
Qed.

Lemma init_wf s : loaded s → wf s.
Proof.
  intros [d f cache thread s0 s' Hm Hc Hrun].
  by apply (wp_run _ _ _ _ _ _ (mp2_init_wf d f cache thread s0 Hm Hc) Hrun).
Qed.

Lemma timer_fires_run s a t r s' :
  wf s → mem s !! a = Some t → timer_fires a s = Ok (r, s') →
  s' = log (WakeUp (dispatch_kth s)) (set_mem (<[a := woken (set_tm None t)]> (mem s)) s).
Proof.
  intros Hw Ht Hrun. destruct (wf_lookup s a t Hw Ht) as [Hnn _].
  unfold timer_fires in Hrun. run_inv Hrun.
  eapply (wp_run _ (λ _ s1, s1 = set_mem (<[a := set_tm None t]> (mem s)) s) safe) in Hrun0;
    [|by eapply wp_update]. subst.
  eapply returns_any in Hrun;
    [|eapply (tm_callback_run any _ a (set_tm None t)); [done | | auto with wp];
      by rewrite mem_set_mem, lookup_insert_eq].
  simplify_eq. by rewrite mem_set_mem, insert_insert_eq.
Qed.

Lemma step_wf e s s' : wf s → step e s s' → wf s'.
Proof.
  intros Hw Hstep.
  destruct Hstep as [ubuf r s s' Hrun|a t e s s' Ht _ _ Hrun|s s' Hrun|s|p t s].
  - by eapply mywrite_wf.
  - apply (timer_fires_run s a t) in Hrun as ->; [|done..].
    apply (wf_ext (set_mem (<[a := woken (set_tm None t)]> (mem s)) s)); try done.
    by apply wf_timer.
  - by eapply dispatch_body_wf.
  - by apply wf_ext with s.
  - by apply wf_ext with s.
Qed.

Lemma reaches_wf ok s : reaches ok s → wf s.
Proof.
  intros (s0 & Hl & Hsteps). apply init_wf in Hl.
  induction Hsteps as [|s0 s1 s2 (e & _ & Hstep) _ IH]; [done|].
  apply IH. by eapply step_wf.
Qed.

(** An invariant is shown on loading and on each admissible event. *)
Lemma reaches_ind (ok : event → @mp2 L → Prop) (P : @mp2 L → Prop) :
  (∀ s, loaded s → P s) →
  (∀ e s s', wf s → P s → ok e s → step e s s' → P s') →
  ∀ s, reaches ok s → P s.
Proof.
  intros Hi Hs s (s0 & Hl & Hsteps). pose proof (init_wf s0 Hl) as Hw.
  apply Hi in Hl. induction Hsteps as [|s0 s1 s2 (e & Hok & Hstep) _ IH]; [done|].
  apply IH; [by eapply Hs | by eapply step_wf].
Qed.

Lemma reaches_loaded ok s : loaded s → reaches ok s.
Proof. intros Hl. exists s. split; [done|]. constructor. Qed.

Lemma reaches_step ok e s s' : reaches ok s → ok e s → step e s s' → reaches ok s'.
Proof.
  intros (s0 & Hl & Hs) Hok Hstep. exists s0. split; [done|].
  eapply rtc_r; [done|]. by exists e.
Qed.

Lemma reaches_write ok ubuf s r s' :
  reaches ok s → ok (Write ubuf) s → mywrite stale ubuf s = Ok (r, s') → reaches ok s'.
Proof. intros. eapply reaches_step; [done..|]. by econstructor. Qed.

(** ** What the scheduler does *)

Lemma period_jiffies_nonneg per : 0 <= period_jiffies per.
Proof.
  pose proof (proj1 (u32_range (per * USER_HZ))). apply Z.div_pos; [done|lia].
Qed.

(** C11: In every reachable state the list holds the allocated structs, once
    each; [curr_tsk] is NULL or one of them, so it never dangles; and at most
    one struct is RUNNING, the current one. *)
Theorem reachable_state_invariant s :
  reachable s →
  NoDup (nodes s) ∧ (∀ a, a ∈ nodes s ↔ is_Some (mem s !! a)) ∧
  (curr_tsk s = NULL ∨ curr_tsk s ∈ nodes s) ∧
  (∀ a t, mem s !! a = Some t → state t = RUNNING → curr_tsk s = a) ∧
  (∀ a t, mem s !! a = Some t → valid_state (state t)).
Proof.
  intros Hw%reaches_wf. split_and!; [apply Hw..].
Qed.

Lemma mem_after_switch a cs m s :
  mem (set_curr_tsk a (add_calls cs (set_mem m s))) = m.
Proof. done. Qed.

Lemma switch_to_after s next t :
  wf s → mem s !! next = Some t → next ≠ curr_tsk s →
  let s' := switch_to next t s in
  curr_tsk s' = next ∧ mem s' !! next = Some (set_state RUNNING t) ∧
  (∀ b u, mem s' !! b = Some u → state u = RUNNING → b = next).
Proof.
  intros Hw Ht Hne s'. pose proof (wf_switch s next t Hw Ht Hne) as Hw'.
  split_and!; [done | |].
  - unfold s', switch_to. rewrite mem_after_switch. apply lookup_insert_eq.
  - intros b u Hb Hu. symmetry. by apply (wf_running s' Hw' b u).
Qed.



(** C37: While every registered process is alive, a dispatcher turn does not
    fault: it returns, in a state that satisfies the invariant. *)
Theorem dispatch_safe_while_alive s :
  wf s → all_live s → ∃ s', dispatch_body s = Ok (tt, s') ∧ wf s'.
Proof.
  intros Hw Hl. exists (dispatched s). split; [|by apply wf_dispatched].
  apply returns_safe, dispatch_body_run; [done|]. by apply permits_yes.
Qed.

(** A process that exits without deregistering leaves its task_struct
    pointer on the list: when its task is chosen the dispatcher follows the
    dead pointer. *)
Theorem dispatch_follows_dead_task s t :
  wf s → curr_tsk s = NULL →
  mem s !! best (mem s) (nodes s) = Some t → tsk t ≠ NULL → tsk t ∉ tasks s →
  dispatch_body s = Oops BadAccess.
Proof.
  intros Hw Hc Ht Hnn Hdead. destruct (best_mem s t Hw Ht) as [Hb _].
  unfold dispatch_body, bind. rewrite select_next_run by done.
  apply (proj2 (Z.eqb_neq _ _)) in Hb as Hbz. rewrite Hbz. simpl.
  unfold load, gets, ret, bind. rewrite Hbz, Ht, Hc.
  rewrite (Z.eqb_sym NULL), Hbz. simpl.
  unfold set_new_task, bind, load, wake_up_process, on_task.
  by rewrite Hbz, Ht, (proj2 (Z.eqb_neq _ _) Hnn), decide_False.
Qed.

(** A yield of a pid that is not registered dereferences NULL. *)
Theorem yield_unregistered_faults s p :
  reachable s → (∀ a t, mem s !! a = Some t → pid t ≠ u32 p) →
  yield_entry p s = Oops NullDeref.
Proof.
  intros Hw%reaches_wf Hno. apply yield_entry_unknown; [done|].
  destruct (first_with_pid s p) as [a|] eqn:Hf; [|done].
  destruct (first_with_pid_Some s p a Hw Hf) as [_ (t & Ht & Hp)]. by destruct (Hno a t Ht).
Qed.

(** C25: The behaviour of a yield on each branch, without wrap-around.  The
    first yield makes the task READY with its first period end; a yield before
    the end of the period puts it to sleep, arms its timer for exactly that
    end and gives up being current; a late yield changes neither.  In the last
    two cases the period end moves by one period. *)
Theorem yield_entry_behaviour s p a t :
  wf s → first_with_pid s p = Some a → mem s !! a = Some t →
  live s (dispatch_kth s) → live s (tsk t) →
  0 <= jiffies s → 0 <= next_period t →
  jiffies s + period_jiffies (period t) < 2 ^ 64 →
  next_period t + period_jiffies (period t) < 2 ^ 64 →
  ∃ s' t', yield_entry p s = Ok (tt, s') ∧ mem s' = <[a := t']> (mem s) ∧
    HEAD s' = HEAD s ∧ wf s' ∧
    (next_period t = 0 →
       t' = set_state READY (set_next_period (jiffies s + period_jiffies (period t)) t)) ∧
    (next_period t ≠ 0 → jiffies s < next_period t →
       t' = set_next_period (next_period t + period_jiffies (period t))
              (set_tm (Some (next_period t)) (set_state SLEEPING t)) ∧ curr_tsk s' ≠ a) ∧
    (next_period t ≠ 0 → next_period t <= jiffies s →
       t' = set_next_period (next_period t + period_jiffies (period t)) t ∧
       curr_tsk s' = curr_tsk s).
Proof.
  intros Hw Hf Ht Hd Hl Hj Hn Hb1 Hb2.
  pose proof (period_jiffies_nonneg (period t)) as Hp.
  destruct (wf_lookup s a t Hw Ht) as [Hnn _].
  do 2 eexists. split; [|split; [|split; [|split; [by eapply wf_yielded|]]]].
  - by apply returns_safe, yield_entry_run; auto with wp.
  - done.
  - unfold forget_curr. by repeat case_match.
  - unfold yielded, yielded_by, sleeps, forget_curr. split_and!.
    + intros Hz. rewrite Hz. simpl. by words.
    + intros Hz Hlt. rewrite (proj2 (Z.eqb_neq _ _) Hz), (proj2 (Z.ltb_lt _ _) Hlt).
      simpl. split; [by words|]. case_match eqn:Hc; zbool; [done|]. simpl. congruence.
    + intros Hz Hge. rewrite (proj2 (Z.eqb_neq _ _) Hz), (proj2 (Z.ltb_ge _ _) Hge).
      simpl. split; [by words|done].
Qed.

Lemma first_with_pid_ext s s' p :
  HEAD s' = HEAD s → (∀ a, has_pid (mem s') p a = has_pid (mem s) p a) →
  first_with_pid s' p = first_with_pid s p.
Proof.
  intros HH Hp. unfold first_with_pid, nodes. rewrite HH.
  induction (list_nodes (HEAD s)) as [|x l IH]; simpl; [done|]. by rewrite Hp, IH.
Qed.

(** One yield at time [now], as a relation between the structs. *)
Lemma yield_at now s p a t r s' :
  wf s → first_with_pid s p = Some a → mem s !! a = Some t →
  (modify (set_jiffies now) ;! yield_entry p) s = Ok (r, s') →
  wf s' ∧ first_with_pid s' p = Some a ∧ mem s' !! a = Some (yielded now t).
Proof.
  intros Hw Hf Ht Hrun. unfold bind, modify in Hrun.
  set (s1 := set_jiffies now s) in *.
  assert (wf s1) as Hw1 by by apply (wf_ext s).
  assert (first_with_pid s1 p = Some a) as Hf1 by done.
  eapply returns_any in Hrun; [|by eapply (yield_entry_run any s1 p a t); auto with wp].
  injection Hrun as -> ->. split_and!; [by apply wf_yielded | | by apply lookup_insert_eq].
  rewrite <- Hf1. apply first_with_pid_ext.
  - unfold forget_curr. by repeat case_match.
  - intros b. change (has_pid (<[a := yielded now t]> (mem s)) p b = has_pid (mem s) p b).
    unfold has_pid. rewrite lookup_insert. case_decide; [subst|done]. rewrite Ht.
    assert (pid (yielded now t) = pid t) as -> by (unfold yielded, yielded_by; by repeat case_match).
    done.
Qed.

Definition yields (p : Z) (times : list Z) : M (@mp2 L) unit :=
  for_each times (λ now, modify (set_jiffies now) ;! yield_entry p).

(** Yields of an activated task each add one period. *)
Lemma late_yields ts s p a t r s' :
  wf s → first_with_pid s p = Some a → mem s !! a = Some t → 0 < next_period t →
  next_period t + Z.of_nat (length ts) * period_jiffies (period t) < 2 ^ 64 →
  yields p ts s = Ok (r, s') →
  ∃ t', mem s' !! a = Some t' ∧
    next_period t' = next_period t + Z.of_nat (length ts) * period_jiffies (period t).
Proof.
  unfold yields. pose proof (period_jiffies_nonneg (period t)) as Hp.
  revert s t Hp. induction ts as [|now ts IH]; intros s t Hp Hw Hf Ht Hpos Hb Hrun.
  - unfold ret in Hrun. injection Hrun as _ <-. exists t. split; [done|]. simpl. lia.
  - cbn [for_each] in Hrun. run_inv Hrun.
    destruct (yield_at now s p a t _ _ Hw Hf Ht Hrun0) as (Hw1 & Hf1 & Ht1).
    cbn [length] in *. rewrite Nat2Z.inj_succ in *. set (pj := period_jiffies (period t)) in *.
    assert (next_period (yielded now t) = next_period t + pj ∧
            period (yielded now t) = period t) as [Hn1 Hp1].
    { assert (0 <= next_period t + pj < 2 ^ 64) as Hr by nia.
      unfold yielded, yielded_by. rewrite (proj2 (Z.eqb_neq (next_period t) 0)) by lia.
      simpl. fold pj. split; [by rewrite u64_id | by case_match]. }
    destruct (IH s0 (yielded now t)) as (t' & Hm & Hnx); rewrite ?Hp1, ?Hn1; fold pj;
      [done..|lia|lia|done|].
    exists t'. split; [done|]. rewrite Hnx, Hp1, Hn1. fold pj. lia.
Qed.

(** C20: Yields at times [t0 :: ts] (of a task registered and not yet
    activated) leave the end of the period at [t0] plus one period per yield:
    the module releases the task once per period, however late the yields
    after the first are. *)
Theorem yields_release_once_per_period ts t0 s p a t s' :
  wf s → first_with_pid s p = Some a → mem s !! a = Some t → next_period t = 0 →
  0 < t0 → t0 + (1 + Z.of_nat (length ts)) * period_jiffies (period t) < 2 ^ 64 →
  yields p (t0 :: ts) s = Ok (tt, s') →
  ∃ t', mem s' !! a = Some t' ∧
    next_period t' = t0 + (1 + Z.of_nat (length ts)) * period_jiffies (period t).
Proof.
  intros Hw Hf Ht Hz Ht0 Hb Hrun. pose proof (period_jiffies_nonneg (period t)) as Hp.
  unfold yields in Hrun. cbn [for_each] in Hrun. run_inv Hrun.
  destruct (yield_at t0 s p a t _ _ Hw Hf Ht Hrun0) as (Hw1 & Hf1 & Ht1).
  assert (next_period (yielded t0 t) = t0 + period_jiffies (period t) ∧
          period (yielded t0 t) = period t) as [Hn1 Hp1].
  { unfold yielded, yielded_by. rewrite Hz. simpl. split; [|done].
    apply u64_id. unfold is_u64. nia. }
  destruct (late_yields ts s0 p a (yielded t0 t) tt s') as (t' & Hm & Hnx);
    rewrite ?Hp1, ?Hn1; [done..|lia|lia|done|].
  exists t'. split; [done|]. rewrite Hnx, Hp1, Hn1. lia.
Qed.

(** The only eligible task with the shortest period is the one chosen. *)
Lemma best_unique m l a t :
  a ∈ l → m !! a = Some t → eligible t →
  (∀ b u, b ∈ l → b ≠ a → m !! b = Some u → eligible u → period t < period u) →
  best m l = a.
Proof.
  intros Ha Ht He Hmin.
  destruct (best_cases m l) as [[_ Hno]|Hb]; [by destruct (Hno a t Ha Ht)|].
  destruct (decide (best m l = a)) as [|Hne]; [done|exfalso].
  pose proof Hb as (pre & post & u & Hl & Hu & Heu & _).
  pose proof (is_best_minimal _ _ _ u a t Hb Hu Ha Ht He).
  assert (best m l ∈ l) as Hin by (rewrite Hl at 2; set_solver).
  pose proof (Hmin _ u Hin Hne Hu Heu). lia.
Qed.

(** A state that differs from another in one struct of the same task. *)
Definition one_changed s s' (a : Z) (t t' : mp2_task_struct) : Prop :=
  wf s' ∧ mem s' = <[a := t']> (mem s) ∧ HEAD s' = HEAD s ∧ tasks s' = tasks s ∧
  dispatch_kth s' = dispatch_kth s ∧ period t' = period t ∧ tsk t' = tsk t.

Lemma one_changed_live s s' a t t' :
  mem s !! a = Some t → one_changed s s' a t t' → all_live s → all_live s'.
Proof.
  intros Ht (_ & Hm & _ & Hts & _ & _ & Htk) Hl b u. rewrite Hm, lookup_insert.
  unfold live. rewrite Hts. case_decide; [intros [= <-]; rewrite Htk; by apply (Hl a) | apply Hl].
Qed.

Lemma early_yielded now t :
  sleeps now t = true →
  yielded now t = set_next_period (u64 (next_period t + period_jiffies (period t)))
    (set_tm (Some (next_period t)) (set_state SLEEPING t)).
Proof.
  unfold sleeps, yielded, yielded_by. intros [Hz%negb_true_iff Hlt]%andb_true_iff. by rewrite Hz, Hlt.
Qed.

Lemma early_yield s p a t :
  wf s → first_with_pid s p = Some a → mem s !! a = Some t →
  live s (dispatch_kth s) → live s (tsk t) → sleeps (jiffies s) t = true →
  ∃ s' t', yield_entry p s = Ok (tt, s') ∧ one_changed s s' a t t' ∧
    curr_tsk s' ≠ a ∧ state t' = SLEEPING ∧ tm t' = Some (next_period t).
Proof.
  intros Hw Hf Ht Hd Hl Hs. destruct (wf_lookup s a t Hw Ht) as [Hnn _].
  pose proof (wf_yielded period_jiffies s a t (yield_calls s t) Hw Ht) as Hy. fold yielded in Hy.
  assert (returns (yield_entry p) safe (tt, add_calls (yield_calls s t)
    (set_mem (<[a := yielded (jiffies s) t]> (mem s))
      (if sleeps (jiffies s) t then forget_curr a s else s))) s) as Hrun
    by (apply yield_entry_run; auto with wp).
  rewrite Hs, (early_yielded _ _ Hs) in Hy, Hrun. apply returns_safe in Hrun.
  do 2 eexists. split; [exact Hrun|]. clear Hrun.
  split_and!; [split_and!; [exact Hy|done|..]|..]; try done; unfold forget_curr;
    destruct (Z.eqb_spec a (curr_tsk s)); done.
Qed.

Lemma timer_wakes s a t :
  wf s → mem s !! a = Some t → live s (dispatch_kth s) → state t = SLEEPING →
  ∃ s' t', timer_fires a s = Ok (tt, s') ∧ one_changed s s' a t t' ∧
    curr_tsk s' = curr_tsk s ∧ state t' = READY.
Proof.
  intros Hw Ht Hd Hs. destruct (wf_lookup s a t Hw Ht) as [Hnn _].
  pose proof (wf_timer s a t Hw Ht) as Hy. apply (wf_log (WakeUp (dispatch_kth s))) in Hy.
  exists (log (WakeUp (dispatch_kth s)) (set_mem (<[a := woken (set_tm None t)]> (mem s)) s)),
    (woken (set_tm None t)). split.
  - apply run_of_wp. unfold timer_fires. apply wp_bind. eapply wp_update; [done..|].
    eapply wp_returns; [apply (tm_callback_run safe _ a (set_tm None t)); [done| |]|].
    + by rewrite mem_set_mem, lookup_insert_eq.
    + by apply permits_yes.
    + by rewrite mem_set_mem, insert_insert_eq.
  - unfold one_changed, woken in *. change (state (set_tm None t)) with (state t) in *.
    rewrite Hs in *. by split_and!.
Qed.

Lemma dispatch_switches s a t :
  wf s → all_live s → mem s !! a = Some t → curr_tsk s ≠ a →
  best (mem s) (nodes s) = a →
  ∃ s' t', dispatch_body s = Ok (tt, s') ∧ curr_tsk s' = a ∧
    mem s' !! a = Some t' ∧ state t' = RUNNING.
Proof.
  intros Hw Hl Ht Hc Hb. exists (dispatched s), (set_state RUNNING t).
  assert (dispatched s = add_calls [SetCurrentState TASK_INTERRUPTIBLE; Schedule]
            (switch_to a t s)) as ->.
  { unfold dispatched. by rewrite Hb, Ht, (proj2 (Z.eqb_neq a (curr_tsk s))). }
  destruct (switch_to_after s a t Hw Ht ltac:(done)) as (Hc' & Hm & _).
  split_and!; [|done|exact Hm|done].
  apply returns_safe. pose proof (dispatch_body_run safe s Hw (permits_yes _ _ Hl)) as Hrun.
  unfold dispatched in Hrun. by rewrite Hb, Ht, (proj2 (Z.eqb_neq a (curr_tsk s))) in Hrun.
Qed.

(** C40: A task that yields before its period ends is run again when the
    period is over: its timer is then due, firing it makes the task READY, and
    if it has the shortest period of the awake tasks the next dispatcher turn
    makes it the RUNNING, current task. *)
Theorem sleeping_task_runs_again s p a t :
  wf s → all_live s → live s (dispatch_kth s) →
  first_with_pid s p = Some a → mem s !! a = Some t → period t < INT_MAX →
  next_period t ≠ 0 → jiffies s < next_period t →
  (∀ b u, b ≠ a → mem s !! b = Some u → eligible u → period t < period u) →
  ∃ s1 t1 s2 s3 t3,
    yield_entry p s = Ok (tt, s1) ∧
    mem s1 !! a = Some t1 ∧ state t1 = SLEEPING ∧ tm t1 = Some (next_period t) ∧
    timer_fires a (set_jiffies (next_period t) s1) = Ok (tt, s2) ∧
    dispatch_body s2 = Ok (tt, s3) ∧
    curr_tsk s3 = a ∧ mem s3 !! a = Some t3 ∧ state t3 = RUNNING.
Proof.
  intros Hw Hlive Hd Hf Ht Hp Hz Hlt Hmin. pose proof (Hlive a t Ht) as Hl.
  destruct (wf_lookup s a t Hw Ht) as [Hnn Hin].
  assert (sleeps (jiffies s) t = true) as Hsl.
  { unfold sleeps. by rewrite (proj2 (Z.eqb_neq _ _) Hz), (proj2 (Z.ltb_lt _ _) Hlt). }
  destruct (early_yield s p a t Hw Hf Ht Hd Hl Hsl)
    as (s1 & t1 & Hy & Hch1 & Hc1 & Hs1 & Htm).
  pose proof (one_changed_live s s1 a t t1 Ht Hch1 Hlive) as Hlive1.
  destruct Hch1 as (Hw1 & Hm1 & HH1 & Hts1 & Hd1 & Hp1 & Htk1).
  set (s1' := set_jiffies (next_period t) s1).
  assert (wf s1') as Hw1' by by apply (wf_ext s1).
  assert (mem s1' !! a = Some t1) as Ht1.
  { change (mem s1' !! a) with (mem s1 !! a). by rewrite Hm1, lookup_insert_eq. }
  destruct (timer_wakes s1' a t1 Hw1' Ht1) as (s2 & t2 & Hfire & Hch2 & Hc2 & Hs2); [|done|].
  { unfold live. change (dispatch_kth s1') with (dispatch_kth s1).
    change (tasks s1') with (tasks s1). by rewrite Hd1, Hts1. }
  pose proof (one_changed_live s1' s2 a t1 t2 Ht1 Hch2 Hlive1) as Hlive2.
  destruct Hch2 as (Hw2 & Hm2 & HH2 & _ & _ & Hp2 & _).
  assert (mem s2 = <[a := t2]> (mem s)) as Hm.
  { rewrite Hm2. change (mem s1') with (mem s1). by rewrite Hm1, insert_insert_eq. }
  assert (nodes s2 = nodes s) as Hn.
  { unfold nodes. rewrite HH2. change (HEAD s1') with (HEAD s1). by rewrite HH1. }
  destruct (dispatch_switches s2 a t2) as (s3 & t3 & Hrun & Hc3 & Hm3 & Hs3);
    [done|done|by rewrite Hm, lookup_insert_eq|by rewrite Hc2| |].
  { rewrite Hm, Hn. apply (best_unique _ _ a t2); [done|by rewrite lookup_insert_eq| |].
    - split; [by rewrite Hs2|]. by rewrite Hp2, Hp1.
    - intros b u _ Hne. rewrite lookup_insert_ne, Hp2, Hp1 by done. by apply Hmin. }
  exists s1, t1, s2, s3, t3. by split_and!.
Qed.
(** ** Unloading *)

(** What [freeall] has made of the list and the heap after freeing [pre]. *)
Definition freed s (pre : list Z) s' : Prop :=
  ∃ l m, s' = set_HEAD l (set_mem m (set_curr_tsk NULL s)) ∧
    list_nodes l = filter (λ b, b ∉ pre) (nodes s) ∧
    ∀ a, m !! a = if decide (a ∈ pre) then None else mem s !! a.

Lemma freed_start s : freed s [] (set_curr_tsk NULL s).
Proof.
  exists (HEAD s), (mem s). split_and!; [by open_state s| |].
  - symmetry. apply filter_none_removed.
  - intros a. rewrite decide_False; [done|]. by intros ?%elem_of_nil.
Qed.

Lemma freed_next s pre x post s' :
  wf s → nodes s = pre ++ x :: post → freed s pre s' →
  wp (freeone x ;! ret tt) (λ _, freed s (pre ++ [x])) safe s'.
Proof.
  intros Hw Hl (l & m & -> & Hln & Hm).
  pose proof (wf_nodup s Hw) as Hnd.
  assert (x ∉ pre) as Hx.
  { rewrite Hl, NoDup_app in Hnd. destruct Hnd as (_ & Hpre & _).
    intros Hin. apply (Hpre x Hin), elem_of_cons. by left. }
  assert (x ∈ nodes s) as Hxs by (rewrite Hl; set_solver).
  destruct (wf_node s x Hw Hxs) as [Hnn [t Ht]].
  apply wp_bind. eapply wp_of_run.
  { apply (freeone_run _ x t); [apply Hw|done|].
    change (m !! x = Some t). by rewrite Hm, decide_False. }
  apply wp_ret. exists (list_del x l), (delete x m). split_and!; [done| |].
  - rewrite nodes_del; rewrite Hln; [|by apply NoDup_filter|by apply list_elem_of_filter].
    rewrite list_filter_filter. apply list_filter_iff. intros b. set_solver.
  - intros a. rewrite lookup_delete, Hm. repeat case_decide; set_solver.
Qed.

Lemma freed_all s s' :
  wf s → freed s (nodes s) s' →
  ∃ l, list_nodes l = [] ∧ s' = set_HEAD l (set_mem ∅ (set_curr_tsk NULL s)).
Proof.
  intros Hw (l & m & -> & Hln & Hm). exists l. split.
  - rewrite Hln. by apply filter_all_removed.
  - assert (m = ∅) as ->; [|done]. apply map_empty. intros a. rewrite Hm.
    case_decide as Ha; [done|]. apply eq_None_not_Some. by rewrite <- (wf_dom s Hw).
Qed.

Lemma freeall_run s :
  wf s → ∃ l, list_nodes l = [] ∧
    freeall s = Ok (0, set_HEAD l (set_mem ∅ (set_curr_tsk NULL s))).
Proof.
  intros Hw.
  assert (wp freeall (λ r s', r = 0 ∧ freed s (nodes s) s') safe s) as Hrun.
  { unfold freeall, spin_lock, spin_unlock. wp_pure.
    change (HEAD (set_curr_tsk NULL s)) with (HEAD s).
    apply (wp_mono _ (λ _, freed s (nodes s)) _ safe); [|by intros; wp_pure|done].
    destruct (list_empty (HEAD s)) eqn:He.
    - apply nodes_empty in He. unfold nodes. rewrite He. wp_pure. apply freed_start.
    - apply (wp_for_each _ (freed s)); [apply freed_start|].
      intros pre x post s' Hl. by apply (freed_next s pre x post). }
  apply wp_safe_runs in Hrun as (r & s' & Hrun & -> & Hf).
  destruct (freed_all s s' Hw Hf) as (l & Hl & ->). by exists l.
Qed.

(** C36: Unloading the module returns 0 from every state that satisfies the
    invariant and leaks nothing: every struct is freed, the list is empty, no
    task is current, and after both proc entries are removed the dispatcher is
    stopped before the cache is destroyed. *)
Theorem exit_frees_everything s :
  wf s →
  ∃ s', mp2_exit s = Ok (0, s') ∧ mem s' = ∅ ∧ nodes s' = [] ∧ curr_tsk s' = NULL ∧
    calls s' = calls s ++ [ProcRemove (fp s); ProcRemove (dir s);
                           KthreadStop (dispatch_kth s); CacheDestroy (mycache s)].
Proof.
  intros Hw. unfold mp2_exit, bind, get, modify.
  destruct (freeall_run (log (ProcRemove (dir s)) (log (ProcRemove (fp s)) s)))
    as (l & Hl & ->); [by do 2 apply wf_log|].
  rewrite (proj2 (Z.eqb_neq _ _) (wf_cache s Hw)). simpl.
  eexists. split; [reflexivity|]. split_and!; [done..|].
  open_state s. by rewrite <- !app_assoc.
Qed.
End sched.

(** ** The concrete module is reachable *)

Import Reference.

Lemma boot_loaded : loaded boot.
Proof.
  apply (loaded_init 11 12 13 5000 bare); [reflexivity | discriminate | by vm_compute].
Qed.

Lemma writes_reach l s s' :
  reachable stale_task s → writes l s = Ok (tt, s') → reachable stale_task s'.
Proof.
  revert s. induction l as [|b l IH]; intros s Hr; simpl.
  - by intros [= ->].
  - intros Hw. run_inv Hw. eapply IH; [|done]. by eapply reaches_write.
Qed.

Lemma two_ready_reachable : reachable stale_task two_ready.
Proof.
  apply (writes_reach [line "R,1,500,86"; line "R,2,300,43"; line "Y,1"; line "Y,2"] boot).
  - apply reaches_loaded, boot_loaded.
  - by vm_compute.
Qed.

Lemma two_ready_wf : wf two_ready.
Proof. by eapply reaches_wf, two_ready_reachable. Qed.

Lemma two_blocks {T} (a b k : Z) (x y u : T) :
  ({[a := x; b := y]} : gmap Z T) !! k = Some u → k = a ∧ u = x ∨ k = b ∧ u = y.
Proof. rewrite lookup_insert_Some, lookup_singleton_Some. naive_solver. Qed.

Lemma two_ready_blocks b u :
  mem two_ready !! b = Some u →
  b = 4097 ∧ u = mkTask 5001 None 500 86 1 READY 1050 ∨
  b = 4098 ∧ u = mkTask 5002 None 300 43 2 READY 1030.
Proof.
  assert (mem two_ready = {[4097 := mkTask 5001 None 500 86 1 READY 1050;
                            4098 := mkTask 5002 None 300 43 2 READY 1030]}) as -> by by vm_compute.
  apply two_blocks.
Qed.

Lemma two_ready_live : all_live two_ready.
Proof.
  intros b u [[-> ->]|[-> ->]]%two_ready_blocks; split; try done;
    apply (bool_decide_unpack _); by vm_compute.
Qed.

(** Once the dispatcher has run, task 2 is current. *)
Definition two_running : @mp2 (list Z) := state_of bare (dispatch_body two_ready).

Lemma two_running_wf : wf two_running.
Proof. eapply (dispatch_body_wf two_ready tt); [apply two_ready_wf | by vm_compute]. Qed.

Lemma two_running_blocks b u :
  mem two_running !! b = Some u →
  b = 4097 ∧ u = mkTask 5001 None 500 86 1 READY 1050 ∨
  b = 4098 ∧ u = mkTask 5002 None 300 43 2 RUNNING 1030.
Proof.
  assert (mem two_running = {[4097 := mkTask 5001 None 500 86 1 READY 1050;
                              4098 := mkTask 5002 None 300 43 2 RUNNING 1030]}) as -> by by vm_compute.
  apply two_blocks.
Qed.

Lemma two_running_live : all_live two_running.
Proof.
  intros b u [[-> ->]|[-> ->]]%two_running_blocks; split; try done;
    apply (bool_decide_unpack _); by vm_compute.
Qed.

(** ** Witnesses *)

Lemma reachable_state_invariant_witness :
  nodes two_ready = [4097; 4098] ∧ NoDup (nodes two_ready).
Proof.
  split; [by vm_compute|].
  exact (proj1 (reachable_state_invariant stale_task two_ready two_ready_reachable)).
Defined.


Lemma dispatch_safe_while_alive_witness :
  ∃ s', dispatch_body two_ready = Ok (tt, s') ∧ wf s'.
Proof.
  apply (dispatch_safe_while_alive two_ready); [apply two_ready_wf | apply two_ready_live].
Defined.

Lemma dispatch_follows_dead_task_witness :
  let s := set_procs ∅ {[ 5000; 5001 ]} two_ready in
  dispatch_body s = Oops BadAccess.
Proof.
  apply (dispatch_follows_dead_task _ (mkTask 5002 None 300 43 2 READY 1030)).
  - apply wf_procs, two_ready_wf.
  - by vm_compute.
  - by vm_compute.
  - done.
  - apply (bool_decide_unpack _). by vm_compute.
Defined.

Lemma yield_unregistered_faults_witness : yield_entry 7 two_ready = Oops NullDeref.
Proof.
  apply (yield_unregistered_faults stale_task two_ready 7); [apply two_ready_reachable|].
  by intros a t [[_ ->]|[_ ->]]%two_ready_blocks.
Defined.

Lemma yield_entry_behaviour_witness :
  ∃ s' t', yield_entry 2 two_running = Ok (tt, s') ∧
    mem s' = <[4098 := t']> (mem two_running) ∧
    HEAD s' = HEAD two_running ∧ wf s' ∧
    let t := mkTask 5002 None 300 43 2 RUNNING 1030 in
    (next_period t = 0 →
       t' = set_state READY
              (set_next_period (jiffies two_running + period_jiffies (period t)) t)) ∧
    (next_period t ≠ 0 → jiffies two_running < next_period t →
       t' = set_next_period (next_period t + period_jiffies (period t))
              (set_tm (Some (next_period t)) (set_state SLEEPING t)) ∧ curr_tsk s' ≠ 4098) ∧
    (next_period t ≠ 0 → next_period t <= jiffies two_running →
       t' = set_next_period (next_period t + period_jiffies (period t)) t ∧
       curr_tsk s' = curr_tsk two_running).
Proof.
  apply (yield_entry_behaviour two_running 2 4098 (mkTask 5002 None 300 43 2 RUNNING 1030));
    [apply two_running_wf | by vm_compute | by vm_compute
    | split; [by vm_compute | apply (bool_decide_unpack _); by vm_compute]
    | split; [by vm_compute | apply (bool_decide_unpack _); by vm_compute]
    | by vm_compute ..].
Defined.

Lemma yields_release_once_per_period_witness :
  let s := state_of bare (yields 2 [1000; 1100; 1200] two_tasks) in
  ∃ t', mem s !! 4098 = Some t' ∧
    next_period t' = 1000 + (1 + Z.of_nat (length [1100; 1200])) * period_jiffies 300.
Proof.
  intros s.
  apply (yields_release_once_per_period [1100; 1200] 1000 two_tasks 2 4098
           (mkTask 5002 None 300 43 2 SLEEPING 0) s).
  - apply (reaches_wf stale_task (λ _ _, True)).
    apply (writes_reach [line "R,1,500,86"; line "R,2,300,43"] boot);
      [apply reaches_loaded, boot_loaded | by vm_compute].
  - by vm_compute.
  - by vm_compute.
  - done.
  - done.
  - by vm_compute.
  - by vm_compute.
Defined.

Lemma sleeping_task_runs_again_witness :
  let t := mkTask 5002 None 300 43 2 RUNNING 1030 in
  ∃ s1 t1 s2 s3 t3,
    yield_entry 2 two_running = Ok (tt, s1) ∧
    mem s1 !! 4098 = Some t1 ∧ state t1 = SLEEPING ∧ tm t1 = Some (next_period t) ∧
    timer_fires 4098 (set_jiffies (next_period t) s1) = Ok (tt, s2) ∧
    dispatch_body s2 = Ok (tt, s3) ∧
    curr_tsk s3 = 4098 ∧ mem s3 !! 4098 = Some t3 ∧ state t3 = RUNNING.
Proof.
  apply (sleeping_task_runs_again two_running 2 4098 (mkTask 5002 None 300 43 2 RUNNING 1030));
    [apply two_running_wf | apply two_running_live
    | split; [by vm_compute | apply (bool_decide_unpack _); by vm_compute]
    | by vm_compute ..|].
  intros b u Hb [[-> ->]|[-> ->]]%two_running_blocks; [done | by destruct Hb].
Defined.

Lemma exit_frees_everything_witness :
  size (mem two_running) = 2%nat ∧
  ∃ s', mp2_exit two_running = Ok (0, s') ∧ mem s' = ∅ ∧ nodes s' = [] ∧ curr_tsk s' = NULL ∧
    calls s' = calls two_running ++
      [ProcRemove (fp two_running); ProcRemove (dir two_running);
       KthreadStop (dispatch_kth two_running); CacheDestroy (mycache two_running)].
Proof. split; [by vm_compute | apply (exit_frees_everything two_running two_running_wf)]. Defined.
