(* ===== verification/Mp2Admission.v ===== *)
(** * MP2: the admission control accounts for the registered utilisation

    [admission_control] (src/MP2/mp2.c) keeps the sum of C/P of the admitted
    tasks as a fraction of two [unsigned long]s.  Here: while the products fit
    their words, the fraction is exactly that sum, on every register and
    deregister; a request is admitted iff the new sum is at most 693/1000; and
    what happens when the preconditions fail (a zero period, a 32-bit
    wrap-around). *)
From Stdlib Require Import Ascii String.
From stdpp Require Import base gmap sets list strings.
From Stdlib Require Import ZArith Lia QArith.
From S2P Require Import Prelude CString Kernel Mp2 Mp2Run Mp2State Mp2Sched.

Open Scope Z_scope.
Open Scope c_scope.

(** ** Fractions *)

Definition frac (n d : Z) : Q := n # Z.to_pos d.

Lemma frac_add n d c p :
  0 < d → 0 < p → (frac n d + frac c p == frac (n * p + c * d) (d * p))%Q.
Proof.
  intros Hd Hp. unfold frac, Qeq, Qplus. simpl.
  rewrite !Pos2Z.inj_mul, !Z2Pos.id by lia. ring.
Qed.

Lemma frac_sub n d c p :
  0 < d → 0 < p → (frac n d - frac c p == frac (n * p - c * d) (d * p))%Q.
Proof.
  intros Hd Hp. unfold frac, Qeq, Qminus, Qplus, Qopp. simpl.
  rewrite !Pos2Z.inj_mul, !Z2Pos.id by lia. ring.
Qed.

Lemma frac_le n d c p :
  0 < d → 0 < p → (frac n d <= frac c p)%Q ↔ n * p <= c * d.
Proof.
  intros Hd Hp. unfold frac, Qle. simpl. by rewrite !Z2Pos.id by lia.
Qed.

Lemma frac_zero d : (frac 0 d == 0)%Q.
Proof. done. Qed.

Lemma frac_nonneg n d : 0 <= n → (0 <= frac n d)%Q.
Proof. intros Hn. unfold frac, Qle. simpl. lia. Qed.

Lemma frac_eq_zero n d : (frac n d == 0)%Q ↔ n = 0.
Proof. unfold frac, Qeq. simpl. lia. Qed.

(** ** The utilisation of a set of tasks *)

(** A task's demand: its computation time and its period. *)
Definition demand : Type := Z * Z.
Definition util (d : demand) : Q := frac (fst d) (snd d).
Definition demand_ok (d : demand) : Prop := 0 <= fst d ∧ 0 < snd d.

Fixpoint total (l : list demand) : Q :=
  match l with [] => 0%Q | d :: l' => (util d + total l')%Q end.

Lemma total_app l1 l2 : (total (l1 ++ l2) == total l1 + total l2)%Q.
Proof.
  induction l1 as [|d l1 IH]; simpl; [ring|]. rewrite IH. ring.
Qed.

Lemma total_nonneg l : Forall demand_ok l → (0 <= total l)%Q.
Proof.
  induction 1 as [|d l [Hc Hp] _ IH]; simpl; [apply Qle_refl|].
  rewrite <- (Qplus_0_l 0). apply Qplus_le_compat; [by apply frac_nonneg | done].
Qed.

#[export] Instance total_proper : Proper ((≡ₚ) ==> Qeq) total.
Proof.
  intros l1 l2 H. induction H; simpl.
  - reflexivity.
  - by rewrite IHPermutation.
  - ring.
  - by etransitivity.
Qed.

(** The accounting relation between the two globals and the admitted tasks. *)
Definition accounts (num den : Z) (l : list demand) : Prop :=
  0 <= num ∧ (num = 0 ∨ 0 < den) ∧ (frac num den == total l)%Q.

(** The products of [admission_control] stay within their words. *)
Definition fits (num den : Z) (d : demand) : Prop :=
  let '(c, p) := d in
  1000 * c < 2 ^ 32 ∧ 693 * p < 2 ^ 32 ∧
  1000 * (num * p + c * den) < 2 ^ 64 ∧ 693 * (den * p) < 2 ^ 64.

(** The products of a release stay within 64 bits. *)
Definition release_fits (num den : Z) (d : demand) : Prop :=
  let '(c, p) := d in num * p < 2 ^ 64 ∧ c * den < 2 ^ 64 ∧ den * p < 2 ^ 64.

Definition bound : Q := (693 # 1000)%Q.

Section admission.
Context {L : Type} `{!KList L, !KConst, !Allocator, !Kstrto}.
Context `{!KListLaws L, !KConstLaws, !AllocatorLaws, !KstrtoLaws}.
Implicit Types s : @mp2 L.


Lemma admission_register_run num den l c p pid s :
  numerator s = num → denominator s = den → 0 <= den →
  accounts num den l → demand_ok (c, p) → fits num den (c, p) →
  let num' := if num =? 0 then c else num * p + c * den in
  let den' := if num =? 0 then p else den * p in
  accounts num' den' ((c, p) :: l) ∧
  admission_control p c pid 0 s =
    (if Qle_bool (total ((c, p) :: l)) bound
     then Ok (0, set_numerator num' (set_denominator den' s))
     else Ok (1, s)).
Proof.
  intros Hn Hd Hden (Hnum & Hpos & Hacc) [Hc Hp] (Hf1 & Hf2 & Hf3 & Hf4) num' den'.
  simpl in Hc, Hp. unfold admission_control, bind, gets, modify, ret.
  rewrite Hn, Hd. replace (0 =? 1) with false by done.
  assert (0 < den' ∧ accounts num' den' ((c, p) :: l)) as [Hden' Hacc'].
  { subst num' den'. unfold accounts. simpl. unfold util. simpl.
    destruct (Z.eqb_spec num 0) as [->|Hnz].
    - split; [done|]. split_and!; [done | by right |].
      rewrite <- Hacc, frac_zero. ring.
    - destruct Hpos as [?|Hpos]; [done|]. split; [nia|].
      split_and!; [nia | right; nia |].
      rewrite <- Hacc, <- frac_add by done. ring. }
  split; [done|]. destruct Hacc' as (Hn' & _ & Heq).
  assert (Qle_bool (total ((c, p) :: l)) bound = (num' * 1000 <=? 693 * den')) as ->.
  { apply eq_true_iff_eq. rewrite Qle_bool_iff, Z.leb_le, <- Heq.
    change bound with (frac 693 1000). rewrite frac_le by lia. lia. }
  subst num' den'. destruct (Z.eqb_spec num 0) as [->|Hnz].
  - words. by destruct (_ <=? _).
  - destruct Hpos as [?|Hpos]; [done|].
    assert (0 <= den * p) by nia. assert (0 <= num * p) by nia.
    assert (0 <= c * den) by nia.
    words. by destruct (_ <=? _).
Qed.

Lemma accounts_release num den l l' c p :
  accounts num den l → l ≡ₚ (c, p) :: l' → Forall demand_ok l →
  let num' := if num * p <=? c * den then 0 else num * p - c * den in
  let den' := if num * p <=? c * den then den else den * p in
  accounts num' den' l'.
Proof.
  intros (Hnum & Hpos & Hacc) Hperm Hok num' den'. rewrite Hperm in Hok.
  apply Forall_cons in Hok as [[Hc Hp] Hok]. simpl in Hc, Hp.
  pose proof (total_nonneg l' Hok) as Hrest.
  rewrite Hperm in Hacc. simpl in Hacc. unfold util in Hacc. simpl in Hacc.
  assert (frac c p <= frac num den)%Q as Hle.
  { rewrite Hacc. rewrite <- (Qplus_0_r (frac c p)) at 1.
    by apply Qplus_le_compat; [apply Qle_refl|]. }
  assert (total l' == frac num den - frac c p)%Q as Hl' by (rewrite Hacc; ring).
  subst num' den'. destruct (Z.leb_spec (num * p) (c * den)) as [Hcase|Hcase].
  - split_and!; [lia | by left |]. rewrite frac_zero, Hl'.
    destruct Hpos as [->|Hpos].
    + assert (frac c p == 0)%Q as ->; [|done].
      rewrite frac_zero in Hle. by apply Qle_antisym; [|apply frac_nonneg].
    + assert (frac num den <= frac c p)%Q as Hge by (apply frac_le; lia).
      rewrite (Qle_antisym _ _ Hge Hle). ring.
  - destruct Hpos as [->|Hpos]; [exfalso|].
    + assert (0 <= c) by done. assert (c = 0) as ->; [|lia].
      rewrite frac_zero in Hle.
      by apply (frac_eq_zero c p), Qle_antisym; [|apply frac_nonneg].
    + split_and!; [lia | right; nia |]. by rewrite Hl', frac_sub.
Qed.

Lemma admission_release_run c p pid s :
  let num := numerator s in let den := denominator s in
  0 <= num → 0 <= den → demand_ok (c, p) → release_fits num den (c, p) →
  admission_control p c pid 1 s =
    Ok (1, set_numerator (if num * p <=? c * den then 0 else num * p - c * den)
             (set_denominator (if num * p <=? c * den then den else den * p) s)).
Proof.
  intros num den Hnum Hden [Hc Hp] (Hf1 & Hf2 & Hf3). simpl in Hc, Hp.
  assert (0 <= num * p ∧ 0 <= c * den ∧ 0 <= den * p) as (? & ? & ?) by nia.
  unfold admission_control, bind, gets, modify, ret. fold num den. simpl.
  words. destruct (Z.leb_spec (num * p) (c * den)).
  - open_state s. done.
  - words. open_state s. done.
Qed.

(** ** The tasks on the list *)

Definition demand_of (m : gmap Z mp2_task_struct) (a : Z) : demand :=
  match m !! a with Some t => (computation t, period t) | None => (0, 1) end.

(** The demands of the registered tasks, in list order. *)
Definition demands s : list demand := demand_of (mem s) <$> nodes s.

Lemma demands_ext s s' :
  HEAD s' = HEAD s → mem s' = mem s → demands s' = demands s.
Proof. unfold demands, nodes. by intros -> ->. Qed.

Lemma demands_change s s' a t t' :
  HEAD s' = HEAD s → mem s !! a = Some t → mem s' = <[a := t']> (mem s) →
  computation t' = computation t → period t' = period t → demands s' = demands s.
Proof.
  intros HH Ht Hm Hc Hp. unfold demands, nodes. rewrite HH, Hm.
  apply list_fmap_ext. intros _ b _. unfold demand_of.
  rewrite lookup_insert. case_decide; [subst|done]. by rewrite Ht, Hc, Hp.
Qed.

Lemma demands_add s s' a t :
  a ∉ nodes s → HEAD s' = list_add_tail a (HEAD s) → mem s' = <[a := t]> (mem s) →
  demands s' = demands s ++ [(computation t, period t)].
Proof.
  intros Ha HH Hm. unfold demands, nodes. rewrite HH, Hm, nodes_add_tail by done.
  rewrite fmap_app. f_equal.
  - apply list_fmap_ext. intros i b Hb. unfold demand_of.
    rewrite lookup_insert_ne; [done|]. intros ->. apply list_elem_of_lookup_2 in Hb. done.
  - simpl. unfold demand_of. by rewrite lookup_insert_eq.
Qed.

Lemma demands_remove s s' a t :
  wf s → mem s !! a = Some t →
  HEAD s' = list_del a (HEAD s) → mem s' = delete a (mem s) →
  demands s ≡ₚ (computation t, period t) :: demands s'.
Proof.
  intros Hw Ht HH Hm. destruct (wf_lookup s a t Hw Ht) as [_ Hin].
  pose proof (wf_nodup s Hw) as Hnd.
  unfold demands, nodes. rewrite HH, Hm, nodes_del by done. fold (nodes s).
  apply list_elem_of_split in Hin as (l1 & l2 & Hl). rewrite Hl in Hnd |- *.
  apply NoDup_app in Hnd as (Hn1 & Hd & [Ha2 Hn2]%NoDup_cons).
  assert (∀ l : list Z, a ∉ l → filter (λ b, b ≠ a) l = l) as Hfil.
  { intros l Hl'. induction l as [|b l IH]; [done|].
    rewrite filter_cons_True by set_solver. f_equal. apply IH. set_solver. }
  assert (∀ l : list Z, a ∉ l → demand_of (delete a (mem s)) <$> l = demand_of (mem s) <$> l) as Hdel.
  { intros l Hl'. apply list_fmap_ext. intros i b Hb. unfold demand_of.
    rewrite lookup_delete_ne; [done|]. intros ->. apply Hl'. by eapply list_elem_of_lookup_2. }
  rewrite filter_app, filter_cons_False, !Hfil by set_solver.
  rewrite !fmap_app, fmap_cons, !Hdel by set_solver.
  unfold demand_of at 2. rewrite Ht. symmetry. apply Permutation_middle.
Qed.

(** ** The accounting invariant *)

Definition acc_inv s : Prop :=
  accounts (numerator s) (denominator s) (demands s) ∧ 0 <= denominator s ∧
  Forall demand_ok (demands s) ∧ (total (demands s) <= bound)%Q.

Lemma acc_inv_ext s s' :
  numerator s' = numerator s → denominator s' = denominator s →
  demands s' = demands s → acc_inv s → acc_inv s'.
Proof. unfold acc_inv. by intros -> -> ->. Qed.

Lemma reg_entry_acc stale s p per comp r s' :
  wf s → acc_inv s → demand_ok (comp, per) →
  fits (numerator s) (denominator s) (comp, per) →
  reg_entry stale p per comp s = Ok (r, s') → acc_inv s'.
Proof.
  intros Hw (Hacc & Hden & Hoks & Hb) Hok Hf Hrun.
  destruct (admission_register_run _ _ _ comp per p s eq_refl eq_refl Hden Hacc Hok Hf)
    as [Hacc' Hadm]. destruct (Qle_bool _ _) eqn:Hle.
  - destruct (alloc_addr (n_alloc (slab s)) (dom (mem s))) as [a|] eqn:Ha.
    + erewrite reg_entry_run in Hrun by (done || by apply wf_cache). simplify_eq.
      pose proof (proj1 (alloc_fresh _ _ _ Ha)) as Hfr%not_elem_of_dom.
      erewrite <- (demands_ext s) in Hacc' by done.
      assert (a ∉ nodes s) as Hna by (rewrite (wf_dom s Hw), Hfr; by intros []).
      match goal with |- acc_inv ?s2 =>
        pose proof (demands_add s s2 a (new_task s p per comp) Hna eq_refl eq_refl) as Hd end.
      assert (∀ l, l ++ [(comp, per)] ≡ₚ (comp, per) :: l) as Hperm
        by (intros; apply Permutation_app_comm).
      unfold acc_inv, accounts in *. rewrite Hd. simpl in *.
      rewrite Hperm. apply Qle_bool_iff in Hle. split_and!; try done; try tauto.
      * destruct Hok as [Hc Hp]. simpl in Hc, Hp. case_match; [lia | nia].
      * by apply Forall_cons.
    + erewrite reg_entry_no_memory in Hrun by (done || by apply wf_cache). done.
  - rewrite (reg_entry_refused stale s p per comp Hadm) in Hrun. by simplify_eq.
Qed.

Lemma dereg_entry_acc s p r s' :
  wf s → acc_inv s →
  (∀ a t, first_with_pid s p = Some a → mem s !! a = Some t →
     release_fits (numerator s) (denominator s) (computation t, period t)) →
  dereg_entry p s = Ok (r, s') → acc_inv s'.
Proof.
  intros Hw (Hacc & Hden & Hoks & Hb) Hf Hrun.
  destruct (first_with_pid s p) as [a|] eqn:Hfirst.
  2:{ rewrite (dereg_entry_unknown s p Hw Hfirst) in Hrun. by simplify_eq. }
  destruct (first_with_pid_Some s p a Hw Hfirst) as [_ (t & Ht & _)].
  specialize (Hf a t eq_refl Ht).
  assert (numerator (forget_curr a s) = numerator s ∧
          denominator (forget_curr a s) = denominator s) as [Hn Hd]
    by (unfold forget_curr; by case_match).
  set (s2 := log (WakeUp (dispatch_kth s)) (set_HEAD (list_del a (HEAD s))
    (set_mem (delete a (mem s)) s))).
  pose proof (demands_remove s s2 a t Hw Ht eq_refl eq_refl) as Hperm.
  pose proof Hoks as Hoks'. rewrite Hperm in Hoks'. apply Forall_cons in Hoks' as [Hok Hoks'].
  pose proof (admission_release_run (computation t) (period t) (pid t) (forget_curr a s)) as Hadm.
  rewrite Hn, Hd in Hadm.
  eapply returns_any in Hrun;
    [|eapply dereg_entry_run; [done..|auto with wp|apply Hadm; [apply Hacc|done..]]].
  simplify_eq.
  pose proof (accounts_release _ _ _ _ _ _ Hacc Hperm Hoks) as Hacc'.
  unfold acc_inv. erewrite (demands_ext s2 _) by done. simpl. split_and!; try done.
  - destruct Hok as [_ Hp]. simpl in Hp. case_match; [done|nia].
  - rewrite Hperm in Hb. simpl in Hb. eapply Qle_trans; [|exact Hb].
    rewrite <- (Qplus_0_l (total _)) at 1.
    apply Qplus_le_compat; [by apply frac_nonneg, Hok | apply Qle_refl].
Qed.

Lemma yielded_demand now t :
  computation (yielded now t) = computation t ∧ period (yielded now t) = period t.
Proof. unfold yielded, yielded_by. by repeat case_match. Qed.

Lemma yield_entry_acc s p r s' :
  wf s → acc_inv s → yield_entry p s = Ok (r, s') → acc_inv s'.
Proof.
  intros Hw Ha Hrun. destruct (first_with_pid s p) as [a|] eqn:Hf;
    [|by rewrite (yield_entry_unknown s p Hw Hf) in Hrun].
  destruct (first_with_pid_Some s p a Hw Hf) as [_ (t & Ht & _)].
  eapply returns_any in Hrun; [|by eapply yield_entry_run; auto with wp]. simplify_eq.
  destruct (yielded_demand (jiffies s) t) as [Hc Hp].
  apply (acc_inv_ext s); [| | |done]; unfold forget_curr.
  1, 2: by repeat case_match.
  eapply (demands_change s _ a t); [|done| |done..]; by repeat case_match.
Qed.

Lemma dispatched_acc s : wf s → acc_inv s → acc_inv (dispatched s).
Proof.
  intros Hw Ha. unfold dispatched.
  destruct (mem s !! best _ _) as [t|] eqn:Ht; [|by apply (acc_inv_ext s)].
  destruct (Z.eqb_spec (best (mem s) (nodes s)) (curr_tsk s)) as [|Hne];
    [by apply (acc_inv_ext s)|].
  unfold switch_to. destruct (mem s !! curr_tsk s) as [o|] eqn:Ho.
  - apply (acc_inv_ext (set_mem (<[curr_tsk s := preempted o]> (mem s)) s)); [done..| |].
    + eapply (demands_change _ _ (best (mem s) (nodes s)) t); [done| |reflexivity|done..].
      by rewrite mem_set_mem, lookup_insert_ne.
    + apply (acc_inv_ext s); [done..| |done].
      eapply (demands_change _ _ (curr_tsk s) o); [done..|reflexivity| |];
        unfold preempted; by case_match.
  - apply (acc_inv_ext s); [done..| |done].
    by eapply (demands_change _ _ (best (mem s) (nodes s)) t); [..|reflexivity| |].
Qed.

(** ** Reachable states *)

Variable stale : mp2_task_struct.

(** Requests whose products fit their words, with a positive period. *)
Definition event_fits (e : event) s : Prop :=
  match e with
  | Write ubuf => ∀ p per comp,
      parse_request (ubuf ++ [NUL]) s = Ok (p, per, comp, s) →
      (hd NUL (ubuf ++ [NUL]) = ch "R" →
         0 < u32 per ∧ fits (numerator s) (denominator s) (u32 comp, u32 per)) ∧
      (hd NUL (ubuf ++ [NUL]) = ch "D" → ∀ a t,
         first_with_pid s p = Some a → mem s !! a = Some t →
         release_fits (numerator s) (denominator s) (computation t, period t))
  | _ => True
  end.

Lemma mywrite_acc ubuf s r s' :
  wf s → acc_inv s → event_fits (Write ubuf) s →
  mywrite stale ubuf s = Ok (r, s') → acc_inv s'.
Proof.
  intros Hw Ha Hf Hrun. unfold mywrite in Hrun.
  run_inv Hrun. pose proof (parse_request_read _ _ _ _ Hrun0) as ->.
  destruct a as [[p per] comp]. destruct (Hf p per comp Hrun0) as [HfR HfD].
  run_inv Hrun. unfold ret in Hrun. simplify_eq.
  repeat case_decide.
  - run_inv Hrun1. unfold ret in Hrun1. simplify_eq. destruct HfR as [Hp Hfit]; [done|].
    eapply reg_entry_acc; [done..| | |done]; [|done].
    split; simpl; [apply u32_range | done].
  - by eapply yield_entry_acc.
  - run_inv Hrun1. unfold ret in Hrun1. simplify_eq. eapply dereg_entry_acc; [done..| |done]. by apply HfD.
  - unfold ret in Hrun1. by simplify_eq.
Qed.

Lemma loaded_acc s : loaded s → acc_inv s.
Proof.
  intros Hl. pose proof (init_wf s Hl) as Hw.
  destruct Hl as [d f cache thread s0 s Hm Hc Hrun].
  assert (wp (mp2_init d f cache thread)
    (λ r s, r = 0 → HEAD s = INIT_LIST_HEAD ∧ numerator s = 0 ∧ denominator s = 0) any s0)
    as Hwp.
  { pose proof errno_pos as (_ & _ & He & _).
    unfold mp2_init, init_slab, init_mykernel, wake_up_process. wp_pure.
    destruct (f =? NULL); [wp_pure; lia|]. wp_pure.
    destruct (_ =? NULL); wp_pure; [done|].
    apply wp_on_task; [apply permits_any|]. by wp_pure. }
  destruct (wp_run _ _ _ _ _ _ Hwp Hrun eq_refl) as (HH & Hn & Hd).
  assert (demands s = []) as Hdem by (unfold demands, nodes; by rewrite HH, nodes_init).
  unfold acc_inv, accounts. rewrite Hn, Hd, Hdem. simpl. split_and!; try done; by left.
Qed.

Lemma step_acc e s s' :
  wf s → acc_inv s → event_fits e s → step stale e s s' → acc_inv s'.
Proof.
  intros Hw Ha Hf Hstep.
  destruct Hstep as [ubuf r s s' Hrun|a t e s s' Ht _ _ Hrun|s s' Hrun|s|p t s].
  - by eapply mywrite_acc.
  - apply (timer_fires_run s a t) in Hrun as ->; [|done..].
    apply (acc_inv_ext s); [done..| |done].
    eapply (demands_change s _ a t); [done..|reflexivity| |]; unfold woken; by case_match.
  - eapply returns_any in Hrun; [|by apply dispatch_body_run; auto with wp].
    simplify_eq. by apply dispatched_acc.
  - by apply (acc_inv_ext s).
  - by apply (acc_inv_ext s).
Qed.

(** C6: In every state reached from loading by well-formed registrations (of a
    period that is not 0) and other requests whose products fit their words,
    timer expiries, dispatcher turns and process changes, the fraction
    numerator/denominator is exactly the sum of C/P over the registered tasks,
    and that sum is at most 693/1000.  *)
Theorem admitted_utilisation_bounded s :
  reaches stale event_fits s →
  accounts (numerator s) (denominator s) (demands s) ∧
  (total (demands s) <= 693 # 1000)%Q.
Proof.
  intros Hr.
  assert (acc_inv s) as (? & _ & _ & ?); [|done].
  apply (reaches_ind stale event_fits acc_inv); [apply loaded_acc | | done].
  intros e s1 s2 Hw Ha Hf Hs. by eapply step_acc.
Qed.


(** A release of a registered task takes exactly its C/P out of the
    account, whatever the other tasks. *)
Theorem admission_release_exact l l' p c pid s :
  0 <= denominator s → accounts (numerator s) (denominator s) l →
  l ≡ₚ (c, p) :: l' → Forall demand_ok l →
  release_fits (numerator s) (denominator s) (c, p) →
  ∃ s', admission_control p c pid 1 s = Ok (1, s') ∧
    accounts (numerator s') (denominator s') l'.
Proof.
  intros Hd Hacc Hperm Hoks Hf. pose proof Hoks as Hok. rewrite Hperm in Hok.
  apply Forall_cons in Hok as [Hok _].
  eexists. split; [apply admission_release_run; [apply Hacc|done..]|].
  by apply accounts_release with l.
Qed.

(** A registration with period 0 and computation 0 is always accepted,
    and sets the accounted utilisation to 0 whatever was registered. *)
Theorem admission_zero_forgets pid s :
  admission_control 0 0 pid 0 s = Ok (0, set_numerator 0 (set_denominator 0 s)).
Proof.
  open_state s. unfold admission_control, bind, gets, modify, ret. simpl.
  case_match; zbool; [done|]. rewrite Z.mul_0_r. by rewrite Z.mul_0_r.
Qed.

(** With nothing accounted, the test of a registration is the one of the
    32-bit products: it accepts any computation time whose multiple by 1000,
    wrapped, is small. *)
Theorem admission_first_test_wraps p c pid s :
  numerator s = 0 →
  (c * 1000) mod 2 ^ 32 <= (693 * p) mod 2 ^ 32 →
  admission_control p c pid 0 s = Ok (0, set_numerator c (set_denominator p s)).
Proof.
  intros Hn Hle. apply Z.leb_le in Hle. open_state s. subst.
  unfold admission_control, bind, gets, modify, ret. simpl. unfold u32.
  by rewrite Hle.
Qed.
(** ** A request without period *)

(** A registration that passes the test, and gets its struct, adds its demand. *)
Lemma reg_entry_accepted s p per comp n d :
  wf s → is_Some (alloc_addr (n_alloc (slab s)) (dom (mem s))) →
  admission_control per comp p 0 s = Ok (0, set_numerator n (set_denominator d s)) →
  ∃ s', reg_entry stale p per comp s = Ok (0, s') ∧ wf s' ∧
    demands s' = demands s ++ [(comp, per)] ∧ numerator s' = n ∧ denominator s' = d ∧
    n_alloc (slab s') = Datatypes.S (n_alloc (slab s)).
Proof.
  intros Hw [a Ha] Hadm.
  pose proof (reg_entry_run stale s p per comp n d a Hadm (wf_cache s Hw) Ha) as Hrun.
  pose proof (reg_entry_wf stale s p per comp _ _ Hw Hrun) as Hw'.
  pose proof (proj1 (alloc_fresh _ _ _ Ha)) as Hfr%not_elem_of_dom.
  assert (a ∉ nodes s) as Hna by (rewrite (wf_dom s Hw), Hfr; by intros []).
  eexists. split; [exact Hrun|]. split; [exact Hw'|]. split; [|done].
  by apply (demands_add s _ a (new_task s p per comp)).
Qed.

(** C32: A malformed registration lets the processor be overcommitted, whatever
    is registered.  A write that begins with R and parses to period and
    computation 0 is accepted and clears the account, while the tasks stay; so
    the next registration is accepted as if it were the first, and the total
    utilisation grows by its share, whatever it was.  (The memory for the two
    structs is there.) *)
Theorem overcommit_after_malformed_request s ubuf p q per comp :
  wf s →
  (∀ used, is_Some (alloc_addr (n_alloc (slab s)) used) ∧
           is_Some (alloc_addr (Datatypes.S (n_alloc (slab s))) used)) →
  hd NUL (ubuf ++ [NUL]) = ch "R" → parse_request (ubuf ++ [NUL]) s = Ok (p, 0, 0, s) →
  0 <= comp → 1000 * comp <= 693 * per → 693 * per < 2 ^ 32 →
  ∃ s1 s2, mywrite stale ubuf s = Ok (Z.of_nat (length ubuf), s1) ∧
    reg_entry stale q per comp s1 = Ok (0, s2) ∧
    demands s2 = demands s ++ [(0, 0); (comp, per)] ∧
    (total (demands s2) == total (demands s) + util (comp, per))%Q ∧
    numerator s2 = comp ∧ denominator s2 = per.
Proof.
  intros Hw Hmem Hop Hparse Hc Hle Hper.
  destruct (reg_entry_accepted s p 0 0 0 0 Hw (proj1 (Hmem _)) (admission_zero_forgets p s))
    as (s1 & Hrun1 & Hw1 & Hd1 & Hn1 & _ & Hk1).
  pose proof (proj2 (Hmem (dom (mem s1)))) as Hmem1. rewrite <- Hk1 in Hmem1.
  assert (admission_control per comp q 0 s1 = Ok (0, set_numerator comp (set_denominator per s1)))
    as Hadm.
  { apply admission_first_test_wraps; [done|]. rewrite !Z.mod_small by lia. lia. }
  destruct (reg_entry_accepted s1 q per comp comp per Hw1 Hmem1 Hadm)
    as (s2 & Hrun2 & _ & Hd2 & Hn2 & Hden2 & _).
  assert (demands s2 = demands s ++ [(0, 0); (comp, per)]) as Hd
    by (rewrite Hd2, Hd1; by rewrite <- app_assoc).
  exists s1, s2. split_and!; [|done|done| |done|done].
  - unfold mywrite, bind. rewrite Hparse, Hop. cbn [ret]. rewrite decide_True by done.
    change (u32 0) with 0. unfold bind. by rewrite Hrun1.
  - rewrite Hd, total_app. cbn. change (util (0, 0)) with 0%Q. ring.
Qed.
End admission.

(** ** Instances *)

Import Reference.

Lemma request_fits_at ubuf s p per comp :
  parse_request (ubuf ++ [NUL]) s = Ok (p, per, comp, s) →
  hd NUL (ubuf ++ [NUL]) = ch "R" →
  0 < u32 per → fits (numerator s) (denominator s) (u32 comp, u32 per) →
  event_fits (Write ubuf) (s : @mp2 (list Z)).
Proof.
  intros Hp Hh H1 H2 p' per' comp' Hp'. rewrite Hp in Hp'. simplify_eq.
  split; [done|]. rewrite Hh. done.
Qed.

Lemma two_tasks_reached : reaches stale_task event_fits two_tasks.
Proof.
  set (s1 := state_of bare (mywrite stale_task (line "R,1,500,86") boot)).
  assert (reaches stale_task event_fits s1) as H1.
  { apply (reaches_write stale_task event_fits (line "R,1,500,86") boot 11);
      [apply reaches_loaded, boot_loaded | | by vm_compute].
    by apply (request_fits_at _ _ 1 500 86); vm_compute. }
  apply (reaches_write stale_task event_fits (line "R,2,300,43") s1 11);
    [done | | by vm_compute].
  by apply (request_fits_at _ _ 2 300 43); vm_compute.
Qed.

Lemma admitted_utilisation_bounded_witness :
  accounts (numerator two_tasks) (denominator two_tasks) (demands two_tasks) ∧
  (total (demands two_tasks) <= 693 # 1000)%Q ∧ length (demands two_tasks) = 2%nat.
Proof.
  destruct (admitted_utilisation_bounded stale_task two_tasks two_tasks_reached) as [H1 H2].
  by split_and!.
Defined.


Lemma admission_release_exact_witness :
  ∃ s', admission_control 500 86 1 1 two_tasks = Ok (1, s') ∧
    accounts (numerator s') (denominator s') [(43, 300)].
Proof.
  apply (admission_release_exact [(86, 500); (43, 300)] [(43, 300)] 500 86 1 two_tasks);
    [by vm_compute | | done | by repeat constructor | by vm_compute].
  split_and!; [by vm_compute | by right; vm_compute | by vm_compute].
Defined.

Lemma admission_first_test_wraps_witness :
  admission_control 2 4294968 7 0 boot = Ok (0, set_numerator 4294968 (set_denominator 2 boot)).
Proof. by apply admission_first_test_wraps; vm_compute. Defined.

(** Two tasks of 69%, with a request without period between them. *)
Lemma overcommit_after_malformed_request_witness :
  let s := state_of bare (mywrite stale_task (line "R,1,1000,690") boot) in
  ∃ s1 s2, mywrite stale_task (line "R,2") s = Ok (4, s1) ∧
    reg_entry stale_task 3 1000 690 s1 = Ok (0, s2) ∧
    demands s2 = [(690, 1000); (0, 0); (690, 1000)] ∧ (1 < total (demands s2))%Q.
Proof.
  intros s.
  assert (wf s) as Hw.
  { apply (reaches_wf stale_task (λ _ _, True)). apply (writes_reach [line "R,1,1000,690"] boot);
      [apply reaches_loaded, boot_loaded | by vm_compute]. }
  destruct (overcommit_after_malformed_request stale_task s (line "R,2") 2 3 1000 690)
    as (s1 & s2 & H1 & H2 & Hd & _);
    [exact Hw | split; by eexists | done | by vm_compute | lia | lia | lia |].
  exists s1, s2. split; [exact H1|]. split; [exact H2|].
  assert (demands s = [(690, 1000)]) as Hs by by vm_compute.
  rewrite Hs in Hd. split; [exact Hd|]. rewrite Hd. by vm_compute.
Defined.
