(* ===== verification/Mp2User.v ===== *)
(** * MP2: the test application

    src/MP2/userapp.c: the messages the application writes to the proc file, in
    order, how it looks for its pid in what the file gives back, and the rounds
    of busy work it does.  The state is the globals of userapp.c, the writes made
    on [fp], one per [fflush], and the number of calls of [factorial].  What a
    round costs is measured with the clock and is an argument of [main]; the
    messages on the terminal are left out. *)
From Stdlib Require Import Ascii String.
From stdpp Require Import base gmap sets list strings.
From Stdlib Require Import ZArith Lia.
From S2P Require Import Prelude CString.

Open Scope Z_scope.
Open Scope c_scope.

Module App.
Record app : Type := mkApp {
  curr_pid : Z;
  period : Z;
  computation : Z;
  times : Z;
  written : list (list ascii);
  rounds : Z
}.

(** [fprintf] and [fflush] on [fp]. *)
Definition emit (bytes : list ascii) : M app unit :=
  modify (λ a, mkApp (curr_pid a) (period a) (computation a) (times a) (written a ++ [bytes])
                 (rounds a)).

(** The busy loop of [factorial]: the values of [out] and [i] at its end.  [i] is
    incremented twice a turn. *)
Definition FACTORIAL_N : Z := 20000000.

Fixpoint factorial_loop (fuel : nat) (out i : Z) : option (Z * Z) :=
  if i <? FACTORIAL_N then
    match fuel with
    | O => None
    | S fuel' => factorial_loop fuel' (i32 (out * i)) (i + 1 + 1)
    end
  else Some (out, i).

(** A call only takes time. *)
Definition factorial : M app unit :=
  modify (λ a, mkApp (curr_pid a) (period a) (computation a) (times a) (written a) (rounds a + 1)).

Definition yield_msg (pid : Z) : list ascii := str "Y," ++ fmt_d pid ++ [newline].
Definition dereg_msg (pid : Z) : list ascii := str "D," ++ fmt_d pid ++ [newline].
Definition reg_msg (pid period computation : Z) : list ascii :=
  str "R," ++ fmt_d pid ++ str "," ++ fmt_d period ++ str "," ++ fmt_d computation
    ++ [newline].

Definition yield : M app unit := let! a := get in emit (yield_msg (curr_pid a)).
Definition deregister : M app unit := let! a := get in emit (dereg_msg (curr_pid a)).
Definition regist : M app unit :=
  let! a := get in emit (reg_msg (curr_pid a) (period a) (computation a)).

(** The lines of the file after the first; [pid] keeps its value when a line
    holds no number.  Each line takes at least one byte, so the bytes bound
    the turns of the loop. *)
Fixpoint check_loop (fuel : nat) (rfp : list ascii) (pid curr : Z) : Z :=
  match fuel, fgets 256 rfp with
  | O, _ | _, None => 1
  | S fuel', Some (line, rfp') =>
      let pid' := default pid (scan_d line) in
      if pid' =? curr then 0 else check_loop fuel' rfp' pid' curr
  end.

(** [rfp] is what reading the proc file gives. *)
Definition check (rfp : list ascii) (curr : Z) : Z :=
  match fgets 256 rfp with
  | None => 1
  | Some (_, rfp') => check_loop (length rfp') rfp' 0 curr
  end.

Definition work (computation_times : Z) : M app unit :=
  for_each (seq 0 (Z.to_nat computation_times)) (λ _, factorial).

(** The loop of [loop], from [time]; it counts up to [set_times]. *)
Fixpoint loop_from (fuel : nat) (time set_times computation_times : Z) : M app unit :=
  match fuel with
  | O => ret tt
  | S fuel' =>
      if time <? set_times then
        work computation_times ;!
        let time := time + 1 in
        if set_times <=? time then ret tt
        else yield ;! loop_from fuel' time set_times computation_times
      else ret tt
  end.

Definition loop (set_times computation_times : Z) : M app unit :=
  yield ;! loop_from (Z.to_nat set_times) 0 set_times computation_times.

(** [atoi]: 0 when there is no number. *)
Definition atoi (s : list ascii) : Z := default 0 (scan_d s).

(** [argv] is what follows the name of the program; [cost n] the milliseconds
    [n] rounds take, by the round that [helper] measures; [rfp] the status file
    after the registration. *)
Definition main (pid : Z) (argv : list (list ascii)) (cost : Z → Z) (rfp : list ascii) : M app Z :=
  factorial ;!
  match argv with
  | [a1; a2; a3] =>
      let computation_times := atoi a2 in
      modify (λ a, mkApp pid (u32 (atoi a1)) (u32 (cost computation_times)) (u32 (atoi a3))
                     (written a) (rounds a)) ;!
      regist ;!
      let! a := get in
      if negb (check rfp (curr_pid a) =? 0) then ret 1
      else
        loop (i32 (times a)) computation_times ;!
        deregister ;!
        ret 0
  | _ => ret 1
  end.

(** ** What it does *)

(** [out] stays 0, and the loop ends: half as many turns as the bound. *)
Lemma factorial_ends fuel i :
  0 <= i → (FACTORIAL_N - i + 1) / 2 <= Z.of_nat fuel →
  ∃ i', factorial_loop fuel 0 i = Some (0, i') ∧ FACTORIAL_N <= i'.
Proof.
  revert i. induction fuel as [|fuel IH]; intros i Hi Hf; cbn [factorial_loop].
  - destruct (Z.ltb_spec i FACTORIAL_N) as [Hlt|]; [|by exists i].
    exfalso. assert (1 <= (FACTORIAL_N - i + 1) / 2) by (apply Z.div_le_lower_bound; lia). lia.
  - destruct (Z.ltb_spec i FACTORIAL_N) as [Hlt|]; [|by exists i].
    rewrite Z.mul_0_l. change (i32 0) with 0. apply IH; [lia|].
    replace (FACTORIAL_N - i + 1) with ((FACTORIAL_N - (i + 1 + 1) + 1) + 1 * 2) in Hf by lia.
    rewrite Z.div_add in Hf by done. lia.
Qed.

Definition did (l : list (list ascii)) (n : Z) (a : app) : app :=
  mkApp (curr_pid a) (period a) (computation a) (times a) (written a ++ l) (rounds a + n).

Lemma did_nothing a : did [] 0 a = a.
Proof. destruct a. unfold did. simpl. by rewrite app_nil_r, Z.add_0_r. Qed.

Lemma did_did l n l' n' a : did l' n' (did l n a) = did (l ++ l') (n + n') a.
Proof. unfold did. simpl. by rewrite <- app_assoc, Z.add_assoc. Qed.

Lemma emit_run bytes a : emit bytes a = Ok (tt, did [bytes] 0 a).
Proof. unfold emit, modify, did. by rewrite Z.add_0_r. Qed.

Lemma yield_run a : yield a = Ok (tt, did [yield_msg (curr_pid a)] 0 a).
Proof. unfold yield, bind, get. by rewrite emit_run. Qed.

Lemma factorial_run a : factorial a = Ok (tt, did [] 1 a).
Proof. unfold factorial, modify, did. by rewrite app_nil_r. Qed.

Lemma work_run c a : work c a = Ok (tt, did [] (Z.of_nat (Z.to_nat c)) a).
Proof.
  unfold work. generalize (Z.to_nat c) as n. intros n. generalize 0%nat as k. revert a.
  induction n as [|n IH]; intros a k; [by rewrite did_nothing|].
  cbn [seq for_each]. unfold bind. rewrite factorial_run, IH, did_did.
  do 3 f_equal. lia.
Qed.

(** [n] jobs: their work, and a yield between them. *)
Lemma loop_from_run fuel time n c a :
  0 <= time → (Z.to_nat (n - time) <= fuel)%nat →
  let jobs := Z.to_nat (n - time) in
  loop_from fuel time n c a =
    Ok (tt, did (replicate (jobs - 1) (yield_msg (curr_pid a)))
              (Z.of_nat (jobs * Z.to_nat c)) a).
Proof.
  revert time a. induction fuel as [|fuel IH]; intros time a Ht Hf jobs.
  - assert (jobs = 0%nat) as -> by (unfold jobs; lia). by rewrite did_nothing.
  - cbn [loop_from]. destruct (Z.ltb_spec time n) as [Hlt|Hge].
    2:{ assert (jobs = 0%nat) as -> by (unfold jobs; lia). by rewrite did_nothing. }
    unfold bind at 1. rewrite work_run. destruct (Z.leb_spec n (time + 1)).
    + assert (jobs = 1%nat) as -> by (unfold jobs; lia). by rewrite Nat.mul_1_l.
    + unfold bind. rewrite yield_run, IH by lia. cbn [curr_pid did]. rewrite !did_did.
      assert (jobs = S (S (Z.to_nat (n - (time + 1)) - 1))) as -> by (unfold jobs; lia).
      replace (Z.to_nat (n - (time + 1))) with (S (Z.to_nat (n - (time + 1)) - 1)) at 2 by lia.
      do 3 f_equal; lia.
Qed.

(** The loop of [n] jobs yields once per job, and once if there is none. *)
Lemma loop_run n c a :
  loop n c a =
    Ok (tt, did (replicate (Nat.max 1 (Z.to_nat n)) (yield_msg (curr_pid a)))
              (Z.of_nat (Z.to_nat n * Z.to_nat c)) a).
Proof.
  unfold loop, bind. rewrite yield_run, loop_from_run by lia. rewrite did_did, Z.sub_0_r.
  replace (Nat.max 1 (Z.to_nat n)) with (S (Z.to_nat n - 1)) by lia.
  by rewrite Z.add_0_l.
Qed.
End App.
