(* ===== verification/Mp2Client.v ===== *)
(** * MP2: programs that share a real-time service

    What the programs of src/MP2/userapp.c rely on, as an interface
    [RtService]: a file to which one writes register, yield and deregister
    messages, and from which one reads who is registered.  Any number of
    programs run [main] over it, interleaved with one another and with what the
    service does on its own. *)
From Stdlib Require Import Ascii String.
From stdpp Require Import base gmap sets list strings relations.
From Stdlib Require Import ZArith Lia.
From S2P Require Import Prelude CString Mp2User.

Open Scope Z_scope.
Open Scope c_scope.

Definition is_pid (p : Z) : Prop := 0 < p <= INT_MAX.

(** ** The interface *)

(** [svc_pids] lists the registered pids; [svc_moves] is what happens besides
    the calls of the programs; while [svc_alive] holds the service can follow
    the tasks it knows. *)
Class RtService (S : Type) := {
  svc_ok : S → Prop;
  svc_alive : S → Prop;
  svc_pids : S → list Z;
  svc_write : list ascii → M S Z;
  svc_read : M S (list ascii);
  svc_moves : S → S → Prop
}.

Class RtLaws (S : Type) `{!RtService S} := {
  svc_register p per comp s r s' :
    svc_ok s → is_pid p → is_u32 per → is_u32 comp →
    svc_write (App.reg_msg p per comp) s = Ok (r, s') →
    svc_ok s' ∧ (svc_pids s' = svc_pids s ++ [p] ∨ svc_pids s' = svc_pids s);
  svc_yield p s r s' :
    svc_ok s → is_pid p → svc_write (App.yield_msg p) s = Ok (r, s') →
    svc_ok s' ∧ svc_pids s' = svc_pids s;
  svc_leave p s r s' :
    svc_ok s → is_pid p → p ∈ svc_pids s → svc_write (App.dereg_msg p) s = Ok (r, s') →
    svc_ok s' ∧ ∃ pre post, svc_pids s = pre ++ p :: post ∧ svc_pids s' = pre ++ post;
  svc_find p s bytes s' :
    svc_ok s → is_pid p → svc_read s = Ok (bytes, s') →
    svc_ok s' ∧ svc_pids s' = svc_pids s ∧ (App.check bytes p = 0 ↔ p ∈ svc_pids s);
  svc_move s s' : svc_ok s → svc_moves s s' → svc_ok s' ∧ svc_pids s' = svc_pids s;
  svc_yield_runs p s :
    svc_ok s → is_pid p → svc_alive s → p ∈ svc_pids s →
    ∃ r s', svc_write (App.yield_msg p) s = Ok (r, s');
  svc_leave_runs p s :
    svc_ok s → is_pid p → svc_alive s → p ∈ svc_pids s →
    ∃ r s', svc_write (App.dereg_msg p) s = Ok (r, s')
}.

(** ** The programs *)

(** Where a program is in [main]: before its registration, before [check], with
    [n] yields left before its deregistration, and after its end. *)
Inductive phase : Type :=
  | Registering
  | Checking
  | Jobs (n : nat)
  | Gone.

(** The arguments of a program. *)
Record args : Type := mkArgs {
  a_period : Z;
  a_comp : Z;
  a_times : Z
}.

Definition yields (a : args) : nat := Nat.max 1 (Z.to_nat (i32 (a_times a))).

(** What it writes next, and where it is then. *)
Definition says (p : Z) (a : args) (ph : phase) : option (list ascii) :=
  match ph with
  | Registering => Some (App.reg_msg p (u32 (a_period a)) (u32 (a_comp a)))
  | Jobs (S _) => Some (App.yield_msg p)
  | Jobs O => Some (App.dereg_msg p)
  | Checking | Gone => None
  end.

Definition said (ph : phase) : phase :=
  match ph with
  | Registering => Checking
  | Jobs (S n) => Jobs n
  | Jobs O | Checking | Gone => Gone
  end.

Definition checked (a : args) (answer : Z) : phase :=
  if answer =? 0 then Jobs (yields a) else Gone.

(** A program on its own: from [ph] on it writes [l] and ends in [ph'], when
    its reading of the status file is answered with [answer]. *)
Inductive follows (p : Z) (a : args) (answer : Z) : phase → list (list ascii) → phase → Prop :=
  | follows_end ph : follows p a answer ph [] ph
  | follows_write ph msg l ph' :
      says p a ph = Some msg → follows p a answer (said ph) l ph' →
      follows p a answer ph (msg :: l) ph'
  | follows_check l ph' :
      follows p a answer (checked a answer) l ph' → follows p a answer Checking l ph'.

(** The phases determine the messages of a program that runs to its end. *)
Lemma follows_unique p a answer ph l l' :
  follows p a answer ph l Gone → follows p a answer ph l' Gone → l = l'.
Proof.
  intros Hl. remember Gone as g eqn:Hg. revert l' Hg. induction Hl as [ph|ph msg l ph' Hs _ IH|l ph' _ IH];
    intros l' -> Hl'; inversion Hl'; subst; try done; try discriminate; simplify_eq; f_equal; by apply IH.
Qed.

Lemma follows_jobs p a answer n :
  follows p a answer (Jobs n) (replicate n (App.yield_msg p) ++ [App.dereg_msg p]) Gone.
Proof.
  induction n as [|n IH]; cbn; (eapply follows_write; [done|]); [apply follows_end|exact IH].
Qed.

(** What a program writes in all. *)
Definition messages (p : Z) (a : args) (answer : Z) : list (list ascii) :=
  App.reg_msg p (u32 (a_period a)) (u32 (a_comp a)) ::
  (if answer =? 0
   then replicate (yields a) (App.yield_msg p) ++ [App.dereg_msg p] else []).

Lemma follows_messages p a answer : follows p a answer Registering (messages p a answer) Gone.
Proof.
  eapply follows_write; [done|]. apply follows_check. unfold checked.
  destruct (answer =? 0); [apply follows_jobs|apply follows_end].
Qed.

(** C29: What the application does with three arguments: it writes its
    registration; then, if it finds its pid in the status file, one yield per job
    (one at least) and its deregistration, and it exits with 0; otherwise nothing
    more, and it exits with 1.  It has done one round of work to measure its cost
    and [computation_times] rounds per job.  These messages are the ones, and the
    only ones, that a program writes which goes through the phases of the system
    below ([says], [said], [checked]) to their end. *)
Theorem main_phases p a1 a2 a3 cost rfp m :
  let a := mkArgs (App.atoi a1) (cost (App.atoi a2)) (App.atoi a3) in
  let answer := App.check rfp p in
  let jobs := Z.to_nat (i32 (a_times a)) in
  ∃ m', App.main p [a1; a2; a3] cost rfp m = Ok (if answer =? 0 then 0 else 1, m') ∧
    App.written m' = App.written m ++
      App.reg_msg p (u32 (a_period a)) (u32 (a_comp a)) ::
      (if answer =? 0
       then replicate (Nat.max 1 jobs) (App.yield_msg p) ++ [App.dereg_msg p] else []) ∧
    (∀ l, follows p a answer Registering l Gone ↔ App.written m' = App.written m ++ l) ∧
    App.rounds m' = App.rounds m + 1 +
      (if answer =? 0 then Z.of_nat (jobs * Z.to_nat (App.atoi a2)) else 0).
Proof.
  intros a answer jobs.
  assert (∃ m', App.main p [a1; a2; a3] cost rfp m = Ok (if answer =? 0 then 0 else 1, m') ∧
    App.written m' = App.written m ++ messages p a answer ∧
    App.rounds m' = App.rounds m + 1 +
      (if answer =? 0 then Z.of_nat (jobs * Z.to_nat (App.atoi a2)) else 0))
    as (m' & Hrun & Hw & Hrounds).
  { unfold messages, yields. fold jobs.
    unfold App.main, App.regist, bind. rewrite App.factorial_run.
    unfold get, modify. rewrite App.emit_run. cbn [App.curr_pid App.did]. fold answer.
    destruct (answer =? 0); cbn [negb]; [|eexists; split_and!; [reflexivity|cbn..]; [by rewrite ?app_nil_r|lia]].
    rewrite App.loop_run. unfold App.deregister, bind, get. rewrite App.emit_run.
    cbn [App.did App.times]. rewrite i32_u32. fold jobs. eexists. split; [reflexivity|].
    cbn. rewrite <- !app_assoc. subst jobs a. split; [done|cbn; lia]. }
  exists m'. split; [exact Hrun|]. split; [exact Hw|]. split; [|exact Hrounds].
  intros l. rewrite Hw. split.
  - intros Hl. by rewrite (follows_unique _ _ _ _ _ _ Hl (follows_messages p a answer)).
  - intros <-%app_inv_head. apply follows_messages.
Qed.

(** ** The system *)

Section system.
Context {S : Type} `{!RtService S, !RtLaws S}.
(** The programs that will ever run, by pid. *)
Variable progs : gmap Z args.
Hypothesis pids_ok : ∀ p a, progs !! p = Some a → is_pid p.

Definition system : Type := S * gmap Z phase.

Inductive sys_step : system → system → Prop :=
  | sys_write p a ph msg r s s' (ps : gmap Z phase) :
      progs !! p = Some a → ps !! p = Some ph → says p a ph = Some msg →
      svc_write msg s = Ok (r, s') → sys_step (s, ps) (s', <[p := said ph]> ps)
  | sys_check p a bytes s s' (ps : gmap Z phase) :
      progs !! p = Some a → ps !! p = Some Checking → svc_read s = Ok (bytes, s') →
      sys_step (s, ps) (s', <[p := checked a (App.check bytes p)]> ps)
  | sys_moves s s' (ps : gmap Z phase) : svc_moves s s' → sys_step (s, ps) (s', ps).

(** Nobody is registered, and no program has started. *)
Definition sys_start (x : system) : Prop :=
  svc_ok x.1 ∧ svc_pids x.1 = [] ∧ x.2 = (λ _, Registering) <$> progs.

Definition sys_reachable (x : system) : Prop := ∃ x0, sys_start x0 ∧ rtc sys_step x0 x.

Definition in_session (ph : phase) : Prop := ph = Checking ∨ ∃ n, ph = Jobs n.

(** The registered pids are distinct; each is the pid of a program between its
    registration and its deregistration; a program that has found itself is
    registered until its end. *)
Record sys_inv (x : system) : Prop := mkSysInv {
  si_ok : svc_ok x.1;
  si_nodup : NoDup (svc_pids x.1);
  si_session : ∀ p, p ∈ svc_pids x.1 → ∃ ph, x.2 !! p = Some ph ∧ in_session ph;
  si_jobs : ∀ p n, x.2 !! p = Some (Jobs n) → p ∈ svc_pids x.1
}.

(** A step of [p] that leaves the other programs alone. *)
Lemma sys_inv_phase s s' p ph ph' (ps : gmap Z phase) :
  sys_inv (s, ps) → ps !! p = Some ph → svc_ok s' → svc_pids s' = svc_pids s →
  (in_session ph → in_session ph' ∨ p ∉ svc_pids s) →
  (∀ n, ph' = Jobs n → p ∈ svc_pids s) →
  sys_inv (s', <[p := ph']> ps).
Proof.
  intros [Hok Hnd Hse Hjo] Hp Hok' Hpi Hin Hj. split; cbn in *; rewrite ?Hpi; [done|done| |].
  - intros q Hq. destruct (Hse q Hq) as (ph1 & Hph & Hph1). rewrite lookup_insert.
    case_decide; [subst q|by exists ph1]. exists ph'. split; [done|].
    rewrite Hp in Hph. injection Hph as <-. by destruct (Hin Hph1).
  - intros q n. rewrite lookup_insert. case_decide; [subst q; intros [= ->]; by apply (Hj n)|].
    apply Hjo.
Qed.

Lemma sys_inv_register s s' p (ps : gmap Z phase) :
  sys_inv (s, ps) → ps !! p = Some Registering → svc_ok s' →
  svc_pids s' = svc_pids s ++ [p] → sys_inv (s', <[p := Checking]> ps).
Proof.
  intros [Hok Hnd Hse Hjo] Hp Hok' Hpi. cbn in *.
  assert (p ∉ svc_pids s) as Hnew.
  { intros (ph & Hph & Hin)%Hse. rewrite Hp in Hph. injection Hph as <-.
    by destruct Hin as [?|[n ?]]. }
  split; cbn; rewrite ?Hpi; [done| | |].
  - apply NoDup_app. split_and!; [done| |apply NoDup_singleton].
    intros x Hx ->%list_elem_of_singleton. done.
  - intros q [Hq| ->%list_elem_of_singleton]%elem_of_app.
    + rewrite lookup_insert_ne by (by intros ->). by apply Hse.
    + rewrite lookup_insert_eq. exists Checking. split; [done|by left].
  - intros q n. rewrite lookup_insert. case_decide; [done|]. intros Hq.
    apply elem_of_app. left. by eapply Hjo.
Qed.

Lemma sys_inv_leave s s' p pre post (ps : gmap Z phase) :
  sys_inv (s, ps) → svc_ok s' →
  svc_pids s = pre ++ p :: post → svc_pids s' = pre ++ post → sys_inv (s', <[p := Gone]> ps).
Proof.
  intros [Hok Hnd Hse Hjo] Hok' Hpi Hpi'. cbn in *. rewrite Hpi in *.
  apply NoDup_app in Hnd as (Hnd1 & Hd & [Hpo Hnd2]%NoDup_cons).
  assert (p ∉ pre) as Hpr by (intros Hin; apply (Hd p Hin), elem_of_cons; by left).
  split; cbn; rewrite ?Hpi'; [done| | |].
  - apply NoDup_app. split_and!; [done| |done]. intros x Hx Hx'.
    apply (Hd x Hx), elem_of_cons. by right.
  - intros q Hq. assert (q ≠ p) as Hne by (intros ->; by apply elem_of_app in Hq as [?|?]).
    rewrite lookup_insert_ne by done. apply Hse.
    apply elem_of_app in Hq as [?|?]; apply elem_of_app; [by left|right; apply elem_of_cons; by right].
  - intros q n. rewrite lookup_insert. case_decide as Hq; [done|]. intros Hj%Hjo.
    apply elem_of_app in Hj as [?|[->|?]%elem_of_cons]; [apply elem_of_app; by left|done|].
    apply elem_of_app. by right.
Qed.

Lemma sys_inv_step x x' : sys_inv x → sys_step x x' → sys_inv x'.
Proof.
  intros Hi Hstep. pose proof (si_ok x Hi) as Hok.
  destruct Hstep as [p a ph msg r s s' ps Ha Hp Hsay Hw|p a bytes s s' ps Ha Hp Hr|s s' ps Hm].
  - pose proof (pids_ok p a Ha) as Hpid.
    destruct ph as [| |[|n]|]; try discriminate Hsay; injection Hsay as <-; cbn [said].
    + destruct (svc_register _ _ _ _ _ _ Hok Hpid (u32_range _) (u32_range _) Hw)
        as [Hok' [Hpi|Hpi]]; [by eapply sys_inv_register|].
      eapply sys_inv_phase; [done..| |done]. intros _. left. by left.
    + destruct (svc_leave _ _ _ _ Hok Hpid (si_jobs _ Hi p 0 Hp) Hw) as (Hok' & pre & post & Hpi & Hpi').
      by eapply sys_inv_leave.
    + destruct (svc_yield _ _ _ _ Hok Hpid Hw) as [Hok' Hpi].
      eapply sys_inv_phase; [done..| |]; intros.
      * left. right. by exists n.
      * by apply (si_jobs _ Hi p (Datatypes.S n)).
  - destruct (svc_find p _ _ _ Hok (pids_ok p a Ha) Hr) as (Hok' & Hpi & Hfind).
    eapply sys_inv_phase; [done..| |]; unfold checked;
      destruct (Z.eqb_spec (App.check bytes p) 0) as [Hc|Hc].
    + intros _. left. right. by eexists.
    + intros _. right. by rewrite <- Hfind.
    + intros _ _. by apply Hfind.
    + done.
  - destruct (svc_move s s' Hok Hm) as [Hok' Hpi]. destruct Hi as [? ? ? ?].
    split; cbn in *; by rewrite ?Hpi.
Qed.

Lemma sys_inv_reachable x : sys_reachable x → sys_inv x.
Proof.
  intros (x0 & (Hok & Hpi & Hps) & Hsteps).
  assert (sys_inv x0) as Hi.
  { split; rewrite ?Hpi, ?Hps; [done|constructor| |].
    - intros p Hp. by apply elem_of_nil in Hp.
    - intros p n. rewrite lookup_fmap. by destruct (progs !! p). }
  clear Hok Hpi Hps. induction Hsteps as [|x y z Hstep _ IH]; [done|].
  apply IH. by eapply sys_inv_step.
Qed.

(** The phases are those of the programs. *)
Lemma sys_reachable_dom x : sys_reachable x → dom x.2 = dom progs.
Proof.
  intros (x0 & (_ & _ & Hps) & Hsteps).
  assert (dom x0.2 = dom progs) as Hd by (rewrite Hps; apply dom_fmap_L). clear Hps.
  induction Hsteps as [|x y z Hstep _ IH]; [done|]. apply IH. rewrite <- Hd.
  destruct Hstep as [p ? ? ? ? ? ? ps ? Hp|p ? ? ? ? ps ? Hp|]; cbn; [..|done];
    rewrite dom_insert_L; apply subseteq_union_1_L, singleton_subseteq_l, elem_of_dom; by eexists.
Qed.

(** A program that has found itself registered is served. *)
Lemma session_runs s ps p a n :
  sys_reachable (s, ps) → progs !! p = Some a → ps !! p = Some (Jobs n) → svc_alive s →
  ∃ msg r s', says p a (Jobs n) = Some msg ∧ svc_write msg s = Ok (r, s') ∧
    sys_reachable (s', <[p := said (Jobs n)]> ps).
Proof.
  intros Hr Ha Hp Hal. pose proof (sys_inv_reachable _ Hr) as Hi.
  pose proof (si_ok _ Hi) as Hok. pose proof (si_jobs _ Hi p n Hp) as Hin.
  assert (∃ msg r s', says p a (Jobs n) = Some msg ∧ svc_write msg s = Ok (r, s'))
    as (msg & r & s' & Hsay & Hw).
  { destruct n as [|n]; cbn [says].
    - destruct (svc_leave_runs p s Hok (pids_ok p a Ha) Hal Hin) as (r & s' & Hw). eauto.
    - destruct (svc_yield_runs p s Hok (pids_ok p a Ha) Hal Hin) as (r & s' & Hw). eauto. }
  exists msg, r, s'. split_and!; [done..|]. destruct Hr as (x0 & Hst & Hsteps).
  exists x0. split; [done|]. eapply rtc_r; [done|]. by eapply sys_write.
Qed.
End system.
