(* ===== verification/Mp2Proc.v ===== *)
(** * MP2: the proc file and the application's messages

    The text interface of src/MP2/mp2.c: [mywrite] decodes exactly what
    userapp.c encodes, when a request is too short for the decoder, what
    [myread] gives back and when it overruns its buffer, and that the
    application's [check] finds its pid in it iff it is registered. *)
From Stdlib Require Import Ascii String.
From stdpp Require Import base gmap sets list strings.
From Stdlib Require Import ZArith Lia.
From S2P Require Import Prelude CString Kernel Mp2 Mp2Run Mp2State Mp2Sched Mp2User.

Open Scope Z_scope.
Open Scope c_scope.

(** ** [findchar] *)

Section findchar.
Lemma findchar_loop_found fuel s mid rest c pre :
  c_str s = pre ++ mid ++ c :: rest → c ∉ mid → (length mid < fuel)%nat →
  findchar_loop fuel s c (Z.of_nat (length pre)) = Z.of_nat (length (pre ++ mid)).
Proof.
  revert pre mid. induction fuel as [|fuel IH]; intros pre mid Hs Hc Hf; [lia|].
  cbn [findchar_loop]. unfold strlen. rewrite Hs, !length_app. simpl.
  rewrite (proj2 (Z.ltb_lt _ _)) by lia. rewrite Nat2Z.id.
  assert (nth (length pre) s NUL = nth 0 (mid ++ c :: rest) NUL) as Hnth.
  { assert (∀ k, (k < length (c_str s))%nat → nth k s NUL = nth k (c_str s) NUL) as Hn.
    { clear. induction s as [|x s IHs]; intros [|k]; simpl; try lia;
        case_decide; simpl; try lia; intros; [done|]. apply IHs. lia. }
    rewrite Hn by (rewrite Hs, !length_app; simpl; lia). rewrite Hs.
    by rewrite app_nth2, Nat.sub_diag by lia. }
  rewrite Hnth. destruct mid as [|x mid]; simpl.
  - by rewrite decide_True, Nat.add_0_r.
  - rewrite decide_False by set_solver.
    replace (Z.of_nat (length pre) + 1) with (Z.of_nat (length (pre ++ [x])))
      by (rewrite length_app; simpl; lia).
    rewrite (IH (pre ++ [x]) mid); [|by rewrite Hs, <- app_assoc|set_solver|simpl in *; lia].
    rewrite !length_app. simpl. lia.
Qed.

Lemma findchar_loop_none fuel s mid c pre :
  c_str s = pre ++ mid → c ∉ mid → findchar_loop fuel s c (Z.of_nat (length pre)) = -1.
Proof.
  revert pre mid. induction fuel as [|fuel IH]; intros pre mid Hs Hc; [done|].
  cbn [findchar_loop]. unfold strlen. rewrite Hs, length_app.
  case_match eqn:Hlt; [|done]. zbool. destruct mid as [|x mid]; [simpl in *; lia|].
  rewrite Nat2Z.id. rewrite decide_False.
  - replace (Z.of_nat (length pre) + 1) with (Z.of_nat (length (pre ++ [x])))
      by (rewrite length_app; simpl; lia).
    apply (IH (pre ++ [x]) mid); [by rewrite Hs, <- app_assoc|set_solver].
  - assert (nth (length pre) s NUL = x) as ->; [|set_solver].
    assert (c_str s `prefix_of` s) as [t Ht].
    { clear. induction s as [|y s IHs]; simpl; [done|].
      case_decide; [apply prefix_nil|by apply prefix_cons]. }
    rewrite Ht, Hs, <- app_assoc, app_nth2, Nat.sub_diag by lia. done.
Qed.

(** [findchar] gives the first occurrence at or after [start]. *)
Lemma findchar_found s pre mid rest c :
  c_str s = pre ++ mid ++ c :: rest → c ∉ mid →
  findchar s c (Z.of_nat (length pre)) = Z.of_nat (length (pre ++ mid)).
Proof.
  intros Hs Hc. unfold findchar. eapply findchar_loop_found; [done..|].
  unfold strlen. rewrite Hs, !length_app. simpl. lia.
Qed.

Lemma findchar_none s pre mid c :
  c_str s = pre ++ mid → c ∉ mid → findchar s c (Z.of_nat (length pre)) = -1.
Proof. intros. by eapply findchar_loop_none. Qed.
End findchar.

(** ** Requests *)

Section requests.
Context {L : Type} `{!KList L, !KConst, !Allocator, !Kstrto}.
Context `{!KListLaws L, !KConstLaws, !AllocatorLaws, !KstrtoLaws}.
Implicit Types s : @mp2 L.

Lemma insert_middle {A} (pre post : list A) x y n :
  length pre = n → <[n := y]> (pre ++ x :: post) = pre ++ y :: post.
Proof. intros <-. rewrite insert_app_r_alt by lia. by rewrite Nat.sub_diag. Qed.

Lemma arg_at_found (pre a post : list ascii) off s :
  Z.to_nat off = length pre → NUL ∉ a →
  arg_at (pre ++ a ++ NUL :: post) off s = Ok (a, s).
Proof.
  intros Hoff Ha. unfold arg_at, lift, string_at. rewrite Hoff, decide_True.
  - by rewrite drop_app_length, c_str_app_NUL.
  - rewrite !length_app. simpl. lia.
Qed.

(** A request with one number. *)
Lemma parse_one o p a s :
  o ≠ NUL → p ≠ NUL → NUL ∉ a → ch "," ∉ a →
  parse_request (o :: p :: a ++ [NUL]) s = Ok ((kstrtoint_into a 0, 0, 0), s).
Proof.
  intros Ho Hp Ha Hc. unfold parse_request.
  assert (findchar (o :: p :: a ++ [NUL]) (ch ",") 2 = -1) as ->.
  { apply (findchar_none _ [o; p] a); [|done].
    simpl. rewrite !decide_False by done. by rewrite c_str_app_NUL. }
  change (-1 =? -1) with true. cbv iota. unfold bind.
  by rewrite (arg_at_found [o; p] a [] 2).
Qed.

(** A request with three numbers: where its commas are, and what is left when
    they are overwritten. *)
Definition request3 (o p : ascii) (a b c : list ascii) : list ascii :=
  [o; p] ++ a ++ [ch ","] ++ b ++ [ch ","] ++ c.

Lemma request3_text o p a b c :
  o ≠ NUL → p ≠ NUL → NUL ∉ a → NUL ∉ b → NUL ∉ c →
  c_str (request3 o p a b c ++ [NUL]) = request3 o p a b c.
Proof.
  intros. apply c_str_app_NUL. unfold request3. simpl.
  rewrite !elem_of_cons, elem_of_app, elem_of_cons, elem_of_app, elem_of_cons.
  intros [|[|[|[Hn|[|[Hn|]]]]]]; try done; congruence.
Qed.

Lemma request3_commas o p a b c :
  o ≠ NUL → p ≠ NUL → NUL ∉ a → NUL ∉ b → NUL ∉ c → ch "," ∉ a → ch "," ∉ b →
  let k2 := Z.of_nat (2 + length a) in
  let k3 := Z.of_nat (3 + length a + length b) in
  findchar (request3 o p a b c ++ [NUL]) (ch ",") 2 = k2 ∧
  findchar (request3 o p a b c ++ [NUL]) (ch ",") (k2 + 1) = k3.
Proof.
  intros Ho Hp Ha Hb Hc Hca Hcb k2 k3. pose proof (request3_text o p a b c) as Htext. split.
  - rewrite (findchar_found _ [o; p] a (b ++ ch "," :: c)); [done|by rewrite Htext|done].
  - replace (k2 + 1) with (Z.of_nat (length ([o; p] ++ a ++ [ch ","])))
      by (rewrite !length_app; simpl; lia).
    rewrite (findchar_found _ _ b c); [unfold k3; rewrite !length_app; simpl; lia| |done].
    rewrite Htext by done. unfold request3. by rewrite <- !app_assoc.
Qed.

Lemma request3_cut o p a b c :
  <[(3 + length a + length b)%nat := NUL]> (<[(2 + length a)%nat := NUL]>
    (request3 o p a b c ++ [NUL])) = [o; p] ++ a ++ [NUL] ++ b ++ [NUL] ++ c ++ [NUL].
Proof.
  unfold request3.
  replace (([o; p] ++ a ++ [ch ","] ++ b ++ [ch ","] ++ c) ++ [NUL])
    with (([o; p] ++ a) ++ ch "," :: b ++ ch "," :: c ++ [NUL])
    by (simpl; by rewrite <- !app_assoc, <- !app_comm_cons, <- !app_assoc).
  rewrite insert_middle by done.
  replace (([o; p] ++ a) ++ NUL :: b ++ ch "," :: c ++ [NUL])
    with ((([o; p] ++ a) ++ NUL :: b) ++ ch "," :: c ++ [NUL])
    by by rewrite <- !app_assoc.
  rewrite insert_middle; [by rewrite <- !app_assoc|].
  rewrite !length_app. simpl. lia.
Qed.

(** [c] may end in a newline. *)
Lemma parse_three o p a b c s :
  o ≠ NUL → p ≠ NUL → NUL ∉ a → NUL ∉ b → NUL ∉ c → ch "," ∉ a → ch "," ∉ b →
  (2 <= length c)%nat →
  parse_request (request3 o p a b c ++ [NUL]) s =
    Ok ((kstrtoint_into a 0, kstrtoint_into b 0, kstrtoint_into c 0), s).
Proof.
  intros Ho Hp Ha Hb Hc Hca Hcb Hlen. unfold parse_request.
  destruct (request3_commas o p a b c) as [-> ->]; [done..|].
  rewrite (proj2 (Z.eqb_neq _ _)) by lia. rewrite (proj2 (Z.eqb_neq _ _)) by lia.
  unfold strlen. rewrite request3_text by done.
  assert (length (request3 o p a b c) = 4 + length a + length b + length c)%nat as ->
    by (unfold request3; rewrite !length_app; simpl; lia).
  rewrite (proj2 (Z.ltb_lt _ _)) by lia. cbn [negb andb]. rewrite !Nat2Z.id, request3_cut.
  unfold bind. rewrite (arg_at_found [o; p] a (b ++ [NUL] ++ c ++ [NUL])) by done.
  replace ([o; p] ++ a ++ [NUL] ++ b ++ [NUL] ++ c ++ [NUL])
    with (([o; p] ++ a ++ [NUL]) ++ b ++ NUL :: c ++ [NUL]) by by rewrite <- !app_assoc.
  rewrite arg_at_found; [|rewrite !length_app; simpl; lia|done].
  replace (([o; p] ++ a ++ [NUL]) ++ b ++ NUL :: c ++ [NUL])
    with (([o; p] ++ a ++ [NUL] ++ b ++ [NUL]) ++ c ++ NUL :: [])
    by by rewrite <- !app_assoc.
  rewrite arg_at_found; [done|rewrite !length_app; simpl; lia|done].
Qed.

(** ** Requests of the application *)

Lemma mywrite_op stale o rest p per comp s :
  parse_request ((o :: rest) ++ [NUL]) s = Ok ((p, per, comp), s) →
  mywrite stale (o :: rest) s =
    (let! _ := (if decide (o = ch "R") then
                  reg_entry stale p (u32 per) (u32 comp) ;! ret tt
                else if decide (o = ch "Y") then yield_entry p
                else if decide (o = ch "D") then dereg_entry p ;! ret tt
                else ret tt) in
     ret (Z.of_nat (length (o :: rest)))) s.
Proof. intros Hp. unfold mywrite, bind at 1. by rewrite Hp. Qed.

Lemma into_print_nl v : is_i32 v → kstrtoint_into (fmt_d v ++ [newline]) 0 = v.
Proof. intros Hv. unfold kstrtoint_into. by rewrite kstrtoint_print_nl. Qed.

Lemma fmt_d_i32 x : fmt_d x = fmt_d (i32 x).
Proof. unfold fmt_d. by rewrite (i32_id (i32 x)) by apply i32_range. Qed.

Lemma into_print x : kstrtoint_into (fmt_d x) 0 = i32 x.
Proof.
  unfold kstrtoint_into. rewrite fmt_d_i32, kstrtoint_print; [done|apply i32_range].
Qed.

Lemma number_line_free c x : is_digit c = false → c ≠ ch "-" → c ≠ newline →
  c ∉ fmt_d x ++ [newline].
Proof.
  intros. rewrite elem_of_app, list_elem_of_singleton. intros [Hin|]; [|done].
  by apply fmt_d_not_in in Hin.
Qed.

(** A message with one number, and the registration, which has three. *)
Lemma parse_number o p s :
  o ≠ NUL → is_i32 p →
  parse_request ((o :: ch "," :: fmt_d p ++ [newline]) ++ [NUL]) s = Ok ((p, 0, 0), s).
Proof.
  intros Ho Hp. rewrite <- !app_comm_cons.
  rewrite parse_one; [by rewrite into_print_nl|done|done|..]; by apply number_line_free.
Qed.

Lemma mywrite_reg stale p per comp s :
  is_i32 p → is_u32 per → is_u32 comp →
  mywrite stale (App.reg_msg p per comp) s =
    (reg_entry stale p per comp ;! ret (Z.of_nat (length (App.reg_msg p per comp)))) s.
Proof.
  intros Hp Hper Hcomp.
  set (rest := ch "," :: fmt_d p ++ ch "," :: fmt_d per ++ ch "," :: fmt_d comp ++ [newline]).
  change (App.reg_msg p per comp) with (ch "R" :: rest).
  assert (parse_request ((ch "R" :: rest) ++ [NUL]) s = Ok
    ((kstrtoint_into (fmt_d p) 0, kstrtoint_into (fmt_d per) 0,
      kstrtoint_into (fmt_d comp ++ [newline]) 0), s)) as Hparse.
  { apply (parse_three (ch "R") (ch ",")); try done; try apply fmt_d_NUL; try by apply fmt_d_not_in.
    - by apply number_line_free.
    - rewrite length_app. simpl. pose proof (fmt_d_nonempty comp).
      destruct (fmt_d comp); [done|simpl; lia]. }
  rewrite (mywrite_op _ _ _ _ _ _ _ Hparse).
  rewrite decide_True by done. rewrite !into_print.
  rewrite fmt_d_i32, into_print_nl by apply i32_range.
  rewrite (i32_id p), !u32_i32, !u32_id by done.
  unfold bind, ret. by destruct (reg_entry stale p per comp s) as [[? ?]|].
Qed.

Lemma mywrite_yield stale p s :
  is_i32 p →
  mywrite stale (App.yield_msg p) s =
    (yield_entry p ;! ret (Z.of_nat (length (App.yield_msg p)))) s.
Proof.
  intros Hp. unfold App.yield_msg. change (str "Y," ++ ?x) with (ch "Y" :: ch "," :: x).
  by erewrite mywrite_op by by apply parse_number.
Qed.

Lemma mywrite_dereg stale p s :
  is_i32 p →
  mywrite stale (App.dereg_msg p) s =
    (dereg_entry p ;! ret (Z.of_nat (length (App.dereg_msg p)))) s.
Proof.
  intros Hp. unfold App.dereg_msg. change (str "D," ++ ?x) with (ch "D" :: ch "," :: x).
  erewrite mywrite_op by by apply parse_number. simpl. unfold bind, ret.
  by destruct (dereg_entry p s) as [[? ?]|].
Qed.

(** C23: The module decodes what the application encodes.  Writing the
    register, yield or deregister message of userapp.c to the proc file runs
    [reg_entry], [yield_entry] or [dereg_entry] with the same pid, period and
    computation time, for every pid and every 32-bit period and time, and
    answers the length of the message. *)
Theorem messages_roundtrip stale p per comp s :
  is_i32 p → is_u32 per → is_u32 comp →
  mywrite stale (App.reg_msg p per comp) s =
    (reg_entry stale p per comp ;! ret (Z.of_nat (length (App.reg_msg p per comp)))) s ∧
  mywrite stale (App.yield_msg p) s =
    (yield_entry p ;! ret (Z.of_nat (length (App.yield_msg p)))) s ∧
  mywrite stale (App.dereg_msg p) s =
    (dereg_entry p ;! ret (Z.of_nat (length (App.dereg_msg p)))) s.
Proof.
  intros. split_and!; [by apply mywrite_reg|by apply mywrite_yield|by apply mywrite_dereg].
Qed.
Lemma findchar_loop_range fuel t c i :
  findchar_loop fuel t c i = -1 ∨ i <= findchar_loop fuel t c i < strlen t.
Proof.
  revert i. induction fuel as [|fuel IH]; intros i; [by left|]. cbn [findchar_loop].
  destruct (Z.ltb_spec i (strlen t)); [|by left]. case_decide; [right; lia|].
  destruct (IH (i + 1)) as [|?]; [by left|right; lia].
Qed.

Lemma c_str_length (t : list ascii) : (length (c_str t) <= length t)%nat.
Proof. induction t as [|c t IH]; simpl; [done|]. case_decide; simpl; lia. Qed.

Lemma arg_at_in buff off s :
  (Z.to_nat off < length buff)%nat → ∃ a, arg_at buff off s = Ok (a, s).
Proof. intros Hlt. unfold arg_at, lift, string_at. rewrite decide_True by done. by eexists. Qed.

(** The decoder of [mywrite] reads inside its buffer iff the write has at
    least two bytes; line 282 tests the length but only prints, so a write of
    no or one byte reads past the end of the buffer. *)
Theorem parse_in_bounds ubuf s :
  ((2 <= length ubuf)%nat → ∃ v, parse_request (ubuf ++ [NUL]) s = Ok (v, s)) ∧
  ((length ubuf < 2)%nat → ∀ stale, mywrite stale ubuf s = Oops OutOfBounds).
Proof.
  split.
  - intros Hlen. unfold parse_request, bind. set (buff := ubuf ++ [NUL]).
    assert (length buff = length ubuf + 1)%nat as Hb by (unfold buff; by rewrite length_app).
    pose proof (c_str_length buff) as Hc.
    pose proof (findchar_loop_range (Z.to_nat (strlen buff - 2)) buff (ch ",") 2) as Hs.
    fold (findchar buff (ch ",") 2) in Hs. set (second := findchar buff _ 2) in *.
    pose proof (findchar_loop_range (Z.to_nat (strlen buff - (second + 1))) buff (ch ",")
                  (second + 1)) as Ht.
    fold (findchar buff (ch ",") (second + 1)) in Ht. set (third := findchar buff _ (second + 1)) in *.
    unfold strlen in *.
    destruct (Z.eqb_spec second (-1)) as [|Hne].
    + destruct (arg_at_in buff 2 s) as [a ->]; [lia|]. by eexists.
    + destruct Hs as [|Hs]; [done|].
      destruct (Z.eqb_spec third (-1)); simpl; [by eexists|]. destruct Ht as [|Ht]; [done|].
      case_match; [|by eexists]. zbool.
      set (buff' := <[_ := _]> _).
      assert (length buff' = length buff) as Hb' by (unfold buff'; by rewrite !length_insert).
      destruct (arg_at_in buff' 2 s) as [a ->]; [lia|].
      destruct (arg_at_in buff' (second + 1) s) as [b ->]; [lia|].
      destruct (arg_at_in buff' (third + 1) s) as [d ->]; [lia|]. by eexists.
  - intros Hlen stale. unfold mywrite, bind at 1.
    assert (parse_request (ubuf ++ [NUL]) s = Oops OutOfBounds) as ->; [|done].
    unfold parse_request.
    assert (findchar (ubuf ++ [NUL]) (ch ",") 2 = -1) as ->.
    { pose proof (findchar_loop_range
        (Z.to_nat (strlen (ubuf ++ [NUL]) - 2)) (ubuf ++ [NUL]) (ch ",") 2) as Hs.
      fold (findchar (ubuf ++ [NUL]) (ch ",") 2) in Hs. destruct Hs as [|Hs]; [done|].
      assert (strlen (ubuf ++ [NUL]) <= 1); [|lia].
      unfold strlen. destruct ubuf as [|x [|y ubuf]]; simpl in *; [lia| |lia].
      case_decide; simpl; lia. }
    change (-1 =? -1) with true. cbv iota. unfold bind, arg_at, lift, string_at.
    rewrite decide_False; [done|]. rewrite length_app. simpl. lia.
Qed.
End requests.

(** ** Reading the status *)

Section status.
Context {L : Type} `{!KList L, !KConst, !Allocator, !Kstrto}.
Context `{!KListLaws L, !KConstLaws, !AllocatorLaws, !KstrtoLaws}.
Implicit Types s : @mp2 L.

(** The line of one registered task, and the text of the file. *)
Definition pid_line (m : gmap Z mp2_task_struct) (a : Z) : list ascii :=
  match m !! a with Some t => fmt_d (pid t) ++ [newline] | None => [] end.
Definition pid_lines (m : gmap Z mp2_task_struct) (l : list Z) : list ascii :=
  concat (pid_line m <$> l).
Definition status_text s : list ascii :=
  fmt_d (Z.of_nat (length (nodes s))) ++ [newline] ++ pid_lines (mem s) (nodes s).

Lemma pid_line_NUL m a : NUL ∉ pid_line m a.
Proof.
  unfold pid_line. case_match; [|by intros ?%elem_of_nil].
  rewrite elem_of_app, list_elem_of_singleton. intros [Hin|]; [by apply fmt_d_NUL in Hin|done].
Qed.

Lemma pid_lines_NUL m l : NUL ∉ pid_lines m l.
Proof.
  unfold pid_lines. induction l as [|a l IH]; simpl; [by intros ?%elem_of_nil|].
  rewrite elem_of_app. intros [Hin|Hin]; [by apply pid_line_NUL in Hin|done].
Qed.

Lemma pid_lines_snoc m l a : pid_lines m (l ++ [a]) = pid_lines m l ++ pid_line m a.
Proof. unfold pid_lines. rewrite fmap_app, concat_app. simpl. by rewrite app_nil_r. Qed.

Lemma pid_lines_ge m l :
  (∀ a, a ∈ l → is_Some (m !! a)) → (2 * length l <= length (pid_lines m l))%nat.
Proof.
  unfold pid_lines. induction l as [|a l IH]; intros Hl; [simpl; lia|].
  change (concat (pid_line m <$> a :: l)) with (pid_line m a ++ concat (pid_line m <$> l)).
  rewrite length_app. cbn [length]. assert (2 <= length (pid_line m a))%nat.
  { destruct (Hl a) as [t Ht]; [apply elem_of_cons; by left|].
    unfold pid_line. rewrite Ht, length_app. simpl.
    pose proof (fmt_d_nonempty (pid t)). destruct (fmt_d (pid t)); [done|simpl; lia]. }
  assert (2 * length l <= length (concat (pid_line m <$> l)))%nat; [|lia].
  apply IH. intros b Hb. apply Hl, elem_of_cons. by right.
Qed.

(** The loop of [myread]: the lines so far, terminated, or an overrun. *)
Definition written_so_far s (pre : list Z) (acc : nat * Z * list ascii) s' : Prop :=
  s' = s ∧ ∃ rest, acc = (length (pid_lines (mem s) pre), Z.of_nat (length pre),
                         pid_lines (mem s) pre ++ NUL :: rest)
    ∧ length (pid_lines (mem s) pre ++ NUL :: rest) = buffsize.

Definition overrun s (l : list Z) (e : fault) : Prop :=
  e = OutOfBounds ∧ (buffsize <= length (pid_lines (mem s) l))%nat.

Lemma myread_loop s buf :
  wf s → length buf = buffsize → head buf = Some NUL →
  wp (fold_each (nodes s) (0%nat, 0, buf) (λ '(off, size, tmpbuf) itr,
        let! t := load itr in
        let! tmpbuf := lift (sprintf tmpbuf off (fmt_d (pid t) ++ [newline])) in
        ret (length (c_str tmpbuf), i32 (size + 1), tmpbuf)))
     (written_so_far s (nodes s)) (overrun s (nodes s)) s.
Proof.
  intros Hw Hlen Hhd. destruct buf as [|c rest0]; [done|]. injection Hhd as ->.
  apply (wp_fold_each _ (written_so_far s)).
  { split; [done|]. by exists rest0. }
  intros pre a post acc s' Hl (-> & rest & -> & Hb).
  destruct (wf_node s a Hw) as [Hnn [t Ht]]; [rewrite Hl; set_solver|].
  wp_pure. eapply wp_load; [done..|]. wp_pure.
  assert (pid_line (mem s) a = fmt_d (pid t) ++ [newline]) as Hline
    by (unfold pid_line; by rewrite Ht).
  rewrite <- Hline.
  destruct (decide (length (pid_lines (mem s) pre) + length (pid_line (mem s) a)
                      < buffsize)%nat) as [Hfit|Hno].
  - destruct (sprintf_append _ (pid_line (mem s) a) (pid_lines (mem s) pre) rest
                ltac:(apply pid_lines_NUL) ltac:(apply pid_line_NUL) eq_refl)
      as (rest' & -> & Hlen'); [by rewrite Hb|].
    unfold wp at 1, lift. unfold ret. split; [done|]. exists rest'.
    rewrite pid_lines_snoc. split; [|by rewrite Hlen', Hb].
    rewrite c_str_app_NUL.
    2:{ rewrite elem_of_app. intros [Hin|Hin];
          [by apply pid_lines_NUL in Hin|by apply pid_line_NUL in Hin]. }
    rewrite length_app. simpl. do 3 f_equal.
    assert (2 * length (pre ++ [a]) <= buffsize)%nat as Hsmall.
    { transitivity (length (pid_lines (mem s) (pre ++ [a])));
        [|rewrite pid_lines_snoc, length_app; lia].
      apply pid_lines_ge. intros b Hb'. apply (wf_dom s Hw). rewrite Hl. set_solver. }
    rewrite length_app in *. unfold buffsize in *. cbn [length] in *.
    rewrite i32_id by (unfold is_i32, INT_MIN, INT_MAX; lia). lia.
  - unfold wp at 1, lift, sprintf, put. rewrite decide_False.
    + split; [done|]. rewrite Hl.
      replace (pre ++ a :: post) with ((pre ++ [a]) ++ post) by by rewrite <- app_assoc.
      unfold pid_lines in *. rewrite fmap_app, concat_app, length_app.
      fold (pid_lines (mem s) (pre ++ [a])). rewrite pid_lines_snoc, length_app.
      unfold pid_lines. lia.
    + rewrite Hb, length_app. simpl. lia.
Qed.

(** The address of the next allocation, and the test the code leaves to the
    first use of the pointer. *)
Lemma wp_kmalloc_buf_at size (Q : Z * list ascii → @mp2 L → Prop) E s :
  (∀ buf, length buf = size →
     Q (default NULL (alloc_addr (n_alloc (slab s)) (dom (mem s))), buf)
       (set_slab (mkHeap (mem s) (Datatypes.S (n_alloc (slab s)))) s)) →
  wp (kmalloc_buf size) Q E s.
Proof. intros HQ. apply HQ, stale_length. Qed.

Lemma wp_deref_alloc n d (Q : unit → @mp2 L → Prop) E s :
  (is_Some (alloc_addr n d) → Q tt s) → (alloc_addr n d = None → E NullDeref) →
  wp (if default NULL (alloc_addr n d) =? NULL then fail NullDeref else ret tt) Q E s.
Proof.
  intros HQ HE. destruct (alloc_addr n d) as [p|] eqn:Hp; cbn; [|by apply HE].
  rewrite (proj2 (Z.eqb_neq p NULL)) by (by eapply alloc_not_null). apply HQ. by exists p.
Qed.

(** The two kmallocs of [myread] leave the globals alone. *)
Definition after_read s : @mp2 L :=
  set_slab (mkHeap (mem s) (Datatypes.S (Datatypes.S (n_alloc (slab s))))) s.

(** Both buffers are allocated. *)
Definition read_allocs s : Prop :=
  is_Some (alloc_addr (n_alloc (slab s)) (dom (mem s))) ∧
  is_Some (alloc_addr (Datatypes.S (n_alloc (slab s))) (dom (mem s))).

(** The end of [myread]: the header, then the lines after it. *)
Lemma wp_header buf hdr lines rest s :
  NUL ∉ hdr → (length hdr <= 12)%nat → length buf = buffsize →
  length (lines ++ NUL :: rest) = buffsize →
  wp (let! buf := lift (sprintf buf 0 hdr) in
      let n := length (c_str buf) in
      let total_len := (n + length lines)%nat in
      let! buf := lift (put buf n (take (length lines + 1) (lines ++ NUL :: rest))) in
      ret (take (total_len + 1) buf, Z.of_nat total_len + 1, 0 + (Z.of_nat total_len + 1)))
    (λ r s', (length (hdr ++ lines) < buffsize)%nat ∧ s' = s ∧
       let n := Z.of_nat (length (hdr ++ lines)) + 1 in r = ((hdr ++ lines) ++ [NUL], n, n))
    (λ e, e = OutOfBounds ∧ (buffsize <= length (hdr ++ lines))%nat) s.
Proof.
  intros Hnul Hh Hb Hrest. wp_pure. unfold sprintf.
  apply wp_put; [intros _|rewrite length_app; simpl; unfold buffsize in *; lia].
  simpl take. rewrite app_nil_l. wp_pure. rewrite <- !app_assoc. cbn [app].
  rewrite !c_str_app_NUL by done. rewrite length_app in *. cbn [length] in *.
  set (tail := drop _ buf).
  assert (length (hdr ++ NUL :: tail) = buffsize) as Hb2.
  { rewrite length_app. unfold tail. cbn [length]. rewrite length_drop.
    unfold buffsize in *. lia. }
  replace (take (length lines + 1) (lines ++ NUL :: rest)) with (lines ++ [NUL]).
  2:{ change (NUL :: rest) with ([NUL] ++ rest). rewrite app_assoc, take_app_le, take_ge;
        rewrite ?length_app; simpl; lia || done. }
  apply wp_put; rewrite Hb2, !length_app; cbn [length]; [|intros Hov; split; [done|lia]].
  intros Hfit. wp_pure. split; [lia|]. split; [done|].
  rewrite take_app_length. set (suffix := drop _ (hdr ++ NUL :: tail)).
  assert (take (length hdr + length lines + 1) (hdr ++ (lines ++ [NUL]) ++ suffix) =
          (hdr ++ lines) ++ [NUL]) as ->.
  { rewrite !app_assoc, take_app_le, take_ge; rewrite ?length_app; simpl; lia || done. }
  by rewrite Z.add_0_l, <- app_assoc.
Qed.

Lemma myread_wp s :
  wf s →
  wp (myread 0)
    (λ r s', read_allocs s ∧ (length (status_text s) < buffsize)%nat ∧ s' = after_read s ∧
       let n := Z.of_nat (length (status_text s)) + 1 in r = (status_text s ++ [NUL], n, n))
    (λ e, e = NullDeref ∧ ¬ read_allocs s ∨
          e = OutOfBounds ∧ (buffsize <= length (status_text s))%nat) s.
Proof.
  intros Hw. unfold myread. rewrite (proj2 (Z.ltb_ge 0 0)) by lia. wp_pure.
  apply wp_kmalloc_buf_at. intros tmpbuf Htmp. set (s1 := set_slab _ s). wp_pure.
  apply wp_deref_alloc; [intros Hp|intros Hp; left; split; [done|];
    intros [[? Hn] _]; by rewrite Hp in Hn].
  wp_pure. apply wp_put; [intros _|simpl; unfold buffsize in *; lia]. wp_pure.
  apply wp_kmalloc_buf_at. intros buf Hbuf. change (set_slab _ s1) with (after_read s). wp_pure.
  set (hdr := fmt_d (Z.of_nat (length (nodes s))) ++ [newline]).
  set (lines := pid_lines (mem s) (nodes s)).
  assert (status_text s = hdr ++ lines) as -> by (unfold status_text, hdr; by rewrite <- app_assoc).
  apply (wp_mono _ (written_so_far (after_read s) (nodes s)) _ (overrun s (nodes s))).
  { assert (wf (after_read s)) as Hw' by by apply (wf_ext s).
    assert (length (take 0 tmpbuf ++ [NUL] ++ drop (0 + length [NUL]) tmpbuf) = buffsize) as Hl
      by (simpl; rewrite length_drop, Htmp; unfold buffsize; lia).
    destruct (list_empty (HEAD (after_read s))) eqn:He; [|by apply (myread_loop (after_read s))].
    apply nodes_empty in He. change (HEAD (after_read s)) with (HEAD s) in He.
    unfold nodes. rewrite He. wp_pure. split; [done|]. by eexists. }
  2:{ intros e [-> Hov]. right. split; [done|]. rewrite length_app. fold lines in Hov. lia. }
  intros acc s' (-> & rest & -> & Hrest).
  change (pid_lines (mem (after_read s)) (nodes s)) with lines in *.
  wp_pure. apply (wp_deref_alloc (n_alloc (slab s1)) (dom (mem s1)));
    [intros Hq|intros Hq; left; split; [done|]; intros [_ [? Hn]];
     change (alloc_addr (n_alloc (slab s1)) (dom (mem s1))) with
       (alloc_addr (Datatypes.S (n_alloc (slab s))) (dom (mem s))) in Hq; by rewrite Hq in Hn].
  eapply wp_mono; [apply (wp_header buf hdr lines rest); [| |done|done] | |].
  - unfold hdr. rewrite elem_of_app, list_elem_of_singleton.
    intros [Hin|]; [by apply fmt_d_NUL in Hin|done].
  - unfold hdr. rewrite length_app. pose proof (fmt_d_length (Z.of_nat (length (nodes s)))).
    simpl. lia.
  - intros r s' (Hlt & -> & ->). by split_and!.
  - intros e He. by right.
Qed.

(** Reading the status file from its start gives the number of registered
    tasks, then their pids in order of registration, one per line, and a final
    NUL, when this text is shorter than the buffer of 2048 bytes, and
    overruns the buffer otherwise; reading on from a later offset gives
    nothing, so that readers stop. *)
Theorem myread_status s :
  wf s → read_allocs s →
  let n := Z.of_nat (length (status_text s)) + 1 in
  ((length (status_text s) < buffsize)%nat →
     myread 0 s = Ok ((status_text s ++ [NUL], n, n), after_read s)) ∧
  ((buffsize <= length (status_text s))%nat → myread 0 s = Oops OutOfBounds) ∧
  ∀ offset, 0 < offset → myread offset s = Ok (([], 0, offset), s).
Proof.
  intros Hw Hal n. pose proof (myread_wp s Hw) as Hrun. unfold wp in Hrun. split_and!.
  - intros Hlt. destruct (myread 0 s) as [[r s']|e].
    + by destruct Hrun as (_ & _ & -> & ->).
    + destruct Hrun as [[_ ?]|[_ Hge]]; [done|lia].
  - intros Hge. destruct (myread 0 s) as [[r s']|e].
    + destruct Hrun as (_ & Hlt & _). lia.
    + by destruct Hrun as [[_ ?]|[-> _]].
  - intros offset Ho. unfold myread. by rewrite (proj2 (Z.ltb_lt _ _) Ho).
Qed.

(** ** The application's view *)

Definition prints_as (m : gmap Z mp2_task_struct) (u a : Z) : Prop :=
  ∃ t, m !! a = Some t ∧ i32 (pid t) = u.

Lemma fgets_number x rest :
  fgets 256 ((fmt_d x ++ [newline]) ++ rest) = Some (fmt_d x ++ [newline], rest).
Proof.
  rewrite <- app_assoc. apply fgets_newline; [by apply fmt_d_not_in|].
  pose proof (fmt_d_length x). lia.
Qed.

Lemma scan_number x : scan_d (fmt_d x ++ [newline]) = Some (i32 x).
Proof. rewrite fmt_d_i32. apply scan_d_print, i32_range. Qed.

Lemma check_lines m l fuel p u :
  (∀ a, a ∈ l → is_Some (m !! a)) → p ≠ u →
  (length (pid_lines m l ++ [NUL]) <= fuel)%nat →
  App.check_loop fuel (pid_lines m l ++ [NUL]) p u = 0 ↔ ∃ a, a ∈ l ∧ prints_as m u a.
Proof.
  revert fuel p. induction l as [|a l IH]; intros fuel p Hl Hp Hf.
  - destruct fuel as [|[|fuel]]; simpl in *; try lia;
      rewrite (proj2 (Z.eqb_neq p u)) by done; split; try done;
      by intros (a & ?%elem_of_nil & _).
  - destruct (Hl a) as [t Ht]; [apply elem_of_cons; by left|].
    change (pid_lines m (a :: l)) with (pid_line m a ++ pid_lines m l) in *.
    assert (pid_line m a = fmt_d (pid t) ++ [newline]) as Hline
      by (unfold pid_line; by rewrite Ht).
    rewrite Hline in *. rewrite <- app_assoc in *.
    destruct fuel as [|fuel]; [rewrite !length_app in Hf; simpl in Hf; lia|].
    cbn [App.check_loop]. rewrite fgets_number, scan_number. simpl.
    destruct (Z.eqb_spec (i32 (pid t)) u) as [Hu|Hu].
    + split; [|done]. intros _. exists a. split; [apply elem_of_cons; by left|by exists t].
    + rewrite IH; [|intros b Hb; apply Hl, elem_of_cons; by right|done|].
      * split.
        -- intros (b & Hb & Hpr). exists b. split; [apply elem_of_cons; by right|done].
        -- intros (b & [->|Hb]%elem_of_cons & Hpr); [|by exists b].
           destruct Hpr as (t' & Ht' & Hu'). congruence.
      * rewrite (length_app (_ ++ _)), length_app in Hf. simpl in Hf. lia.
Qed.

(** The application finds itself in the status file iff it is registered:
    [check] on the bytes [myread] gives answers 0 exactly when some registered
    pid is the caller's. *)
Lemma check_finds_registered s u bytes n off s' :
  wf s → 0 < u <= INT_MAX → myread 0 s = Ok ((bytes, n, off), s') →
  s' = after_read s ∧ (App.check bytes u = 0 ↔ ∃ a t, mem s !! a = Some t ∧ i32 (pid t) = u).
Proof.
  intros Hw Hu Hrun.
  pose proof (wp_run _ _ _ _ _ _ (myread_wp s Hw) Hrun) as (_ & _ & -> & [= -> _ _]).
  split; [done|]. unfold App.check, status_text.
  rewrite <- !app_assoc, app_assoc, fgets_number.
  rewrite check_lines; [|intros a Ha; by apply (wf_dom s Hw)|lia|done].
  split; [intros (a & _ & t & Ht); by exists a, t|].
  intros (a & t & Ht & Hpr). exists a. split; [by eapply wf_lookup|by exists t].
Qed.

End status.

(** ** Witnesses *)

Import Reference.

Lemma messages_roundtrip_witness :
  let text := App.reg_msg 3 1000 2500000000 in
  mywrite stale_task text two_tasks =
    (reg_entry stale_task 3 1000 2500000000 ;! ret (Z.of_nat (length text))) two_tasks.
Proof.
  intros text.
  destruct (messages_roundtrip stale_task 3 1000 2500000000 two_tasks) as [Hreg _];
    unfold is_i32, is_u32, INT_MIN, INT_MAX; [lia..|]. exact Hreg.
Defined.

Lemma myread_status_witness :
  status_text two_ready = str "2" ++ [newline] ++ str "1" ++ [newline] ++ str "2" ++ [newline] ∧
  myread 0 two_ready = Ok ((status_text two_ready ++ [NUL], 7, 7), after_read two_ready).
Proof.
  split; [by vm_compute|].
  destruct (myread_status two_ready two_ready_wf) as [Hok _].
  { split; exists 4099; by vm_compute. }
  rewrite Hok by (apply Nat.ltb_lt; by vm_compute).
  do 3 f_equal; by vm_compute.
Defined.
