(* ===== verification/Mp2Refine.v ===== *)
(** * MP2: an abstract rate-monotonic scheduler

    A specification of the scheduler without lists, heaps and pointers: a table
    of jobs in order of registration, each with a mark that tells whether it is
    the current one.  Every step of the module of src/MP2/mp2.c is a step of it. *)
From Stdlib Require Import Ascii String.
From stdpp Require Import base gmap sets list strings relations.
From Stdlib Require Import ZArith Lia.
From S2P Require Import Prelude CString Kernel Mp2 Mp2Run Mp2State Mp2Sched.
Import Reference.

Open Scope Z_scope.
Open Scope c_scope.

(** ** The specification *)

(** [deadline] is the end of the current period, 0 before the first yield;
    [alarm] the expiry of the timer. *)
Record job : Type := mkJob {
  j_pid : Z;
  j_period : Z;
  j_cost : Z;
  j_state : Z;
  j_alarm : option Z;
  j_deadline : Z
}.

Definition table : Type := list (job * bool).

Definition awake (j : job) : Prop := j_state j ≠ SLEEPING ∧ j_period j < INT_MAX.

(** A yield at time [now]: a task that has not been activated is; another waits
    for its deadline, unless it has passed. *)
Definition early (now : Z) (j : job) : bool :=
  negb (j_deadline j =? 0) && (now <? j_deadline j).

Definition yield_job `{KConst} (now : Z) (j : job) : job :=
  if j_deadline j =? 0 then
    mkJob (j_pid j) (j_period j) (j_cost j) READY (j_alarm j)
      (u64 (now + period_jiffies (j_period j)))
  else
    mkJob (j_pid j) (j_period j) (j_cost j)
      (if early now j then SLEEPING else j_state j)
      (if early now j then Some (j_deadline j) else j_alarm j)
      (u64 (j_deadline j + period_jiffies (j_period j))).

Definition wake_job (j : job) : job :=
  mkJob (j_pid j) (j_period j) (j_cost j)
    (if j_state j =? SLEEPING then READY else j_state j) None (j_deadline j).

Definition preempt (e : job * bool) : job * bool :=
  let '(j, c) := e in
  (if (c && (j_state j =? RUNNING))%bool
   then mkJob (j_pid j) (j_period j) (j_cost j) READY (j_alarm j) (j_deadline j) else j, false).

Definition run_job (j : job) : job :=
  mkJob (j_pid j) (j_period j) (j_cost j) RUNNING (j_alarm j) (j_deadline j).

(** The entry between [pre] and [post] is the first of shortest period among
    those awake. *)
Definition chosen (pre : table) (j : job) (post : table) : Prop :=
  awake j ∧ (∀ e, e ∈ pre → awake e.1 → j_period j < j_period e.1) ∧
  (∀ e, e ∈ post → awake e.1 → j_period j <= j_period e.1).

(** What is asked of the scheduler. *)
Inductive request : Type :=
  | Register (p period cost : Z)
  | Yield (p : Z)
  | Deregister (p : Z)
  | Alarm
  | Choose
  | Other.

Inductive sched_step `{KConst} (now : Z) : request → table → table → Prop :=
  | s_admit p per c t :
      sched_step now (Register p per c) t (t ++ [(mkJob (u32 p) per c SLEEPING None 0, false)])
  | s_refuse p per c t : sched_step now (Register p per c) t t
  | s_yield p pre j c post :
      (∀ e, e ∈ pre → j_pid e.1 ≠ u32 p) → j_pid j = u32 p →
      sched_step now (Yield p) (pre ++ (j, c) :: post)
        (pre ++ (yield_job now j, c && negb (early now j))%bool :: post)
  | s_leave p pre j c post :
      (∀ e, e ∈ pre → j_pid e.1 ≠ u32 p) → j_pid j = u32 p →
      sched_step now (Deregister p) (pre ++ (j, c) :: post) (pre ++ post)
  | s_unknown p t : (∀ e, e ∈ t → j_pid e.1 ≠ u32 p) → sched_step now (Deregister p) t t
  | s_alarm pre j c post d :
      j_alarm j = Some d → d <= now →
      sched_step now Alarm (pre ++ (j, c) :: post) (pre ++ (wake_job j, c) :: post)
  | s_idle t : (∀ e, e ∈ t → ¬ awake e.1) → sched_step now Choose t t
  | s_keep pre j post :
      chosen pre j post → sched_step now Choose (pre ++ (j, true) :: post) (pre ++ (j, true) :: post)
  | s_switch pre j post :
      chosen pre j post →
      sched_step now Choose (pre ++ (j, false) :: post)
        ((preempt <$> pre) ++ (run_job j, true) :: (preempt <$> post))
  | s_other t : sched_step now Other t t.

(** The pids of a table, in order, and what a request makes of them. *)
Definition pids_of (t : table) : list Z := (λ e, j_pid e.1) <$> t.

Lemma pids_of_preempt t : pids_of (preempt <$> t) = pids_of t.
Proof.
  unfold pids_of. rewrite <- list_fmap_compose. apply list_fmap_ext. intros _ [j c] _. cbn.
  by destruct (c && (j_state j =? RUNNING))%bool.
Qed.

Lemma pids_of_app t t' : pids_of (t ++ t') = pids_of t ++ pids_of t'.
Proof. apply fmap_app. Qed.

Lemma pids_of_cons j c t : pids_of ((j, c) :: t) = j_pid j :: pids_of t.
Proof. done. Qed.

Definition pids_after (q : request) (l l' : list Z) : Prop :=
  match q with
  | Register p _ _ => l' = l ++ [u32 p] ∨ l' = l
  | Deregister p =>
      (∃ pre post, l = pre ++ u32 p :: post ∧ l' = pre ++ post) ∨ u32 p ∉ l ∧ l' = l
  | _ => l' = l
  end.

Lemma step_pids `{KConst} now q t t' :
  sched_step now q t t' → pids_after q (pids_of t) (pids_of t').
Proof.
  destruct 1 as [p per c t|p per c t|p pre j c post Hn Hj|p pre j c post Hn Hj|p t Hn
                |pre j c post d Hd Hle|t Hn|pre j post Hc|pre j post Hc|t];
    unfold pids_after; try done;
    rewrite ?pids_of_app, ?pids_of_cons, ?pids_of_preempt; try done.
  - by left.
  - by right.
  - unfold yield_job. by case_match.
  - left. rewrite Hj. by eexists _, _.
  - right. split; [|done]. intros ((j & c) & Hp & Hin)%list_elem_of_fmap. by apply (Hn _ Hin).
Qed.

(** ** The table a state of the module stands for *)

Definition job_of (t : mp2_task_struct) : job :=
  mkJob (pid t) (period t) (computation t) (state t) (tm t) (next_period t).

Definition job_at (m : gmap Z mp2_task_struct) (curr a : Z) : option (job * bool) :=
  match m !! a with Some t => Some (job_of t, a =? curr) | None => None end.

Definition jobs (m : gmap Z mp2_task_struct) (curr : Z) (l : list Z) : table :=
  omap (job_at m curr) l.

Section refine.
Context {L : Type} `{!KList L, !KConst, !Allocator, !Kstrto}.
Context `{!KListLaws L, !KConstLaws, !AllocatorLaws, !KstrtoLaws}.
Implicit Types s : @mp2 L.

Definition table_of s : table := jobs (mem s) (curr_tsk s) (nodes s).

Lemma jobs_app m c l k : jobs m c (l ++ k) = jobs m c l ++ jobs m c k.
Proof. unfold jobs. induction l as [|a l IH]; [done|]. cbn. destruct (job_at m c a); cbn; by rewrite IH. Qed.

Lemma jobs_ext m c m' c' l :
  (∀ a, a ∈ l → job_at m c a = job_at m' c' a) → jobs m c l = jobs m' c' l.
Proof.
  induction l as [|a l IH]; intros Hl; [done|]. unfold jobs in *. cbn.
  rewrite (Hl a) by (apply elem_of_cons; by left).
  rewrite IH by (intros b Hb; apply Hl, elem_of_cons; by right). done.
Qed.

Lemma elem_of_jobs m c l e :
  e ∈ jobs m c l → ∃ a t, a ∈ l ∧ m !! a = Some t ∧ e = (job_of t, a =? c).
Proof.
  unfold jobs. rewrite list_elem_of_omap. intros (a & Ha & He). unfold job_at in He.
  destruct (m !! a) as [t|] eqn:Ht; [|done]. injection He as <-. by exists a, t.
Qed.

(** The list of a well-formed state around one of its structs. *)
Lemma table_split s a t :
  wf s → mem s !! a = Some t →
  ∃ pre post, nodes s = pre ++ a :: post ∧ a ∉ pre ∧ a ∉ post.
Proof.
  intros Hw Ht. assert (a ∈ nodes s) as Ha by (apply (wf_dom s Hw); by exists t).
  apply list_elem_of_split in Ha as (pre & post & Hl). exists pre, post.
  pose proof (wf_nodup s Hw) as Hnd. rewrite Hl in Hnd.
  apply NoDup_app in Hnd as (_ & Hd & [Hp _]%NoDup_cons). split_and!; [done| |done].
  intros Hin. apply (Hd a Hin), elem_of_cons. by left.
Qed.

Lemma jobs_middle m c pre a t post :
  m !! a = Some t →
  jobs m c (pre ++ a :: post) = jobs m c pre ++ (job_of t, a =? c) :: jobs m c post.
Proof. intros Ht. rewrite jobs_app. f_equal. unfold jobs. cbn. unfold job_at. by rewrite Ht. Qed.

(** Changing one struct, and perhaps its mark. *)
Lemma jobs_insert m c c' a t' l :
  a ∉ l → (∀ b, b ∈ l → (b =? c') = (b =? c)) → jobs (<[a := t']> m) c' l = jobs m c l.
Proof.
  intros Ha Hc. apply jobs_ext. intros b Hb. unfold job_at.
  rewrite lookup_insert_ne by (by intros <-). by rewrite Hc.
Qed.

Lemma jobs_delete m c c' a l :
  a ∉ l → (∀ b, b ∈ l → (b =? c') = (b =? c)) → jobs (delete a m) c' l = jobs m c l.
Proof.
  intros Ha Hc. apply jobs_ext. intros b Hb. unfold job_at.
  rewrite lookup_delete_ne by (by intros <-). by rewrite Hc.
Qed.

(** Giving up the current task [a] changes no other mark. *)
Lemma mark_forgotten s a b : wf s → b ∈ nodes s → b ≠ a →
  (b =? (if a =? curr_tsk s then NULL else curr_tsk s)) = (b =? curr_tsk s).
Proof.
  intros Hw Hb Hne. destruct (Z.eqb_spec a (curr_tsk s)) as [->|]; [|done].
  destruct (wf_node s b Hw Hb) as [Hnn _].
  by rewrite (proj2 (Z.eqb_neq b NULL)), (proj2 (Z.eqb_neq b _)).
Qed.

(** The tables before and after a step that changes or removes one struct. *)
Lemma table_around s a t pre post :
  nodes s = pre ++ a :: post → mem s !! a = Some t →
  table_of s = jobs (mem s) (curr_tsk s) pre ++ (job_of t, a =? curr_tsk s) ::
               jobs (mem s) (curr_tsk s) post.
Proof. intros Hl Ht. unfold table_of. rewrite Hl. by apply jobs_middle. Qed.

Lemma table_change s s' a t' pre post :
  nodes s = pre ++ a :: post → a ∉ pre → a ∉ post →
  nodes s' = nodes s → mem s' = <[a := t']> (mem s) →
  (∀ b, b ∈ nodes s → b ≠ a → (b =? curr_tsk s') = (b =? curr_tsk s)) →
  table_of s' = jobs (mem s) (curr_tsk s) pre ++ (job_of t', a =? curr_tsk s') ::
                jobs (mem s) (curr_tsk s) post.
Proof.
  intros Hl Hpre Hpost Hn Hm Hmark.
  rewrite (table_around s' a t' pre post) by (rewrite ?Hn, ?Hm; done || apply lookup_insert_eq).
  rewrite Hm. f_equal; [|f_equal]; apply jobs_insert; try done;
    (intros b Hb; apply Hmark; [rewrite Hl; set_solver | by intros ->]).
Qed.

Lemma table_remove s s' a pre post :
  nodes s = pre ++ a :: post → a ∉ pre → a ∉ post →
  nodes s' = filter (λ b, b ≠ a) (nodes s) → mem s' = delete a (mem s) →
  (∀ b, b ∈ nodes s → b ≠ a → (b =? curr_tsk s') = (b =? curr_tsk s)) →
  table_of s' = jobs (mem s) (curr_tsk s) pre ++ jobs (mem s) (curr_tsk s) post.
Proof.
  intros Hl Hpre Hpost Hn Hm Hmark. unfold table_of.
  rewrite Hn, Hl, filter_app, filter_cons_False by naive_solver.
  rewrite !filter_not_in by done. rewrite jobs_app, Hm.
  f_equal; apply jobs_delete; try done;
    (intros b Hb; apply Hmark; [rewrite Hl; set_solver | by intros ->]).
Qed.

(** The first struct with a pid is the first job with it. *)
Lemma find_split s p a :
  wf s → first_with_pid s p = Some a →
  ∃ pre t post, nodes s = pre ++ a :: post ∧ a ∉ pre ∧ a ∉ post ∧ mem s !! a = Some t ∧
    pid t = u32 p ∧ ∀ e, e ∈ jobs (mem s) (curr_tsk s) pre → j_pid e.1 ≠ u32 p.
Proof.
  intros Hw Hf. unfold first_with_pid in Hf. apply find_map_Some in Hf as (pre & x & post & Hl & Hx & Hpre).
  unfold has_pid in Hx. destruct (mem s !! x) as [t|] eqn:Ht; [|done].
  destruct (Z.eqb_spec (pid t) (u32 p)) as [Hp|]; [|done]. injection Hx as ->.
  pose proof (wf_nodup s Hw) as Hnd. rewrite Hl in Hnd.
  apply NoDup_app in Hnd as (_ & Hd & [Hpo _]%NoDup_cons).
  exists pre, t, post. split_and!; try done.
  - intros Hin. apply (Hd a Hin), elem_of_cons. by left.
  - intros e (b & u & Hb & Hu & ->)%elem_of_jobs. cbn.
    specialize (Hpre b Hb). unfold has_pid in Hpre. rewrite Hu in Hpre.
    by destruct (Z.eqb_spec (pid u) (u32 p)).
Qed.

Lemma find_none s p :
  wf s → first_with_pid s p = None → ∀ e, e ∈ table_of s → j_pid e.1 ≠ u32 p.
Proof.
  intros Hw Hf e (a & t & _ & Ht & ->)%elem_of_jobs. by apply (first_with_pid_None s p Hw Hf a).
Qed.

(** ** Each operation is a step of the specification *)

Lemma register_refines stale s p per comp r s' :
  wf s → reg_entry stale p per comp s = Ok (r, s') →
  sched_step (jiffies s) (Register p per comp) (table_of s) (table_of s').
Proof.
  intros Hw Hrun. destruct (admission_control_cases per comp p s) as [Hr|(n & d & Ha)].
  - rewrite (reg_entry_refused stale s p per comp Hr) in Hrun. injection Hrun as _ <-. apply s_refuse.
  - destruct (alloc_addr (n_alloc (slab s)) (dom (mem s))) as [a|] eqn:Hal;
      [|by rewrite (reg_entry_no_memory stale s p per comp n d Ha (wf_cache s Hw) Hal) in Hrun].
    rewrite (reg_entry_run stale s p per comp n d a Ha (wf_cache s Hw) Hal) in Hrun.
    injection Hrun as _ <-. set (s1 := mkMp2 _ _ _ _ _ _ _ _ _ _ _ _ _).
    destruct (alloc_fresh _ _ _ Hal) as [Hfresh%not_elem_of_dom _].
    pose proof (alloc_not_null _ _ _ Hal) as Hnn.
    assert (a ∉ nodes s) as Hin by (intros Hin%(wf_dom s Hw); rewrite Hfresh in Hin; by destruct Hin).
    assert (table_of s1 = table_of s ++ [(mkJob (u32 p) per comp SLEEPING None 0, false)]) as ->;
      [|apply s_admit].
    unfold table_of. assert (nodes s1 = nodes s ++ [a]) as -> by by apply nodes_add_tail.
    change (mem s1) with (<[a := new_task s p per comp]> (mem s)).
    change (curr_tsk s1) with (curr_tsk s). rewrite jobs_app, (jobs_insert (mem s) (curr_tsk s) (curr_tsk s)) by done. f_equal.
    unfold jobs. cbn. unfold job_at. rewrite lookup_insert_eq.
    rewrite (proj2 (Z.eqb_neq a (curr_tsk s))); [done|].
    destruct (wf_curr s Hw) as [->|Hc]; [done|by intros ->].
Qed.

Lemma job_yielded now t : job_of (yielded now t) = yield_job now (job_of t).
Proof.
  unfold yielded, yielded_by, yield_job, early. cbn. destruct (next_period t =? 0); [done|]. cbn.
  by destruct (now <? next_period t).
Qed.

Lemma nodes_forget a s : nodes (forget_curr a s) = nodes s.
Proof. unfold forget_curr. by case_match. Qed.

Lemma yield_refines s p s' :
  wf s → yield_entry p s = Ok (tt, s') →
  sched_step (jiffies s) (Yield p) (table_of s) (table_of s').
Proof.
  intros Hw Hrun. destruct (first_with_pid s p) as [a|] eqn:Hf;
    [|by rewrite (yield_entry_unknown s p Hw Hf) in Hrun].
  destruct (find_split s p a Hw Hf) as (pre & t & post & Hl & Hpre & Hpost & Ht & Hp & Hfirst).
  pose proof (wf_lookup s a t Hw Ht) as [Hnn _].
  pose proof (yield_entry_run any s p a t Hw Hf Ht (permits_any _) (λ _, permits_any _)) as Hret.
  pose proof (returns_any _ _ _ _ Hret Hrun) as [= ->].
  set (s1 := add_calls _ _).
  assert (curr_tsk s1 = if sleeps (jiffies s) t then (if a =? curr_tsk s then NULL else curr_tsk s)
                        else curr_tsk s) as Hc.
  { unfold s1. destruct (sleeps (jiffies s) t); [|done]. apply forget_curr_frame. }
  rewrite (table_around s a t pre post) by done.
  rewrite (table_change s s1 a (yielded (jiffies s) t) pre post Hl Hpre Hpost).
  - rewrite job_yielded. assert ((a =? curr_tsk s1) =
      ((a =? curr_tsk s) && negb (early (jiffies s) (job_of t)))%bool) as ->.
    { rewrite Hc. change (early (jiffies s) (job_of t)) with (sleeps (jiffies s) t).
      destruct (sleeps (jiffies s) t), (Z.eqb_spec a (curr_tsk s)); cbn [negb andb];
        first [done | by apply Z.eqb_neq | by apply Z.eqb_eq]. }
    by apply s_yield.
  - unfold s1. destruct (sleeps (jiffies s) t); [|done]. apply (nodes_forget a).
  - done.
  - intros b Hb Hne. rewrite Hc.
    destruct (sleeps (jiffies s) t); [by apply mark_forgotten|done].
Qed.

Lemma deregister_refines s p r s' :
  wf s → dereg_entry p s = Ok (r, s') →
  sched_step (jiffies s) (Deregister p) (table_of s) (table_of s').
Proof.
  intros Hw Hrun. destruct (first_with_pid s p) as [a|] eqn:Hf.
  2:{ rewrite (dereg_entry_unknown s p Hw Hf) in Hrun. injection Hrun as _ <-.
      apply s_unknown. by apply find_none. }
  destruct (find_split s p a Hw Hf) as (pre & t & post & Hl & Hpre & Hpost & Ht & Hp & Hfirst).
  destruct (admission_control_release (period t) (computation t) (pid t) (forget_curr a s))
    as (n & d & Hadm).
  pose proof (dereg_entry_run any s p a t n d Hw Hf Ht (permits_any _) Hadm) as Hret.
  pose proof (returns_any _ _ _ _ Hret Hrun) as [= _ ->]. set (s1 := log _ _).
  rewrite (table_around s a t pre post) by done.
  rewrite (table_remove s s1 a pre post Hl Hpre Hpost); [by apply s_leave| |done|].
  - change (nodes s1) with (list_nodes (list_del a (HEAD s))).
    apply nodes_del; [apply Hw | fold (nodes s); rewrite Hl; set_solver].
  - intros b Hb Hne. change (curr_tsk s1) with (curr_tsk (forget_curr a s)).
    rewrite (proj2 (proj2 (proj2 (forget_curr_frame a s)))). by apply mark_forgotten.
Qed.

Lemma alarm_refines s a t d s' :
  wf s → mem s !! a = Some t → tm t = Some d → d <= jiffies s → timer_fires a s = Ok (tt, s') →
  sched_step (jiffies s) Alarm (table_of s) (table_of s').
Proof.
  intros Hw Ht Hd Hdue Hrun. apply (timer_fires_run s a t tt s' Hw Ht) in Hrun as ->.
  destruct (table_split s a t Hw Ht) as (pre & post & Hl & Hpre & Hpost).
  set (s1 := log _ _).
  rewrite (table_around s a t pre post), (table_change s s1 a (woken (set_tm None t)) pre post)
    by done.
  assert (job_of (woken (set_tm None t)) = wake_job (job_of t)) as ->.
  { unfold woken, wake_job. cbn. by destruct (state t =? SLEEPING). }
  by apply (s_alarm _ _ _ _ _ d).
Qed.

(** ** The dispatcher *)

Lemma eligible_awake t : eligible t ↔ awake (job_of t).
Proof. done. Qed.

Lemma jobs_preempt m c m' c' l :
  (∀ a, a ∈ l → job_at m' c' a = preempt <$> job_at m c a) →
  jobs m' c' l = preempt <$> jobs m c l.
Proof.
  induction l as [|a l IH]; intros Hl; [done|]. unfold jobs in *. cbn.
  rewrite (Hl a) by (apply elem_of_cons; by left).
  rewrite IH by (intros b Hb; apply Hl, elem_of_cons; by right).
  by destruct (job_at m c a).
Qed.

(** A switch to [next] preempts the other jobs. *)
Lemma job_at_switched s next t b :
  b ≠ next →
  job_at (mem (switch_to next t s)) next b = preempt <$> job_at (mem s) (curr_tsk s) b.
Proof.
  intros Hne. unfold job_at, switch_to. rewrite mem_after_switch, lookup_insert_ne by done.
  rewrite (proj2 (Z.eqb_neq b next)) by done.
  destruct (mem s !! curr_tsk s) as [o|] eqn:Ho.
  - change (mem (add_calls _ _)) with (<[curr_tsk s := preempted o]> (mem s)).
    rewrite lookup_insert. case_decide as Hb.
    + subst b. rewrite Ho, Z.eqb_refl. cbn. unfold preempted. by destruct (state o =? RUNNING).
    + destruct (mem s !! b); [|done]. by rewrite (proj2 (Z.eqb_neq b (curr_tsk s))).
  - destruct (mem s !! b) as [u|] eqn:Hu; [|done].
    rewrite (proj2 (Z.eqb_neq b (curr_tsk s))); [done|]. congruence.
Qed.

Lemma jobs_switched s next t l :
  next ∉ l → jobs (mem (switch_to next t s)) next l = preempt <$> jobs (mem s) (curr_tsk s) l.
Proof. intros Hn. apply jobs_preempt. intros a Ha. apply job_at_switched. by intros ->. Qed.

Lemma best_chosen s a :
  is_best (mem s) (nodes s) a →
  ∃ pre t post, nodes s = pre ++ a :: post ∧ mem s !! a = Some t ∧
    chosen (jobs (mem s) (curr_tsk s) pre) (job_of t) (jobs (mem s) (curr_tsk s) post).
Proof.
  intros (pre & post & t & Hl & Ht & He & Hlt & Hle). exists pre, t, post. split_and!; [done..|].
  split_and!; [done| |]; intros e (b & u & Hb & Hu & ->)%elem_of_jobs Haw;
    [by apply (Hlt b u) | by apply (Hle b u)].
Qed.

Lemma dispatch_refines s r s' :
  wf s → dispatch_body s = Ok (r, s') →
  sched_step (jiffies s) Choose (table_of s) (table_of s').
Proof.
  intros Hw Hrun. pose proof (dispatch_body_run any s Hw (permits_any _)) as Hret.
  pose proof (returns_any _ _ _ _ Hret Hrun) as [= _ ->]. unfold dispatched.
  destruct (best_cases (mem s) (nodes s)) as [[Hn Hno]|Hb].
  - rewrite Hn, (wf_null s Hw). apply s_idle.
    intros e (a & t & Ha & Ht & ->)%elem_of_jobs. by apply (Hno a t).
  - set (next := best _ _) in *.
    destruct (best_chosen s next Hb) as (pre & t & post & Hl & Ht & Hch). rewrite Ht.
    rewrite (table_around s next t pre post) by done.
    destruct (Z.eqb_spec next (curr_tsk s)) as [Hc|Hc].
    + change (table_of (add_calls _ s)) with (table_of s).
      rewrite (table_around s next t pre post) by done.
      rewrite (proj2 (Z.eqb_eq next (curr_tsk s)) Hc). by apply s_keep.
    + set (s1 := switch_to next t s). change (table_of (add_calls _ s1)) with (table_of s1).
      destruct (switch_to_after s next t Hw Ht Hc) as (Hcur & Hm & _). fold s1 in Hcur, Hm.
      assert (nodes s1 = nodes s) as Hn by (unfold s1, switch_to; by case_match).
      rewrite (table_around s1 next _ pre post (eq_trans Hn Hl) Hm), Hcur, Z.eqb_refl.
      pose proof (wf_nodup s Hw) as Hnd. rewrite Hl in Hnd.
      apply NoDup_app in Hnd as (_ & Hd & [Hpo _]%NoDup_cons).
      unfold s1. rewrite (jobs_switched s next t pre), (jobs_switched s next t post);
        [by apply s_switch | done |].
      intros Hin. apply (Hd next Hin), elem_of_cons. by left.
Qed.

(** ** Requests *)

(** What a write or another event asks for; a write is read as [mywrite] reads
    it, the operation from the first byte and the numbers by [parse_request]. *)
Definition decode (op : ascii) (p per comp : Z) : request :=
  if decide (op = ch "R") then Register p (u32 per) (u32 comp)
  else if decide (op = ch "Y") then Yield p
  else if decide (op = ch "D") then Deregister p
  else Other.

Definition request_of (e : event) s : option request :=
  match e with
  | Write ubuf =>
      match parse_request (ubuf ++ [NUL]) s with
      | Ok ((p, per, comp), _) => Some (decode (hd NUL (ubuf ++ [NUL])) p per comp)
      | Oops _ => None
      end
  | Timer _ => Some Alarm
  | Dispatch => Some Choose
  | Tick | Process _ _ => Some Other
  end.

Lemma mywrite_refines stale ubuf s r s' :
  wf s → mywrite stale ubuf s = Ok (r, s') →
  ∃ q, request_of (Write ubuf) s = Some q ∧
    sched_step (jiffies s) q (table_of s) (table_of s').
Proof.
  intros Hw Hrun. unfold mywrite in Hrun. run_inv Hrun. unfold request_of. rewrite Hrun0.
  apply parse_request_read in Hrun0 as ->. destruct a as [[p per] comp].
  run_inv Hrun. unfold ret in Hrun. simplify_eq. eexists. split; [done|]. unfold decode.
  repeat case_decide.
  - run_inv Hrun0. unfold ret in Hrun0. simplify_eq. by eapply register_refines.
  - destruct a. by apply yield_refines.
  - run_inv Hrun0. unfold ret in Hrun0. simplify_eq. by eapply deregister_refines.
  - unfold ret in Hrun0. simplify_eq. apply s_other.
Qed.

Lemma mp2_init_nodes d f cache thread s0 :
  wp (mp2_init d f cache thread) (λ r s, r = 0 → nodes s = []) any s0.
Proof.
  pose proof errno_pos as (_ & _ & He & _).
  unfold mp2_init, init_slab, init_mykernel, wake_up_process. wp_pure.
  destruct (f =? NULL); [wp_pure; lia|]. wp_pure.
  destruct (_ =? NULL); wp_pure; [intros _; apply nodes_init|].
  apply wp_on_task; [apply permits_any|]. wp_pure. intros _. apply nodes_init.
Qed.

Lemma loaded_table s : loaded s → table_of s = [].
Proof.
  intros [d f cache thread s0 s' Hm Hc Hrun]. unfold table_of.
  by rewrite (wp_run _ _ _ _ _ _ (mp2_init_nodes d f cache thread s0) Hrun eq_refl).
Qed.

Lemma step_refines stale e s s' :
  wf s → step stale e s s' →
  ∃ q, request_of e s = Some q ∧ sched_step (jiffies s) q (table_of s) (table_of s').
Proof.
  intros Hw Hstep. destruct Hstep as [ubuf r s s' Hrun|a t d s s' Ht Hd Hdue Hrun|s s' Hrun|s|p t s].
  - by eapply mywrite_refines.
  - eexists. split; [done|]. by eapply alarm_refines.
  - eexists. split; [done|]. by eapply dispatch_refines.
  - eexists. split; [done|]. apply s_other.
  - eexists. split; [done|]. apply s_other.
Qed.

(** C2: The module implements the abstract rate-monotonic scheduler.  Loading
    leaves the empty table; in a reachable state, whatever happens - a write to
    the proc file, a timer, a turn of the dispatcher, a clock tick, a process
    that starts or ends - is a step of the specification on the request the
    event stands for: a registration adds a sleeping job at the end or changes
    nothing, a yield acts on the first job with the pid, a deregistration
    removes that job and no other, a timer that is due wakes its job, and the
    dispatcher runs the first job of shortest period among those awake. *)
Theorem scheduler_refines stale :
  (∀ s, loaded s → table_of s = []) ∧
  (∀ s e s', reachable stale s → step stale e s s' →
     ∃ q, request_of e s = Some q ∧ sched_step (jiffies s) q (table_of s) (table_of s')).
Proof.
  split; [apply loaded_table|]. intros s e s' Hw%reaches_wf. by apply step_refines.
Qed.
End refine.


(** ** A turn of the dispatcher *)

Lemma scheduler_refines_witness :
  table_of two_ready =
    [(mkJob 1 500 86 READY None 1050, false); (mkJob 2 300 43 READY None 1030, false)] ∧
  table_of two_running =
    [(mkJob 1 500 86 READY None 1050, false); (mkJob 2 300 43 RUNNING None 1030, true)] ∧
  ∃ q, request_of Dispatch two_ready = Some q ∧
    sched_step (jiffies two_ready) q (table_of two_ready) (table_of two_running).
Proof.
  split; [by vm_compute|]. split; [by vm_compute|].
  exact (proj2 (scheduler_refines stale_task) two_ready Dispatch two_running two_ready_reachable
    (step_dispatch stale_task two_ready two_running ltac:(by vm_compute))).
Defined.
