(* ===== verification/Mp2System.v ===== *)
(** * MP2: programs and module together

    The module of src/MP2/mp2.c is a real-time service in the sense of
    [Mp2Client]: the laws follow from its refinement of the abstract scheduler
    ([Mp2Refine]) and from the status file ([Mp2Proc]).  So programs that run
    src/MP2/userapp.c, however interleaved with one another, with the timers,
    the dispatcher, the clock and the comings and goings of processes, never
    make the module fault while their tasks are alive, and leave nothing behind. *)
From Stdlib Require Import Ascii String.
From stdpp Require Import base gmap sets list strings relations.
From Stdlib Require Import ZArith Lia.
From S2P Require Import Prelude CString Kernel Mp2 Mp2Run Mp2State Mp2Sched.
From S2P Require Import Mp2User Mp2Client Mp2Proc Mp2Refine.
Import Reference.

Open Scope Z_scope.
Open Scope c_scope.

Section service.
Context {L : Type} `{!KList L, !KConst, !Allocator, !Kstrto}.
Context `{!KListLaws L, !KConstLaws, !AllocatorLaws, !KstrtoLaws}.
Implicit Types s : @mp2 L.
Variable stale : mp2_task_struct.

Definition registered s : list Z := pids_of (table_of s).

Definition proper s : Prop := wf s ∧ Forall is_u32 (registered s).

Definition served s : Prop := all_live s ∧ live s (dispatch_kth s).

Definition moves s s' : Prop := ∃ e, (∀ u, e ≠ Write u) ∧ step stale e s s'.

Definition read_status : M (@mp2 L) (list ascii) :=
  let! (bytes, n, off) := myread 0 in ret bytes.

#[local] Instance mp2_service : RtService (@mp2 L) := {
  svc_ok := proper;
  svc_alive := served;
  svc_pids := registered;
  svc_write := mywrite stale;
  svc_read := read_status;
  svc_moves := moves }.

(** ** The laws *)

Lemma is_pid_i32 p : is_pid p → is_i32 p.
Proof. unfold is_pid, is_i32, INT_MIN, INT_MAX. lia. Qed.

Lemma is_pid_u32 p : is_pid p → u32 p = p.
Proof. unfold is_pid, INT_MAX. intros. apply u32_id. unfold is_u32. lia. Qed.

Lemma elem_of_registered s p :
  wf s → p ∈ registered s ↔ ∃ a t, mem s !! a = Some t ∧ pid t = p.
Proof.
  intros Hw. unfold registered, pids_of. rewrite list_elem_of_fmap. split.
  - intros (e & -> & (a & t & _ & Ht & ->)%elem_of_jobs). by exists a, t.
  - intros (a & t & Ht & <-). exists (job_of t, a =? curr_tsk s). split; [done|].
    unfold table_of, jobs. apply list_elem_of_omap. exists a.
    split; [by eapply wf_lookup|]. unfold job_at. by rewrite Ht.
Qed.

Lemma proper_after q s s' :
  proper s → wf s' → sched_step (jiffies s) q (table_of s) (table_of s') →
  proper s' ∧ pids_after q (registered s) (registered s').
Proof.
  intros [_ Hu] Hw' Hstep%step_pids. split; [|done]. split; [done|].
  fold (registered s) (registered s') in Hstep. unfold pids_after in Hstep.
  destruct q; try by rewrite Hstep.
  - destruct Hstep as [->| ->]; [|done]. apply Forall_app. split; [done|].
    apply Forall_singleton, u32_range.
  - destruct Hstep as [(pre & post & Hs & ->)|[_ ->]]; [|done].
    rewrite Hs in Hu. apply Forall_app in Hu as [? [_ ?]%Forall_cons]. by apply Forall_app.
Qed.

Lemma first_registered s p : wf s → is_pid p → p ∈ registered s → is_Some (first_with_pid s p).
Proof.
  intros Hw Hp (a & t & Ht & Hpt)%(elem_of_registered s p Hw).
  destruct (first_with_pid s p) as [b|] eqn:Hf; [by exists b|].
  pose proof (first_with_pid_None s p Hw Hf a t Ht) as Hne. by rewrite is_pid_u32 in Hne.
Qed.

Lemma write_yield_runs p s :
  proper s → is_pid p → served s → p ∈ registered s →
  ∃ r s', mywrite stale (App.yield_msg p) s = Ok (r, s').
Proof.
  intros [Hw _] Hp [Hal Hd] Hin. rewrite mywrite_yield by by apply is_pid_i32.
  destruct (first_registered s p Hw Hp Hin) as [a Hf].
  destruct (first_with_pid_Some s p a Hw Hf) as [_ (t & Ht & _)].
  pose proof (yield_entry_run safe s p a t Hw Hf Ht (permits_yes _ _ Hd)
    (λ _, permits_yes _ _ (Hal a t Ht))) as Hrun.
  unfold bind. rewrite (returns_safe _ _ _ Hrun). by eexists _, _.
Qed.

Lemma write_dereg_runs p s :
  proper s → is_pid p → served s → p ∈ registered s →
  ∃ r s', mywrite stale (App.dereg_msg p) s = Ok (r, s').
Proof.
  intros [Hw _] Hp [Hal Hd] Hin. rewrite mywrite_dereg by by apply is_pid_i32.
  destruct (first_registered s p Hw Hp Hin) as [a Hf].
  destruct (first_with_pid_Some s p a Hw Hf) as [_ (t & Ht & _)].
  destruct (admission_control_release (period t) (computation t) (pid t) (forget_curr a s))
    as (n & d & Hadm).
  pose proof (dereg_entry_run safe s p a t n d Hw Hf Ht (permits_yes _ _ Hd) Hadm) as Hrun.
  unfold bind. rewrite (returns_safe _ _ _ Hrun). by eexists _, _.
Qed.

Lemma find_in_status p s bytes s' :
  proper s → is_pid p → read_status s = Ok (bytes, s') →
  proper s' ∧ registered s' = registered s ∧ (App.check bytes p = 0 ↔ p ∈ registered s).
Proof.
  intros Hok Hp Hrun. pose proof Hok as [Hw Hu]. unfold read_status in Hrun.
  run_inv Hrun. destruct a as [[b n] off]. unfold ret in Hrun. simplify_eq.
  destruct (check_finds_registered s p bytes n off s' Hw Hp Hrun0) as [-> Hc].
  change (registered (after_read s)) with (registered s). split_and!; [|done|].
  - split; [by apply (wf_ext s)|done].
  - rewrite Hc, (elem_of_registered s p Hw). rewrite Forall_forall in Hu.
    split; intros (a & t & Ht & Hpt); exists a, t; (split; [done|]).
    + assert (is_u32 (pid t)) as Hr by (apply Hu, elem_of_registered; [done|by exists a, t]).
      by rewrite <- (u32_id _ Hr), <- u32_i32, Hpt, is_pid_u32.
    + rewrite Hpt. apply i32_id. by apply is_pid_i32.
Qed.

Lemma write_reg p per comp s r s' :
  proper s → is_pid p → is_u32 per → is_u32 comp →
  mywrite stale (App.reg_msg p per comp) s = Ok (r, s') →
  proper s' ∧ (registered s' = registered s ++ [p] ∨ registered s' = registered s).
Proof.
  intros Hok Hp Hper Hcomp Hrun. pose proof Hok as [Hw _].
  rewrite mywrite_reg in Hrun by (done || by apply is_pid_i32).
  run_inv Hrun. unfold ret in Hrun. simplify_eq.
  destruct (proper_after (Register p per comp) s s') as [? Hafter];
    [done|by eapply reg_entry_wf|by eapply register_refines|].
  unfold pids_after in Hafter. by rewrite is_pid_u32 in Hafter.
Qed.

Lemma write_yield p s r s' :
  proper s → is_pid p → mywrite stale (App.yield_msg p) s = Ok (r, s') →
  proper s' ∧ registered s' = registered s.
Proof.
  intros Hok Hp Hrun. pose proof Hok as [Hw _].
  rewrite mywrite_yield in Hrun by by apply is_pid_i32.
  run_inv Hrun. unfold ret in Hrun. simplify_eq. destruct a.
  apply (proper_after (Yield p) s s'); [done|by eapply yield_entry_wf|by eapply yield_refines].
Qed.

Lemma write_dereg p s r s' :
  proper s → is_pid p → p ∈ registered s → mywrite stale (App.dereg_msg p) s = Ok (r, s') →
  proper s' ∧ ∃ pre post, registered s = pre ++ p :: post ∧ registered s' = pre ++ post.
Proof.
  intros Hok Hp Hin Hrun. pose proof Hok as [Hw _].
  rewrite mywrite_dereg in Hrun by by apply is_pid_i32.
  run_inv Hrun. unfold ret in Hrun. simplify_eq.
  destruct (proper_after (Deregister p) s s') as [? Hafter];
    [done|by eapply dereg_entry_wf|by eapply deregister_refines|].
  unfold pids_after in Hafter. rewrite is_pid_u32 in Hafter by done.
  by destruct Hafter as [?|[? _]].
Qed.

Lemma moves_keep s s' : proper s → moves s s' → proper s' ∧ registered s' = registered s.
Proof.
  intros Hok (e & Hne & Hstep). pose proof Hok as [Hw _].
  destruct (step_refines stale e s s' Hw Hstep) as (q & Hq & Hsched).
  destruct (proper_after q s s' Hok (step_wf stale e s s' Hw Hstep) Hsched) as [? Hafter].
  split; [done|]. destruct e as [u| | | |]; [by destruct (Hne u)|..];
    injection Hq as <-; exact Hafter.
Qed.

#[local] Instance mp2_laws : RtLaws (@mp2 L) := {
  svc_register := write_reg;
  svc_yield := write_yield;
  svc_leave := write_dereg;
  svc_find := find_in_status;
  svc_move := moves_keep;
  svc_yield_runs := write_yield_runs;
  svc_leave_runs := write_dereg_runs }.

(** ** Programs over the module *)

Variable progs : gmap Z args.
Hypothesis pids_ok : ∀ p a, progs !! p = Some a → is_pid p.

(** From a freshly loaded module and programs that have not started. *)
Definition together (x : @mp2 L * gmap Z phase) : Prop :=
  ∃ s0, loaded s0 ∧ rtc (sys_step progs) (s0, (λ _, Registering) <$> progs) x.

Lemma together_reachable x : together x → sys_reachable progs x.
Proof.
  intros (s0 & Hl & Hsteps). exists (s0, (λ _, Registering) <$> progs). split; [|done].
  unfold sys_start. cbn. unfold proper, registered. rewrite loaded_table by done.
  split_and!; [by apply init_wf|constructor|done..].
Qed.

(** C8: Registrations are exact.  However the programs are interleaved, no pid
    is registered twice; a registered pid belongs to a program between its
    registration and its deregistration; a program that has found itself in the
    status file stays registered until it deregisters, whatever the others, the
    timers, the dispatcher and the kernel do; and when every program is gone
    nothing is registered and the slab is empty. *)
Theorem registrations_exact s ps :
  together (s, ps) →
  NoDup (registered s) ∧
  (∀ p, p ∈ registered s → ∃ ph, ps !! p = Some ph ∧ in_session ph) ∧
  (∀ p n, ps !! p = Some (Jobs n) → p ∈ registered s) ∧
  ((∀ p ph, ps !! p = Some ph → ph = Gone) → registered s = [] ∧ mem s = ∅).
Proof.
  intros Hr%together_reachable. pose proof (sys_inv_reachable progs pids_ok _ Hr) as [Hok Hnd Hse Hjo].
  cbn in *. split_and!; [done..|]. intros Hgone.
  assert (∀ p, p ∉ registered s) as Hnone.
  { intros p (ph & Hph & Hin)%Hse. rewrite (Hgone p ph Hph) in Hin.
    by destruct Hin as [?|[? ?]]. }
  split.
  - destruct (registered s) as [|p l]; [done|]. destruct (Hnone p). apply elem_of_cons. by left.
  - apply map_empty. intros a. destruct (mem s !! a) as [t|] eqn:Ht; [|done].
    destruct (Hnone (pid t)). apply elem_of_registered; [apply Hok|by exists a, t].
Qed.

(** C7: The protocol of the programs is safe.  A yield of an unknown pid makes
    the module dereference NULL, but a program that has found itself in the
    status file is never in that case: as long as the registered processes and
    the dispatcher thread are alive, its next yield, and its deregistration
    after the last one, run to their end. *)
Theorem sessions_never_fault s ps p a n :
  together (s, ps) → progs !! p = Some a → ps !! p = Some (Jobs n) →
  all_live s → live s (dispatch_kth s) →
  ∃ msg r s', says p a (Jobs n) = Some msg ∧ mywrite stale msg s = Ok (r, s') ∧
    together (s', <[p := said (Jobs n)]> ps).
Proof.
  intros Hr Ha Hp Hal Hd.
  destruct (session_runs progs pids_ok s ps p a n (together_reachable _ Hr) Ha Hp (conj Hal Hd))
    as (msg & r & s' & Hsay & Hw & _).
  exists msg, r, s'. split_and!; [done..|]. destruct Hr as (s0 & Hl & Hsteps).
  exists s0. split; [done|]. eapply rtc_r; [done|]. by eapply sys_write.
Qed.
End service.

(** ** A program over the loaded module *)

Definition one_prog : gmap Z args := {[2 := mkArgs 300 43 1]}.

Lemma one_prog_pid p a : one_prog !! p = Some a → is_pid p.
Proof. unfold one_prog. intros [<- _]%lookup_singleton_Some. by vm_compute. Qed.

(** It has registered and found itself. *)
Definition enrolled : @mp2 (list Z) :=
  state_of bare (mywrite stale_task (App.reg_msg 2 300 43) boot).
Definition status_bytes : list ascii := str "1" ++ [newline] ++ str "2" ++ [newline] ++ [NUL].
Definition found : @mp2 (list Z) := after_read enrolled.
Definition found_phases : gmap Z phase :=
  <[2 := Jobs 1]> (<[2 := Checking]> ((λ _, Registering) <$> one_prog)).

Lemma found_together : together stale_task one_prog (found, found_phases).
Proof.
  exists boot. split; [apply boot_loaded|].
  eapply rtc_l; [|eapply rtc_l; [|apply rtc_refl]].
  - apply (sys_write one_prog 2 (mkArgs 300 43 1) Registering (App.reg_msg 2 300 43) 11 boot enrolled);
      by vm_compute.
  - apply (sys_check one_prog 2 (mkArgs 300 43 1) status_bytes enrolled found); by vm_compute.
Qed.

Lemma found_blocks a t : mem found !! a = Some t → a = 4097 ∧ t = mkTask 5002 None 300 43 2 SLEEPING 0.
Proof.
  assert (mem found = {[4097 := mkTask 5002 None 300 43 2 SLEEPING 0]}) as -> by by vm_compute.
  intros [<- <-]%lookup_singleton_Some. done.
Qed.

Lemma registrations_exact_witness :
  registered found = [2] ∧ NoDup (registered found) ∧ found_phases !! 2 = Some (Jobs 1).
Proof.
  split; [by vm_compute|].
  destruct (registrations_exact stale_task one_prog one_prog_pid found found_phases found_together)
    as (Hnd & _).
  split; [exact Hnd|by vm_compute].
Defined.

Lemma sessions_never_fault_witness :
  ∃ msg r s', says 2 (mkArgs 300 43 1) (Jobs 1) = Some msg ∧
    mywrite stale_task msg found = Ok (r, s') ∧
    together stale_task one_prog (s', <[2 := said (Jobs 1)]> found_phases).
Proof.
  apply (sessions_never_fault stale_task one_prog one_prog_pid found found_phases 2
           (mkArgs 300 43 1) 1 found_together).
  - by vm_compute.
  - by vm_compute.
  - intros a t [-> ->]%found_blocks. split; [done|]. apply (bool_decide_unpack _); by vm_compute.
  - split; [by vm_compute|]. apply (bool_decide_unpack _); by vm_compute.
Defined.
