(* ===== verification/Mp2Dump.v ===== *)
(** * MP2: the older module

    src/MP2/mp2_dump.c, the version of the module before it had admission
    control.  The functions with the same text as in src/MP2/mp2.c are those of
    [Mp2]; the others are written out, over the same record, of which the older
    module does not use the two sums.  Then what the newer module changed:
    where it admits a task it does what the older one did. *)
From Stdlib Require Import Ascii String.
From stdpp Require Import base gmap sets list strings relations.
From Stdlib Require Import ZArith Lia.
From S2P Require Import Prelude CString Kernel.
From S2P Require Mp2.
From S2P Require Import Mp2Run Mp2State Mp2Sched.
Import Mp2 Reference.

Open Scope Z_scope.
Open Scope c_scope.

(** The kernel's conversion of a number of jiffies, an [unsigned int]. *)
Class Msecs : Type := {
  jiffies_to_msecs : Z → Z
}.

Section older.
Context {L : Type} `{!KList L, !KConst, !Allocator, !Kstrto, !Msecs}.
Implicit Types s : @mp2 L.

Definition tm_callback : Z → M (@mp2 L) unit := Mp2.tm_callback.
Definition freeone : Z → M (@mp2 L) Z := Mp2.freeone.
Definition find_by_pid : Z → M (@mp2 L) Z := Mp2.find_by_pid.

(** It walks the list and accepts. *)
Definition admission_control (period computation pid : Z) : M (@mp2 L) Z :=
  let! s := get in
  (if list_empty (HEAD s) then ret tt
   else for_each (list_nodes (HEAD s)) (λ tmp, ret tt)) ;!
  ret 0.

Variable stale : mp2_task_struct.

Definition reg_entry (pid period computation : Z) : M (@mp2 L) Z :=
  let! refused := admission_control period computation (u32 pid) in
  if negb (refused =? 0) then ret 1
  else
    let! tsk := kmem_cache_alloc stale in
    head_add_tail tsk ;!
    update tsk (set_pid (u32 pid)) ;!
    update tsk (set_period period) ;!
    update tsk (set_computation computation) ;!
    let! task := find_task_by_pid (u32 pid) in
    update tsk (set_tsk task) ;!
    update tsk (set_next_period 0) ;!
    update tsk (set_state SLEEPING) ;!
    setup_timer tsk ;!
    ret 0.

Definition set_task_sleep (p : Z) : M (@mp2 L) Z :=
  let! tmp := find_by_pid p in
  if tmp =? NULL then ret 0
  else
    let! curr := gets curr_tsk in
    when (tmp =? curr) (modify (set_curr_tsk NULL)) ;!
    update tmp (set_state SLEEPING) ;!
    let! t := load tmp in
    set_task_state (tsk t) TASK_UNINTERRUPTIBLE ;!
    ret 1.

(** The first yield returns at once; a period is converted by
    [jiffies_to_msecs]. *)
Definition yield_entry (p : Z) : M (@mp2 L) unit :=
  let! curr := gets curr_tsk in
  when (negb (curr =? NULL)) (let! _ := load curr in ret tt) ;!
  let! yield_tsk := find_by_pid p in
  let! t := load yield_tsk in
  if next_period t =? 0 then
    let! now := gets jiffies in
    update yield_tsk (set_next_period (u64 (now + jiffies_to_msecs (period t)))) ;!
    update yield_tsk (set_state READY) ;!
    let! d := gets dispatch_kth in
    wake_up_process d
  else
    let! now := gets jiffies in
    when (now <? next_period t)
      (set_task_sleep p ;!
       let! t := load yield_tsk in
       mod_timer yield_tsk (next_period t)) ;!
    update yield_tsk (λ t,
      set_next_period (u64 (next_period t + jiffies_to_msecs (period t))) t) ;!
    let! d := gets dispatch_kth in
    wake_up_process d ;!
    schedule.

Definition dereg_entry (p : Z) : M (@mp2 L) Z :=
  let! t := find_by_pid p in
  if t =? NULL then ret 1
  else
    let! curr := gets curr_tsk in
    when (t =? curr) (modify (set_curr_tsk NULL)) ;!
    freeone t ;!
    ret 0.

Definition findchar : list ascii → ascii → Z → Z := Mp2.findchar.
Definition parse_request : list ascii → M (@mp2 L) (Z * Z * Z) := Mp2.parse_request.

Definition mywrite (ubuf : list ascii) : M (@mp2 L) Z :=
  let buff := ubuf ++ [NUL] in
  let! (pid, period, computation) := parse_request buff in
  let op := hd NUL buff in
  (if decide (op = ch "R") then
     reg_entry pid (u32 period) (u32 computation) ;! ret tt
   else if decide (op = ch "Y") then yield_entry pid
   else if decide (op = ch "D") then dereg_entry pid ;! ret tt
   else ret tt) ;!
  ret (Z.of_nat (length ubuf)).

Definition not_null (p : Z) : M (@mp2 L) unit := if p =? NULL then fail NullDeref else ret tt.

(** [tmpbuf] is not initialised. *)
Definition myread (offset : Z) : M (@mp2 L) (list ascii * Z * Z) :=
  if 0 <? offset then ret ([], 0, offset)
  else
    let! (tmp_p, tmpbuf) := kmalloc_buf buffsize in
    let! (buf_p, buf) := kmalloc_buf buffsize in
    let! s := get in
    let! (off, size, tmpbuf) :=
      (if list_empty (HEAD s) then ret (0%nat, 0, tmpbuf)
       else
         fold_each (list_nodes (HEAD s)) (0%nat, 0, tmpbuf) (λ '(off, size, tmpbuf) itr,
           let! t := load itr in
           not_null tmp_p ;!
           let! tmpbuf := lift (sprintf tmpbuf off (fmt_d (pid t) ++ [newline])) in
           ret (length (c_str tmpbuf), i32 (size + 1), tmpbuf))) in
    not_null buf_p ;!
    let! buf := lift (sprintf buf 0 (fmt_d size ++ [newline])) in
    let n := length (c_str buf) in
    let total_len := (n + off)%nat in
    not_null tmp_p ;!
    let! buf := lift (put buf n (take (off + 1) tmpbuf)) in
    ret (take (total_len + 1) buf, Z.of_nat total_len + 1, offset + (Z.of_nat total_len + 1)).

Definition set_new_task : Z → M (@mp2 L) unit := Mp2.set_new_task.
Definition set_old_task : Z → M (@mp2 L) unit := Mp2.set_old_task.
Definition select_next : M (@mp2 L) Z := Mp2.select_next.
Definition dispatch_fn : list (M (@mp2 L) unit) → M (@mp2 L) Z := Mp2.dispatch_fn.
Definition init_mykernel : Z → M (@mp2 L) unit := Mp2.init_mykernel.
Definition init_slab : Z → M (@mp2 L) unit := Mp2.init_slab.

Definition mp2_init (d f cache thread : Z) : M (@mp2 L) Z :=
  modify (set_proc f d) ;!
  if f =? NULL then
    modify (log (ProcRemove d)) ;! ret (- ENOMEM)
  else
    modify (set_curr_tsk NULL) ;!
    modify (set_HEAD INIT_LIST_HEAD) ;!
    init_slab cache ;!
    init_mykernel thread ;!
    ret 0.

Definition freeall : M (@mp2 L) Z :=
  modify (set_curr_tsk NULL) ;!
  let! s := get in
  (if list_empty (HEAD s) then ret tt
   else for_each (list_nodes (HEAD s)) (λ itr, freeone itr ;! ret tt)) ;!
  ret 0.

Definition mp2_exit : M (@mp2 L) Z :=
  let! s := get in
  modify (log (ProcRemove (fp s))) ;!
  modify (log (ProcRemove (dir s))) ;!
  freeall ;!
  modify (log (KthreadStop (dispatch_kth s))) ;!
  when (negb (mycache s =? NULL)) (modify (log (CacheDestroy (mycache s)))) ;!
  ret 0.
End older.

(** ** What the newer module changed *)

Section newer.
Context {L : Type} `{!KList L, !KConst, !Allocator, !Kstrto, !Msecs}.
Context `{!KListLaws L, !KConstLaws, !AllocatorLaws, !KstrtoLaws}.
Implicit Types s : @mp2 L.

Lemma admission_accepts per comp p s : admission_control per comp p s = Ok (0, s).
Proof.
  unfold admission_control, bind, get. destruct (list_empty (HEAD s)); [done|].
  assert (∀ l : list Z, for_each l (λ _, ret tt) s = Ok (tt, s)) as ->; [|done].
  induction l as [|a l IH]; [done|]. cbn. unfold bind. by rewrite IH.
Qed.

Lemma older_reg stale p per comp s : reg_entry stale p per comp s = enlist stale p per comp s.
Proof. unfold reg_entry, bind at 1. by rewrite admission_accepts. Qed.

Definition removed a s : @mp2 L :=
  set_HEAD (list_del a (HEAD s)) (set_mem (delete a (mem s)) (forget_curr a s)).

Lemma older_dereg_run s p a t :
  wf s → first_with_pid s p = Some a → mem s !! a = Some t →
  dereg_entry p s = Ok (0, removed a s).
Proof.
  intros Hw Hf Ht. destruct (wf_lookup s a t Hw Ht) as [Hnn _].
  destruct (forget_curr_frame a s) as (Hm & HH & Hmc & _).
  apply run_of_wp. unfold dereg_entry, find_by_pid. wp_pure.
  eapply wp_of_run; [by apply find_by_pid_run|]. rewrite Hf. simpl.
  rewrite (proj2 (Z.eqb_neq _ _) Hnn). wp_pure.
  eapply wp_of_run with (a := tt) (s' := forget_curr a s).
  { unfold forget_curr. by destruct (a =? curr_tsk s). }
  wp_pure. eapply wp_of_run.
  { apply (freeone_run (forget_curr a s) a t); [rewrite Hmc; apply Hw|done|by rewrite Hm]. }
  wp_pure. unfold removed. by rewrite HH, Hm.
Qed.


Definition older_calls s (t : mp2_task_struct) : list kcall :=
  if next_period t =? 0 then [WakeUp (dispatch_kth s)] else yield_calls s t.

Lemma older_sleep_run E s p a t :
  wf s → first_with_pid s p = Some a → mem s !! a = Some t → permits E (live s (tsk t)) →
  returns (set_task_sleep p) E
    (1, add_calls [SetTaskState (tsk t) TASK_UNINTERRUPTIBLE]
          (forget_curr a (set_mem (<[a := set_state SLEEPING t]> (mem s)) s))) s.
Proof.
  assert (set_task_sleep p s = Mp2.set_task_sleep p s) as Heq.
  { unfold set_task_sleep, Mp2.set_task_sleep, spin_lock, spin_unlock, find_by_pid, bind, ret.
    by destruct (Mp2.find_by_pid p s) as [[? ?]|]. }
  intros Hw Hf Ht Hl. unfold returns, wp. rewrite Heq. by apply set_task_sleep_run.
Qed.

Lemma older_yield_run E s p a t :
  wf s → first_with_pid s p = Some a → mem s !! a = Some t →
  permits E (live s (dispatch_kth s)) →
  (sleeps (jiffies s) t = true → permits E (live s (tsk t))) →
  returns (yield_entry p) E
    (tt, add_calls (older_calls s t)
      (set_mem (<[a := yielded_by jiffies_to_msecs (jiffies s) t]> (mem s))
         (if sleeps (jiffies s) t then forget_curr a s else s))) s.
Proof.
  intros Hw Hf Ht Hd Hl. destruct (wf_lookup s a t Hw Ht) as [Hnn _].
  unfold returns, yield_entry, schedule, wake_up_process, find_by_pid. wp_pure.
  apply wp_curr_debug; [done|]. wp_pure.
  eapply wp_of_run; [by apply find_by_pid_run|]. rewrite Hf. simpl. wp_pure.
  eapply wp_load; [done..|]. wp_pure.
  unfold yielded_by, older_calls, yield_calls, sleeps in *.
  destruct (next_period t =? 0) eqn:Hz; simpl in *.
  - clear Hw Hf Hl. open_state s. mp2_run. by apply wp_on_task.
  - destruct (jiffies s <? next_period t) eqn:Hlt; simpl in *; wp_pure; rewrite Hlt.
    + unfold when. wp_pure.
      eapply wp_returns; [by apply (older_sleep_run E s p a t); [..|apply Hl]|].
      clear Hw Hf. open_state s. unfold forget_curr, add_calls, mod_timer. mp2_norm.
      destruct (a =? _); mp2_run; (apply wp_on_task; [done|]); mp2_run;
        by rewrite <- !app_assoc.
    + clear Hw Hf Hl. open_state s. unfold when. mp2_run.
      apply wp_on_task; [done|]. mp2_run. by rewrite <- app_assoc.
Qed.




(** ** The invariant of the older module *)

Lemma older_reg_wf stale s p per comp r s' :
  wf s → reg_entry stale p per comp s = Ok (r, s') → wf s' ∧ r = 0.
Proof.
  intros Hw Hrun. rewrite older_reg in Hrun.
  destruct (alloc_addr (n_alloc (slab s)) (dom (mem s))) as [b|] eqn:Hal;
    [|by rewrite enlist_no_memory in Hrun by (done || apply Hw)].
  rewrite (enlist_run _ _ _ _ _ b) in Hrun by (done || apply Hw). simplify_eq. split; [|done].
  apply wf_register; [done | by eapply alloc_not_null | by eapply alloc_fresh | done].
Qed.

Lemma older_yield_wf s p r s' : wf s → yield_entry p s = Ok (r, s') → wf s'.
Proof.
  intros Hw Hrun. destruct (first_with_pid s p) as [b|] eqn:Hf.
  - destruct (first_with_pid_Some s p b Hw Hf) as [_ (t & Ht & _)].
    eapply returns_any in Hrun; [|by eapply older_yield_run; auto with wp]. simplify_eq.
    by apply wf_yielded.
  - exfalso. revert Hrun. unfold yield_entry, bind, gets, find_by_pid.
    pose proof (wp_curr_debug s (λ _ s1, s1 = s) safe Hw eq_refl) as Hdbg.
    destruct (wp_safe_runs _ _ _ Hdbg) as ([] & s1 & Hrun & ->). unfold bind in Hrun.
    by rewrite Hrun, find_by_pid_run, Hf.
Qed.

Lemma older_dereg_wf s p r s' : wf s → dereg_entry p s = Ok (r, s') → wf s'.
Proof.
  intros Hw Hrun. destruct (first_with_pid s p) as [b|] eqn:Hf.
  - destruct (first_with_pid_Some s p b Hw Hf) as [_ (t & Ht & _)].
    rewrite (older_dereg_run s p b t Hw Hf Ht) in Hrun. simplify_eq.
    destruct (forget_curr_frame b s) as (Hm & HH & Hmc & Hc).
    by eapply (wf_remove s _ b t).
  - revert Hrun. unfold dereg_entry, bind, find_by_pid. rewrite find_by_pid_run, Hf by done.
    cbn. by intros [= _ <-].
Qed.

Lemma older_write_wf stale ubuf s r s' :
  wf s → mywrite stale ubuf s = Ok (r, s') → wf s'.
Proof.
  intros Hw Hrun. unfold mywrite in Hrun.
  run_inv Hrun. apply parse_request_read in Hrun0 as ->.
  destruct a as [[p per] comp]. run_inv Hrun. unfold ret in Hrun. simplify_eq.
  repeat case_decide.
  - run_inv Hrun0. unfold ret in Hrun0. simplify_eq. by eapply older_reg_wf.
  - by eapply older_yield_wf.
  - run_inv Hrun0. unfold ret in Hrun0. simplify_eq. by eapply older_dereg_wf.
  - unfold ret in Hrun0. by simplify_eq.
Qed.

Lemma older_init_wf d f cache thread s0 :
  mem s0 = ∅ → cache ≠ NULL →
  wp (mp2_init d f cache thread) (λ r s, r = 0 → wf s) any s0.
Proof.
  intros Hm Hc. pose proof errno_pos as (_ & _ & He & _).
  unfold mp2_init, init_slab, init_mykernel, Mp2.init_slab, Mp2.init_mykernel, wake_up_process. wp_pure.
  destruct (f =? NULL); [wp_pure; lia|]. wp_pure.
  match goal with |- wp _ _ _ ?s => assert (wf s) as Hw by by apply wf_fresh end.
  destruct (_ =? NULL); wp_pure; [done|].
  apply wp_on_task; [apply permits_any|]. wp_pure. intros _. by apply wf_log.
Qed.

(** The events are those of the newer module, but for the writes. *)
Inductive older_step stale : event → @mp2 L → @mp2 L → Prop :=
  | older_write ubuf r s s' :
      mywrite stale ubuf s = Ok (r, s') → older_step stale (Write ubuf) s s'
  | older_other e s s' : (∀ u, e ≠ Write u) → step stale e s s' → older_step stale e s s'.

Inductive older_loaded : @mp2 L → Prop :=
  | older_loaded_init d f cache thread s0 s :
      mem s0 = ∅ → cache ≠ NULL → mp2_init d f cache thread s0 = Ok (0, s) → older_loaded s.

Definition older_reachable stale s : Prop :=
  ∃ s0, older_loaded s0 ∧ rtc (λ s1 s2, ∃ e, older_step stale e s1 s2) s0 s.

(** The older module keeps the same invariant; but it refuses no registration:
    whatever is registered already, one that returns has added its task. *)
Theorem older_invariant stale s :
  older_reachable stale s →
  wf s ∧ ∀ p per comp r s', reg_entry stale p per comp s = Ok (r, s') →
    r = 0 ∧ ∃ a t, nodes s' = nodes s ++ [a] ∧ mem s' !! a = Some t ∧
      period t = per ∧ computation t = comp.
Proof.
  intros (s0 & Hl & Hsteps). assert (wf s) as Hw.
  { assert (wf s0) as Hw0.
    { destruct Hl as [d f cache thread s1 s0 Hm Hc Hrun].
      by apply (wp_run _ _ _ _ _ _ (older_init_wf d f cache thread s1 Hm Hc) Hrun). }
    clear Hl. induction Hsteps as [|s1 s2 s3 (e & Hstep) _ IH]; [done|]. apply IH.
    destruct Hstep as [ubuf r s1 s2 Hrun|e s1 s2 _ Hstep];
      [by eapply older_write_wf|by eapply step_wf]. }
  split; [done|]. intros p per comp r s' Hrun. rewrite older_reg in Hrun.
  destruct (alloc_addr (n_alloc (slab s)) (dom (mem s))) as [b|] eqn:Hal;
    [|by rewrite enlist_no_memory in Hrun by (done || apply Hw)].
  rewrite (enlist_run _ _ _ _ _ b) in Hrun by (done || apply Hw). injection Hrun as <- <-.
  destruct (alloc_fresh _ _ _ Hal) as [Hfresh%not_elem_of_dom _].
  split; [done|]. exists b, (new_task s p per comp). split_and!; [|apply lookup_insert_eq|done..].
  apply nodes_add_tail. intros [t Ht]%(wf_dom s Hw). by rewrite Hfresh in Ht.
Qed.

(** With nothing registered the older status file ends in a byte the buffer
    happened to hold. *)
Theorem older_empty_status s :
  nodes s = [] →
  is_Some (alloc_addr (n_alloc (slab s)) (dom (mem s))) →
  is_Some (alloc_addr (Datatypes.S (n_alloc (slab s))) (dom (mem s))) →
  ∃ s', myread 0 s =
    Ok ((str "0" ++ [newline] ++ take 1 (stale_bytes (n_alloc (slab s)) buffsize), 3, 3), s').
Proof.
  intros Hn [p Hp] [q Hq]. apply nodes_empty in Hn.
  pose proof (alloc_not_null _ _ _ Hp) as Hpn. pose proof (alloc_not_null _ _ _ Hq) as Hqn.
  pose proof (stale_length (n_alloc (slab s)) buffsize) as Ht.
  pose proof (stale_length (Datatypes.S (n_alloc (slab s))) buffsize) as Hb.
  eexists. apply run_of_wp. unfold myread. rewrite (proj2 (Z.ltb_ge 0 0)) by lia. wp_pure.
  eapply wp_of_run; [unfold kmalloc_buf; cbn [heap_of mp2_heap]; rewrite Hp; reflexivity|].
  cbn beta iota. wp_pure.
  eapply wp_of_run.
  { unfold kmalloc_buf. change (alloc_addr _ _) with
      (alloc_addr (Datatypes.S (n_alloc (slab s))) (dom (mem s))). rewrite Hq. reflexivity. }
  cbn beta iota. wp_pure.
  match goal with |- context [list_empty (HEAD ?s1)] => change (HEAD s1) with (HEAD s) end.
  rewrite Hn. unfold not_null. cbn [default from_option id].
  rewrite (proj2 (Z.eqb_neq q NULL)), (proj2 (Z.eqb_neq p NULL)) by done.
  change (stale_bytes (n_alloc (heap_of _)) buffsize) with
    (stale_bytes (Datatypes.S (n_alloc (slab s))) buffsize).
  revert Ht Hb. generalize (stale_bytes (Datatypes.S (n_alloc (slab s))) buffsize) as buf.
  generalize (stale_bytes (n_alloc (slab s)) buffsize) as tmp. intros tmp buf Ht Hb.
  destruct tmp as [|c tmp]; [done|].
  destruct buf as [|c0 [|c1 [|c2 [|c3 buf]]]]; [done..|].
  wp_pure. cbn beta iota. wp_pure. unfold sprintf.
  apply wp_put; [intros _|rewrite Hb; unfold buffsize; simpl; lia].
  wp_pure. apply wp_put; [intros _|simpl; lia]. wp_pure. reflexivity.
Qed.
End newer.

(** ** A yield of task 2, where a jiffy is 4 ms *)

#[local] Instance msecs_250 : Msecs := { jiffies_to_msecs j := 4 * j }.

