(* ===== verification/Mp3.v ===== *)
(** * MP3: the page fault profiler module

    src/MP3/mp3.c and src/MP3/mp3_given.h, function by function, over a record
    of the module's globals.  The spin lock is a flag: taking it while it is held
    and never released is the fault [Deadlock].  The work item runs on another
    CPU: its callback is split where it waits for the lock, so that the other
    entries can run in between. *)
From Stdlib Require Import Ascii String.
From stdpp Require Import base gmap sets list strings.
From Stdlib Require Import ZArith Lia.
From S2P Require Import Prelude CString Kernel.

Open Scope Z_scope.
Open Scope c_scope.

(** The C types of the target and its page tables: [sizeof(unsigned long)],
    [vmalloc_to_pfn], and whether [remap_pfn_range] fails for a user address. *)
Class Arch : Type := {
  long_bytes : Z;
  vmalloc_to_pfn : Z → Z;
  remap_fails : Z → bool
}.

Class ArchLaws `{Arch} : Prop := {
  long_size : long_bytes = 4 ∨ long_bytes = 8
}.

(** An [unsigned long]; [(unsigned long) -1] ends the samples. *)
Definition ul `{Arch} (x : Z) : Z := x mod 2 ^ (8 * long_bytes).
Definition MINUS_ONE `{Arch} : Z := ul (-1).

(** The [long] a word stands for, and its [%ld]; 19 digits hold 63 bits. *)
Definition sl `{Arch} (x : Z) : Z :=
  (x + 2 ^ (8 * long_bytes - 1)) mod 2 ^ (8 * long_bytes) - 2 ^ (8 * long_bytes - 1).
Definition fmt_ld `{Arch} (x : Z) : list ascii :=
  let v := sl x in
  if v <? 0 then ch "-" :: digits 19 (- v) else digits 19 v.

Section mp3.
Context {L : Type} `{!KList L, !KConst, !Allocator, !Kstrto, !Arch}.

(** ** Data *)

Definition VM_SIZE : Z := 512000.
Definition VM_ELEMENT_SIZE : Z := 128000.
Definition SAMPLE_RATE : Z := 20.

(** The counters [get_cpu_use] reads from a [struct task_struct]. *)
Record task_struct : Type := mkTask {
  min_flt : Z;
  maj_flt : Z;
  t_utime : Z;
  t_stime : Z
}.

(** The fields of [struct mp3_task_struct] the code uses. *)
Record mp3_task_struct : Type := mkMp3Task {
  tsk : Z;
  utime : Z;
  stime : Z;
  minor_pf : Z;
  major_pf : Z;
  pid : Z
}.

(** A delayed work: when it is due, and whether its callback is running and
    has come to the lock. *)
Record work_struct : Type := mkWork {
  due : option Z;
  running : bool
}.

Inductive kcall : Type :=
  | ProcRemove (entry : Z)
  | SetPageReserved (addr : Z)
  | DestroyWorkqueue (q : Z)
  | UnregisterChrdev (major : Z)
  | Vfree (p : Z).

(** The globals of mp3.c, with the profiler buffer [vm] points to as [words]
    of [unsigned long]; then what the module sees of the kernel. *)
Record mp3 : Type := mkMp3 {
  fp : Z;
  dir : Z;
  HEAD : L;
  chrdev_major : Z;
  wq : Z;
  work : work_struct;
  vm : Z;
  words : list Z;
  DELAYED : Z;
  offset : Z;
  BUFFER_FILLED_UP : Z;
  lock : bool;
  slab : heap mp3_task_struct;
  jiffies : Z;
  pids : gmap Z Z;
  tasks : gmap Z task_struct;
  calls : list kcall
}.

Definition set_HEAD x s := mkMp3 (fp s) (dir s) x (chrdev_major s) (wq s) (work s) (vm s) (words s) (DELAYED s) (offset s) (BUFFER_FILLED_UP s) (lock s) (slab s) (jiffies s) (pids s) (tasks s) (calls s).
Definition set_chrdev_major x s := mkMp3 (fp s) (dir s) (HEAD s) x (wq s) (work s) (vm s) (words s) (DELAYED s) (offset s) (BUFFER_FILLED_UP s) (lock s) (slab s) (jiffies s) (pids s) (tasks s) (calls s).
Definition set_wq x s := mkMp3 (fp s) (dir s) (HEAD s) (chrdev_major s) x (work s) (vm s) (words s) (DELAYED s) (offset s) (BUFFER_FILLED_UP s) (lock s) (slab s) (jiffies s) (pids s) (tasks s) (calls s).
Definition set_work x s := mkMp3 (fp s) (dir s) (HEAD s) (chrdev_major s) (wq s) x (vm s) (words s) (DELAYED s) (offset s) (BUFFER_FILLED_UP s) (lock s) (slab s) (jiffies s) (pids s) (tasks s) (calls s).
Definition set_vm x s := mkMp3 (fp s) (dir s) (HEAD s) (chrdev_major s) (wq s) (work s) x (words s) (DELAYED s) (offset s) (BUFFER_FILLED_UP s) (lock s) (slab s) (jiffies s) (pids s) (tasks s) (calls s).
Definition set_words x s := mkMp3 (fp s) (dir s) (HEAD s) (chrdev_major s) (wq s) (work s) (vm s) x (DELAYED s) (offset s) (BUFFER_FILLED_UP s) (lock s) (slab s) (jiffies s) (pids s) (tasks s) (calls s).
Definition set_DELAYED x s := mkMp3 (fp s) (dir s) (HEAD s) (chrdev_major s) (wq s) (work s) (vm s) (words s) x (offset s) (BUFFER_FILLED_UP s) (lock s) (slab s) (jiffies s) (pids s) (tasks s) (calls s).
Definition set_offset x s := mkMp3 (fp s) (dir s) (HEAD s) (chrdev_major s) (wq s) (work s) (vm s) (words s) (DELAYED s) x (BUFFER_FILLED_UP s) (lock s) (slab s) (jiffies s) (pids s) (tasks s) (calls s).
Definition set_BUFFER_FILLED_UP x s := mkMp3 (fp s) (dir s) (HEAD s) (chrdev_major s) (wq s) (work s) (vm s) (words s) (DELAYED s) (offset s) x (lock s) (slab s) (jiffies s) (pids s) (tasks s) (calls s).
Definition set_lock x s := mkMp3 (fp s) (dir s) (HEAD s) (chrdev_major s) (wq s) (work s) (vm s) (words s) (DELAYED s) (offset s) (BUFFER_FILLED_UP s) x (slab s) (jiffies s) (pids s) (tasks s) (calls s).
Definition set_slab x s := mkMp3 (fp s) (dir s) (HEAD s) (chrdev_major s) (wq s) (work s) (vm s) (words s) (DELAYED s) (offset s) (BUFFER_FILLED_UP s) (lock s) x (jiffies s) (pids s) (tasks s) (calls s).
Definition set_jiffies x s := mkMp3 (fp s) (dir s) (HEAD s) (chrdev_major s) (wq s) (work s) (vm s) (words s) (DELAYED s) (offset s) (BUFFER_FILLED_UP s) (lock s) (slab s) x (pids s) (tasks s) (calls s).
Definition set_pids x s := mkMp3 (fp s) (dir s) (HEAD s) (chrdev_major s) (wq s) (work s) (vm s) (words s) (DELAYED s) (offset s) (BUFFER_FILLED_UP s) (lock s) (slab s) (jiffies s) x (tasks s) (calls s).
Definition set_tasks x s := mkMp3 (fp s) (dir s) (HEAD s) (chrdev_major s) (wq s) (work s) (vm s) (words s) (DELAYED s) (offset s) (BUFFER_FILLED_UP s) (lock s) (slab s) (jiffies s) (pids s) x (calls s).
Definition set_proc f d s := mkMp3 f d (HEAD s) (chrdev_major s) (wq s) (work s) (vm s) (words s) (DELAYED s) (offset s) (BUFFER_FILLED_UP s) (lock s) (slab s) (jiffies s) (pids s) (tasks s) (calls s).
Definition log c s := mkMp3 (fp s) (dir s) (HEAD s) (chrdev_major s) (wq s) (work s) (vm s) (words s) (DELAYED s) (offset s) (BUFFER_FILLED_UP s) (lock s) (slab s) (jiffies s) (pids s) (tasks s) (calls s ++ [c]).

#[export, refine] Instance mp3_heap : HasHeap mp3 mp3_task_struct := {
  heap_of := slab; with_heap := set_slab }.
Proof. all: intros; try done. by destruct s. Defined.

(** ** The kernel *)

(** A lock that is held is never released while its taker waits. *)
Definition spin_lock : M mp3 unit :=
  let! held := gets lock in
  if held : bool then fail Deadlock else modify (set_lock true).
Definition spin_unlock : M mp3 unit := modify (set_lock false).

(** The timer of the work is armed unless it is already pending. *)
Definition queue_delayed_work (delay : Z) : M mp3 bool :=
  let! s := get in
  if wq s =? NULL then fail NullDeref
  else match due (work s) with
       | Some _ => ret false
       | None =>
           modify (set_work (mkWork (Some (ul (jiffies s + delay))) (running (work s)))) ;!
           ret true
       end.

Definition INIT_DELAYED_WORK : M mp3 unit :=
  modify (λ s, set_work (mkWork None (running (work s))) s).

(** Waits for a running callback, which itself waits for the lock. *)
Definition cancel_delayed_work_sync : M mp3 unit :=
  let! s := get in
  if running (work s) && lock s then fail Deadlock
  else modify (set_work (mkWork None false)).

(** Waits for the queued work likewise. *)
Definition destroy_workqueue : M mp3 unit :=
  let! s := get in
  if running (work s) && lock s then fail Deadlock
  else modify (log (DestroyWorkqueue (wq s))).

(** List insertion and removal write to the node of the container [p]. *)
Definition head_add_tail (p : Z) : M mp3 unit :=
  let! _ := load p in modify (λ s, set_HEAD (list_add_tail p (HEAD s)) s).
Definition head_del (p : Z) : M mp3 unit :=
  let! _ := load p in modify (λ s, set_HEAD (list_del p (HEAD s)) s).

(** A store to the [i]-th [unsigned long] of the buffer. *)
Definition store_word (i v : Z) : M mp3 unit :=
  let! s := get in
  if (0 <=? i) && ((i + 1) * long_bytes <=? VM_SIZE) then
    modify (set_words (<[Z.to_nat i := v]> (words s)))
  else fail OutOfBounds.

(** ** mp3_given.h *)

Definition find_task_by_pid (nr : Z) : M mp3 Z :=
  let! s := get in ret (default NULL (pids s !! i32 nr)).

(** The counters are handed over and reset: [f] stores them in the caller's
    variables; the answer is -1 when the pid is gone, and nothing is stored. *)
Definition get_cpu_use (pid : Z) (f : task_struct → M mp3 unit) : M mp3 Z :=
  let! task := find_task_by_pid (u32 pid) in
  if task =? NULL then ret (-1)
  else
    let! s := get in
    match tasks s !! task with
    | None => fail BadAccess
    | Some t =>
        f t ;!
        modify (λ s, set_tasks (<[task := mkTask 0 0 0 0]> (tasks s)) s) ;!
        ret 0
    end.

(** ** mp3.c *)

Definition get_by_pid (p : Z) : M mp3 Z :=
  let! s := get in
  if list_empty (HEAD s) then ret NULL
  else
    let! r := find_each (list_nodes (HEAD s)) (λ itr,
      let! t := load itr in
      ret (if pid t =? p then Some itr else None)) in
    ret (default NULL r).

(** The callback up to the lock. *)
Definition callback_entry : M mp3 bool :=
  let! s := get in
  if negb (BUFFER_FILLED_UP s =? 0) then ret false
  else modify (set_work (mkWork (due (work s)) true)) ;! ret true.

(** One registered process in the loop of the callback; the accumulator is
    [tmps[1..3]]. *)
Definition sample_task (tmps : Z * Z * Z) (itr : Z) : M mp3 (Z * Z * Z) :=
  let '(t1, t2, t3) := tmps in
  let! v := load itr in
  get_cpu_use (pid v) (λ t,
    update itr (λ v, mkMp3Task (tsk v) (ul (t_utime t)) (ul (t_stime t))
                       (ul (min_flt t)) (ul (maj_flt t)) (pid v))) ;!
  let! v := load itr in
  ret (ul (t1 + minor_pf v), ul (t2 + major_pf v), ul (t3 + ul (stime v + utime v))).

Definition store_sample (at_ : Z) (tmps : list Z) : M mp3 Z :=
  fold_each tmps at_ (λ ptr v, store_word ptr v ;! ret (ptr + 1)).

(** The callback from the lock to its end. *)
Definition callback_locked : M mp3 unit :=
  spin_lock ;!
  let! s := get in
  let! (t1, t2, t3) := fold_each (list_nodes (HEAD s)) (0, 0, 0) sample_task in
  let! ptr := store_sample (offset s) [ul (jiffies s); t1; t2; t3] in
  modify (λ s, set_offset (u32 (offset s + 4)) s) ;!
  let! off := gets offset in
  (if VM_ELEMENT_SIZE <=? off then modify (set_BUFFER_FILLED_UP 1)
   else store_word ptr MINUS_ONE) ;!
  let! delay := gets DELAYED in
  queue_delayed_work delay ;!
  spin_unlock ;!
  modify (λ s, set_work (mkWork (due (work s)) false) s).

Definition workqueue_callback : M mp3 unit :=
  let! go := callback_entry in
  if (go : bool) then callback_locked else ret tt.

(** Enough turns for a loop over the pages of the buffer: a page has at least
    4096 bytes. *)
Definition page_turns : nat := Z.to_nat (VM_SIZE / 4096 + 1).

(** The loop of [mmap_callback]; the mappings made so far, newest last. *)
Fixpoint mmap_loop (fuel : nat) (vm vm_start total_size assigned_size : Z)
    (maps : list (Z * Z)) : Z * list (Z * Z) :=
  match fuel with
  | O => (0, maps)
  | Datatypes.S fuel' =>
      if (assigned_size <? VM_SIZE) && (assigned_size <? total_size) then
        let p_addr := vmalloc_to_pfn (vm + assigned_size) in
        if p_addr =? 0 then (-1, maps)
        else if remap_fails (vm_start + assigned_size) then (-1, maps)
        else mmap_loop fuel' vm vm_start total_size (ul (assigned_size + PAGE_SIZE))
               (maps ++ [(vm_start + assigned_size, p_addr)])
      else (0, maps)
  end.

Definition mmap_callback (vm_start vm_end : Z) : M mp3 (Z * list (Z * Z)) :=
  let! s := get in
  ret (mmap_loop page_turns (vm s) vm_start (ul (vm_end - vm_start)) 0 []).

Definition myopen : M mp3 Z := ret 0.
Definition myrelease : M mp3 Z := ret 0.

(** What the memory of a new struct holds. *)
Variable stale : mp3_task_struct.

Definition reg_entry (p : Z) : M mp3 Z :=
  let! new_struct := kmalloc stale in
  update new_struct (λ v, mkMp3Task (tsk v) (utime v) (stime v) (minor_pf v) (major_pf v) p) ;!
  let! task := find_task_by_pid (u32 p) in
  update new_struct (λ v, mkMp3Task task (utime v) (stime v) (minor_pf v) (major_pf v) (pid v)) ;!
  if task =? NULL then ret 1
  else
    spin_lock ;!
    let! s := get in
    (if list_empty (HEAD s) then
       INIT_DELAYED_WORK ;!
       queue_delayed_work (DELAYED s) ;! ret tt
     else ret tt) ;!
    head_add_tail new_struct ;!
    spin_unlock ;!
    ret 0.

Definition unreg_entry (p : Z) : M mp3 Z :=
  spin_lock ;!
  let! task := get_by_pid p in
  if task =? NULL then ret 0
  else
    head_del task ;!
    let! s := get in
    (if list_empty (HEAD s) then
       modify (set_offset 0) ;!
       cancel_delayed_work_sync
     else ret tt) ;!
    kfree task ;!
    spin_unlock ;!
    ret 0.

(** What [myread] formats: the addresses of the first four words. *)
Definition first_four (ptr : Z) : list ascii :=
  str "first four elements: " ++ fmt_ld ptr ++ str ", " ++ fmt_ld (ptr + long_bytes)
    ++ str ", " ++ fmt_ld (ptr + 2 * long_bytes) ++ str ", "
    ++ fmt_ld (ptr + 3 * long_bytes) ++ [newline].

(** [uncopied] is what [copy_to_user] answers, the number of bytes it did not
    copy.  The result: the number of bytes asked from [vm], the value returned
    and the new file offset. *)
Definition myread (off uncopied : Z) : M mp3 (Z * Z * Z) :=
  if 0 <? off then ret (0, 0, off)
  else
    let! s := get in
    let! buff := lift (sprintf (replicate 256 NUL) 0 (first_four (vm s))) in
    let length := strlen buff in
    ret (length + 1, uncopied, off + (length + 1)).

(** [ubuf] is what [copy_from_user] delivers, [len] bytes. *)
Definition mywrite (ubuf : list ascii) : M mp3 Z :=
  let buff := ubuf ++ [NUL] in
  let len := Z.of_nat (length ubuf) in
  let op := hd NUL buff in
  if (bool_decide (op ≠ ch "R") && bool_decide (op ≠ ch "U")) || (strlen buff <? 3) then ret len
  else
    let! arg := lift (string_at buff 2) in
    let pid := kstrtoint_into arg 0 in
    if (pid =? 0) || (pid <? 0) then ret len
    else
      (if decide (op = ch "R") then reg_entry pid ;! ret tt
       else if decide (op = ch "U") then unreg_entry pid ;! ret tt
       else ret tt) ;!
      ret len.

(** [for (i = 0L; i < VM_SIZE; i += PAGE_SIZE)] *)
Fixpoint vm_reserved_loop (fuel : nat) (i : Z) : M mp3 unit :=
  match fuel with
  | O => ret tt
  | Datatypes.S fuel' =>
      if i <? VM_SIZE then
        let! p := gets vm in
        (if p =? NULL then fail NullDeref else modify (log (SetPageReserved (p + i)))) ;!
        vm_reserved_loop fuel' (ul (i + PAGE_SIZE))
      else ret tt
  end.

Definition vm_reserved : M mp3 unit := vm_reserved_loop page_turns 0.

(** [d], [f], [q], [v] and [major] are what proc_mkdir, proc_create,
    create_workqueue, vmalloc and register_chrdev return; [garbage] is what the
    memory of the buffer holds. *)
Definition mp3_init (d f q v major : Z) (garbage : list Z) : M mp3 Z :=
  modify (set_proc f d) ;!
  if f =? NULL then modify (log (ProcRemove d)) ;! ret (- ENOMEM)
  else
    modify (set_HEAD INIT_LIST_HEAD) ;!
    modify (set_BUFFER_FILLED_UP 0) ;!
    modify (set_offset 0) ;!
    modify (set_DELAYED (USER_HZ / SAMPLE_RATE)) ;!
    modify (set_wq q) ;!
    modify (set_vm v) ;!
    modify (set_words garbage) ;!
    vm_reserved ;!
    modify (set_lock false) ;!
    modify (set_chrdev_major (u32 major)) ;!
    ret 0.

Definition mp3_exit : M mp3 Z :=
  spin_lock ;!
  let! s := get in
  modify (log (ProcRemove (fp s))) ;!
  modify (log (ProcRemove (dir s))) ;!
  cancel_delayed_work_sync ;!
  destroy_workqueue ;!
  modify (log (UnregisterChrdev (chrdev_major s))) ;!
  modify (log (Vfree (vm s))) ;!
  spin_unlock ;!
  ret 0.
End mp3.
