(* ===== verification/Mp3Run.v ===== *)
(** * MP3: a concrete run

    The target's two word sizes, and the module of src/MP3/mp3.c loaded on the
    reference kernel with two registered processes: the states at which the MP3
    theorems are instantiated. *)
From Stdlib Require Import Ascii String.
From stdpp Require Import base gmap sets list strings.
From Stdlib Require Import ZArith Lia.
From S2P Require Import Prelude CString Kernel Mp3.
Import Reference.

Open Scope Z_scope.
Open Scope c_scope.

(** A machine whose words have [n] bytes, with 4096-byte pages whose frame
    number is their page number. *)
Definition machine (n : Z) : Arch := {|
  long_bytes := n;
  vmalloc_to_pfn a := a / 4096;
  remap_fails _ := false
|}.

Definition arch32 : Arch := machine 4.
Definition arch64 : Arch := machine 8.

Lemma arch32_laws : @ArchLaws arch32.
Proof. split. by left. Qed.

Lemma arch64_laws : @ArchLaws arch64.
Proof. split. by right. Qed.

#[export] Existing Instances arch32_laws arch64_laws.

Definition stale_entry : mp3_task_struct := mkMp3Task 1 2 3 4 5 6.

(** What fills the buffer at first. *)
Definition garbage (n : Z) : list Z := replicate (Z.to_nat (VM_SIZE / n)) 165.

(** Pids 1 and 2 are alive. *)
Definition bare : @mp3 (list Z) :=
  mkMp3 0 0 [] 0 0 (mkWork None false) 0 [] 0 0 0 false empty_heap 1000
    (list_to_map [(1, 5001); (2, 5002)])
    (list_to_map [(5001, mkTask 3 1 10 4); (5002, mkTask 7 0 20 5)]) [].

Section run.
Variable A : Arch.
Variable g : list Z.

(** After [mp3_init], with the buffer [g] at 65536. *)
Definition boot : @mp3 (list Z) :=
  state_of bare (@mp3_init (list Z) _ _ A 11 12 13 65536 240 g bare).

Definition write (b : string) (s : @mp3 (list Z)) : @mp3 (list Z) :=
  state_of bare (@mywrite (list Z) _ _ _ A stale_entry (str b ++ [newline]) s).

Definition one_entry : @mp3 (list Z) := write "R 1" boot.
Definition two_entries : @mp3 (list Z) := write "R 2" one_entry.
End run.

(** The buffer is never inspected by these operations. *)
Lemma boot64 g : @mp3_init (list Z) _ _ arch64 11 12 13 65536 240 g bare = Ok (0, boot arch64 g).
Proof. by vm_compute. Qed.

Lemma boot32 g : @mp3_init (list Z) _ _ arch32 11 12 13 65536 240 g bare = Ok (0, boot arch32 g).
Proof. by vm_compute. Qed.

Lemma one_entry64 g :
  @mywrite (list Z) _ _ _ arch64 stale_entry (str "R 1" ++ [newline]) (boot arch64 g) =
    Ok (4, one_entry arch64 g).
Proof. by vm_compute. Qed.

Lemma one_entry32 g :
  @mywrite (list Z) _ _ _ arch32 stale_entry (str "R 1" ++ [newline]) (boot arch32 g) =
    Ok (4, one_entry arch32 g).
Proof. by vm_compute. Qed.

Lemma two_entries64 g :
  @mywrite (list Z) _ _ _ arch64 stale_entry (str "R 2" ++ [newline]) (one_entry arch64 g) =
    Ok (4, two_entries arch64 g).
Proof. by vm_compute. Qed.

Lemma garbage_length n : 0 < n → Z.of_nat (length (garbage n)) = VM_SIZE / n.
Proof.
  intros Hn. unfold garbage. rewrite length_replicate, Z2Nat.id; [done|].
  apply Z.div_pos; [done|lia].
Qed.

(** The kernel of [bare] has the task_struct of every process it finds. *)
Lemma bare_kernel p t :
  pids bare !! p = Some t → t ≠ NULL ∧ is_Some (tasks bare !! t).
Proof.
  change (pids bare) with (list_to_map [(1, 5001); (2, 5002)] : gmap Z Z).
  cbn [list_to_map foldr fst snd]. rewrite !lookup_insert.
  repeat case_decide; intros [= <-]; (split; [done|by eexists]).
Qed.
