(* ===== verification/Mp3Pages.v ===== *)
(** * MP3: the pages of the profiler buffer

    The two loops of src/MP3/mp3.c over the pages of the buffer: [vm_reserved],
    which marks them, and [mmap_callback], which maps them into the monitor. *)
From Stdlib Require Import Ascii String.
From stdpp Require Import base gmap sets list strings.
From Stdlib Require Import ZArith Lia.
From S2P Require Import Prelude CString Kernel Mp3 Mp3Run.
Import Reference.

Open Scope Z_scope.
Open Scope c_scope.

Section pages.
Context {L : Type} `{!KList L, !KConst, !Allocator, !Kstrto, !Arch}.
Context `{!KConstLaws, !ArchLaws}.
Implicit Types s : @mp3 L.

(** The number of pages that begin below [b]. *)
Definition page_count (b : Z) : nat := Z.to_nat ((b + PAGE_SIZE - 1) / PAGE_SIZE).

Lemma page_count_spec b (k : nat) : (k < page_count b)%nat ↔ Z.of_nat k * PAGE_SIZE < b.
Proof.
  pose proof page_large as Hp. assert (0 < PAGE_SIZE) as Hpos by lia. unfold page_count.
  pose proof (Z.mul_div_le (b + PAGE_SIZE - 1) PAGE_SIZE Hpos) as Hle.
  pose proof (Z.div_le_lower_bound (b + PAGE_SIZE - 1) PAGE_SIZE (Z.of_nat k + 1) Hpos) as Hge.
  set (q := (b + PAGE_SIZE - 1) / PAGE_SIZE) in *. split; intros Hk.
  - assert (PAGE_SIZE * (Z.of_nat k + 1) <= PAGE_SIZE * q) by (apply Z.mul_le_mono_nonneg_l; lia).
    lia.
  - specialize (Hge ltac:(lia)). lia.
Qed.

Lemma page_count_turns b : b <= VM_SIZE → (page_count b < page_turns)%nat.
Proof.
  intros Hb. destruct (Nat.lt_ge_cases (page_count b) page_turns) as [|Hge]; [done|exfalso].
  pose proof page_large as Hp. unfold page_turns, VM_SIZE in *.
  change (Z.to_nat (512000 / 4096 + 1)) with 126%nat in Hge.
  assert (Z.of_nat 125 * PAGE_SIZE < b) as Hlt by (apply page_count_spec; lia). lia.
Qed.

Lemma ul_small x : 0 <= x < 2 ^ 32 → ul x = x.
Proof.
  intros Hx. unfold ul. apply Z.mod_small.
  destruct long_size as [-> | ->]; [done|]. change (2 ^ (8 * 8)) with (2 ^ 64). lia.
Qed.

(** The next page's offset does not wrap around. *)
Lemma next_page k b :
  b <= VM_SIZE → (k < page_count b)%nat →
  ul (Z.of_nat k * PAGE_SIZE + PAGE_SIZE) = Z.of_nat (Datatypes.S k) * PAGE_SIZE.
Proof.
  intros Hb Hk%page_count_spec. pose proof page_large. unfold VM_SIZE in *.
  rewrite ul_small; lia.
Qed.

(** ** Mapping *)

Definition page_map (vm vm_start : Z) (k : nat) : Z * Z :=
  (vm_start + Z.of_nat k * PAGE_SIZE, vmalloc_to_pfn (vm + Z.of_nat k * PAGE_SIZE)).

(** A page that is backed by a frame and that the kernel can map. *)
Definition mappable (vm vm_start : Z) (k : nat) : Prop :=
  vmalloc_to_pfn (vm + Z.of_nat k * PAGE_SIZE) ≠ 0 ∧
  remap_fails (vm_start + Z.of_nat k * PAGE_SIZE) = false.

Lemma below_both a b x : (x <? a) && (x <? b) = (x <? Z.min a b).
Proof. destruct (Z.ltb_spec x a), (Z.ltb_spec x b), (Z.ltb_spec x (Z.min a b)); try done; lia. Qed.

Lemma mmap_loop_ok v st total fuel : ∀ k maps,
  let b := Z.min VM_SIZE total in
  (page_count b - k < fuel)%nat → (k <= page_count b)%nat →
  (∀ j, (k <= j < page_count b)%nat → mappable v st j) →
  mmap_loop fuel v st total (Z.of_nat k * PAGE_SIZE) maps =
    (0, maps ++ (page_map v st <$> seq k (page_count b - k))).
Proof.
  cbn zeta. set (b := Z.min VM_SIZE total).
  induction fuel as [|fuel IH]; intros k maps Hf Hk Hmap; [lia|].
  cbn [mmap_loop]. rewrite below_both. fold b.
  destruct (decide (k < page_count b)%nat) as [Hlt|Hge].
  - rewrite (proj2 (Z.ltb_lt _ _)) by by apply page_count_spec.
    destruct (Hmap k) as [Hpfn Hrm]; [lia|].
    rewrite (proj2 (Z.eqb_neq _ 0) Hpfn), Hrm.
    rewrite (next_page k b) by (done || (unfold b; lia)).
    rewrite IH; [|lia|lia|intros j Hj; apply Hmap; lia].
    replace (page_count b - k)%nat with (Datatypes.S (page_count b - Datatypes.S k)) by lia.
    cbn [seq fmap list_fmap]. by rewrite <- app_assoc.
  - rewrite (proj2 (Z.ltb_ge _ _)).
    + replace (page_count b - k)%nat with 0%nat by lia. simpl. by rewrite app_nil_r.
    + apply Z.nlt_ge. intros Hc. apply Hge. by apply page_count_spec.
Qed.

Lemma mmap_loop_bad v st total fuel : ∀ k maps n,
  let b := Z.min VM_SIZE total in
  (n < page_count b)%nat → (k <= n)%nat → (n - k < fuel)%nat →
  (∀ j, (k <= j < n)%nat → mappable v st j) → ¬ mappable v st n →
  mmap_loop fuel v st total (Z.of_nat k * PAGE_SIZE) maps =
    (-1, maps ++ (page_map v st <$> seq k (n - k))).
Proof.
  cbn zeta. set (b := Z.min VM_SIZE total).
  induction fuel as [|fuel IH]; intros k maps n Hn Hk Hf Hmap Hbad; [lia|].
  cbn [mmap_loop]. rewrite below_both. fold b.
  rewrite (proj2 (Z.ltb_lt _ _)) by (apply page_count_spec; lia).
  destruct (decide (k = n)) as [->|Hne].
  - rewrite Nat.sub_diag. simpl. rewrite app_nil_r. unfold mappable in Hbad.
    destruct (Z.eqb_spec (vmalloc_to_pfn (v + Z.of_nat n * PAGE_SIZE)) 0); [done|].
    destruct (remap_fails (st + Z.of_nat n * PAGE_SIZE)) eqn:Hr; [done|]. by destruct Hbad.
  - destruct (Hmap k) as [Hpfn Hrm]; [lia|].
    rewrite (proj2 (Z.eqb_neq _ 0) Hpfn), Hrm.
    rewrite (next_page k b) by (lia || (unfold b; lia)).
    rewrite (IH _ _ n); [|done|lia|lia|intros j Hj; apply Hmap; lia|done].
    replace (n - k)%nat with (Datatypes.S (n - Datatypes.S k)) by lia.
    cbn [seq fmap list_fmap]. by rewrite <- app_assoc.
Qed.

(** C39: [mmap_callback] maps the buffer page by page: every page that begins
    inside both the buffer and the requested area, in order and each to its own
    frame, and no other; it stops with -1 at the first page that has no frame
    or cannot be mapped, the earlier ones being mapped. *)
Theorem mmap_maps_buffer s vm_start vm_end :
  0 <= vm_end - vm_start < 2 ^ 32 →
  let n := page_count (Z.min VM_SIZE (vm_end - vm_start)) in
  ((∀ k, (k < n)%nat → mappable (vm s) vm_start k) →
     mmap_callback vm_start vm_end s = Ok ((0, page_map (vm s) vm_start <$> seq 0 n), s)) ∧
  (∀ k, (k < n)%nat → (∀ j, (j < k)%nat → mappable (vm s) vm_start j) →
     ¬ mappable (vm s) vm_start k →
     mmap_callback vm_start vm_end s = Ok ((-1, page_map (vm s) vm_start <$> seq 0 k), s)).
Proof.
  intros Hsz n. pose proof (page_count_turns (Z.min VM_SIZE (vm_end - vm_start)) ltac:(lia)) as Ht.
  fold n in Ht. unfold mmap_callback, bind, get, ret. rewrite ul_small by done.
  change (mmap_loop page_turns (vm s) vm_start (vm_end - vm_start) 0 [])
    with (mmap_loop page_turns (vm s) vm_start (vm_end - vm_start) (Z.of_nat 0 * PAGE_SIZE) []).
  split.
  - intros Hm. rewrite mmap_loop_ok; fold n; rewrite ?Nat.sub_0_r; [done|lia|lia|].
    intros j Hj. apply Hm. lia.
  - intros k Hk Hm Hbad.
    rewrite (mmap_loop_bad _ _ _ _ _ _ k); fold n; rewrite ?Nat.sub_0_r; try done; try lia.
    intros j Hj. apply Hm. lia.
Qed.

(** ** Reserving *)

Lemma vm_reserved_loop_run fuel : ∀ k s,
  vm s ≠ NULL → (page_count VM_SIZE - k < fuel)%nat → (k <= page_count VM_SIZE)%nat →
  ∃ s', vm_reserved_loop fuel (Z.of_nat k * PAGE_SIZE) s = Ok (tt, s') ∧
    calls s' = calls s ++
      ((λ j, SetPageReserved (vm s + Z.of_nat j * PAGE_SIZE)) <$> seq k (page_count VM_SIZE - k)).
Proof.
  induction fuel as [|fuel IH]; intros k s Hv Hf Hk; [lia|]. cbn [vm_reserved_loop].
  destruct (decide (k < page_count VM_SIZE)%nat) as [Hlt|Hge].
  - rewrite (proj2 (Z.ltb_lt _ _)) by by apply page_count_spec.
    unfold bind at 1, gets. rewrite (proj2 (Z.eqb_neq _ NULL) Hv).
    unfold bind at 1, modify. rewrite (next_page k VM_SIZE) by done.
    destruct (IH (Datatypes.S k) (log (SetPageReserved (vm s + Z.of_nat k * PAGE_SIZE)) s))
      as (s' & Hrun & Hc); [done|lia|lia|].
    exists s'. split; [done|]. rewrite Hc.
    replace (page_count VM_SIZE - k)%nat with (Datatypes.S (page_count VM_SIZE - Datatypes.S k)) by lia.
    cbn [calls log vm seq fmap list_fmap]. by rewrite <- app_assoc.
  - rewrite (proj2 (Z.ltb_ge _ _)).
    + exists s. split; [done|]. replace (page_count VM_SIZE - k)%nat with 0%nat by lia.
      simpl. by rewrite app_nil_r.
    + apply Z.nlt_ge. intros Hc. apply Hge. by apply page_count_spec.
Qed.

(** Every page of the buffer is marked, once and in order. *)
Lemma vm_reserved_run s :
  vm s ≠ NULL →
  ∃ s', vm_reserved s = Ok (tt, s') ∧
    calls s' = calls s ++
      ((λ j, SetPageReserved (vm s + Z.of_nat j * PAGE_SIZE)) <$> seq 0 (page_count VM_SIZE)).
Proof.
  intros Hv. pose proof (page_count_turns VM_SIZE ltac:(lia)).
  destruct (vm_reserved_loop_run page_turns 0 s Hv) as (s' & Hrun & Hc); [lia|lia|].
  rewrite Nat.sub_0_r in Hc. by exists s'.
Qed.
End pages.

(** ** Witnesses *)

#[local] Existing Instance arch64.

Lemma mmap_maps_buffer_witness :
  mmap_callback 131072 643072 (boot arch64 []) =
    Ok ((0, page_map 65536 131072 <$> seq 0 125), boot arch64 []) ∧
  last (page_map 65536 131072 <$> seq 0 125) = Some (638976, 140).
Proof.
  destruct (mmap_maps_buffer (boot arch64 []) 131072 643072) as [Hall _]; [by vm_compute|].
  split; [|by vm_compute]. apply Hall. intros k _. split; [|done].
  change (vm (boot arch64 [])) with 65536. change PAGE_SIZE with 4096.
  change (vmalloc_to_pfn ?a) with (a / 4096). intros Hz. apply Z.div_small_iff in Hz; lia.
Defined.
