(* ===== verification/Mp3State.v ===== *)
(** * MP3: the state of the profiler

    The invariant of the globals of src/MP3/mp3.c between two operations, and
    the effect of one sampling: what is read from the registered processes and
    what is written to the buffer. *)
From Stdlib Require Import Ascii String.
From stdpp Require Import base gmap sets list strings.
From Stdlib Require Import ZArith Lia.
From S2P Require Import Prelude CString Kernel Mp3.

Open Scope Z_scope.
Open Scope c_scope.

Definition nodes {L} `{!KList L} (s : @mp3 L) : list Z := list_nodes (HEAD s).

(** The number of [unsigned long]s in the buffer. *)
Definition capacity `{Arch} : Z := VM_SIZE / long_bytes.

(** Computes field updates and projections. *)
Ltac mp3_norm :=
  cbv [set_HEAD set_chrdev_major set_wq set_work set_vm set_words set_DELAYED set_offset
       set_BUFFER_FILLED_UP set_lock set_slab set_jiffies set_pids set_tasks set_proc log
       fp dir HEAD chrdev_major wq work vm words DELAYED offset BUFFER_FILLED_UP lock slab
       jiffies pids tasks calls due running
       mem set_mem heap_of with_heap mp3_heap blocks n_alloc].

Section state.
Context {L : Type} `{!KList L, !KConst, !Allocator, !Kstrto, !Arch}.
Context `{!KListLaws L, !KConstLaws, !AllocatorLaws, !KstrtoLaws, !ArchLaws}.
Implicit Types s : @mp3 L.

(** The kernel has the task_struct of every process it finds. *)
Definition kernel_ok s : Prop :=
  ∀ p t, pids s !! p = Some t → t ≠ NULL ∧ is_Some (tasks s !! t).

(** Structs whose registration failed stay allocated off the list, so the list
    is only part of the heap. *)
Record wf s : Prop := mkWf {
  wf_nodup : NoDup (nodes s);
  wf_mem : ∀ a, a ∈ nodes s → is_Some (mem s !! a);
  wf_null : mem s !! NULL = None;
  wf_kernel : kernel_ok s;
  wf_wq : wq s ≠ NULL;
  wf_words : length (words s) = Z.to_nat capacity;
  wf_offset : 0 <= offset s;
  wf_mod : offset s mod 4 = 0;
  wf_full : BUFFER_FILLED_UP s = 0 ∧ offset s < VM_ELEMENT_SIZE ∧ offset s < capacity ∨
            BUFFER_FILLED_UP s = 1 ∧ offset s <= VM_ELEMENT_SIZE
}.

Lemma listed_node s a : wf s → a ∈ nodes s → a ≠ NULL ∧ ∃ v, mem s !! a = Some v.
Proof.
  intros Hw Ha. destruct (wf_mem s Hw a Ha) as [v Hv]. split; [|by exists v].
  intros ->. by rewrite (wf_null s Hw) in Hv.
Qed.

Lemma capacity_bounds : capacity = 64000 ∨ capacity = 128000.
Proof. unfold capacity, VM_SIZE. destruct long_size as [-> | ->]; [by right|by left]. Qed.

Lemma mem_counters ts m s : mem (set_tasks ts (set_mem m s)) = m.
Proof. change (mem (set_mem m s) = m). apply mem_set_mem. Qed.

(** ** Reading the counters *)

(** The live task_struct a pid stands for. *)
Definition task_of s (p : Z) : option (Z * task_struct) :=
  match pids s !! i32 (u32 p) with
  | Some t => match tasks s !! t with Some v => Some (t, v) | None => None end
  | None => None
  end.

Definition counted (v : mp3_task_struct) (t : task_struct) : mp3_task_struct :=
  mkMp3Task (tsk v) (ul (t_utime t)) (ul (t_stime t)) (ul (min_flt t)) (ul (maj_flt t)) (pid v).

(** What one sampled process does to the structs and the counters; a struct
    whose process is gone keeps its last values. *)
Definition sampled (a : Z) s : @mp3 L :=
  match mem s !! a with
  | Some v =>
      match task_of s (pid v) with
      | Some (t, c) =>
          set_tasks (<[t := mkTask 0 0 0 0]> (tasks s)) (set_mem (<[a := counted v c]> (mem s)) s)
      | None => s
      end
  | None => s
  end.

Definition add_counts (s : @mp3 L) (tmps : Z * Z * Z) (a : Z) : Z * Z * Z :=
  match mem s !! a with
  | Some v => let '(t1, t2, t3) := tmps in
              (ul (t1 + minor_pf v), ul (t2 + major_pf v), ul (t3 + ul (stime v + utime v)))
  | None => tmps
  end.

Lemma get_cpu_use_dead s p f :
  kernel_ok s → task_of s p = None → get_cpu_use p f s = Ok (-1, s).
Proof.
  intros Hk Hn. unfold task_of in Hn. unfold get_cpu_use, find_task_by_pid, bind, get, ret.
  destruct (pids s !! i32 (u32 p)) as [t|] eqn:Hp; [|done].
  destruct (Hk _ _ Hp) as [Ht [v Hv]]. by rewrite Hv in Hn.
Qed.

Lemma get_cpu_use_live s p f t c s1 :
  kernel_ok s → task_of s p = Some (t, c) → f c s = Ok (tt, s1) →
  get_cpu_use p f s = Ok (0, set_tasks (<[t := mkTask 0 0 0 0]> (tasks s1)) s1).
Proof.
  intros Hk Hs Hf. unfold task_of in Hs. unfold get_cpu_use, find_task_by_pid, bind, get, ret, modify.
  destruct (pids s !! i32 (u32 p)) as [t'|] eqn:Hp; [|done].
  destruct (tasks s !! t') as [c'|] eqn:Hc; [|done]. injection Hs as -> ->.
  destruct (Hk _ _ Hp) as [Ht _]. simpl. rewrite (proj2 (Z.eqb_neq t NULL) Ht), Hc, Hf. done.
Qed.

Lemma sample_task_run s a v tmps :
  kernel_ok s → a ≠ NULL → mem s !! a = Some v →
  sample_task tmps a s = Ok (add_counts (sampled a s) tmps a, sampled a s).
Proof.
  intros Hk Hnn Hv. unfold sample_task. destruct tmps as [[t1 t2] t3].
  unfold bind at 1. rewrite load_run with (v := v) by done.
  unfold sampled, add_counts. rewrite Hv. unfold bind at 1.
  destruct (task_of s (pid v)) as [[t c]|] eqn:Ht.
  - rewrite (get_cpu_use_live s (pid v) _ t c (set_mem (<[a := counted v c]> (mem s)) s));
      [|done|done|unfold update; rewrite (proj2 (Z.eqb_neq a NULL) Hnn), Hv; done].
    unfold bind. rewrite load_run with (v := counted v c); [|done|].
    + unfold ret. change (mem (set_tasks ?x ?s1)) with (mem s1).
      by rewrite mem_set_mem, lookup_insert_eq.
    + change (mem (set_mem (<[a := counted v c]> (mem s)) s) !! a = Some (counted v c)).
      by rewrite mem_set_mem, lookup_insert_eq.
  - rewrite get_cpu_use_dead by done. unfold bind. rewrite load_run with (v := v) by done.
    by rewrite Hv.
Qed.

(** ** Sampling every registered process *)

Definition sampled_all (l : list Z) s : @mp3 L := foldl (λ s a, sampled a s) s l.

Definition sum_over (m : gmap Z mp3_task_struct) (f : mp3_task_struct → Z) (l : list Z) : Z :=
  foldr (λ a z, match m !! a with Some v => f v | None => 0 end + z) 0 l.

(** The three sums of a sample: minor faults, major faults, CPU time. *)
Definition totals (m : gmap Z mp3_task_struct) (l : list Z) : Z * Z * Z :=
  (ul (sum_over m minor_pf l), ul (sum_over m major_pf l),
   ul (sum_over m (λ v, stime v + utime v) l)).

(** Only counters and the structs' copies of them change. *)
Definition counters_only s s' : Prop :=
  ∃ ts m, s' = set_tasks ts (set_mem m s) ∧
    (∀ b, is_Some (m !! b) ↔ is_Some (mem s !! b)) ∧ kernel_ok s'.

Lemma counters_only_refl s : kernel_ok s → counters_only s s.
Proof.
  intros Hk. exists (tasks s), (mem s). split_and!; [|done|done].
  by destruct s as [? ? ? ? ? ? ? ? ? ? ? ? [? ?]].
Qed.

Lemma counters_only_trans s1 s2 s3 :
  counters_only s1 s2 → counters_only s2 s3 → counters_only s1 s3.
Proof.
  intros (ts & m & -> & Hm & _) (ts' & m' & -> & Hm' & Hk). exists ts', m'.
  split_and!; [done| |done]. intros b. rewrite Hm'.
  change (mem (set_tasks ts (set_mem m s1))) with (mem (set_mem m s1)).
  by rewrite mem_set_mem.
Qed.

Lemma sampled_only a s : kernel_ok s → counters_only s (sampled a s).
Proof.
  intros Hk. unfold sampled. destruct (mem s !! a) as [v|] eqn:Hv; [|by apply counters_only_refl].
  destruct (task_of s (pid v)) as [[t c]|] eqn:Ht; [|by apply counters_only_refl].
  do 2 eexists. split_and!; [done| |].
  - intros b. rewrite lookup_insert. case_decide; [subst; rewrite Hv; split; by eexists|done].
  - intros p t' Hp. destruct (Hk p t' Hp) as [Hn Hs]. split; [done|]. cbn.
    rewrite lookup_insert. case_decide; [by eexists|done].
Qed.

Lemma sampled_all_only l s : kernel_ok s → counters_only s (sampled_all l s).
Proof.
  revert s. induction l as [|a l IH]; intros s Hk; simpl; [by apply counters_only_refl|].
  pose proof (sampled_only a s Hk) as Ho. eapply counters_only_trans; [done|].
  apply IH. by destruct Ho as (? & ? & _ & _ & ?).
Qed.

Lemma sampled_other a b s : b ≠ a → mem (sampled a s) !! b = mem s !! b.
Proof.
  intros Hb. unfold sampled. repeat case_match; try done.
  change (mem (set_tasks ?x ?s1)) with (mem s1). by rewrite mem_set_mem, lookup_insert_ne.
Qed.

Lemma sum_over_ext m m' f l :
  (∀ a, a ∈ l → m !! a = m' !! a) → sum_over m f l = sum_over m' f l.
Proof.
  induction l as [|a l IH]; intros Hm; simpl; [done|].
  rewrite Hm by (apply elem_of_cons; by left). f_equal. apply IH.
  intros b Hb. apply Hm, elem_of_cons. by right.
Qed.

Lemma sum_over_snoc m f l a v :
  m !! a = Some v → sum_over m f (l ++ [a]) = sum_over m f l + f v.
Proof. intros Hv. induction l as [|b l IH]; simpl; [rewrite Hv; lia|]. rewrite IH. lia. Qed.

Lemma ul_add_l x y : ul (ul x + y) = ul (x + y).
Proof. unfold ul. by rewrite Zplus_mod_idemp_l. Qed.

Lemma ul_add_r x y : ul (x + ul y) = ul (x + y).
Proof. unfold ul. by rewrite Zplus_mod_idemp_r. Qed.

Lemma totals_snoc m m' l a v :
  (∀ b, b ∈ l → m !! b = m' !! b) → m' !! a = Some v →
  totals m' (l ++ [a]) =
    (let '(t1, t2, t3) := totals m l in
     (ul (t1 + minor_pf v), ul (t2 + major_pf v), ul (t3 + ul (stime v + utime v)))).
Proof.
  intros Hm Hv. unfold totals. rewrite !(sum_over_snoc m' _ l a v Hv).
  rewrite !(sum_over_ext m m') by done. by rewrite !ul_add_l, ul_add_r.
Qed.

Lemma sample_loop s l :
  kernel_ok s → mem s !! NULL = None → NoDup l → (∀ a, a ∈ l → is_Some (mem s !! a)) →
  fold_each l (0, 0, 0) sample_task s =
    Ok (totals (mem (sampled_all l s)) l, sampled_all l s).
Proof.
  intros Hk Hnull Hnd Hl. apply run_of_wp.
  eapply wp_mono; [apply (wp_fold_each _ (λ pre acc s',
    s' = sampled_all pre s ∧ acc = totals (mem s') pre) safe)| |done].
  - split; [done|]. unfold totals. simpl. unfold ul. rewrite Z.mod_0_l; [done|].
    destruct long_size as [-> | ->]; done.
  - intros pre a post acc s' Heq [-> ->].
    destruct (sampled_all_only pre s Hk) as (ts & m & Hs' & Hm & Hk').
    destruct (Hl a) as [v0 Hv0]; [rewrite Heq; set_solver|].
    assert (mem (sampled_all pre s) = m) as Hmem by (rewrite Hs'; apply mem_counters).
    destruct (proj2 (Hm a)) as [v Hv]; [by eexists|].
    assert (a ≠ NULL) as Hnn by congruence.
    assert (a ∉ pre) as Hpre.
    { rewrite Heq, NoDup_app in Hnd. destruct Hnd as (_ & Hd & _). intros Hin.
      apply (Hd a Hin), elem_of_cons. by left. }
    eapply wp_of_run; [apply (sample_task_run _ a v); [done|done|by rewrite Hmem]|].
    unfold sampled_all. rewrite foldl_app. split; [done|]. simpl.
    fold (sampled_all pre s). set (s1 := sampled_all pre s) in *.
    destruct (sampled_only a s1 Hk') as (ts1 & m1 & Hs1 & Hm1 & _).
    assert (mem (sampled a s1) = m1) as Hmem1 by (rewrite Hs1; apply mem_counters).
    destruct (proj2 (Hm1 a)) as [v1 Hv1]; [rewrite Hmem; by eexists|].
    unfold add_counts. rewrite Hmem1, Hv1.
    rewrite (totals_snoc (mem s1) m1 pre a v1); [done| |done].
    intros b Hb. rewrite <- Hmem1. symmetry. apply sampled_other. set_solver.
  - by intros acc s' [-> ->].
Qed.
(** ** Writing the buffer *)

(** [vs] written over [w] from index [i]. *)
Definition splice (i : nat) (vs w : list Z) : list Z :=
  take i w ++ vs ++ drop (i + length vs) w.

Lemma splice_nil i w : splice i [] w = w.
Proof. unfold splice. simpl. by rewrite Nat.add_0_r, take_drop. Qed.

Lemma splice_cons i v vs w :
  (i < length w)%nat → splice (S i) vs (<[i := v]> w) = splice i (v :: vs) w.
Proof.
  intros Hi. unfold splice. rewrite drop_insert_lt by lia.
  rewrite (take_S_r _ _ v) by by apply list_lookup_insert_eq.
  rewrite take_insert_ge, <- app_assoc by done. cbn [app length]. by rewrite Nat.add_succ_r.
Qed.

Lemma splice_insert i v w : (i < length w)%nat → <[i := v]> w = splice i [v] w.
Proof. intros Hi. by rewrite <- splice_cons, splice_nil by done. Qed.

Lemma splice_length i vs w :
  (i + length vs <= length w)%nat → length (splice i vs w) = length w.
Proof. intros Hi. unfold splice. rewrite !length_app, length_take, length_drop. lia. Qed.

Lemma in_capacity i : (i + 1) * long_bytes <= VM_SIZE ↔ i < capacity.
Proof.
  unfold capacity, VM_SIZE. destruct long_size as [-> | ->];
    [change (512000 / 4) with 128000 | change (512000 / 8) with 64000]; lia.
Qed.

Lemma store_word_run i v s :
  0 <= i < capacity → store_word i v s = Ok (tt, set_words (<[Z.to_nat i := v]> (words s)) s).
Proof.
  intros [Hi Hc%in_capacity]. unfold store_word, bind, get, modify.
  by rewrite (proj2 (Z.leb_le _ _) Hi), (proj2 (Z.leb_le _ _) Hc).
Qed.

Lemma store_word_out i v s : capacity <= i → store_word i v s = Oops OutOfBounds.
Proof.
  intros Hi. unfold store_word, bind, get. pose proof (in_capacity i).
  by rewrite (proj2 (Z.leb_gt ((i + 1) * long_bytes) VM_SIZE)), andb_false_r by lia.
Qed.

Lemma store_sample_run vs : ∀ i s,
  0 <= i → i + Z.of_nat (length vs) <= capacity → length (words s) = Z.to_nat capacity →
  store_sample i vs s =
    Ok (i + Z.of_nat (length vs), set_words (splice (Z.to_nat i) vs (words s)) s).
Proof.
  unfold store_sample. induction vs as [|v vs IH]; intros i s Hi Hc Hw.
  - simpl. rewrite splice_nil, Z.add_0_r. by destruct s.
  - cbn [fold_each length] in *. unfold bind at 1, bind at 1.
    rewrite store_word_run by lia. unfold ret.
    rewrite IH; [|lia|lia|cbn; by rewrite length_insert].
    cbn [words set_words]. rewrite Z2Nat.inj_add, Nat.add_1_r by lia.
    rewrite splice_cons by lia. do 2 f_equal. lia.
Qed.

(** ** One run of the work *)

(** The four words of a sample. *)
Definition sample_words s : list Z :=
  let '(t1, t2, t3) := totals (mem (sampled_all (nodes s) s)) (nodes s) in
  [ul (jiffies s); t1; t2; t3].

Definition next_due s : option Z :=
  match due (work s) with Some d => Some d | None => Some (ul (jiffies s + DELAYED s)) end.

Definition terminator s : list Z :=
  if VM_ELEMENT_SIZE <=? offset s + 4 then [] else [MINUS_ONE].

Definition after_sample s : @mp3 L :=
  let s1 := sampled_all (nodes s) s in
  mkMp3 (fp s) (dir s) (HEAD s) (chrdev_major s) (wq s) (mkWork (next_due s) false) (vm s)
    (splice (Z.to_nat (offset s)) (sample_words s ++ terminator s) (words s))
    (DELAYED s) (offset s + 4)
    (if VM_ELEMENT_SIZE <=? offset s + 4 then 1 else BUFFER_FILLED_UP s)
    false (slab s1) (jiffies s) (pids s) (tasks s1) (calls s).

Lemma sampled_commute a w b s :
  sampled a (set_lock b (set_work w s)) = set_lock b (set_work w (sampled a s)).
Proof.
  unfold sampled. change (mem (set_lock b (set_work w s))) with (mem s).
  destruct (mem s !! a) as [v|]; [|done].
  change (task_of (set_lock b (set_work w s))) with (task_of s).
  by destruct (task_of s (pid v)) as [[t c]|].
Qed.

Lemma sampled_all_commute l w b s :
  sampled_all l (set_lock b (set_work w s)) = set_lock b (set_work w (sampled_all l s)).
Proof.
  revert s. induction l as [|a l IH]; intros s; [done|]. simpl. by rewrite sampled_commute, IH.
Qed.

Lemma splice_app i vs us w :
  (i + length vs + length us <= length w)%nat →
  splice (i + length vs) us (splice i vs w) = splice i (vs ++ us) w.
Proof.
  intros Hl. unfold splice.
  assert (length (take i w ++ vs) = i + length vs)%nat as Ht
    by (rewrite length_app, length_take; lia).
  rewrite !(app_assoc (take i w) vs), <- Ht, take_app_length, drop_app_add, drop_drop.
  rewrite (length_app vs us), <- !app_assoc. do 4 f_equal. lia.
Qed.

(** The end mark [x] of what was written is overwritten. *)
Lemma splice_over i vs x us w :
  (1 <= length us)%nat → (i + length vs + length us <= length w)%nat →
  splice (i + length vs) us (splice i (vs ++ [x]) w) = splice i (vs ++ us) w.
Proof.
  intros Hu Hl. unfold splice.
  assert (length (take i w ++ vs) = i + length vs)%nat as Ht
    by (rewrite length_app, length_take; lia).
  rewrite <- (app_assoc vs [x]), (app_assoc (take i w) vs).
  rewrite <- Ht, take_app_length, drop_app_add.
  rewrite <- !app_assoc. do 3 f_equal.
  rewrite !length_app. destruct us as [|u us]; [simpl in Hu; lia|]. cbn [length drop app].
  rewrite drop_drop. f_equal. lia.
Qed.

(** The sample fits: all its words and the terminator are in the buffer. *)
Definition room s : Prop :=
  offset s + 4 < capacity ∨ offset s + 4 = capacity ∧ VM_ELEMENT_SIZE <= offset s + 4.

(** The end of the callback, once the sample is stored. *)
Definition callback_tail (ptr : Z) : M (@mp3 L) unit :=
  modify (λ s, set_offset (u32 (offset s + 4)) s) ;!
  let! off := gets offset in
  (if VM_ELEMENT_SIZE <=? off then modify (set_BUFFER_FILLED_UP 1)
   else store_word ptr MINUS_ONE) ;!
  let! delay := gets DELAYED in
  queue_delayed_work delay ;!
  spin_unlock ;!
  modify (λ s, set_work (mkWork (due (work s)) false) s).

Definition tail_state (ptr : Z) s : @mp3 L :=
  let o := u32 (offset s + 4) in
  mkMp3 (fp s) (dir s) (HEAD s) (chrdev_major s) (wq s) (mkWork (next_due s) false) (vm s)
    (if VM_ELEMENT_SIZE <=? o then words s else <[Z.to_nat ptr := MINUS_ONE]> (words s))
    (DELAYED s) o (if VM_ELEMENT_SIZE <=? o then 1 else BUFFER_FILLED_UP s)
    false (slab s) (jiffies s) (pids s) (tasks s) (calls s).

Lemma callback_tail_run ptr s :
  wq s ≠ NULL → (u32 (offset s + 4) < VM_ELEMENT_SIZE → 0 <= ptr < capacity) →
  callback_tail ptr s = Ok (tt, tail_state ptr s).
Proof.
  intros Hwq Hptr. apply run_of_wp. unfold callback_tail, tail_state, next_due. wp_pure.
  cbn [offset set_offset].
  eapply (wp_of_run _ _ _ _ tt).
  { instantiate (1 := set_BUFFER_FILLED_UP
      (if VM_ELEMENT_SIZE <=? u32 (offset s + 4) then 1 else BUFFER_FILLED_UP s)
      (set_words (if VM_ELEMENT_SIZE <=? u32 (offset s + 4) then words s
                  else <[Z.to_nat ptr := MINUS_ONE]> (words s))
         (set_offset (u32 (offset s + 4)) s))).
    destruct (Z.leb_spec VM_ELEMENT_SIZE (u32 (offset s + 4))) as [Hle|Hlt]; [by destruct s|].
    rewrite store_word_run by auto. by destruct s. }
  wp_pure. unfold queue_delayed_work, spin_unlock. wp_pure.
  cbn [wq set_words set_offset set_BUFFER_FILLED_UP work due].
  rewrite (proj2 (Z.eqb_neq _ NULL) Hwq).
  destruct s as [? ? ? ? ? [[d|] r] ? ? ? ? ? ? ? ? ? ? ?]; cbn; wp_pure; done.
Qed.

Lemma tail_state_after s :
  wf s → room s →
  tail_state (offset s + 4) (set_words
    (splice (Z.to_nat (offset s)) (sample_words s) (words s)) (set_lock true
      (set_work (mkWork (due (work s)) true) (sampled_all (nodes s) s)))) = after_sample s.
Proof.
  intros Hw Hroom. pose proof (wf_offset s Hw) as Ho. unfold after_sample.
  destruct (sampled_all_only (nodes s) s (wf_kernel s Hw)) as (ts & m & Hs1 & _ & _).
  rewrite Hs1. set (s2 := set_words _ _).
  assert (offset s2 = offset s) as Ho2 by done.
  assert (words s2 = splice (Z.to_nat (offset s)) (sample_words s) (words s)) as Hw2 by done.
  assert (length (sample_words s) = 4%nat) as Hlen.
  { unfold sample_words. by destruct (totals _ _) as [[? ?] ?]. }
  unfold tail_state, terminator. rewrite Ho2, Hw2, (u32_id (offset s + 4))
    by (unfold is_u32; destruct (wf_full s Hw); unfold VM_ELEMENT_SIZE in *; lia).
  destruct (Z.leb_spec VM_ELEMENT_SIZE (offset s + 4)) as [Hle|Hlt].
  - by rewrite app_nil_r.
  - assert (offset s + 4 < capacity) as Hc by (unfold room in Hroom; lia).
    rewrite <- splice_app by (rewrite Hlen, (wf_words s Hw); simpl; lia).
    rewrite Hlen, splice_insert, (Z2Nat.inj_add (offset s) 4) by
      (try lia; rewrite splice_length; rewrite ?Hlen, (wf_words s Hw); lia).
    done.
Qed.

(** The state when the sample has been stored and its end has not. *)
Definition stored s : @mp3 L :=
  set_words (splice (Z.to_nat (offset s)) (sample_words s) (words s)) (set_lock true
    (set_work (mkWork (due (work s)) true) (sampled_all (nodes s) s))).

Lemma wp_callback s (Q : unit → @mp3 L → Prop) E :
  wf s → lock s = false → BUFFER_FILLED_UP s = 0 → offset s + 4 <= capacity →
  wp (callback_tail (offset s + 4)) Q E (stored s) → wp workqueue_callback Q E s.
Proof.
  intros Hw Hlock Hfull Hroom Htail. pose proof (wf_offset s Hw) as Ho.
  unfold workqueue_callback, callback_entry. wp_pure.
  rewrite Hfull. simpl. wp_pure. unfold callback_locked, spin_lock. wp_pure.
  cbn [lock set_work]. rewrite Hlock. wp_pure.
  set (s0 := set_lock true _). change (HEAD s0) with (HEAD s). fold (nodes s).
  eapply wp_of_run; [apply (sample_loop s0 (nodes s)); apply Hw|].
  unfold s0. rewrite sampled_all_commute. clear s0.
  unfold stored in Htail. set (s1 := sampled_all (nodes s) s) in *.
  change (mem (set_lock true (set_work (mkWork (due (work s)) true) s1))) with (mem s1).
  destruct (sampled_all_only (nodes s) s (wf_kernel s Hw)) as (ts & m & Hs1 & _ & _).
  fold s1 in Hs1.
  assert (sample_words s = let '(t1, t2, t3) := totals (mem s1) (nodes s) in
                           [ul (jiffies s); t1; t2; t3]) as Hsw by done.
  destruct (totals (mem s1) (nodes s)) as [[t1 t2] t3].
  cbn [jiffies offset set_work set_lock]. rewrite <- Hsw.
  assert (length (sample_words s) = 4%nat) as Hlen by by rewrite Hsw.
  assert (words s1 = words s) as Hws by by rewrite Hs1.
  apply wp_bind. eapply wp_of_run.
  { apply store_sample_run; [done|by rewrite Hlen|].
    cbn [words set_lock set_work]. rewrite Hws. apply Hw. }
  rewrite Hlen. change (words (set_lock true ?x)) with (words s1). by rewrite Hws.
Qed.

Lemma stored_frame s :
  wf s → wq (stored s) = wq s ∧ offset (stored s) = offset s.
Proof.
  intros Hw. unfold stored.
  by destruct (sampled_all_only (nodes s) s (wf_kernel s Hw)) as (ts & m & -> & _ & _).
Qed.

Lemma offset_small s : wf s → u32 (offset s + 4) = offset s + 4.
Proof.
  intros Hw. pose proof (wf_offset s Hw). apply u32_id. unfold is_u32.
  destruct (wf_full s Hw); unfold VM_ELEMENT_SIZE in *; lia.
Qed.

Lemma callback_run s :
  wf s → lock s = false → BUFFER_FILLED_UP s = 0 → room s →
  workqueue_callback s = Ok (tt, after_sample s).
Proof.
  intros Hw Hlock Hfull Hroom. destruct (stored_frame s Hw) as [Hq Ho].
  pose proof (wf_offset s Hw). pose proof (offset_small s Hw) as Hu.
  apply run_of_wp, wp_callback; [done..|unfold room in Hroom; lia|].
  eapply wp_of_run; [apply callback_tail_run|].
  - rewrite Hq. apply Hw.
  - rewrite Ho, Hu. unfold room in Hroom. lia.
  - f_equal. by apply tail_state_after.
Qed.

(** The words of the sample fit and its end does not. *)
Lemma callback_overrun s :
  wf s → lock s = false → BUFFER_FILLED_UP s = 0 →
  offset s + 4 = capacity → capacity < VM_ELEMENT_SIZE →
  workqueue_callback s = Oops OutOfBounds.
Proof.
  intros Hw Hlock Hfull Hc Hlt. destruct (stored_frame s Hw) as [_ Ho].
  assert (wp workqueue_callback (λ _ _, False) (λ e, e = OutOfBounds) s) as Hrun.
  { apply wp_callback; [done..|lia|]. unfold callback_tail. wp_pure.
    cbn [offset set_offset]. rewrite Ho, (offset_small s Hw).
    rewrite (proj2 (Z.leb_gt _ _)) by lia. unfold wp.
    by rewrite store_word_out by lia. }
  unfold wp in Hrun. destruct (workqueue_callback s) as [[? ?]|e]; [done|by subst].
Qed.

(** A full buffer stops the sampling before it takes the lock. *)
Lemma callback_full s :
  BUFFER_FILLED_UP s ≠ 0 → workqueue_callback s = Ok (tt, s).
Proof.
  intros Hf. unfold workqueue_callback, callback_entry, bind, get.
  by rewrite (proj2 (Z.eqb_neq _ _) Hf).
Qed.
End state.
