(* ===== verification/Mp3User.v ===== *)
(** * MP3: the monitor

    src/MP3/monitor.c, which maps the profiler buffer and prints the samples it
    finds there.  The state of its loops is the mapped buffer, as words, and what
    it has printed; [main] has also the open descriptors.  What [ctime], [open]
    and [mmap] give are arguments. *)
From Stdlib Require Import Ascii String.
From stdpp Require Import base gmap sets list strings.
From Stdlib Require Import ZArith Lia.
From S2P Require Import Prelude CString Kernel Mp3.

Open Scope Z_scope.
Open Scope c_scope.

Module Monitor.
Section monitor.
Context `{!Arch}.

Definition BUFD_MAX : Z := 48000.

Record monitor : Type := mkMonitor {
  buf : list Z;
  out : list ascii
}.

(** [buf[i]]; an access past the mapped pages is a fault. *)
Definition word_at (i : Z) : M monitor Z := λ s,
  match buf s !! Z.to_nat i with
  | Some w => if i <? 0 then Oops OutOfBounds else Ok (w, s)
  | None => Oops OutOfBounds
  end.

Definition clear_at (i : Z) : M monitor unit :=
  let! _ := word_at i in
  modify (λ s, mkMonitor (<[Z.to_nat i := MINUS_ONE]> (buf s)) (out s)).

Definition printf (bytes : list ascii) : M monitor unit :=
  modify (λ s, mkMonitor (buf s) (out s ++ bytes)).

(** The first element that is not -1: at most [BUFD_MAX] turns. *)
Fixpoint find_start (fuel : nat) (index : Z) : M monitor Z :=
  match fuel with
  | O => ret index
  | S fuel' =>
      if index <? BUFD_MAX then
        let! w := word_at index in
        if negb (w =? MINUS_ONE) then ret index else find_start fuel' (index + 1)
      else ret index
  end.

(** [printf("%ld ", buf[index]); buf[index++] = -1; if (index >= BUFD_MAX)
    index = 0;] *)
Definition print_one (sep : list ascii) (index : Z) : M monitor Z :=
  let! w := word_at index in
  printf (fmt_ld w ++ sep) ;!
  clear_at index ;!
  let index := index + 1 in
  ret (if BUFD_MAX <=? index then 0 else index).

(** The loop over the samples; [None] when the fuel is not enough. *)
Fixpoint print_loop (fuel : nat) (index i : Z) : M monitor (option Z) :=
  match fuel with
  | O => ret None
  | S fuel' =>
      let! w := word_at index in
      if negb (w =? MINUS_ONE) then
        let! index := print_one (str " ") index in
        let! index := print_one (str " ") index in
        let! index := print_one (str " ") index in
        let! index := print_one [newline] index in
        print_loop fuel' index (i + 1)
      else ret (Some i)
  end.

(** Every turn clears an element that was not -1, of the [BUFD_MAX + 1] the
    loop can look at. *)
Definition fuel : nat := Z.to_nat (BUFD_MAX + 2).

(** The loops of [main] over the mapped buffer: the number of samples printed. *)
Definition read_all : M monitor (option Z) :=
  let! index := find_start (Z.to_nat BUFD_MAX) 0 in
  print_loop fuel index 0.

(** ** The whole program *)

(** [buf_fd], the descriptors the process has open, and the rest. *)
Record program : Type := mkProgram {
  buf_fd : Z;
  fds : list Z;
  mon : monitor
}.

Definition set_fd (fd : Z) : M program unit := modify (λ p, mkProgram fd (fds p) (mon p)).
Definition opens (fd : Z) : M program unit := modify (λ p, mkProgram (buf_fd p) (fd :: fds p) (mon p)).
Definition close (fd : Z) : M program unit :=
  modify (λ p, mkProgram (buf_fd p) (filter (λ x, x ≠ fd) (fds p)) (mon p)).
Definition on_monitor {A} (m : M monitor A) : M program A := λ p,
  match m (mon p) with
  | Ok (a, s) => Ok (a, mkProgram (buf_fd p) (fds p) s)
  | Oops e => Oops e
  end.
Definition say (bytes : list ascii) : M program unit := on_monitor (printf bytes).
Definition map_buffer (words : list Z) : M program unit :=
  modify (λ p, mkProgram (buf_fd p) (fds p) (mkMonitor words (out (mon p)))).

Definition node : list ascii := str "node".

(** What is printed besides the samples. *)
Definition name_msg (file : list ascii) : list ascii :=
  str "output_filename is " ++ file ++ str ". Check that after the program finished." ++ [newline].
Definition open_msg : list ascii := str "try to open the char dev - node file.." ++ [newline].
Definition open_error (fname : list ascii) : list ascii :=
  str "file open error. " ++ fname ++ [newline].
Definition map_error : list ascii := str "buf file open error." ++ [newline].
Definition read_msg (i : Z) : list ascii := str "read " ++ fmt_d i ++ str " profiled data" ++ [newline].

(** [opened] is what [open] returns, [mapped] the words [mmap] maps, if it
    does.  The answer tells whether there is a buffer. *)
Definition buf_init (fname : list ascii) (opened : Z) (mapped : option (list Z)) : M program bool :=
  let! p := get in
  let! failed :=
    (if buf_fd p =? -1 then
       say open_msg ;!
       set_fd opened ;!
       if opened <? 0 then
         say (open_error fname) ;! ret true
       else opens opened ;! ret false
     else ret false) in
  if (failed : bool) then ret false
  else
    match mapped with
    | None =>
        let! p := get in
        close (buf_fd p) ;! say map_error ;! ret false
    | Some words => map_buffer words ;! ret true
    end.

Definition buf_exit : M program unit :=
  let! p := get in
  when (negb (buf_fd p =? -1)) (close (buf_fd p) ;! set_fd (-1)).

(** [strtok] with a blank: the words of the text that have a character. *)
Fixpoint tokens (word s : list ascii) : list (list ascii) :=
  match s with
  | [] => match word with [] => [] | _ => [word] end
  | c :: s' =>
      if decide (c = ch " ") then
        match word with [] => tokens [] s' | _ => word :: tokens [] s' end
      else tokens (word ++ [c]) s'
  end.

(** The first word of more than six characters. *)
Definition time_of_day (timeinfo : list ascii) : option (list ascii) :=
  find_map (λ w, if decide (6 < length w)%nat then Some w else None) (tokens [] timeinfo).

(** [strncat] of the word, NULL if there is none. *)
Definition file_of (w : list ascii) : list ascii := str "output-" ++ take 40 w.

Definition output_file (timeinfo : list ascii) : M program (list ascii) :=
  match time_of_day timeinfo with
  | Some w => ret (file_of w)
  | None => fail NullDeref
  end.

Definition main (timeinfo : list ascii) (opened : Z) (mapped : option (list Z)) : M program (option Z) :=
  let! file := output_file timeinfo in
  say (name_msg file) ;!
  let! buf := buf_init node opened mapped in
  if negb buf then ret (Some (-1))
  else
    let! i := on_monitor read_all in
    match i with
    | None => ret None
    | Some i =>
        say (read_msg i) ;!
        buf_exit ;!
        ret (Some 0)
    end.

(** ** What it prints *)

Definition cleared (k : nat) : list Z := replicate k MINUS_ONE.

Definition wrap (k : nat) : Z := if BUFD_MAX <=? Z.of_nat k then 0 else Z.of_nat k.

Lemma word_at_middle pre w post o :
  word_at (Z.of_nat (length pre)) (mkMonitor (pre ++ w :: post) o) =
    Ok (w, mkMonitor (pre ++ w :: post) o).
Proof.
  unfold word_at. cbn [buf]. rewrite Nat2Z.id, list_lookup_middle by done.
  by rewrite (proj2 (Z.ltb_ge _ _)) by lia.
Qed.

Lemma print_one_run sep k w post o :
  print_one sep (Z.of_nat k) (mkMonitor (cleared k ++ w :: post) o) =
    Ok (wrap (S k), mkMonitor (cleared (S k) ++ post) (o ++ fmt_ld w ++ sep)).
Proof.
  assert (length (cleared k) = k) as Hk by apply length_replicate.
  unfold print_one, clear_at, printf, bind, modify, ret.
  rewrite <- Hk at 1. rewrite word_at_middle. cbn [buf out].
  rewrite <- Hk at 1. rewrite word_at_middle. cbn [buf out]. rewrite Nat2Z.id.
  assert (<[k := MINUS_ONE]> (cleared k ++ w :: post) = cleared (S k) ++ post) as ->.
  { rewrite insert_app_r_alt by lia. rewrite Hk, Nat.sub_diag.
    unfold cleared. by rewrite replicate_S_end, <- app_assoc. }
  unfold wrap. replace (Z.of_nat (S k)) with (Z.of_nat k + 1) by lia. done.
Qed.

(** The line of one sample. *)
Definition sample_line (w : list Z) : list ascii :=
  match w with
  | [a; b; c; d] => (fmt_ld a ++ str " ") ++ (fmt_ld b ++ str " ") ++ (fmt_ld c ++ str " ")
                      ++ (fmt_ld d ++ [newline])
  | _ => []
  end.

(** A sample: four words, of which the first (the time) is not -1. *)
Definition is_sample (w : list Z) : Prop :=
  ∃ a b c d, w = [a; b; c; d] ∧ a ≠ MINUS_ONE.

Lemma wrap_small k : Z.of_nat k < BUFD_MAX → wrap k = Z.of_nat k.
Proof. intros Hk. unfold wrap. by rewrite (proj2 (Z.leb_gt _ _)). Qed.

Lemma word_at_clear k j post o :
  (j < k)%nat →
  word_at (Z.of_nat j) (mkMonitor (cleared k ++ post) o) =
    Ok (MINUS_ONE, mkMonitor (cleared k ++ post) o).
Proof.
  intros Hj. unfold word_at. cbn [buf]. rewrite Nat2Z.id, lookup_app_l
    by (unfold cleared; by rewrite length_replicate).
  unfold cleared. rewrite lookup_replicate_2 by done. by rewrite (proj2 (Z.ltb_ge _ _)) by lia.
Qed.

Lemma word_at_next k w post o :
  word_at (Z.of_nat k) (mkMonitor (cleared k ++ w :: post) o) =
    Ok (w, mkMonitor (cleared k ++ w :: post) o).
Proof.
  assert (length (cleared k) = k) as Hk by apply length_replicate.
  rewrite <- Hk at 1. apply word_at_middle.
Qed.

(** One turn of the loop prints one sample. *)
Lemma print_sample f k w post o i :
  Z.of_nat k + 4 <= BUFD_MAX → is_sample w →
  print_loop (S f) (Z.of_nat k) i (mkMonitor (cleared k ++ w ++ post) o) =
    print_loop f (wrap (4 + k)) (i + 1)
      (mkMonitor (cleared (4 + k) ++ post) (o ++ sample_line w)).
Proof.
  intros Hk (a & b & c & d & -> & Ha). cbn [print_loop app].
  unfold bind. rewrite word_at_next, (proj2 (Z.eqb_neq a MINUS_ONE) Ha). cbn [negb].
  rewrite print_one_run, wrap_small by lia.
  rewrite print_one_run, wrap_small by lia.
  rewrite print_one_run, wrap_small by lia.
  rewrite print_one_run. cbn [sample_line Nat.add]. by rewrite <- !app_assoc.
Qed.

(** All of them, up to the end mark or to the end of the monitor's range. *)
Lemma print_samples ws : ∀ f k post o i,
  (length ws < f)%nat → Z.of_nat k + 4 * Z.of_nat (length ws) <= BUFD_MAX →
  Forall is_sample ws →
  (head post = Some MINUS_ONE ∧ Z.of_nat k + 4 * Z.of_nat (length ws) < BUFD_MAX ∨
   (0 < k + length ws)%nat ∧ Z.of_nat k + 4 * Z.of_nat (length ws) = BUFD_MAX) →
  print_loop f (wrap k) i (mkMonitor (cleared k ++ concat ws ++ post) o) =
    Ok (Some (i + Z.of_nat (length ws)),
        mkMonitor (cleared (k + 4 * length ws) ++ post) (o ++ concat (sample_line <$> ws))).
Proof.
  induction ws as [|w ws IH]; intros f k post o i Hf Hk Hws Hend.
  - destruct f as [|f]; [simpl in Hf; lia|]. cbn [print_loop concat app length fmap list_fmap].
    rewrite Nat.mul_0_r, Nat.add_0_r, Z.add_0_r, app_nil_r. unfold bind.
    assert (word_at (wrap k) (mkMonitor (cleared k ++ post) o) =
            Ok (MINUS_ONE, mkMonitor (cleared k ++ post) o)) as ->.
    { destruct Hend as [[Hp Hlt]|[Hpos Heq]]; simpl length in *.
      - rewrite wrap_small by lia. destruct post as [|w post]; [done|].
        injection Hp as ->. apply word_at_next.
      - unfold wrap. rewrite (proj2 (Z.leb_le _ _)) by lia. apply (word_at_clear k 0). lia. }
    by rewrite Z.eqb_refl.
  - destruct f as [|f]; [simpl in Hf; lia|]. inversion Hws as [|? ? Hw Hws' ]; subst.
    cbn [length concat] in *. rewrite wrap_small by lia. rewrite <- app_assoc.
    rewrite print_sample by (done || lia). rewrite IH; [| lia | lia | done |].
    + do 2 f_equal; [f_equal; lia|]. f_equal; [do 2 f_equal; lia|]. by rewrite <- app_assoc.
    + destruct Hend as [[? ?]|[? ?]]; [left|right]; (split; [done||lia|lia]).
Qed.

Lemma find_start_run f k j w post o :
  (j <= k)%nat → (k - j < f)%nat → Z.of_nat k < BUFD_MAX → w ≠ MINUS_ONE →
  find_start f (Z.of_nat j) (mkMonitor (cleared k ++ w :: post) o) =
    Ok (Z.of_nat k, mkMonitor (cleared k ++ w :: post) o).
Proof.
  revert j. induction f as [|f IH]; intros j Hj Hf Hk Hw; [lia|]. cbn [find_start].
  rewrite (proj2 (Z.ltb_lt _ _)) by lia. unfold bind.
  destruct (decide (j = k)) as [->|Hne].
  - by rewrite word_at_next, (proj2 (Z.eqb_neq _ _) Hw).
  - rewrite word_at_clear, Z.eqb_refl by lia. cbn [negb].
    replace (Z.of_nat j + 1) with (Z.of_nat (S j)) by lia. apply IH; lia || done.
Qed.

(** A buffer whose first [k] words have been read, then samples. *)
Lemma read_all_run k ws post o :
  ws ≠ [] → Forall is_sample ws →
  Z.of_nat k + 4 * Z.of_nat (length ws) <= BUFD_MAX →
  head post = Some MINUS_ONE ∨ Z.of_nat k + 4 * Z.of_nat (length ws) = BUFD_MAX →
  read_all (mkMonitor (cleared k ++ concat ws ++ post) o) =
    Ok (Some (Z.of_nat (length ws)),
        mkMonitor (cleared (k + 4 * length ws) ++ post) (o ++ concat (sample_line <$> ws))).
Proof.
  intros Hne Hws Hk Hend. unfold read_all, bind.
  assert (0 < length ws)%nat as Hlen by (destruct ws; [done|simpl; lia]).
  assert (find_start (Z.to_nat BUFD_MAX) 0 (mkMonitor (cleared k ++ concat ws ++ post) o) =
          Ok (Z.of_nat k, mkMonitor (cleared k ++ concat ws ++ post) o)) as ->.
  { destruct ws as [|w ws]; [done|]. inversion Hws as [|? ? Hw _]; subst.
    destruct Hw as (a & b & c & d & -> & Ha). cbn [concat app].
    apply (find_start_run _ k 0); [lia|unfold BUFD_MAX in *; lia|lia|done]. }
  rewrite <- (wrap_small k) by lia. rewrite print_samples; [done| |done|done|].
  - unfold fuel, BUFD_MAX in *. lia.
  - destruct (decide (Z.of_nat k + 4 * Z.of_nat (length ws) = BUFD_MAX)).
    + right. split; [lia|done].
    + left. split; [by destruct Hend|lia].
Qed.

(** ** It ends *)

(** The elements the loop can meet that are not -1. *)
Definition unread (l : list Z) : nat :=
  length (filter (λ w, w ≠ MINUS_ONE) (take (Z.to_nat (BUFD_MAX + 1)) l)).

Lemma filter_insert_mark l (i : nat) w :
  l !! i = Some w →
  (length (filter (λ w, w ≠ MINUS_ONE) (<[i := MINUS_ONE]> l))
     + (if decide (w = MINUS_ONE) then 0 else 1)
   = length (filter (λ w, w ≠ MINUS_ONE) l))%nat.
Proof.
  intros Hw. rewrite insert_take_drop by by eapply lookup_lt_Some.
  rewrite <- (take_drop_middle l i w Hw) at 3.
  rewrite !filter_app, !length_app. rewrite !filter_cons.
  rewrite (decide_False (P := MINUS_ONE ≠ MINUS_ONE)) by naive_solver.
  repeat case_decide; simpl; naive_solver lia.
Qed.

Lemma unread_mark l i w :
  0 <= i <= BUFD_MAX → l !! Z.to_nat i = Some w →
  (unread (<[Z.to_nat i := MINUS_ONE]> l) + (if decide (w = MINUS_ONE) then 0 else 1)
   = unread l)%nat.
Proof.
  intros Hi Hw. unfold unread. rewrite take_insert_lt by lia.
  apply filter_insert_mark. rewrite lookup_take_lt by lia. done.
Qed.

Lemma print_one_any sep i s :
  0 <= i <= BUFD_MAX → BUFD_MAX < Z.of_nat (length (buf s)) →
  ∃ w i' s', buf s !! Z.to_nat i = Some w ∧ print_one sep i s = Ok (i', s') ∧
    0 <= i' <= BUFD_MAX ∧ length (buf s') = length (buf s) ∧
    (unread (buf s') + (if decide (w = MINUS_ONE) then 0 else 1) = unread (buf s))%nat.
Proof.
  intros Hi Hl. destruct (lookup_lt_is_Some_2 (buf s) (Z.to_nat i)) as [w Hw]; [lia|].
  exists w. unfold print_one, clear_at, printf, bind, modify, ret, word_at.
  rewrite (proj2 (Z.ltb_ge i 0)) by lia. rewrite Hw. cbn [buf]. rewrite Hw.
  do 2 eexists. split_and!; [done|done|..]; cbn [buf].
  - case_match; lia.
  - case_match; zbool; lia.
  - by rewrite length_insert.
  - by apply unread_mark.
Qed.

Lemma print_loop_ends f : ∀ i n s,
  0 <= i <= BUFD_MAX → BUFD_MAX < Z.of_nat (length (buf s)) → (unread (buf s) < f)%nat →
  ∃ m s', print_loop f i n s = Ok (Some m, s').
Proof.
  induction f as [|f IH]; intros i n s Hi Hl Hf; [lia|]. cbn [print_loop]. unfold bind.
  destruct (print_one_any (str " ") i s Hi Hl) as (w & i1 & s1 & Hw & Hr1 & Hi1 & Hl1 & Hu1).
  assert (word_at i s = Ok (w, s)) as ->.
  { unfold word_at. by rewrite Hw, (proj2 (Z.ltb_ge i 0)) by lia. }
  destruct (Z.eqb_spec w MINUS_ONE) as [->|Hne]; cbn [negb]; [by do 2 eexists|].
  rewrite decide_False in Hu1 by done. rewrite Hr1.
  destruct (print_one_any (str " ") i1 s1 Hi1) as (w2 & i2 & s2 & _ & -> & Hi2 & Hl2 & Hu2); [lia|].
  destruct (print_one_any (str " ") i2 s2 Hi2) as (w3 & i3 & s3 & _ & -> & Hi3 & Hl3 & Hu3); [lia|].
  destruct (print_one_any [newline] i3 s3 Hi3) as (w4 & i4 & s4 & _ & -> & Hi4 & Hl4 & Hu4); [lia|].
  apply IH; [done|lia|lia].
Qed.

Lemma find_start_any f : ∀ i s,
  0 <= i <= BUFD_MAX → BUFD_MAX <= Z.of_nat (length (buf s)) →
  ∃ i', find_start f i s = Ok (i', s) ∧ 0 <= i' <= BUFD_MAX.
Proof.
  induction f as [|f IH]; intros i s Hi Hl; cbn [find_start]; [by eexists|].
  destruct (Z.ltb_spec i BUFD_MAX) as [Hlt|]; [|by eexists].
  destruct (lookup_lt_is_Some_2 (buf s) (Z.to_nat i)) as [w Hw]; [lia|].
  unfold bind, word_at. rewrite Hw, (proj2 (Z.ltb_ge i 0)) by lia.
  destruct (negb _); [by eexists|]. apply IH; lia.
Qed.

Lemma unread_bound l : (unread l <= Z.to_nat (BUFD_MAX + 1))%nat.
Proof.
  unfold unread. etransitivity; [apply length_filter|]. rewrite length_take. lia.
Qed.

Lemma read_all_ends s :
  BUFD_MAX < Z.of_nat (length (buf s)) → ∃ n s', read_all s = Ok (Some n, s').
Proof.
  intros Hl. unfold read_all, bind.
  destruct (find_start_any (Z.to_nat BUFD_MAX) 0 s) as (i & -> & Hi); [unfold BUFD_MAX; lia|lia|].
  apply print_loop_ends; [done|done|]. pose proof (unread_bound (buf s)). unfold fuel. lia.
Qed.

(** ** What the program does *)

(** [ctime] gives "Www Mmm dd hh:mm:ss yyyy" and a newline; the day may start
    with a blank. *)
Lemma tokens_word word w s : ch " " ∉ w → tokens word (w ++ s) = tokens (word ++ w) s.
Proof.
  revert word. induction w as [|c w IH]; intros word Hw; [by rewrite app_nil_r|].
  apply not_elem_of_cons in Hw as [Hc Hw]. cbn. rewrite decide_False by done.
  by rewrite IH, <- app_assoc.
Qed.

Lemma tokens_blank word s :
  word ≠ [] → tokens word (ch " " :: s) = word :: tokens [] s.
Proof. intros Hw. cbn. by destruct word. Qed.

Lemma time_of_day_ctime www mmm dd hms rest :
  (forall w, w ∈ [www; mmm; dd; hms] → ch " " ∉ w ∧ w ≠ []) →
  (length www <= 6)%nat → (length mmm <= 6)%nat → (length dd <= 6)%nat → length hms = 8%nat →
  ∀ pad, pad = [] ∨ pad = [ch " "] →
  time_of_day (www ++ [ch " "] ++ mmm ++ [ch " "] ++ pad ++ dd ++ [ch " "] ++ hms ++ [ch " "] ++ rest)
    = Some hms.
Proof.
  intros Hw Hl1 Hl2 Hl3 Hl4 pad Hpad.
  destruct (Hw www) as [H1 N1]; [set_solver|]. destruct (Hw mmm) as [H2 N2]; [set_solver|].
  destruct (Hw dd) as [H3 N3]; [set_solver|]. destruct (Hw hms) as [H4 N4]; [set_solver|].
  unfold time_of_day. rewrite tokens_word by done. cbn [app]. rewrite tokens_blank by done.
  rewrite tokens_word by done. cbn [app]. rewrite tokens_blank by done.
  assert (∀ s, tokens [] (pad ++ s) = tokens [] s) as -> by (intros s; by destruct Hpad as [->| ->]).
  rewrite tokens_word by done. cbn [app]. rewrite tokens_blank by done.
  rewrite tokens_word by done. cbn [app]. rewrite tokens_blank by done.
  cbn [find_map]. by rewrite !decide_False, decide_True by lia.
Qed.

#[local] Arguments name_msg : simpl never.
#[local] Arguments file_of : simpl never.
#[local] Arguments open_msg : simpl never.
#[local] Arguments open_error : simpl never.
#[local] Arguments map_error : simpl never.
#[local] Arguments read_msg : simpl never.

Definition preamble (w : list ascii) : list ascii :=
  name_msg (file_of w) ++ open_msg.

(** No device, no mapping, and a buffer whose loops end. *)
Lemma main_no_device timeinfo w opened mapped p :
  time_of_day timeinfo = Some w → buf_fd p = -1 → opened < 0 →
  main timeinfo opened mapped p =
    Ok (Some (-1), mkProgram opened (fds p) (mkMonitor (buf (mon p))
      (out (mon p) ++ preamble w ++ open_error node))).
Proof.
  intros Hw Hfd Ho. destruct p as [fd fs [b o]]. cbn in Hfd. subst fd.
  unfold main, output_file, bind. rewrite Hw. unfold buf_init, bind, get. cbn.
  rewrite (proj2 (Z.ltb_lt opened 0)) by done. cbn. unfold preamble. by rewrite <- !app_assoc.
Qed.

Lemma main_no_mapping timeinfo w opened p :
  time_of_day timeinfo = Some w → buf_fd p = -1 → 0 <= opened → opened ∉ fds p →
  main timeinfo opened None p =
    Ok (Some (-1), mkProgram opened (fds p) (mkMonitor (buf (mon p))
      (out (mon p) ++ preamble w ++ map_error))).
Proof.
  intros Hw Hfd Ho Hnew. destruct p as [fd fs [b o]]. cbn in Hfd, Hnew. subst fd.
  unfold main, output_file, bind. rewrite Hw. unfold buf_init, bind, get. cbn.
  rewrite (proj2 (Z.ltb_ge opened 0)) by done. cbn -[filter].
  rewrite filter_cons_False, filter_not_in by (done || naive_solver).
  unfold preamble. by rewrite <- !app_assoc.
Qed.

Lemma main_reads timeinfo w opened words p n m :
  time_of_day timeinfo = Some w → buf_fd p = -1 → 0 <= opened → opened ∉ fds p →
  read_all (mkMonitor words (out (mon p) ++ preamble w)) = Ok (Some n, m) →
  main timeinfo opened (Some words) p =
    Ok (Some 0, mkProgram (-1) (fds p) (mkMonitor (buf m) (out m ++ read_msg n))).
Proof.
  intros Hw Hfd Ho Hnew Hrun. destruct p as [fd fs [b o]]. cbn in Hfd, Hnew, Hrun. subst fd.
  unfold main, output_file, bind. rewrite Hw. unfold buf_init, bind, get. cbn -[read_all].
  rewrite (proj2 (Z.ltb_ge opened 0)) by done. cbn -[read_all]. unfold on_monitor at 1.
  cbn [mon]. unfold preamble in Hrun. rewrite app_assoc in Hrun. rewrite Hrun.
  cbn -[filter]. unfold buf_exit, bind, get. cbn -[filter].
  rewrite (proj2 (Z.eqb_neq opened (-1))) by lia. cbn -[filter].
  by rewrite filter_cons_False, filter_not_in by (done || naive_solver).
Qed.
End monitor.
End Monitor.
