(* ===== verification/Mp3Profile.v ===== *)
(** * MP3: what the profiler records

    The samples the work of src/MP3/mp3.c writes are what src/MP3/monitor.c
    reads back, in order, while they fit; what a sample contains; and the sample that
    runs over the buffer where words have 8 bytes. *)
From Stdlib Require Import Ascii String.
From stdpp Require Import base gmap sets list strings.
From Stdlib Require Import ZArith Lia.
From S2P Require Import Prelude CString Kernel Mp3 Mp3Run Mp3State Mp3User.
Import Reference.

Open Scope Z_scope.
Open Scope c_scope.

Section profile.
Context {L : Type} `{!KList L, !KConst, !Allocator, !Kstrto, !Arch}.
Context `{!KListLaws L, !KConstLaws, !AllocatorLaws, !KstrtoLaws, !ArchLaws}.
Implicit Types s : @mp3 L.

Lemma sample_words_length s : length (sample_words s) = 4%nat.
Proof. unfold sample_words. by destruct (totals _ _) as [[? ?] ?]. Qed.

Lemma sample_and_end_fit s :
  wf s → room s →
  (Z.to_nat (offset s) + length (sample_words s ++ terminator s) <= length (words s))%nat.
Proof.
  intros Hw Hroom. pose proof (wf_offset s Hw). rewrite (wf_words s Hw).
  unfold terminator. rewrite length_app, sample_words_length. unfold room in Hroom.
  destruct (Z.leb_spec VM_ELEMENT_SIZE (offset s + 4)); simpl; lia.
Qed.

Lemma mem_after_sample s : mem (after_sample s) = mem (sampled_all (nodes s) s).
Proof. done. Qed.

Lemma after_sample_wf s :
  wf s → BUFFER_FILLED_UP s = 0 → room s → wf (after_sample s).
Proof.
  intros Hw Hf Hroom. pose proof (sample_and_end_fit s Hw Hroom) as Hfit.
  destruct (sampled_all_only (nodes s) s (wf_kernel s Hw)) as (ts & m & Hs1 & Hm & Hk).
  assert (mem (after_sample s) = m) as Hmem
    by (rewrite mem_after_sample, Hs1; apply mem_counters).
  destruct Hw as [Hn Hd Hz Hker Hwq Hws Ho Hmod Hfull].
  split; rewrite ?Hmem; try done.
  - intros a Ha. by apply Hm, Hd.
  - apply eq_None_not_Some. rewrite Hm, Hz. by intros [].
  - intros p t Hp. apply (Hk p t). by rewrite Hs1.
  - change (length (splice (Z.to_nat (offset s)) (sample_words s ++ terminator s) (words s)) =
      Z.to_nat capacity). by rewrite splice_length.
  - change (0 <= offset s + 4). lia.
  - change ((offset s + 4) mod 4 = 0). by rewrite <- (Z.mul_1_l 4) at 1; rewrite Z.mod_add.
  - change ((if VM_ELEMENT_SIZE <=? offset s + 4 then 1 else BUFFER_FILLED_UP s) = 0 ∧
      offset s + 4 < VM_ELEMENT_SIZE ∧ offset s + 4 < capacity ∨
      (if VM_ELEMENT_SIZE <=? offset s + 4 then 1 else BUFFER_FILLED_UP s) = 1 ∧
      offset s + 4 <= VM_ELEMENT_SIZE).
    destruct Hfull as [[_ Hlt]|[? _]]; [|congruence].
    pose proof capacity_bounds.
    destruct (Z.leb_spec VM_ELEMENT_SIZE (offset s + 4)); [right|left]; (split; [done|]);
      unfold room, VM_ELEMENT_SIZE in *; lia.
Qed.

(** The kernel's side moves on: time, processes and their counters. *)
Definition set_kernel (j : Z) (p : gmap Z Z) (t : gmap Z task_struct) s : @mp3 L :=
  set_jiffies j (set_pids p (set_tasks t s)).

(** A recording: runs of the work, with the samples they take, between changes
    of the kernel's side. *)
Inductive records : @mp3 L → list (list Z) → @mp3 L → Prop :=
  | rec_end s : records s [] s
  | rec_kernel s j p t ws s' :
      kernel_ok (set_kernel j p t s) → records (set_kernel j p t s) ws s' → records s ws s'
  | rec_sample s s1 ws s' :
      workqueue_callback s = Ok (tt, s1) → records s1 ws s' →
      records s (sample_words s :: ws) s'.

Lemma set_kernel_wf j p t s : wf s → kernel_ok (set_kernel j p t s) → wf (set_kernel j p t s).
Proof. intros [] Hk. by split. Qed.

Definition ready s : Prop := wf s ∧ lock s = false ∧ BUFFER_FILLED_UP s = 0.

Lemma ready_after s : ready s → room s → offset s + 4 < VM_ELEMENT_SIZE → ready (after_sample s).
Proof.
  intros (Hw & Hl & Hf) Hroom Hlt. split_and!; [by apply after_sample_wf|done|].
  change ((if VM_ELEMENT_SIZE <=? offset s + 4 then 1 else BUFFER_FILLED_UP s) = 0).
  by rewrite (proj2 (Z.leb_gt _ _)).
Qed.

Lemma capacity_le : capacity <= VM_ELEMENT_SIZE.
Proof. pose proof capacity_bounds. unfold VM_ELEMENT_SIZE. lia. Qed.

Lemma records_length s ws s' : records s ws s' → Forall (λ w, length w = 4%nat) ws.
Proof. induction 1; try done. constructor; [apply sample_words_length|done]. Qed.

Lemma concat_samples_length (ws : list (list Z)) :
  Forall (λ w, length w = 4%nat) ws → length (concat ws) = (4 * length ws)%nat.
Proof. induction 1 as [|w ws Hw _ IH]; simpl; [done|]. rewrite length_app. lia. Qed.

(** The words written by a recording, with their end mark. *)
Lemma records_words s ws s' :
  records s ws s' → ready s → ws ≠ [] →
  offset s + 4 * Z.of_nat (length ws) < capacity →
  ready s' ∧ offset s' = offset s + 4 * Z.of_nat (length ws) ∧
  words s' = splice (Z.to_nat (offset s)) (concat ws ++ [MINUS_ONE]) (words s).
Proof.
  pose proof capacity_le as Hcap.
  induction 1 as [s|s j p t ws s' Hk _ IH|s s1 ws s' Hrun Hrec IH]; intros Hr Hne Hfit; [done|..].
  - apply IH; [|done|done]. destruct Hr as (Hw & Hl & Hf). split_and!; [|done|done].
    by apply set_kernel_wf.
  - destruct Hr as (Hw & Hl & Hf). pose proof (wf_offset s Hw) as Ho.
    cbn [length concat] in *. rewrite Nat2Z.inj_succ in *.
    assert (room s) as Hroom by (left; lia).
    rewrite callback_run in Hrun by done. injection Hrun as <-.
    assert (ready (after_sample s)) as Hr1 by (apply ready_after; [done|done|lia]).
    assert (terminator s = [MINUS_ONE]) as Hterm
      by (unfold terminator; by rewrite (proj2 (Z.leb_gt _ _)) by lia).
    assert (words (after_sample s) = splice (Z.to_nat (offset s))
      (sample_words s ++ [MINUS_ONE]) (words s)) as Hws.
    { rewrite <- Hterm. done. }
    change (offset (after_sample s)) with (offset s + 4) in IH.
    destruct ws as [|w ws].
    + clear IH. assert (ready s' ∧ offset s' = offset s + 4 ∧
        words s' = splice (Z.to_nat (offset s)) (sample_words s ++ [MINUS_ONE]) (words s))
        as (? & -> & ->).
      { revert Hrec Hr1 Hws. assert (offset (after_sample s) = offset s + 4) as Hoff by done.
        revert Hoff. generalize (after_sample s) as s0. clear.
        intros s0 Hoff Hrec. remember [] as ws eqn:Hnil.
        induction Hrec as [s0|s0 j p t ws s' Hk _ IH|]; [done| |done].
        intros (Hw & Hl & Hf) Hws. apply IH; [done|done| |done].
        split_and!; [by apply set_kernel_wf|done|done]. }
      split_and!; [done|simpl; lia|]. simpl. by rewrite ?app_nil_r.
    + destruct IH as (Hr' & -> & ->); [done|done|simpl length in *; lia|].
      split_and!; [done|lia|]. rewrite Hws.
      rewrite Z2Nat.inj_add by lia. change (Z.to_nat 4) with 4%nat.
      rewrite <- (app_assoc (sample_words s)), <- (sample_words_length s).
      pose proof (wf_words s Hw) as Hlw. pose proof (records_length _ _ _ Hrec) as Hall.
      apply splice_over; rewrite length_app, (concat_samples_length _ Hall); simpl in *; lia.
Qed.
(** C10: The monitor prints what the profiler recorded.  From an empty buffer
    (offset 0), a recording of at most 12000 samples, with whatever happens to
    time, processes and counters in between, makes [monitor] print exactly its
    samples, in order, one line each, between its messages; it counts them, leaves
    them erased, closes the device and exits with 0. *)
Theorem profile_read_back s ws s' timeinfo w opened p :
  records s ws s' → ready s → offset s = 0 → ws ≠ [] → Z.of_nat (length ws) <= 12000 →
  Forall Monitor.is_sample ws →
  Monitor.time_of_day timeinfo = Some w → Monitor.buf_fd p = -1 →
  0 <= opened → opened ∉ Monitor.fds p →
  ∃ m, Monitor.main timeinfo opened (Some (words s')) p = Ok (Some 0, m) ∧
    Monitor.out (Monitor.mon m) =
      (Monitor.out (Monitor.mon p) ++ Monitor.preamble w) ++
        concat (Monitor.sample_line <$> ws) ++ Monitor.read_msg (Z.of_nat (length ws)) ∧
    take (4 * length ws) (Monitor.buf (Monitor.mon m)) = replicate (4 * length ws) MINUS_ONE ∧
    Monitor.fds m = Monitor.fds p.
Proof.
  intros Hrec Hr Ho Hne Hlen Hws Hw Hfd Hop Hnew. pose proof capacity_bounds as Hcap.
  destruct (records_words s ws s' Hrec Hr Hne) as (_ & _ & ->); [lia|].
  rewrite Ho. unfold splice. simpl take. rewrite app_nil_l, <- app_assoc.
  change (concat ws ++ [MINUS_ONE] ++ ?post) with (Monitor.cleared 0 ++ concat ws ++ MINUS_ONE :: post).
  erewrite Monitor.main_reads; [|done..|].
  2:{ apply Monitor.read_all_run; [done|done| |by left]. unfold Monitor.BUFD_MAX. simpl. lia. }
  eexists. split_and!; [done|cbn [Monitor.out Monitor.mon]; by rewrite <- !app_assoc| |done].
  cbn [Monitor.buf Monitor.mon Nat.add]. unfold Monitor.cleared.
  by rewrite take_app_length' by by rewrite length_replicate.
Qed.

(** C33: The monitor always ends, and leaks no descriptor: whether or not the
    device opens and maps, and whatever a mapped buffer longer than its range
    holds, it stops after at most as many turns as there are elements in the
    range, without leaving the buffer, with the descriptors it started with; it
    exits with 0 iff it got the buffer. *)
Theorem monitor_ends timeinfo w opened mapped (p : Monitor.program) :
  Monitor.time_of_day timeinfo = Some w → Monitor.buf_fd p = -1 → opened ∉ Monitor.fds p →
  (∀ l, mapped = Some l → Monitor.BUFD_MAX < Z.of_nat (length l)) →
  ∃ r m, Monitor.main timeinfo opened mapped p = Ok (Some r, m) ∧
    Monitor.fds m = Monitor.fds p ∧ (r = 0 ↔ 0 <= opened ∧ is_Some mapped).
Proof.
  intros Hw Hfd Hnew Hl. destruct (Z_lt_le_dec opened 0) as [Ho|Ho].
  { erewrite Monitor.main_no_device by done. do 2 eexists. split_and!; [done..|lia]. }
  destruct mapped as [l|].
  - destruct (Monitor.read_all_ends (Monitor.mkMonitor l (Monitor.out (Monitor.mon p) ++ Monitor.preamble w)))
      as (n & m & Hrun); [by apply Hl|].
    erewrite Monitor.main_reads by done. do 2 eexists. split_and!; [done..|by split].
  - erewrite Monitor.main_no_mapping by done. do 2 eexists. split_and!; [done..|].
    split; [lia|]. by intros [_ []].
Qed.

(** The 16000th sample of 8-byte words since the buffer was empty. *)
Lemma sample_16000 s ws s' :
  records s ws s' → ready s → offset s = 0 → long_bytes = 8 → Z.of_nat (length ws) = 15999 →
  workqueue_callback s' = Oops OutOfBounds.
Proof.
  intros Hrec Hr Ho Hlong Hlen.
  assert (capacity = 64000) as Hcap by (unfold capacity; by rewrite Hlong).
  assert (ws ≠ []) as Hne by (intros ->; cbn in Hlen; lia).
  destruct (records_words s ws s' Hrec Hr Hne) as ((Hw & Hl & Hf) & Hoff & _); [lia|].
  apply callback_overrun; try done; rewrite Hcap; [lia|unfold VM_ELEMENT_SIZE; lia].
Qed.

(** As many samples as fit can be recorded. *)
Lemma recording_exists n : ∀ s,
  ready s → offset s + 4 * Z.of_nat n < capacity →
  ∃ ws s', records s ws s' ∧ length ws = n.
Proof.
  pose proof capacity_le as Hcap. induction n as [|n IH]; intros s Hr Hc.
  - exists [], s. split; [constructor|done].
  - pose proof Hr as (Hw & Hl & Hf). assert (room s) as Hroom by (left; lia).
    destruct (IH (after_sample s)) as (ws & s' & Hrec & <-);
      [apply ready_after; [done|done|lia]|change (offset (after_sample s)) with (offset s + 4); lia|].
    exists (sample_words s :: ws), s'. split; [|done].
    eapply rec_sample; [by apply callback_run|done].
Qed.

(** Two samples, between which time passes and the processes run as before. *)
Lemma two_recorded s j :
  ready s → offset s + 8 < capacity →
  let s1 := set_kernel j (pids s) (tasks s) (after_sample s) in
  records s [sample_words s; sample_words s1] (after_sample s1).
Proof.
  intros Hr Hc s1. pose proof capacity_le. pose proof Hr as (Hw & Hl & Hf).
  assert (room s) as Hroom by (left; lia).
  assert (ready (after_sample s)) as (Hw1 & Hl1 & Hf1) by (apply ready_after; done || lia).
  assert (kernel_ok s1) as Hk by exact (wf_kernel s Hw).
  eapply rec_sample; [by apply callback_run|]. eapply rec_kernel; [exact Hk|].
  eapply rec_sample; [|constructor].
  apply callback_run; [by apply set_kernel_wf|done|done|]. left.
  change (offset s + 4 + 4 < capacity). lia.
Qed.

(** Two registered structs stand for different processes. *)
Definition distinct_tasks s (l : list Z) : Prop :=
  ∀ a b v w t c c', a ∈ l → b ∈ l → a ≠ b → mem s !! a = Some v → mem s !! b = Some w →
    task_of s (pid v) = Some (t, c) → task_of s (pid w) ≠ Some (t, c').

Lemma distinct_pair s x y v w t c t' c' :
  mem s !! x = Some v → mem s !! y = Some w →
  task_of s (pid v) = Some (t, c) → task_of s (pid w) = Some (t', c') → t ≠ t' →
  distinct_tasks s [x; y].
Proof.
  intros Hv Hw Ht Ht' Hne a b v1 w1 u d d' Ha Hb Hab.
  rewrite !elem_of_cons, !elem_of_nil in Ha, Hb.
  destruct Ha as [->|[->|[]]], Hb as [->|[->|[]]]; intros; simplify_eq; congruence.
Qed.

Lemma sampled_task_of s a v t c p :
  mem s !! a = Some v → task_of s (pid v) = Some (t, c) →
  (∀ c', task_of s p ≠ Some (t, c')) → task_of (sampled a s) p = task_of s p.
Proof.
  intros Hv Ht Hp. unfold sampled. rewrite Hv, Ht. unfold task_of in *.
  change (pids (set_tasks ?x (set_mem ?m s))) with (pids s).
  change (tasks (set_tasks ?x ?y)) with x. destruct (pids s !! i32 (u32 p)) as [t'|]; [|done]. rewrite lookup_insert.
  case_decide; [subst|done]. destruct (tasks s !! t') as [c'|] eqn:Hc; [by destruct (Hp c')|].
  destruct (pids s !! i32 (u32 (pid v))) as [t2|]; [|done].
  destruct (tasks s !! t2) eqn:H2c; [|done]. congruence.
Qed.

Definition refreshed s (v : mp3_task_struct) : mp3_task_struct :=
  match task_of s (pid v) with Some (_, c) => counted v c | None => v end.

Lemma sampled_self s a v : mem s !! a = Some v → mem (sampled a s) !! a = Some (refreshed s v).
Proof.
  intros Hv. unfold sampled, refreshed. rewrite Hv.
  destruct (task_of s (pid v)) as [[t c]|]; [|done].
  by rewrite mem_counters, lookup_insert_eq.
Qed.

Lemma sampled_pid s a b v : mem s !! b = Some v →
  ∃ w, mem (sampled a s) !! b = Some w ∧ pid w = pid v.
Proof.
  intros Hv. destruct (decide (b = a)) as [->|Hne].
  - rewrite (sampled_self s a v Hv). eexists. split; [done|]. unfold refreshed. by repeat case_match.
  - rewrite sampled_other by done. by exists v.
Qed.

Lemma sampled_all_mem l : ∀ s a v,
  NoDup l → (∀ b, b ∈ l → is_Some (mem s !! b)) → distinct_tasks s l →
  mem s !! a = Some v →
  mem (sampled_all l s) !! a = Some (if decide (a ∈ l) then refreshed s v else v).
Proof.
  induction l as [|x l IH]; intros s a v Hnd Hl Hdist Hv; [done|].
  apply NoDup_cons in Hnd as [Hx Hnd]. simpl.
  destruct (Hl x) as [vx Hvx]; [set_solver|].
  assert (∀ b w, b ∈ l → mem s !! b = Some w → task_of (sampled x s) (pid w) = task_of s (pid w))
    as Hkeep.
  { intros b w Hb Hw. destruct (task_of s (pid vx)) as [[t c]|] eqn:Ht.
    - apply (sampled_task_of s x vx t c); [done|done|]. intros c'.
      apply (Hdist x b vx w t c c'); [set_solver|set_solver| |done|done|done].
      intros ->. done.
    - unfold sampled. by rewrite Hvx, Ht. }
  destruct (decide (a = x)) as [->|Hax].
  - rewrite (decide_True (P := x ∈ x :: l)) by set_solver.
    rewrite (IH (sampled x s) x (refreshed s v)); [|done| | |by apply sampled_self].
    + by rewrite decide_False.
    + intros b Hb. rewrite sampled_other by (intros ->; done). apply Hl. set_solver.
    + intros b1 b2 w1 w2 t c c' H1' H2' Hne Hw1 Hw2.
      rewrite sampled_other in Hw1, Hw2 by (intros ->; done).
      rewrite (Hkeep b1), (Hkeep b2) by done.
      apply (Hdist b1 b2); set_solver.
  - rewrite (IH (sampled x s) a v); [|done| | |by rewrite sampled_other].
    + destruct (decide (a ∈ l)) as [Ha|Ha].
      * rewrite decide_True by set_solver. f_equal. unfold refreshed. by rewrite (Hkeep a).
      * rewrite decide_False by set_solver. done.
    + intros b Hb. rewrite sampled_other by (intros ->; done). apply Hl. set_solver.
    + intros b1 b2 w1 w2 t c c' H1' H2' Hne Hw1 Hw2.
      rewrite sampled_other in Hw1, Hw2 by (intros ->; done).
      rewrite (Hkeep b1), (Hkeep b2) by done.
      apply (Hdist b1 b2); set_solver.
Qed.

(** C19: What a sample is.  One run of the work stores at the current offset the
    time and the sums, over the registered structs, of minor faults, major
    faults and CPU time; a struct whose process is alive has just been given
    the counts since the last sample, and one whose process is gone still
    holds, and contributes again, its last ones.  The offset moves by four, the
    end mark follows, and the work is queued again. *)
Theorem sample_contents s :
  ready s → offset s + 4 < capacity → distinct_tasks s (nodes s) →
  ∃ s', workqueue_callback s = Ok (tt, s') ∧ offset s' = offset s + 4 ∧
    words s' = splice (Z.to_nat (offset s)) (sample_words s ++ [MINUS_ONE]) (words s) ∧
    sample_words s =
      [ul (jiffies s); ul (sum_over (mem s') minor_pf (nodes s));
       ul (sum_over (mem s') major_pf (nodes s));
       ul (sum_over (mem s') (λ v, stime v + utime v) (nodes s))] ∧
    (∀ a v, a ∈ nodes s → mem s !! a = Some v → mem s' !! a = Some (refreshed s v)) ∧
    due (work s') = next_due s ∧ lock s' = false.
Proof.
  intros (Hw & Hl & Hf) Hc Hdist. pose proof capacity_le.
  exists (after_sample s). split_and!; try done.
  - apply callback_run; [done..|by left].
  - assert (terminator s = [MINUS_ONE]) as <-; [|done].
    unfold terminator. by rewrite (proj2 (Z.leb_gt _ _)) by lia.
  - intros a v Ha Hv. rewrite mem_after_sample.
    rewrite (sampled_all_mem (nodes s) s a v); [by rewrite decide_True|apply Hw|apply Hw|done|done].
Qed.
End profile.

(** ** Witnesses *)

#[local] Existing Instance arch64.
#[local] Opaque garbage.

Lemma two_entries_mem g :
  mem (two_entries arch64 g) =
    list_to_map [(4097, mkMp3Task 5001 2 3 4 5 1); (4098, mkMp3Task 5002 2 3 4 5 2)].
Proof. by vm_compute. Qed.

Lemma two_entries_kernel g : kernel_ok (two_entries arch64 g).
Proof.
  intros p t. replace (pids (two_entries arch64 g)) with (pids bare) by by vm_compute.
  replace (tasks (two_entries arch64 g)) with (tasks bare) by by vm_compute. apply bare_kernel.
Qed.

Lemma two_entries_globals g :
  let s := two_entries arch64 g in
  nodes s = [4097; 4098] ∧ words s = g ∧ offset s = 0 ∧ BUFFER_FILLED_UP s = 0 ∧
  lock s = false ∧ wq s = 13 ∧ jiffies s = 1000.
Proof. by vm_compute. Qed.

Lemma two_entries_ready g : Z.of_nat (length g) = capacity → ready (two_entries arch64 g).
Proof.
  intros Hg. destruct (two_entries_globals g) as (Hn & Hw & Ho & Hf & Hl & Hq & _).
  split_and!; [|exact Hl|exact Hf]. split; rewrite ?Hn, ?Hw, ?Ho, ?Hq.
  - apply (bool_decide_unpack _). by vm_compute.
  - clear. intros a. rewrite two_entries_mem, !elem_of_cons, elem_of_nil.
    intros [->|[->|[]]]; by eexists.
  - clear. by rewrite two_entries_mem.
  - apply two_entries_kernel.
  - by vm_compute.
  - by rewrite <- Hg, Nat2Z.id.
  - by vm_compute.
  - by vm_compute.
  - left. rewrite Hf. split_and!; by vm_compute.
Qed.

Definition later (g : list Z) : @mp3 (list Z) :=
  set_kernel 1005 (pids (two_entries arch64 g)) (tasks (two_entries arch64 g)) (after_sample (two_entries arch64 g)).

Lemma two_entries_sample g : sample_words (two_entries arch64 g) = [1000; 10; 1; 39].
Proof. by vm_compute. Qed.

Lemma later_sample g : sample_words (later g) = [1005; 10; 1; 39].
Proof. by vm_compute. Qed.

(** The monitor run at 21:49:08, with the standard descriptors open. *)
Definition clock_text : list ascii := str "Wed Jun 30 21:49:08 1993" ++ [newline].
Definition monitor_start : Monitor.program :=
  Monitor.mkProgram (-1) [0; 1; 2] (Monitor.mkMonitor [] []).

Lemma profile_read_back_witness :
  ∃ m, Monitor.main clock_text 3 (Some (words (after_sample (later (garbage 8))))) monitor_start
         = Ok (Some 0, m) ∧
    Monitor.out (Monitor.mon m) = Monitor.preamble (str "21:49:08") ++
      str "1000 10 1 39" ++ newline :: str "1005 10 1 39" ++ newline :: str "read 2 profiled data" ++ [newline].
Proof.
  pose proof (two_entries_ready (garbage 8) (garbage_length 8 ltac:(done))) as Hr.
  pose proof (two_entries_globals (garbage 8)) as (_ & _ & Ho & _).
  destruct (profile_read_back (two_entries arch64 (garbage 8))
    [sample_words (two_entries arch64 (garbage 8)); sample_words (later (garbage 8))]
    (after_sample (later (garbage 8))) clock_text (str "21:49:08") 3 monitor_start)
    as (m & Hm & Hout & _).
  - assert (offset (two_entries arch64 (garbage 8)) + 8 < capacity) as Hc by (rewrite Ho; by vm_compute).
    exact (two_recorded (two_entries arch64 (garbage 8)) 1005 Hr Hc).
  - exact Hr.
  - exact Ho.
  - done.
  - by vm_compute.
  - rewrite two_entries_sample, later_sample. repeat constructor; do 4 eexists; (split; [done|by vm_compute]).
  - by vm_compute.
  - done.
  - done.
  - apply (bool_decide_unpack _); by vm_compute.
  - rewrite two_entries_sample, later_sample in Hout. exists m. split; [exact Hm|]. rewrite Hout. by vm_compute.
Defined.

Lemma monitor_ends_witness :
  ∃ r m, Monitor.main clock_text 3 (Some (garbage 8)) monitor_start = Ok (Some r, m) ∧
    Monitor.fds m = [0; 1; 2].
Proof.
  destruct (monitor_ends clock_text (str "21:49:08") 3 (Some (garbage 8)) monitor_start)
    as (r & m & Hm & Hfds & _).
  - by vm_compute.
  - done.
  - apply (bool_decide_unpack _); by vm_compute.
  - intros l Hl. injection Hl as <-. rewrite garbage_length by done. by vm_compute.
  - exists r, m. split; [exact Hm|exact Hfds].
Defined.

Lemma two_entries_tasks g :
  task_of (two_entries arch64 g) 1 = Some (5001, mkTask 3 1 10 4) ∧
  task_of (two_entries arch64 g) 2 = Some (5002, mkTask 7 0 20 5).
Proof. by vm_compute. Qed.

Lemma two_entries_distinct g : distinct_tasks (two_entries arch64 g) [4097; 4098].
Proof.
  destruct (two_entries_tasks g) as [H1 H2].
  eapply distinct_pair; [rewrite two_entries_mem; reflexivity|rewrite two_entries_mem; reflexivity| | |].
  - exact H1.
  - exact H2.
  - done.
Qed.

Lemma sample_contents_witness :
  let s := two_entries arch64 (garbage 8) in
  ∃ s', workqueue_callback s = Ok (tt, s') ∧ offset s' = 4 ∧
    words s' = splice 0 ([1000; 10; 1; 39] ++ [MINUS_ONE]) (garbage 8) ∧ lock s' = false.
Proof.
  intros s. pose proof (two_entries_ready (garbage 8) (garbage_length 8 ltac:(done))) as Hr.
  pose proof (two_entries_globals (garbage 8)) as (Hn & Hw & Ho & _).
  pose proof (two_entries_sample (garbage 8)) as Hs.
  destruct (sample_contents s) as (s' & Hrun & Hoff & Hwords & _ & _ & _ & Hlock).
  - exact Hr.
  - unfold s. rewrite Ho. by vm_compute.
  - unfold s. rewrite Hn. apply two_entries_distinct.
  - exists s'. split; [exact Hrun|]. unfold s in *. rewrite Ho in Hoff, Hwords.
    split; [exact Hoff|]. rewrite Hs, Hw in Hwords. split; [exact Hwords|exact Hlock].
Defined.
