(* ===== verification/Mp3Entry.v ===== *)
(** * MP3: registration, and the lock

    The requests of src/MP3/mp3.c as steps of a system with the timer of the
    work and the rest of the kernel: the invariant they keep, what registering
    and unregistering do, where the work stays in its buffer, and the ways the
    module stops for good (a lock that is not released, a wait for a callback
    that waits for the lock, a full buffer). *)
From Stdlib Require Import Ascii String.
From stdpp Require Import base gmap sets list strings relations.
From Stdlib Require Import ZArith Lia.
From S2P Require Import Prelude CString Kernel Mp3 Mp3Run Mp3State Mp3User Mp3Profile.
Import Reference.

Open Scope Z_scope.
Open Scope c_scope.

Section entry.
Context {L : Type} `{!KList L, !KConst, !Allocator, !Kstrto, !Arch}.
Context `{!KListLaws L, !KConstLaws, !AllocatorLaws, !KstrtoLaws, !ArchLaws}.
Implicit Types s : @mp3 L.

Variable stale : mp3_task_struct.

(** ** Finding a pid *)

Definition has_pid (m : gmap Z mp3_task_struct) (p a : Z) : option Z :=
  match m !! a with
  | Some v => if pid v =? p then Some a else None
  | None => None
  end.

Definition first_with_pid s (p : Z) : option Z := find_map (has_pid (mem s) p) (nodes s).

Lemma get_by_pid_run s p :
  wf s → get_by_pid p s = Ok (default NULL (first_with_pid s p), s).
Proof.
  intros Hw. unfold get_by_pid, bind, get. simpl. unfold first_with_pid. fold (nodes s).
  destruct (list_empty (HEAD s)) eqn:He.
  - apply nodes_empty in He. unfold nodes. by rewrite He.
  - rewrite (find_each_read _ (has_pid (mem s) p)); [done|].
    intros a Ha. apply (listed_node s a Hw) in Ha as [Hnn [v Hv]].
    unfold bind. rewrite (load_run a v) by done. unfold has_pid. by rewrite Hv.
Qed.

Lemma listed_pid_Some s p a :
  wf s → first_with_pid s p = Some a →
  a ∈ nodes s ∧ a ≠ NULL ∧ ∃ v, mem s !! a = Some v ∧ pid v = p.
Proof.
  intros Hw (pre & x & post & Hl & Hx & _)%find_map_Some. unfold has_pid in Hx. cases.
  assert (a ∈ nodes s) as Ha by (rewrite Hl; set_solver). split; [done|].
  split; [by apply (listed_node s a Hw)|]. by eexists.
Qed.

(** ** Registering *)

Definition new_entry (task p : Z) : mp3_task_struct :=
  mkMp3Task task (utime stale) (stime stale) (minor_pf stale) (major_pf stale) p.

(** The process a pid stands for, as a pointer. *)
Definition task_ptr s (p : Z) : Z := default NULL (pids s !! i32 (u32 p)).

Definition with_entry s (a p : Z) : @mp3 L :=
  set_slab (mkHeap (<[a := new_entry (task_ptr s p) p]> (mem s)) (Datatypes.S (n_alloc (slab s)))) s.

(** The registration up to the test of [find_task_by_pid]. *)
Lemma wp_reg_entry s p a (Q : Z → @mp3 L → Prop) E :
  alloc_addr (n_alloc (slab s)) (dom (mem s)) = Some a →
  (task_ptr s p = NULL → Q 1 (with_entry s a p)) →
  (task_ptr s p ≠ NULL →
     wp (spin_lock ;!
         let! s := get in
         (if list_empty (HEAD s) then
            INIT_DELAYED_WORK ;! queue_delayed_work (DELAYED s) ;! ret tt
          else ret tt) ;!
         head_add_tail a ;!
         spin_unlock ;!
         ret 0) Q E (with_entry s a p)) →
  wp (reg_entry stale p) Q E s.
Proof.
  intros Ha Hno Hyes. pose proof (alloc_not_null _ _ _ Ha) as Hnn.
  unfold reg_entry. apply wp_bind. unfold wp at 1, kmalloc. cbn [heap_of mp3_heap with_heap].
  rewrite Ha. apply wp_bind. eapply wp_update; [done|apply lookup_insert_eq|].
  unfold find_task_by_pid. wp_pure.
  eapply (wp_update a (mkMp3Task (tsk stale) (utime stale) (stime stale) (minor_pf stale)
    (major_pf stale) p)); [done|rewrite mem_set_mem; apply lookup_insert_eq|].
  rewrite mem_set_mem, insert_insert_eq.
  match goal with |- wp _ _ _ ?s1 => assert (s1 = with_entry s a p) as -> end.
  { unfold with_entry, set_mem, mem, task_ptr. cbn. by rewrite insert_insert_eq. }
  change (pids (set_mem _ _)) with (pids s). fold (task_ptr s p).
  destruct (Z.eqb_spec (task_ptr s p) NULL) as [He|Hne]; [wp_pure; by apply Hno|by apply Hyes].
Qed.

Lemma profiler_reg_no_memory s p :
  alloc_addr (n_alloc (slab s)) (dom (mem s)) = None → reg_entry stale p s = Oops NullDeref.
Proof. intros Ha. unfold reg_entry, bind, kmalloc. cbn [heap_of mp3_heap]. by rewrite Ha. Qed.

Definition registered s (a p : Z) : @mp3 L :=
  let s1 := with_entry s a p in
  set_lock false (set_HEAD (list_add_tail a (HEAD s))
    (if list_empty (HEAD s)
     then set_work (mkWork (Some (ul (jiffies s + DELAYED s))) (running (work s))) s1
     else s1)).

Lemma profiler_reg_run s p a :
  wf s → lock s = false → task_ptr s p ≠ NULL →
  alloc_addr (n_alloc (slab s)) (dom (mem s)) = Some a →
  reg_entry stale p s = Ok (0, registered s a p).
Proof.
  intros Hw Hlock Ht Ha. pose proof (alloc_not_null _ _ _ Ha) as Hnn.
  apply run_of_wp. apply (wp_reg_entry s p a); [done|done|intros _].
  unfold spin_lock. wp_pure. cbn [lock with_entry set_slab]. rewrite Hlock. wp_pure.
  unfold registered. change (HEAD (set_lock true (with_entry s a p))) with (HEAD s).
  destruct (list_empty (HEAD s)) eqn:He.
  - unfold INIT_DELAYED_WORK, queue_delayed_work, head_add_tail. wp_pure. cbn [wq with_entry set_lock set_slab set_work].
    rewrite (proj2 (Z.eqb_neq _ NULL) (wf_wq s Hw)). cbn [due work set_work]. wp_pure.
    apply (wp_load a (new_entry (task_ptr s p) p)); [done|apply lookup_insert_eq|].
    unfold spin_unlock. by wp_pure.
  - unfold head_add_tail. wp_pure.
    apply (wp_load a (new_entry (task_ptr s p) p)); [done|apply lookup_insert_eq|].
    unfold spin_unlock. by wp_pure.
Qed.

Lemma reg_entry_dead s p a :
  task_ptr s p = NULL → alloc_addr (n_alloc (slab s)) (dom (mem s)) = Some a →
  reg_entry stale p s = Ok (1, with_entry s a p).
Proof. intros Ht Ha. apply run_of_wp. by apply (wp_reg_entry s p a). Qed.

Lemma reg_entry_locked s p a :
  lock s = true → task_ptr s p ≠ NULL →
  alloc_addr (n_alloc (slab s)) (dom (mem s)) = Some a →
  reg_entry stale p s = Oops Deadlock.
Proof.
  intros Hlock Ht Ha.
  assert (wp (reg_entry stale p) (λ _ _, False) (λ e, e = Deadlock) s) as Hrun.
  { apply (wp_reg_entry s p a); [done|done|intros _]. unfold spin_lock. wp_pure.
    cbn [lock with_entry set_slab]. by rewrite Hlock. }
  unfold wp in Hrun. destruct (reg_entry stale p s) as [[? ?]|e]; [done|by subst].
Qed.

(** ** Unregistering *)

Definition unregistered s (a : Z) : @mp3 L :=
  let h := list_del a (HEAD s) in
  let s1 := set_lock false (set_HEAD h (set_mem (delete a (mem s)) s)) in
  if list_empty h then set_work (mkWork None false) (set_offset 0 s1) else s1.

Lemma unreg_entry_locked s p : lock s = true → unreg_entry p s = Oops Deadlock.
Proof. intros Hl. unfold unreg_entry, spin_lock, bind, gets. by rewrite Hl. Qed.

Lemma wp_unreg_entry s p (Q : Z → @mp3 L → Prop) E :
  wf s → lock s = false →
  (first_with_pid s p = None → Q 0 (set_lock true s)) →
  (∀ a v, first_with_pid s p = Some a → a ∈ nodes s → a ≠ NULL → mem s !! a = Some v →
     let s1 := set_HEAD (list_del a (HEAD s)) (set_lock true s) in
     wp (if list_empty (HEAD s1) then modify (set_offset 0) ;! cancel_delayed_work_sync
         else ret tt) (λ _, wp (kfree a ;! spin_unlock ;! ret 0) Q E) E s1) →
  wp (unreg_entry p) Q E s.
Proof.
  intros Hw Hlock Hno Hyes. unfold unreg_entry, spin_lock. wp_pure. rewrite Hlock. wp_pure.
  assert (wf (set_lock true s)) as Hw' by by destruct Hw.
  eapply wp_of_run; [by apply get_by_pid_run|].
  change (first_with_pid (set_lock true s) p) with (first_with_pid s p).
  destruct (first_with_pid s p) as [a|] eqn:Hf; [|simpl; wp_pure; by apply Hno].
  destruct (listed_pid_Some s p a Hw Hf) as (Ha & Hnn & v & Hv & _). simpl.
  rewrite (proj2 (Z.eqb_neq a NULL) Hnn). unfold head_del. wp_pure.
  apply (wp_load a v); [done|exact Hv|]. wp_pure. by apply (Hyes a v).
Qed.

Lemma unreg_entry_unknown s p :
  wf s → lock s = false → first_with_pid s p = None →
  unreg_entry p s = Ok (0, set_lock true s).
Proof.
  intros Hw Hl Hf. apply run_of_wp, wp_unreg_entry; [done|done|done|]. intros a v Hf'. congruence.
Qed.

Lemma unreg_entry_run s p a :
  wf s → lock s = false → running (work s) = false → first_with_pid s p = Some a →
  unreg_entry p s = Ok (0, unregistered s a).
Proof.
  intros Hw Hl Hr Hf. apply run_of_wp, wp_unreg_entry; [done|done|congruence|].
  intros a' v Hf' Ha Hnn Hv s1. assert (a' = a) as -> by congruence.
  unfold unregistered. change (HEAD s1) with (list_del a (HEAD s)).
  destruct (list_empty (list_del a (HEAD s))).
  - unfold cancel_delayed_work_sync. wp_pure. cbn [work set_offset set_HEAD set_lock s1].
    rewrite Hr. simpl. wp_pure. apply (wp_kfree a v); [done|exact Hv|].
    unfold spin_unlock. by wp_pure.
  - wp_pure. apply (wp_kfree a v); [done|exact Hv|]. unfold spin_unlock. by wp_pure.
Qed.

(** Waiting, with the lock, for a callback that waits for the lock. *)
Lemma unreg_entry_running s p a :
  wf s → lock s = false → running (work s) = true → first_with_pid s p = Some a →
  nodes s = [a] → unreg_entry p s = Oops Deadlock.
Proof.
  intros Hw Hl Hr Hf Hn.
  assert (wp (unreg_entry p) (λ _ _, False) (λ e, e = Deadlock) s) as Hrun.
  { apply wp_unreg_entry; [done|done|congruence|].
    intros a' v Hf' Ha Hnn Hv s1. assert (a' = a) as -> by congruence.
    assert (list_empty (HEAD s1) = true) as ->.
    { apply nodes_empty. change (HEAD s1) with (list_del a (HEAD s)).
      unfold nodes in *. rewrite nodes_del; rewrite Hn; [|apply NoDup_singleton|set_solver].
      rewrite filter_cons_False by naive_solver. done. }
    unfold cancel_delayed_work_sync. wp_pure. cbn [work set_offset set_HEAD set_lock s1].
    by rewrite Hr. }
  unfold wp in Hrun. destruct (unreg_entry p s) as [[? ?]|e]; [done|by subst].
Qed.
(** ** The invariant of the system *)

(** Between operations no callback is on its way; the work is pending while
    something is registered and the buffer is not full, and never when nothing
    is registered. *)
Record inv s : Prop := mkInv {
  inv_wf : wf s;
  inv_running : running (work s) = false;
  inv_idle : nodes s = [] → due (work s) = None;
  inv_pending : nodes s ≠ [] → BUFFER_FILLED_UP s = 0 → due (work s) ≠ None
}.

Lemma nodes_with_entry s a p : nodes (with_entry s a p) = nodes s.
Proof. done. Qed.

Lemma with_entry_inv s a p :
  inv s → a ≠ NULL → mem s !! a = None → inv (with_entry s a p).
Proof.
  intros [[Hn Hd Hz Hk Hwq Hws Ho Hmod Hfull] Hr Hi Hp] Hnn Hfresh.
  split; [|done..]. split; try done; unfold mem; cbn.
  - intros b Hb. rewrite lookup_insert. case_decide; [by eexists|by apply Hd].
  - by rewrite lookup_insert_ne.
Qed.

Lemma registered_nodes s a p :
  a ∉ nodes s → nodes (registered s a p) = nodes s ++ [a].
Proof. intros Ha. unfold registered, nodes. cbn. by rewrite nodes_add_tail. Qed.

Lemma registered_mem s a p :
  mem (registered s a p) = <[a := new_entry (task_ptr s p) p]> (mem s).
Proof. unfold registered. by destruct (list_empty (HEAD s)). Qed.

Lemma registered_inv s a p :
  inv s → a ≠ NULL → mem s !! a = None → inv (registered s a p).
Proof.
  intros Hi Hnn Hfresh. pose proof Hi as [Hw Hr Hidle Hp].
  assert (a ∉ nodes s) as Ha by (intros Ha%(wf_mem s Hw); rewrite Hfresh in Ha; by destruct Ha).
  pose proof (registered_nodes s a p Ha) as Hnodes.
  destruct Hw as [Hn Hd Hz Hk Hwq Hws Ho Hmod Hfull].
  split; [split; rewrite ?Hnodes, ?registered_mem|rewrite ?Hnodes..].
  - apply NoDup_app. split_and!; [done|set_solver|apply NoDup_singleton].
  - intros b [Hb| ->%list_elem_of_singleton]%elem_of_app; rewrite lookup_insert;
      case_decide; try (exfalso; congruence); first [by eexists | by apply Hd].
  - by rewrite lookup_insert_ne.
  - unfold registered. by destruct (list_empty (HEAD s)).
  - unfold registered. by destruct (list_empty (HEAD s)).
  - unfold registered. by destruct (list_empty (HEAD s)).
  - unfold registered. by destruct (list_empty (HEAD s)).
  - unfold registered. by destruct (list_empty (HEAD s)).
  - unfold registered. by destruct (list_empty (HEAD s)).
  - unfold registered. by destruct (list_empty (HEAD s)).
  - intros [_ Hx]%app_nil. done.
  - intros _. unfold registered. destruct (list_empty (HEAD s)) eqn:He; [done|].
    cbn. apply Hp. intros Hnil. apply nodes_empty in Hnil. congruence.
Qed.

Lemma unregistered_nodes s a :
  wf s → a ∈ nodes s → nodes (unregistered s a) = filter (λ b, b ≠ a) (nodes s).
Proof.
  intros Hw Ha. unfold unregistered. set (h := list_del a (HEAD s)).
  assert (list_nodes h = filter (λ b, b ≠ a) (nodes s)) as <- by (apply nodes_del; [apply Hw|done]).
  by destruct (list_empty h).
Qed.

Lemma unregistered_empty s a :
  wf s → a ∈ nodes s →
  list_empty (list_del a (HEAD s)) = true ↔ nodes (unregistered s a) = [].
Proof.
  intros Hw Ha. rewrite nodes_empty, (unregistered_nodes s a Hw Ha), nodes_del;
    [done|apply Hw|done].
Qed.

Lemma unregistered_mem s a : mem (unregistered s a) = delete a (mem s).
Proof. unfold unregistered. by destruct (list_empty _). Qed.

Lemma unregistered_inv s a : inv s → a ∈ nodes s → inv (unregistered s a).
Proof.
  intros [Hw Hr Hidle Hp] Ha. pose proof (unregistered_nodes s a Hw Ha) as Hnodes.
  pose proof capacity_bounds as Hcap.
  pose proof (unregistered_empty s a Hw Ha) as Hemp.
  destruct Hw as [Hn Hd Hz Hk Hwq Hws Ho Hmod Hfull].
  assert (BUFFER_FILLED_UP (unregistered s a) = BUFFER_FILLED_UP s) as Hff
    by (unfold unregistered; by destruct (list_empty _)).
  split; [split; rewrite ?unregistered_mem|..].
  - rewrite Hnodes. by apply NoDup_filter.
  - intros b. rewrite Hnodes, list_elem_of_filter. intros [Hb Hin].
    rewrite lookup_delete_ne by done. by apply Hd.
  - rewrite lookup_delete. by case_decide.
  - unfold unregistered. by destruct (list_empty _).
  - unfold unregistered. by destruct (list_empty _).
  - unfold unregistered. by destruct (list_empty _).
  - unfold unregistered. by destruct (list_empty _).
  - unfold unregistered. by destruct (list_empty _).
  - rewrite Hff. assert (offset (unregistered s a) = 0 ∨ offset (unregistered s a) = offset s)
      as [-> | ->] by (unfold unregistered; destruct (list_empty _); auto); [|done].
    unfold VM_ELEMENT_SIZE in *. lia.
  - unfold unregistered. by destruct (list_empty _).
  - intros Hnil. apply Hemp in Hnil. unfold unregistered. by rewrite Hnil.
  - rewrite Hff. intros Hne Hf. unfold unregistered.
    destruct (list_empty (list_del a (HEAD s))); [by destruct Hne; apply Hemp|].
    apply Hp; [|done]. intros Hnil. rewrite Hnil in Ha. by apply elem_of_nil in Ha.
Qed.

Lemma reg_entry_inv s p r s' : inv s → reg_entry stale p s = Ok (r, s') → inv s'.
Proof.
  intros Hi Hrun. destruct (alloc_addr (n_alloc (slab s)) (dom (mem s))) as [a|] eqn:Ha;
    [|by rewrite profiler_reg_no_memory in Hrun].
  pose proof (alloc_not_null _ _ _ Ha) as Hnn.
  destruct (alloc_fresh _ _ _ Ha) as [Hfresh%not_elem_of_dom _].
  destruct (decide (task_ptr s p = NULL)) as [Ht|Ht].
  - rewrite (reg_entry_dead s p a Ht Ha) in Hrun. simplify_eq. by apply with_entry_inv.
  - destruct (lock s) eqn:Hl; [by rewrite (reg_entry_locked s p a) in Hrun|].
    rewrite (profiler_reg_run s p a (inv_wf s Hi) Hl Ht Ha) in Hrun. simplify_eq.
    by apply registered_inv.
Qed.

Lemma unreg_entry_inv s p r s' : inv s → unreg_entry p s = Ok (r, s') → inv s'.
Proof.
  intros Hi Hrun. destruct (lock s) eqn:Hl; [by rewrite unreg_entry_locked in Hrun|].
  destruct (first_with_pid s p) as [a|] eqn:Hf.
  - rewrite (unreg_entry_run s p a (inv_wf s Hi) Hl (inv_running s Hi) Hf) in Hrun. simplify_eq.
    apply unregistered_inv; [done|]. by apply (listed_pid_Some s p a (inv_wf s Hi)).
  - rewrite (unreg_entry_unknown s p (inv_wf s Hi) Hl Hf) in Hrun. simplify_eq.
    destruct Hi as [[] ? ? ?]. by split.
Qed.

Lemma mywrite_inv ubuf s r s' : inv s → mywrite stale ubuf s = Ok (r, s') → inv s'.
Proof.
  intros Hi Hrun. unfold mywrite in Hrun. case_match; [by injection Hrun as _ <-|].
  run_inv Hrun. unfold lift in Hrun0. destruct (string_at _ 2); [|done]. simplify_eq.
  case_match; [by injection Hrun as _ <-|].
  run_inv Hrun. unfold ret in Hrun. simplify_eq.
  repeat case_decide; try run_inv Hrun0; unfold ret in Hrun0; simplify_eq;
    first [done | by eapply reg_entry_inv | by eapply unreg_entry_inv].
Qed.

(** ** The system *)

Inductive event : Type :=
  | Write (ubuf : list ascii)
  | Work
  | Kernel (j : Z) (p : gmap Z Z) (t : gmap Z task_struct).

(** The timer of the work is taken off its queue when the work runs. *)
Definition work_fires : M (@mp3 L) unit :=
  modify (λ s, set_work (mkWork None (running (work s))) s) ;! workqueue_callback.

Inductive step : event → @mp3 L → @mp3 L → Prop :=
  | step_write ubuf r s s' : mywrite stale ubuf s = Ok (r, s') → step (Write ubuf) s s'
  | step_work d s s' : due (work s) = Some d → d <= jiffies s →
      work_fires s = Ok (tt, s') → step Work s s'
  | step_kernel j p t s : kernel_ok (set_kernel j p t s) →
      step (Kernel j p t) s (set_kernel j p t s).

Inductive loaded : @mp3 L → Prop :=
  | loaded_init d f q v major garbage s0 s :
      mem s0 = ∅ → kernel_ok s0 → work s0 = mkWork None false → q ≠ NULL →
      length garbage = Z.to_nat capacity →
      mp3_init d f q v major garbage s0 = Ok (0, s) → loaded s.

Definition reachable s : Prop :=
  ∃ s0, loaded s0 ∧ rtc (λ s1 s2, ∃ e, step e s1 s2) s0 s.

Lemma room_or_overrun s : wf s → BUFFER_FILLED_UP s = 0 →
  room s ∨ offset s + 4 = capacity ∧ capacity < VM_ELEMENT_SIZE.
Proof.
  intros Hw Hf. pose proof (wf_mod s Hw). pose proof capacity_bounds.
  destruct (wf_full s Hw) as [(_ & ? & ?)|[? _]]; [|congruence].
  unfold room, VM_ELEMENT_SIZE in *.
  assert (offset s = 4 * (offset s / 4)) by (rewrite (Z.div_mod (offset s) 4) at 1; lia). lia.
Qed.

Lemma callback_cases s s' :
  wf s → lock s = false → workqueue_callback s = Ok (tt, s') →
  BUFFER_FILLED_UP s ≠ 0 ∧ s' = s ∨ BUFFER_FILLED_UP s = 0 ∧ room s ∧ s' = after_sample s.
Proof.
  intros Hw Hl Hrun. destruct (decide (BUFFER_FILLED_UP s = 0)) as [Hf|Hf].
  - right. destruct (room_or_overrun s Hw Hf) as [Hr|[Hc Hlt]].
    + rewrite callback_run in Hrun by done. by simplify_eq.
    + by rewrite callback_overrun in Hrun.
  - left. rewrite callback_full in Hrun by done. by simplify_eq.
Qed.

Lemma callback_locked_out s :
  lock s = true → BUFFER_FILLED_UP s = 0 → workqueue_callback s = Oops Deadlock.
Proof.
  intros Hl Hf. unfold workqueue_callback, callback_entry, callback_locked, spin_lock, bind,
    get, gets, modify, ret. rewrite Hf. simpl. by rewrite Hl.
Qed.

Lemma work_fires_inv s d s' :
  inv s → due (work s) = Some d → work_fires s = Ok (tt, s') → inv s'.
Proof.
  intros [Hw Hr Hidle Hp] Hd Hrun. unfold work_fires, bind, modify in Hrun.
  set (s1 := set_work (mkWork None (running (work s))) s) in *.
  assert (wf s1) as Hw1 by by destruct Hw.
  assert (nodes s ≠ []) as Hne by (intros Hn; rewrite Hidle in Hd by done; done).
  destruct (lock s) eqn:Hl.
  - destruct (decide (BUFFER_FILLED_UP s = 0)) as [Hf|Hf].
    + by rewrite (callback_locked_out s1) in Hrun.
    + rewrite (callback_full s1) in Hrun by done. simplify_eq. by split.
  - destruct (callback_cases s1 s' Hw1 Hl Hrun) as [[Hf ->]|(Hf & Hroom & ->)]; [by split|].
    split; [by apply after_sample_wf|done|by intros Hn|by intros _ _].
Qed.

Lemma vm_reserved_frame fuel : ∀ i s s',
  vm_reserved_loop fuel i s = Ok (tt, s') →
  ∃ cs, s' = mkMp3 (fp s) (dir s) (HEAD s) (chrdev_major s) (wq s) (work s) (vm s) (words s)
    (DELAYED s) (offset s) (BUFFER_FILLED_UP s) (lock s) (slab s) (jiffies s) (pids s)
    (tasks s) cs.
Proof.
  induction fuel as [|fuel IH]; intros i s s' Hrun; cbn [vm_reserved_loop] in Hrun.
  - injection Hrun as <-. exists (calls s). by destruct s.
  - destruct (i <? VM_SIZE).
    + unfold bind, gets, modify, fail in Hrun. destruct (vm s =? NULL); [done|].
      apply IH in Hrun as [cs ->]. by exists cs.
    + injection Hrun as <-. exists (calls s). by destruct s.
Qed.

Lemma loaded_inv s : loaded s → inv s ∧ nodes s = [] ∧ lock s = false ∧ offset s = 0.
Proof.
  intros [d f q v major garbage s0 s' Hm Hk Hwork Hq Hg Hrun]. unfold mp3_init in Hrun.
  pose proof errno_pos as (_ & _ & He & _).
  unfold bind at 1, modify at 1 in Hrun. destruct (f =? NULL).
  { unfold bind, modify, ret in Hrun. injection Hrun as Hz _. lia. }
  unfold bind at 1 2 3 4 5 6 7, modify at 1 2 3 4 5 6 7 in Hrun. unfold bind at 1 in Hrun.
  unfold vm_reserved in Hrun.
  match type of Hrun with
  | match vm_reserved_loop ?fuel ?i ?s with _ => _ end = _ =>
      destruct (vm_reserved_loop fuel i s) as [[[] s1]|] eqn:Hres; [|done]
  end.
  apply vm_reserved_frame in Hres as [cs ->].
  unfold bind, modify, ret in Hrun. injection Hrun as <-.
  assert (list_nodes INIT_LIST_HEAD = []) as Hnil by apply nodes_init.
  pose proof capacity_bounds.
  split_and!; [|done|done|done]. split; [split|..]; unfold nodes; cbn; rewrite ?Hnil; try done.
  - constructor.
  - by intros a ?%elem_of_nil.
  - change (mem s0 !! NULL = None). by rewrite Hm.
  - left. unfold VM_ELEMENT_SIZE. lia.
  - by rewrite Hwork.
  - by rewrite Hwork.
Qed.

Lemma profiler_step_inv e s s' : inv s → step e s s' → inv s'.
Proof.
  intros Hi Hstep. destruct Hstep as [ubuf r s s1 Hrun|d s s1 Hd _ Hrun|j p t s Hk].
  - by eapply mywrite_inv.
  - by eapply work_fires_inv.
  - destruct Hi as [Hw ? ? ?]. split; [by apply set_kernel_wf|done..].
Qed.

Lemma profiler_reachable_inv s : reachable s → inv s.
Proof.
  intros (s0 & Hl & Hsteps). apply loaded_inv in Hl as [Hi _].
  induction Hsteps as [|s0 s1 s2 [e Hstep] _ IH]; [done|]. apply IH. by eapply profiler_step_inv.
Qed.
(** ** A recording that goes on *)

Definition runs : relation (@mp3 L) := rtc (λ s1 s2, ∃ e, step e s1 s2).

(** When its time has come, the pending work takes a sample. *)
Lemma sample_step s :
  inv s → lock s = false → nodes s ≠ [] → BUFFER_FILLED_UP s = 0 → room s →
  ∃ s', runs s s' ∧ inv s' ∧ lock s' = false ∧ nodes s' = nodes s ∧
    offset s' = offset s + 4 ∧
    BUFFER_FILLED_UP s' = if VM_ELEMENT_SIZE <=? offset s + 4 then 1 else 0.
Proof.
  intros Hi Hl Hn Hf Hroom. pose proof (inv_wf s Hi) as Hw.
  destruct (due (work s)) as [d|] eqn:Hd; [|by destruct (inv_pending s Hi Hn Hf)].
  set (s1 := set_kernel d (pids s) (tasks s) s).
  assert (kernel_ok s1) as Hk by exact (wf_kernel s Hw).
  set (s2 := set_work (mkWork None (running (work s))) s1).
  assert (wf s2) as Hw2 by by destruct (set_kernel_wf d (pids s) (tasks s) s Hw Hk).
  assert (step Work s1 (after_sample s2)) as Hstep.
  { apply (step_work d); [done|cbn; lia|]. unfold work_fires, bind, modify.
    by apply callback_run. }
  exists (after_sample s2). split_and!; try done.
  - eapply rtc_l; [by exists (Kernel d (pids s) (tasks s)); constructor|].
    by apply rtc_once; exists Work.
  - eapply profiler_step_inv; [|exact Hstep]. eapply profiler_step_inv; [exact Hi|].
    by apply (step_kernel d (pids s) (tasks s)).
  - change (BUFFER_FILLED_UP (after_sample s2)) with
      (if VM_ELEMENT_SIZE <=? offset s + 4 then 1 else BUFFER_FILLED_UP s). by rewrite Hf.
Qed.

(** Where the buffer holds [VM_ELEMENT_SIZE] words, it fills up. *)
Lemma fills_up n : ∀ s,
  capacity = VM_ELEMENT_SIZE → inv s → lock s = false → nodes s ≠ [] →
  BUFFER_FILLED_UP s = 0 → offset s + 4 * Z.of_nat (Datatypes.S n) = VM_ELEMENT_SIZE →
  ∃ s', runs s s' ∧ BUFFER_FILLED_UP s' = 1.
Proof.
  induction n as [|n IH]; intros s Hc Hi Hl Hn Hf Ho.
  all: destruct (sample_step s Hi Hl Hn Hf) as (s1 & Hr & Hi1 & Hl1 & Hn1 & Ho1 & Hf1);
    [unfold room; lia|].
  - exists s1. split; [done|]. rewrite Hf1. by rewrite (proj2 (Z.leb_le _ _)) by lia.
  - rewrite (proj2 (Z.leb_gt _ _)) in Hf1 by lia.
    destruct (IH s1) as (s2 & Hr2 & Hf2); [done..|by rewrite Hn1|done|lia|].
    exists s2. split; [by transitivity s1|done].
Qed.

(** ** What the requests do *)

(** C14: In every reachable state the registered structs are allocated and
    listed once; the offset counts whole samples and stays below the limit until
    the buffer is marked full; the work is pending whenever something is
    registered and the buffer is not full, and never when nothing is registered.
    (After the sample that fills the buffer it is pending once more, to find the
    buffer full.) *)
Theorem profiler_invariant s :
  reachable s →
  NoDup (nodes s) ∧ (∀ a, a ∈ nodes s → is_Some (mem s !! a)) ∧
  0 <= offset s ∧ offset s mod 4 = 0 ∧ offset s <= VM_ELEMENT_SIZE ∧
  (nodes s = [] → due (work s) = None) ∧
  (nodes s ≠ [] → BUFFER_FILLED_UP s = 0 → due (work s) ≠ None) ∧
  (BUFFER_FILLED_UP s = 0 ∧ offset s < VM_ELEMENT_SIZE ∨ BUFFER_FILLED_UP s = 1).
Proof.
  intros [Hw Hr Hi Hp]%profiler_reachable_inv. split_and!; try apply Hw; try done;
    [|destruct (wf_full s Hw) as [(? & ? & _)|[? _]]; [by left|by right]].
  destruct (wf_full s Hw) as [(_ & ? & _)|[_ ?]]; lia.
Qed.

(** C22: Registering a live process and unregistering it gives back the list
    and the heap.  In between it is listed last and found by its pid; the first
    registration queues the work one period ahead, and the last
    unregistration cancels it and empties the buffer. *)
Theorem register_unregister s p a :
  inv s → lock s = false → task_ptr s p ≠ NULL → first_with_pid s p = None →
  alloc_addr (n_alloc (slab s)) (dom (mem s)) = Some a →
  ∃ s1 s2,
    reg_entry stale p s = Ok (0, s1) ∧ nodes s1 = nodes s ++ [a] ∧
    first_with_pid s1 p = Some a ∧
    due (work s1) = (if decide (nodes s = []) then Some (ul (jiffies s + DELAYED s))
                     else due (work s)) ∧
    unreg_entry p s1 = Ok (0, s2) ∧ nodes s2 = nodes s ∧ mem s2 = mem s ∧ lock s2 = false ∧
    (nodes s = [] → offset s2 = 0 ∧ due (work s2) = None) ∧
    (nodes s ≠ [] → offset s2 = offset s).
Proof.
  intros Hi Hl Ht Hf Ha. pose proof Hi as [Hw Hr Hidle _].
  pose proof (alloc_not_null _ _ _ Ha) as Hnn.
  destruct (alloc_fresh _ _ _ Ha) as [Hfresh%not_elem_of_dom _].
  assert (a ∉ nodes s) as Han by (intros Hin%(wf_mem s Hw); rewrite Hfresh in Hin; by destruct Hin).
  pose proof (registered_inv s a p Hi Hnn Hfresh) as Hi1.
  set (s1 := registered s a p) in *.
  assert (nodes s1 = nodes s ++ [a]) as Hn1 by by apply registered_nodes.
  assert (mem s1 = <[a := new_entry (task_ptr s p) p]> (mem s)) as Hm1 by apply registered_mem.
  assert (first_with_pid s1 p = Some a) as Hf1.
  { apply find_map_Some. exists (nodes s), a, []. split_and!; [done| |].
    - unfold has_pid. by rewrite Hm1, lookup_insert_eq, Z.eqb_refl.
    - intros b Hb. unfold has_pid. rewrite Hm1, lookup_insert_ne by (intros ->; done).
      by apply (proj1 (find_map_None _ _) Hf). }
  assert (lock s1 = false) as Hl1 by (unfold s1, registered; by destruct (list_empty (HEAD s))).
  assert (nodes (unregistered s1 a) = nodes s) as Hn2.
  { rewrite unregistered_nodes; [|apply Hi1|rewrite Hn1; set_solver]. rewrite Hn1, filter_app.
    rewrite filter_cons_False by naive_solver. rewrite app_nil_r.
    by apply filter_not_in. }
  assert (a ∈ nodes s1) as Hin1 by (rewrite Hn1; set_solver).
  pose proof (unregistered_empty s1 a (inv_wf s1 Hi1) Hin1) as Hemp.
  exists s1, (unregistered s1 a). split_and!; try done.
  - by apply profiler_reg_run.
  - unfold s1, registered. destruct (list_empty (HEAD s)) eqn:He.
    + apply nodes_empty in He. by rewrite decide_True.
    + rewrite decide_False; [done|]. intros Hnil. apply nodes_empty in Hnil. congruence.
  - apply unreg_entry_run; [apply Hi1|done|apply Hi1|done].
  - rewrite unregistered_mem, Hm1. by rewrite delete_insert_id.
  - unfold unregistered. by destruct (list_empty _).
  - intros Hnil. rewrite Hnil in Hn2. apply Hemp in Hn2. unfold unregistered. by rewrite Hn2.
  - intros Hne. assert (offset s1 = offset s) as <-
      by (unfold s1, registered; by destruct (list_empty (HEAD s))).
    unfold unregistered. destruct (list_empty (list_del a (HEAD s1))) ; [|done].
    rewrite <- Hn2 in Hne. by destruct Hne; apply Hemp.
Qed.

Lemma mp3_exit_locked s : lock s = true → mp3_exit s = Oops Deadlock.
Proof.
  intros Hl. unfold mp3_exit, spin_lock, bind, gets, modify, ret. cbn. by rewrite Hl.
Qed.

(** The lock is held, and nothing has been registered, removed or recorded
    since [s0]. *)
Record stuck (s0 s : @mp3 L) : Prop := mkStuck {
  st_inv : inv s;
  st_lock : lock s = true;
  st_nodes : nodes s = nodes s0;
  st_words : words s = words s0;
  st_offset : offset s = offset s0
}.

Lemma reg_entry_stuck s0 s p r s' : stuck s0 s → reg_entry stale p s = Ok (r, s') → stuck s0 s'.
Proof.
  intros [Hi Hl Hn Hws Ho] Hrun. pose proof (reg_entry_inv s p r s' Hi Hrun) as Hi'.
  destruct (alloc_addr (n_alloc (slab s)) (dom (mem s))) as [a|] eqn:Ha;
    [|by rewrite profiler_reg_no_memory in Hrun].
  destruct (decide (task_ptr s p = NULL)) as [Ht|Ht].
  - rewrite (reg_entry_dead s p a Ht Ha) in Hrun. injection Hrun as _ <-. by split.
  - by rewrite (reg_entry_locked s p a) in Hrun.
Qed.

Lemma step_stuck s0 e s s' : stuck s0 s → step e s s' → stuck s0 s'.
Proof.
  intros Hs Hstep. pose proof (profiler_step_inv e s s' (st_inv s0 s Hs) Hstep) as Hi'.
  destruct Hstep as [ubuf r s s1 Hrun|d s s1 Hd _ Hrun|j p t s Hk].
  - unfold mywrite in Hrun. case_match; [by injection Hrun as _ <-|].
    run_inv Hrun. unfold lift in Hrun0. destruct (string_at _ 2); [|done]. simplify_eq.
    case_match; [by injection Hrun as _ <-|].
    run_inv Hrun. unfold ret in Hrun. simplify_eq.
    repeat case_decide; try run_inv Hrun0; unfold ret in Hrun0; simplify_eq;
      try done; match goal with
      | H : reg_entry _ _ _ = _ |- _ => by eapply reg_entry_stuck
      | H : unreg_entry _ _ = _ |- _ => by rewrite unreg_entry_locked in H by apply Hs
      end.
  - unfold work_fires, bind, modify in Hrun. destruct Hs as [Hi Hl Hn Hws Ho].
    set (s2 := set_work (mkWork None (running (work s))) s) in *.
    destruct (decide (BUFFER_FILLED_UP s = 0)) as [Hf|Hf].
    + by rewrite (callback_locked_out s2) in Hrun.
    + rewrite (callback_full s2) in Hrun by done. injection Hrun as <-. by split.
  - destruct Hs. by split.
Qed.

Lemma runs_stuck s0 s s' : stuck s0 s → runs s s' → stuck s0 s'.
Proof.
  intros Hs Hruns. induction Hruns as [|s1 s2 s3 [e Hstep] _ IH]; [done|].
  apply IH. by eapply step_stuck.
Qed.

(** C24: The bounds of the profiler buffer.  Where an [unsigned long] has 4
    bytes no run of the work ever leaves the buffer: in every reachable state,
    whatever was registered, unregistered and recorded, it returns (without
    touching anything when the buffer is full), unless it waits for a lock that
    an unregistration kept.  Where it has 8 bytes, the limit VM_ELEMENT_SIZE of
    128000 elements is twice the 512000 bytes allocated: the 16000th sample since
    the buffer was empty writes past its end. *)
Theorem buffer_bounds :
  (long_bytes = 4 → ∀ s, reachable s →
     match workqueue_callback s with
     | Ok (_, s') => wf s' ∧ (BUFFER_FILLED_UP s ≠ 0 → s' = s)
     | Oops e => e = Deadlock ∧ lock s = true ∧ BUFFER_FILLED_UP s = 0
     end) ∧
  (long_bytes = 8 → ∀ s ws s', records s ws s' → ready s → offset s = 0 →
     Z.of_nat (length ws) = 15999 → workqueue_callback s' = Oops OutOfBounds).
Proof.
  split; intros Hlong.
  - intros s [Hw _ _ _]%profiler_reachable_inv.
    destruct (decide (BUFFER_FILLED_UP s = 0)) as [Hf|Hf]; [|by rewrite callback_full].
    destruct (lock s) eqn:Hl; [by rewrite callback_locked_out|].
    destruct (room_or_overrun s Hw Hf) as [Hroom|[_ Hlt]].
    + rewrite callback_run by done. split; [by apply after_sample_wf|done].
    + unfold capacity in Hlt. rewrite Hlong in Hlt. by vm_compute in Hlt.
  - intros s ws s' Hrec Hr Ho Hlen. by eapply sample_16000.
Qed.

(** C31: Unregistering a pid that is not registered wedges the module.  The
    request is answered as a success, but its early return keeps the lock, and in
    every state the module can reach from there the lock is still held: nothing
    has been registered, removed or recorded since; every unregistration, every
    registration of a live process that gets its memory, every sample (while the
    buffer is not full) and the unloading wait for the lock for ever.  What takes
    no lock still returns: reading, mapping, a full buffer's callback, and the
    registration of a pid without process. *)
Theorem unknown_unregister_wedges s p :
  reachable s → lock s = false → first_with_pid s p = None →
  ∃ s', unreg_entry p s = Ok (0, s') ∧
    ∀ s2, runs s' s2 →
      nodes s2 = nodes s ∧ words s2 = words s ∧ offset s2 = offset s ∧ lock s2 = true ∧
      (∀ q, unreg_entry q s2 = Oops Deadlock) ∧
      (∀ q, task_ptr s2 q ≠ NULL → is_Some (alloc_addr (n_alloc (slab s2)) (dom (mem s2))) →
         reg_entry stale q s2 = Oops Deadlock) ∧
      (BUFFER_FILLED_UP s2 = 0 → workqueue_callback s2 = Oops Deadlock) ∧
      mp3_exit s2 = Oops Deadlock.
Proof.
  intros Hi%profiler_reachable_inv Hl Hf.
  pose proof (unreg_entry_unknown s p (inv_wf s Hi) Hl Hf) as Hrun.
  exists (set_lock true s). split; [exact Hrun|]. intros s2 Hruns.
  assert (stuck s (set_lock true s)) as Hst by (split; [by eapply unreg_entry_inv|done..]).
  destruct (runs_stuck s _ s2 Hst Hruns) as [_ Hl2 Hn Hws Ho].
  split_and!; [done..| | | |].
  - intros q. by apply unreg_entry_locked.
  - intros q Ht [a Ha]. by apply (reg_entry_locked _ q a).
  - intros Hfull. by apply callback_locked_out.
  - by apply mp3_exit_locked.
Qed.

(** C30: Unregistering the last process while the work has started deadlocks:
    the request holds the lock and waits in cancel_delayed_work_sync for the
    callback, which waits for the lock.  Unloading the module then does the
    same. *)
Theorem last_unregister_can_deadlock s s1 p a :
  reachable s → lock s = false → nodes s = [a] → first_with_pid s p = Some a →
  callback_entry s = Ok (true, s1) →
  unreg_entry p s1 = Oops Deadlock ∧ mp3_exit s1 = Oops Deadlock.
Proof.
  intros Hi%profiler_reachable_inv Hl Hn Hf Hcb. unfold callback_entry, bind, get in Hcb.
  destruct (BUFFER_FILLED_UP s =? 0); [|done]. injection Hcb as <-.
  set (s1 := set_work _ s). assert (wf s1) as Hw1 by by destruct (inv_wf s Hi).
  split; [by apply (unreg_entry_running s1 p a)|].
  unfold mp3_exit, spin_lock, cancel_delayed_work_sync, bind, gets, get, modify, ret.
  cbn. by rewrite Hl.
Qed.

(** A failed registration leaks: for a pid with no process [reg_entry]
    returns 1 and leaves the new struct allocated and on no list. *)
Theorem failed_registration_leaks s p a :
  reachable s → task_ptr s p = NULL →
  alloc_addr (n_alloc (slab s)) (dom (mem s)) = Some a →
  ∃ s', reg_entry stale p s = Ok (1, s') ∧ nodes s' = nodes s ∧
    mem s !! a = None ∧ is_Some (mem s' !! a) ∧ a ∉ nodes s'.
Proof.
  intros Hi%profiler_reachable_inv Ht Ha. destruct (alloc_fresh _ _ _ Ha) as [Hfresh%not_elem_of_dom _].
  exists (with_entry s a p). split_and!; [by apply reg_entry_dead|done|done| |].
  - unfold mem, with_entry. cbn. rewrite lookup_insert_eq. by eexists.
  - rewrite nodes_with_entry. intros Hin%(wf_mem s (inv_wf s Hi)).
    rewrite Hfresh in Hin. by destruct Hin.
Qed.

Lemma reg_entry_frame s p r s' :
  inv s → reg_entry stale p s = Ok (r, s') →
  words s' = words s ∧ BUFFER_FILLED_UP s' = BUFFER_FILLED_UP s.
Proof.
  intros Hi Hrun. destruct (alloc_addr (n_alloc (slab s)) (dom (mem s))) as [a|] eqn:Ha;
    [|by rewrite profiler_reg_no_memory in Hrun].
  destruct (decide (task_ptr s p = NULL)) as [Ht|Ht].
  - rewrite (reg_entry_dead s p a Ht Ha) in Hrun. by simplify_eq.
  - destruct (lock s) eqn:Hl; [by rewrite (reg_entry_locked s p a) in Hrun|].
    rewrite (profiler_reg_run s p a (inv_wf s Hi) Hl Ht Ha) in Hrun. simplify_eq.
    unfold registered. by destruct (list_empty (HEAD s)).
Qed.

Lemma unreg_entry_frame s p r s' :
  inv s → unreg_entry p s = Ok (r, s') →
  words s' = words s ∧ BUFFER_FILLED_UP s' = BUFFER_FILLED_UP s.
Proof.
  intros Hi Hrun. destruct (lock s) eqn:Hl; [by rewrite unreg_entry_locked in Hrun|].
  destruct (first_with_pid s p) as [a|] eqn:Hf.
  - rewrite (unreg_entry_run s p a (inv_wf s Hi) Hl (inv_running s Hi) Hf) in Hrun. simplify_eq.
    unfold unregistered. by destruct (list_empty _).
  - rewrite (unreg_entry_unknown s p (inv_wf s Hi) Hl Hf) in Hrun. by simplify_eq.
Qed.

(** A full buffer is full for ever: BUFFER_FILLED_UP is set when the limit
    is reached and reset only by loading the module, so whatever is registered
    or unregistered afterwards no word of the buffer is written again. *)
Theorem full_buffer_stays_full e s s' :
  reachable s → BUFFER_FILLED_UP s = 1 → step e s s' →
  BUFFER_FILLED_UP s' = 1 ∧ words s' = words s.
Proof.
  intros Hi%profiler_reachable_inv Hf Hstep.
  destruct Hstep as [ubuf r s s1 Hrun|d s s1 Hd _ Hrun|j p t s Hk]; [| |done].
  - unfold mywrite in Hrun. case_match; [by injection Hrun as _ <-|].
    run_inv Hrun. unfold lift in Hrun0. destruct (string_at _ 2); [|done]. simplify_eq.
    case_match; [by injection Hrun as _ <-|].
    run_inv Hrun. unfold ret in Hrun. simplify_eq.
    repeat case_decide; try run_inv Hrun0; unfold ret in Hrun0; simplify_eq; try done;
      match goal with
      | Hr : reg_entry _ _ _ = _ |- _ => by apply reg_entry_frame in Hr as [-> ->]
      | Hr : unreg_entry _ _ = _ |- _ => by apply unreg_entry_frame in Hr as [-> ->]
      end.
  - unfold work_fires, bind, modify in Hrun. rewrite callback_full in Hrun.
    + by simplify_eq.
    + change (BUFFER_FILLED_UP s ≠ 0). by rewrite Hf.
Qed.

(** ** Requests *)

Definition reg_msg (p : Z) : list ascii := str "R " ++ fmt_u p ++ [newline].
Definition unreg_msg (p : Z) : list ascii := str "U " ++ fmt_u p ++ [newline].

Lemma fmt_u_d p : 0 <= p <= INT_MAX → fmt_u p = fmt_d p.
Proof.
  intros Hp. unfold fmt_u, fmt_d, INT_MAX in *.
  rewrite u32_id by (unfold is_u32; lia).
  rewrite i32_id by (unfold is_i32, INT_MIN, INT_MAX; lia).
  by rewrite (proj2 (Z.ltb_ge _ _)) by lia.
Qed.

Lemma strlen_msg o p :
  o ≠ NUL → 3 <= strlen ((o :: ch " " :: fmt_d p ++ [newline]) ++ [NUL]).
Proof.
  intros Ho. unfold strlen. rewrite c_str_app_NUL.
  - simpl. rewrite length_app. simpl. lia.
  - rewrite !elem_of_cons, elem_of_app, list_elem_of_singleton.
    intros [|[|[Hin|]]]; try done. by apply fmt_d_NUL in Hin.
Qed.

(** The requests of the test programs are decoded: writing the message
    "R pid" or "U pid" of work.c runs [reg_entry] or [unreg_entry] on that pid,
    for every pid of a process; and a request of another kind, or of fewer than
    three characters, changes nothing. *)
Theorem requests_decoded s p :
  0 < p <= INT_MAX →
  mywrite stale (reg_msg p) s =
    (reg_entry stale p ;! ret (Z.of_nat (length (reg_msg p)))) s ∧
  mywrite stale (unreg_msg p) s =
    (unreg_entry p ;! ret (Z.of_nat (length (unreg_msg p)))) s ∧
  ∀ ubuf, strlen (ubuf ++ [NUL]) < 3 ∨ head ubuf ≠ Some (ch "R") ∧ head ubuf ≠ Some (ch "U") →
    mywrite stale ubuf s = Ok (Z.of_nat (length ubuf), s).
Proof.
  intros Hp.
  assert (is_i32 p) as Hi32 by (unfold is_i32, INT_MIN, INT_MAX in *; lia).
  assert (∀ o, o ≠ NUL → string_at ((o :: ch " " :: fmt_d p ++ [newline]) ++ [NUL]) 2
    = Ok (fmt_d p ++ [newline])) as Harg.
  { intros o Ho. unfold string_at. rewrite decide_True by (rewrite length_app; simpl; lia).
    change (drop 2 ((?o1 :: ?c1 :: ?x1) ++ [NUL])) with (x1 ++ [NUL]). rewrite c_str_app_NUL; [done|].
    rewrite elem_of_app, list_elem_of_singleton. intros [Hin|]; [by apply fmt_d_NUL in Hin|done]. }
  assert (kstrtoint_into (fmt_d p ++ [newline]) 0 = p) as Hk
    by (unfold kstrtoint_into; by rewrite kstrtoint_print_nl).
  unfold reg_msg, unreg_msg. rewrite (fmt_u_d p) by lia.
  split_and!.
  - change (str "R " ++ ?x) with (ch "R" :: ch " " :: x). unfold mywrite.
    rewrite (proj2 (Z.ltb_ge _ _) (strlen_msg (ch "R") p ltac:(done))).
    change (hd NUL ((?o :: ?x) ++ [NUL])) with o. simpl (_ && _). cbn [orb].
    unfold bind at 1, lift. rewrite Harg by done. rewrite Hk.
    rewrite (proj2 (Z.eqb_neq p 0)), (proj2 (Z.ltb_ge p 0)) by lia. cbn [orb].
    rewrite decide_True by done. unfold bind, ret.
    by destruct (reg_entry stale p s) as [[? ?]|].
  - change (str "U " ++ ?x) with (ch "U" :: ch " " :: x). unfold mywrite.
    rewrite (proj2 (Z.ltb_ge _ _) (strlen_msg (ch "U") p ltac:(done))).
    change (hd NUL ((?o :: ?x) ++ [NUL])) with o. simpl (_ && _). cbn [orb].
    unfold bind at 1, lift. rewrite Harg by done. rewrite Hk.
    rewrite (proj2 (Z.eqb_neq p 0)), (proj2 (Z.ltb_ge p 0)) by lia. cbn [orb].
    rewrite decide_False, decide_True by done. unfold bind, ret.
    by destruct (unreg_entry p s) as [[? ?]|].
  - intros ubuf [Hs|[Hr Hu]]; unfold mywrite.
    + rewrite (proj2 (Z.ltb_lt _ _) Hs). by rewrite orb_true_r.
    + assert (hd NUL (ubuf ++ [NUL]) ≠ ch "R" ∧ hd NUL (ubuf ++ [NUL]) ≠ ch "U") as [Hr' Hu'].
      { destruct ubuf; simpl in *; [done|]. split; congruence. }
      by rewrite !bool_decide_eq_true_2 by done.
Qed.
End entry.

(** ** Witnesses *)

#[local] Existing Instance arch64.
#[local] Opaque garbage.

Notation booted := (boot arch64 (garbage 8)).
Notation one_process := (one_entry arch64 (garbage 8)).

Lemma profiler_boot_loaded (A : Arch) `{!ArchLaws} g s :
  mp3_init 11 12 13 65536 240 g bare = Ok (0, s) → Z.of_nat (length g) = capacity → loaded s.
Proof.
  intros Hrun Hg. eapply loaded_init; [..|exact Hrun]; [done|exact bare_kernel|done|done|].
  by rewrite <- Hg, Nat2Z.id.
Qed.

Lemma booted_loaded : loaded booted.
Proof. apply (profiler_boot_loaded arch64 (garbage 8)); [apply boot64|by apply garbage_length]. Qed.

Lemma booted_reachable : reachable stale_entry booted.
Proof. exists booted. split; [apply booted_loaded|apply rtc_refl]. Qed.

Lemma one_process_reachable : reachable stale_entry one_process.
Proof.
  exists booted. split; [apply booted_loaded|]. apply rtc_once.
  exists (Write (str "R 1" ++ [newline])). eapply step_write. apply one_entry64.
Qed.

Lemma one_entry_globals g :
  let s := one_entry arch64 g in
  nodes s = [4097] ∧ lock s = false ∧ BUFFER_FILLED_UP s = 0 ∧ offset s = 0 ∧
  due (work s) = Some 1005 ∧ first_with_pid s 1 = Some 4097 ∧ first_with_pid s 2 = None ∧
  task_ptr s 77 = NULL ∧ alloc_addr (n_alloc (slab s)) (dom (mem s)) = Some 4098.
Proof. by vm_compute. Qed.

Lemma profiler_invariant_witness :
  NoDup (nodes one_process) ∧ due (work one_process) ≠ None.
Proof.
  destruct (one_entry_globals (garbage 8)) as (Hn & _ & Hf & _).
  destruct (profiler_invariant stale_entry one_process one_process_reachable)
    as (Hnd & _ & _ & _ & _ & _ & Hp & _).
  split; [exact Hnd|]. apply Hp; [rewrite Hn; discriminate|exact Hf].
Defined.

Lemma booted_globals g :
  let s := boot arch64 g in
  lock s = false ∧ task_ptr s 1 = 5001 ∧ first_with_pid s 1 = None ∧
  alloc_addr (n_alloc (slab s)) (dom (mem s)) = Some 4097.
Proof. by vm_compute. Qed.

Lemma register_unregister_witness :
  ∃ s1 s2, reg_entry stale_entry 1 booted = Ok (0, s1) ∧ first_with_pid s1 1 = Some 4097 ∧
    unreg_entry 1 s1 = Ok (0, s2) ∧ nodes s2 = nodes booted ∧ mem s2 = mem booted.
Proof.
  destruct (booted_globals (garbage 8)) as (Hl & Ht & Hf & Ha).
  destruct (loaded_inv booted booted_loaded) as [Hi _].
  destruct (register_unregister stale_entry booted 1 4097) as
    (s1 & s2 & H1 & _ & H2 & _ & H3 & H4 & H5 & _); [exact Hi|exact Hl| |exact Hf|exact Ha|].
  - rewrite Ht. discriminate.
  - exists s1, s2. split_and!; assumption.
Defined.

Lemma unknown_unregister_wedges_witness :
  ∃ s', unreg_entry 2 one_process = Ok (0, s') ∧
    ∀ s2, runs stale_entry s' s2 → nodes s2 = nodes one_process ∧ unreg_entry 1 s2 = Oops Deadlock.
Proof.
  destruct (one_entry_globals (garbage 8)) as (_ & Hl & _ & _ & _ & _ & Hf & _).
  destruct (unknown_unregister_wedges stale_entry one_process 2 one_process_reachable Hl Hf)
    as (s' & Hrun & Hall).
  exists s'. split; [exact Hrun|]. intros s2 Hruns.
  destruct (Hall s2 Hruns) as (Hn & _ & _ & _ & Hu & _). split; [exact Hn|apply Hu].
Defined.

Lemma last_unregister_can_deadlock_witness :
  ∃ s1, callback_entry one_process = Ok (true, s1) ∧ unreg_entry 1 s1 = Oops Deadlock.
Proof.
  destruct (one_entry_globals (garbage 8)) as (Hn & Hl & Hfull & _ & _ & Hf & _).
  set (s1 := set_work (mkWork (due (work one_process)) true) one_process).
  assert (callback_entry one_process = Ok (true, s1)) as Hcb.
  { unfold callback_entry, bind, get. rewrite Hfull. reflexivity. }
  exists s1. split; [exact Hcb|].
  destruct (last_unregister_can_deadlock stale_entry one_process s1 1 4097
    one_process_reachable Hl Hn Hf Hcb) as [Hd _]. exact Hd.
Defined.

Lemma failed_registration_leaks_witness :
  ∃ s', reg_entry stale_entry 77 one_process = Ok (1, s') ∧ is_Some (mem s' !! 4098) ∧
    4098 ∉ nodes s'.
Proof.
  destruct (one_entry_globals (garbage 8)) as (_ & _ & _ & _ & _ & _ & _ & Ht & Ha).
  destruct (failed_registration_leaks stale_entry one_process 77 4098 one_process_reachable Ht Ha)
    as (s' & Hrun & _ & _ & Hm & Hn).
  exists s'. split_and!; assumption.
Defined.

(** On a 32-bit target 32000 samples fill the buffer. *)
Section full.
#[local] Existing Instance arch32.

Lemma one_entry32_reachable : reachable stale_entry (one_entry arch32 (garbage 4)).
Proof.
  exists (boot arch32 (garbage 4)). split.
  - apply (profiler_boot_loaded arch32 (garbage 4)); [apply boot32|by apply garbage_length].
  - apply rtc_once. exists (Write (str "R 1" ++ [newline])). eapply step_write. apply one_entry32.
Qed.

Lemma one_entry32_globals g :
  let s := one_entry arch32 g in
  nodes s = [4097] ∧ lock s = false ∧ BUFFER_FILLED_UP s = 0 ∧ offset s = 0.
Proof. by vm_compute. Qed.

Lemma full_reachable : ∃ s : @mp3 (list Z), reachable stale_entry s ∧ BUFFER_FILLED_UP s = 1.
Proof.
  destruct (one_entry32_globals (garbage 4)) as (Hn & Hl & Hf & Ho).
  destruct one_entry32_reachable as (s0 & Hs0 & Hruns) eqn:Hr.
  destruct (fills_up stale_entry (Z.to_nat 31999) (one_entry arch32 (garbage 4))) as (s & Hs & Hfull).
  - by vm_compute.
  - eapply profiler_reachable_inv, one_entry32_reachable.
  - exact Hl.
  - rewrite Hn. discriminate.
  - exact Hf.
  - rewrite Ho, Nat2Z.inj_succ, Z2Nat.id by done. by vm_compute.
  - exists s. split; [|exact Hfull]. exists s0. split; [exact Hs0|].
    transitivity (one_entry arch32 (garbage 4)); [exact Hruns|exact Hs].
Qed.

Lemma full_buffer_stays_full_witness :
  ∃ s s' : @mp3 (list Z), BUFFER_FILLED_UP s = 1 ∧
    step stale_entry (Kernel 9 ∅ ∅) s s' ∧ BUFFER_FILLED_UP s' = 1 ∧ words s' = words s.
Proof.
  destruct full_reachable as (s & Hr & Hf).
  assert (step stale_entry (Kernel 9 ∅ ∅) s (set_kernel 9 ∅ ∅ s)) as Hstep.
  { apply step_kernel. intros p t Hp. change (pids (set_kernel 9 ∅ ∅ s)) with (∅ : gmap Z Z) in Hp.
    rewrite lookup_empty in Hp. discriminate. }
  destruct (full_buffer_stays_full stale_entry (Kernel 9 ∅ ∅) s _ Hr Hf Hstep) as [Hf' Hw].
  exists s, (set_kernel 9 ∅ ∅ s). split_and!; assumption.
Defined.

Lemma bounds_of_full : ∃ s : @mp3 (list Z), reachable stale_entry s ∧ BUFFER_FILLED_UP s = 1 ∧
  long_bytes = 4.
Proof. destruct full_reachable as (s & Hr & Hf). by exists s. Qed.
End full.

(** With 4 bytes the work returns when the buffer is full; with 8 the 16000th
    sample overruns it. *)
Lemma buffer_bounds_witness :
  (∃ s : @mp3 (list Z), BUFFER_FILLED_UP s = 1 ∧
     match @workqueue_callback _ _ arch32 s with Ok (_, s') => s' = s | Oops _ => False end) ∧
  (∃ (ws : list (list Z)) s', Z.of_nat (length ws) = 15999 ∧
     records (two_entries arch64 (garbage 8)) ws s' ∧ workqueue_callback s' = Oops OutOfBounds).
Proof.
  split.
  - destruct bounds_of_full as (s & Hr & Hf & Hlong). exists s. split; [exact Hf|].
    destruct (@buffer_bounds _ _ _ _ _ arch32 _ _ _ _ _ stale_entry) as [H4 _].
    specialize (H4 Hlong s Hr). destruct (workqueue_callback s) as [[[] s']|e].
    + apply H4. by rewrite Hf.
    + destruct H4 as (_ & _ & H0). by rewrite Hf in H0.
  - pose proof (two_entries_ready (garbage 8) (garbage_length 8 ltac:(done))) as Hr.
    pose proof (two_entries_globals (garbage 8)) as (_ & _ & Ho & _).
    destruct (recording_exists (Z.to_nat 15999) (two_entries arch64 (garbage 8)) Hr)
      as (ws & s' & Hrec & Hlen).
    { rewrite Ho, Z2Nat.id by done. by vm_compute. }
    assert (Z.of_nat (length ws) = 15999) as Hl by (rewrite Hlen, Z2Nat.id; done).
    exists ws, s'. split; [exact Hl|]. split; [exact Hrec|].
    destruct (buffer_bounds stale_entry) as [_ H8].
    exact (H8 eq_refl (two_entries arch64 (garbage 8)) ws s' Hrec Hr Ho Hl).
Defined.

Lemma requests_decoded_witness :
  mywrite stale_entry (reg_msg 1) booted =
    (reg_entry stale_entry 1 ;! ret 4) booted ∧
  mywrite stale_entry (str "X 1") booted = Ok (3, booted).
Proof.
  destruct (requests_decoded stale_entry booted 1) as (Hr & _ & Hx); [by vm_compute|].
  split; [exact Hr|]. apply (Hx (str "X 1")). right. split; discriminate.
Defined.
