(* ===== verification/Mp3Refine.v ===== *)
(** * MP3: an abstract profiler

    A specification of the profiler of src/MP3/mp3.c without lists, heaps and
    offsets: the registered processes in order, each with the usage last read,
    the words recorded so far, and when the next sample is due.  Every step of
    the module is a step of it. *)
From Stdlib Require Import Ascii String.
From stdpp Require Import base gmap sets list strings relations.
From Stdlib Require Import ZArith Lia.
From S2P Require Import Prelude CString Kernel Mp3 Mp3Run Mp3State Mp3User Mp3Profile Mp3Entry.
Import Reference.

Open Scope Z_scope.
Open Scope c_scope.

(** ** The specification *)

Record member : Type := mkMember {
  m_pid : Z;
  m_utime : Z;
  m_stime : Z;
  m_minor : Z;
  m_major : Z
}.

(** [armed] is when the next sample is due, [held] whether the lock was left
    taken; the last three fields are the kernel's. *)
Record profiler : Type := mkProfiler {
  members : list member;
  recorded : list Z;
  armed : option Z;
  full : bool;
  held : bool;
  delay : Z;
  now : Z;
  procs : gmap Z Z;
  counters : gmap Z task_struct
}.

(** A sample reads the counters of each process that is alive and resets them. *)
Definition read_member `{Arch} (ps : gmap Z Z) (ts : gmap Z task_struct) (m : member) :
    gmap Z task_struct * member :=
  match ps !! i32 (u32 (m_pid m)) with
  | Some t =>
      match ts !! t with
      | Some c =>
          (<[t := mkTask 0 0 0 0]> ts,
           mkMember (m_pid m) (ul (t_utime c)) (ul (t_stime c)) (ul (min_flt c)) (ul (maj_flt c)))
      | None => (ts, m)
      end
  | None => (ts, m)
  end.

Fixpoint read_members `{Arch} (ps : gmap Z Z) (ts : gmap Z task_struct) (l : list member) :
    gmap Z task_struct * list member :=
  match l with
  | [] => (ts, [])
  | m :: l' =>
      let '(ts1, m') := read_member ps ts m in
      let '(ts2, l'') := read_members ps ts1 l' in
      (ts2, m' :: l'')
  end.

Definition total (f : member → Z) (l : list member) : Z := foldr (λ m z, f m + z) 0 l.

Definition sample_of `{Arch} (t : Z) (l : list member) : list Z :=
  [ul t; ul (total m_minor l); ul (total m_major l); ul (total (λ m, m_stime m + m_utime m) l)].

Inductive request : Type :=
  | Enroll (p : Z)
  | Leave (p : Z)
  | Sample
  | Ignored
  | Outside.

Definition has_process (ps : gmap Z Z) (p : Z) : Prop := default NULL (ps !! i32 (u32 p)) ≠ NULL.

Inductive prof_step `{Arch} : request → profiler → profiler → Prop :=
  | p_enroll p m l r d f k n ps ts :
      has_process ps p → m_pid m = p →
      prof_step (Enroll p) (mkProfiler l r d f false k n ps ts)
        (mkProfiler (l ++ [m]) r (if decide (l = []) then Some (ul (n + k)) else d) f false k n ps ts)
  | p_refuse p s : ¬ has_process (procs s) p → prof_step (Enroll p) s s
  | p_leave p pre m post r d f k n ps ts :
      (∀ m', m' ∈ pre → m_pid m' ≠ p) → m_pid m = p →
      prof_step (Leave p) (mkProfiler (pre ++ m :: post) r d f false k n ps ts)
        (if decide (pre ++ post = [])
         then mkProfiler [] [] None f false k n ps ts
         else mkProfiler (pre ++ post) r d f false k n ps ts)
  | p_wedge p l r d f k n ps ts :
      (∀ m', m' ∈ l → m_pid m' ≠ p) →
      prof_step (Leave p) (mkProfiler l r d f false k n ps ts) (mkProfiler l r d f true k n ps ts)
  | p_sample l l' r d k n ps ts ts' :
      d <= n → read_members ps ts l = (ts', l') →
      let r' := r ++ sample_of n l' in
      prof_step Sample (mkProfiler l r (Some d) false false k n ps ts)
        (mkProfiler l' r' (Some (ul (n + k))) (VM_ELEMENT_SIZE <=? Z.of_nat (length r')) false k n ps ts')
  | p_full l r d h k n ps ts :
      d <= n →
      prof_step Sample (mkProfiler l r (Some d) true h k n ps ts) (mkProfiler l r None true h k n ps ts)
  | p_ignored s : prof_step Ignored s s
  | p_outside l r d f h k n ps ts n' ps' ts' :
      prof_step Outside (mkProfiler l r d f h k n ps ts) (mkProfiler l r d f h k n' ps' ts').

(** ** The profiler a state of the module stands for *)

Definition member_of (v : mp3_task_struct) : member :=
  mkMember (pid v) (utime v) (stime v) (minor_pf v) (major_pf v).

Definition members_of (m : gmap Z mp3_task_struct) (l : list Z) : list member :=
  omap (λ a, member_of <$> m !! a) l.

Section refine.
Context {L : Type} `{!KList L, !KConst, !Allocator, !Kstrto, !Arch}.
Context `{!KListLaws L, !KConstLaws, !AllocatorLaws, !KstrtoLaws, !ArchLaws}.
Implicit Types s : @mp3 L.

Definition profiler_of s : profiler :=
  mkProfiler (members_of (mem s) (nodes s)) (take (Z.to_nat (offset s)) (words s))
    (due (work s)) (negb (BUFFER_FILLED_UP s =? 0)) (lock s) (DELAYED s) (jiffies s) (pids s) (tasks s).

Lemma members_app m l k : members_of m (l ++ k) = members_of m l ++ members_of m k.
Proof.
  unfold members_of. induction l as [|a l IH]; [done|]. cbn.
  destruct (m !! a); cbn; by rewrite IH.
Qed.

Lemma members_ext m m' l : (∀ a, a ∈ l → m !! a = m' !! a) → members_of m l = members_of m' l.
Proof.
  unfold members_of. induction l as [|a l IH]; intros Hl; [done|]. cbn.
  rewrite (Hl a) by (apply elem_of_cons; by left).
  rewrite IH by (intros b Hb; apply Hl, elem_of_cons; by right). done.
Qed.

Lemma members_one m a v : m !! a = Some v → members_of m [a] = [member_of v].
Proof. intros Ha. unfold members_of. cbn. by rewrite Ha. Qed.

Lemma members_empty m l : (∀ a, a ∈ l → is_Some (m !! a)) → members_of m l = [] ↔ l = [].
Proof.
  intros Hl. destruct l as [|a l]; [done|]. destruct (Hl a) as [v Hv]; [apply elem_of_cons; by left|].
  unfold members_of. cbn. by rewrite Hv.
Qed.

Lemma elem_of_members m l x :
  x ∈ members_of m l → ∃ a v, a ∈ l ∧ m !! a = Some v ∧ x = member_of v.
Proof.
  unfold members_of. rewrite list_elem_of_omap. intros (a & Ha & Hx).
  destruct (m !! a) as [v|] eqn:Hv; [|done]. injection Hx as <-. by exists a, v.
Qed.

(** ** Sampling *)

Lemma sampled_pids a s : pids (sampled a s) = pids s.
Proof. unfold sampled. by repeat case_match. Qed.

Lemma sampled_member a v s :
  mem s !! a = Some v →
  ∃ v', mem (sampled a s) !! a = Some v' ∧
    read_member (pids s) (tasks s) (member_of v) = (tasks (sampled a s), member_of v').
Proof.
  intros Hv. unfold read_member, sampled, task_of. rewrite Hv. cbn [member_of m_pid].
  destruct (pids s !! i32 (u32 (pid v))) as [t|]; [|by exists v].
  destruct (tasks s !! t) as [c|]; [|by exists v].
  exists (counted v c). split; [|done]. rewrite mem_counters. apply lookup_insert_eq.
Qed.

Lemma sampled_all_other l b s : b ∉ l → mem (sampled_all l s) !! b = mem s !! b.
Proof.
  revert s. induction l as [|a l IH]; intros s Hb; [done|].
  apply not_elem_of_cons in Hb as [Hne Hb]. cbn. fold (sampled_all l (sampled a s)).
  by rewrite IH, sampled_other.
Qed.

(** Reading the structs of a list is reading its members. *)
Lemma sampled_members l : ∀ s,
  NoDup l → (∀ a, a ∈ l → is_Some (mem s !! a)) →
  pids (sampled_all l s) = pids s ∧
  read_members (pids s) (tasks s) (members_of (mem s) l) =
    (tasks (sampled_all l s), members_of (mem (sampled_all l s)) l).
Proof.
  induction l as [|a l IH]; intros s Hnd Hl; [done|].
  apply NoDup_cons in Hnd as [Ha Hnd]. destruct (Hl a) as [v Hv]; [apply elem_of_cons; by left|].
  destruct (sampled_member a v s Hv) as (v' & Hv' & Hread).
  cbn [sampled_all foldl]. fold (sampled_all l (sampled a s)).
  destruct (IH (sampled a s) Hnd) as [Hpids Hrest].
  { intros b Hb. rewrite sampled_other by (by intros ->). apply Hl, elem_of_cons. by right. }
  split; [by rewrite Hpids, sampled_pids|].
  change (a :: l) with ([a] ++ l). rewrite !members_app.
  rewrite (members_one _ a v), (members_one _ a v') by
    (done || by rewrite sampled_all_other). cbn [app read_members].
  rewrite Hread, sampled_pids in *.
  rewrite (members_ext (mem s) (mem (sampled a s)) l).
  2:{ intros b Hb. rewrite sampled_other; [done|by intros ->]. }
  by rewrite Hrest.
Qed.

Lemma sum_over_total m f g l :
  (∀ v, f v = g (member_of v)) → (∀ a, a ∈ l → is_Some (m !! a)) →
  sum_over m f l = total g (members_of m l).
Proof.
  intros Hf. induction l as [|a l IH]; intros Hl; [done|].
  destruct (Hl a) as [v Hv]; [apply elem_of_cons; by left|].
  change (a :: l) with ([a] ++ l) at 2. rewrite members_app, (members_one m a v) by done.
  cbn. rewrite Hv, Hf. f_equal. apply IH. intros b Hb. apply Hl, elem_of_cons. by right.
Qed.

Lemma sample_words_of s :
  wf s → sample_words s = sample_of (jiffies s) (members_of (mem (sampled_all (nodes s) s)) (nodes s)).
Proof.
  intros Hw. assert (∀ a, a ∈ nodes s → is_Some (mem (sampled_all (nodes s) s) !! a)) as Hl.
  { destruct (sampled_all_only (nodes s) s (wf_kernel s Hw)) as (ts & m & -> & Hm & _).
    intros a Ha. rewrite mem_counters. by apply Hm, (wf_mem s Hw). }
  unfold sample_words, totals, sample_of.
  rewrite (sum_over_total _ minor_pf m_minor), (sum_over_total _ major_pf m_major),
    (sum_over_total _ _ (λ m, m_stime m + m_utime m)) by done. done.
Qed.

Lemma take_splice i vs us w :
  (i + length vs + length us <= length w)%nat →
  take (i + length vs) (splice i (vs ++ us) w) = take i w ++ vs.
Proof.
  intros Hl. unfold splice. rewrite !app_assoc, take_app_le, take_app_le, take_ge; [done|..];
    rewrite ?length_app, ?length_take; lia.
Qed.

(** One sample, from the state [s] whose work has been taken off its queue. *)
Lemma after_refines s d :
  wf s → lock s = false → BUFFER_FILLED_UP s = 0 → room s → due (work s) = None →
  d <= jiffies s →
  prof_step Sample
    (mkProfiler (members_of (mem s) (nodes s)) (take (Z.to_nat (offset s)) (words s)) (Some d)
       (negb (BUFFER_FILLED_UP s =? 0)) (lock s) (DELAYED s) (jiffies s) (pids s) (tasks s))
    (profiler_of (after_sample s)).
Proof.
  intros Hw Hl Hf Hroom Hd Hdue. rewrite Hl, Hf.
  destruct (sampled_members (nodes s) s (wf_nodup s Hw) (wf_mem s Hw)) as [Hpids Hread].
  pose proof (sample_words_of s Hw) as Hsw. pose proof (sample_words_length s) as Hlen.
  pose proof (wf_words s Hw) as Hws. pose proof (wf_offset s Hw) as Ho.
  assert (Z.to_nat (offset s) + 4 + length (terminator s) <= length (words s))%nat as Hfit.
  { unfold terminator. rewrite Hws. destruct Hroom as [Hr|[Hr Hv]].
    - case_match; simpl; lia.
    - rewrite (proj2 (Z.leb_le _ _)) by lia. simpl. lia. }
  pose proof (p_sample (members_of (mem s) (nodes s)) _ (take (Z.to_nat (offset s)) (words s)) d
    (DELAYED s) (jiffies s) (pids s) (tasks s) _ Hdue Hread) as Hstep. cbn zeta in Hstep.
  rewrite <- Hsw in Hstep.
  assert (Z.of_nat (length (take (Z.to_nat (offset s)) (words s) ++ sample_words s)) = offset s + 4)
    as Hlr by (rewrite length_app, length_take, Hlen; lia).
  rewrite Hlr in Hstep. eapply eq_ind; [exact Hstep|]. unfold profiler_of. f_equal.
  - change (words (after_sample s)) with
      (splice (Z.to_nat (offset s)) (sample_words s ++ terminator s) (words s)).
    change (offset (after_sample s)) with (offset s + 4).
    rewrite Z2Nat.inj_add by lia. change (Z.to_nat 4) with 4%nat. rewrite <- Hlen at 1.
    symmetry. apply take_splice. lia.
  - change (due (work (after_sample s))) with (next_due s). unfold next_due. by rewrite Hd.
  - change (BUFFER_FILLED_UP (after_sample s)) with
      (if VM_ELEMENT_SIZE <=? offset s + 4 then 1 else BUFFER_FILLED_UP s). rewrite Hf. by case_match.
Qed.

Lemma sampling_refines s s' d :
  inv s → due (work s) = Some d → d <= jiffies s → work_fires s = Ok (tt, s') →
  prof_step Sample (profiler_of s) (profiler_of s').
Proof.
  intros Hi Hd Hdue Hrun. pose proof (inv_wf s Hi) as Hw.
  unfold work_fires, bind, modify in Hrun.
  set (s1 := set_work (mkWork None (running (work s))) s) in *.
  assert (wf s1) as Hw1 by by destruct Hw.
  assert (BUFFER_FILLED_UP s1 ≠ 0 ∧ s' = s1 ∨
          lock s = false ∧ BUFFER_FILLED_UP s1 = 0 ∧ room s1 ∧ s' = after_sample s1)
    as [[Hf ->]|(Hl & Hf & Hroom & ->)].
  { destruct (decide (BUFFER_FILLED_UP s1 = 0)) as [Hf|Hf].
    - destruct (lock s) eqn:Hl; [by rewrite (callback_locked_out s1) in Hrun|].
      destruct (callback_cases s1 s' Hw1 Hl Hrun) as [[? _]|(_ & ? & ?)]; [done|by right].
    - rewrite (callback_full s1) in Hrun by done. simplify_eq. by left. }
  - unfold profiler_of. change (BUFFER_FILLED_UP s1) with (BUFFER_FILLED_UP s) in *.
    cbn. rewrite Hd, (proj2 (Z.eqb_neq (BUFFER_FILLED_UP s) 0)) by done. by apply (p_full _ _ d).
  - pose proof (after_refines s1 d Hw1 Hl Hf Hroom eq_refl Hdue) as Hstep.
    unfold profiler_of at 1. rewrite Hd. exact Hstep.
Qed.

(** ** Requests *)

Lemma members_insert m a v l : a ∉ l → members_of (<[a := v]> m) l = members_of m l.
Proof. intros Ha. apply members_ext. intros b Hb. by rewrite lookup_insert_ne by (by intros <-). Qed.

Lemma members_delete m a l : a ∉ l → members_of (delete a m) l = members_of m l.
Proof. intros Ha. apply members_ext. intros b Hb. by rewrite lookup_delete_ne by (by intros <-). Qed.

Lemma enroll_refines stale s p r s' :
  inv s → reg_entry stale p s = Ok (r, s') → prof_step (Enroll p) (profiler_of s) (profiler_of s').
Proof.
  intros Hi Hrun. pose proof (inv_wf s Hi) as Hw.
  destruct (alloc_addr (n_alloc (slab s)) (dom (mem s))) as [a|] eqn:Ha;
    [|by rewrite profiler_reg_no_memory in Hrun].
  destruct (alloc_fresh _ _ _ Ha) as [Hfresh%not_elem_of_dom _].
  assert (a ∉ nodes s) as Hna by (intros [v Hv]%(wf_mem s Hw); by rewrite Hfresh in Hv).
  destruct (decide (task_ptr s p = NULL)) as [Ht|Ht].
  - rewrite (reg_entry_dead stale s p a Ht Ha) in Hrun. injection Hrun as _ <-.
    assert (profiler_of (with_entry stale s a p) = profiler_of s) as ->.
    { unfold profiler_of. f_equal. change (mem (with_entry stale s a p)) with
        (<[a := new_entry stale (task_ptr s p) p]> (mem s)). by apply members_insert. }
    apply p_refuse. by intros [].
  - destruct (lock s) eqn:Hl; [by rewrite (reg_entry_locked stale s p a) in Hrun|].
    rewrite (profiler_reg_run stale s p a Hw Hl Ht Ha) in Hrun. injection Hrun as _ <-.
    pose proof (p_enroll p (member_of (new_entry stale (task_ptr s p) p)) (members_of (mem s) (nodes s))
      (take (Z.to_nat (offset s)) (words s)) (due (work s)) (negb (BUFFER_FILLED_UP s =? 0))
      (DELAYED s) (jiffies s) (pids s) (tasks s) Ht eq_refl) as Hstep.
    rewrite (decide_ext _ (nodes s = [])) in Hstep by (apply members_empty, Hw).
    unfold profiler_of at 1. rewrite Hl. eapply eq_ind; [exact Hstep|].
    unfold profiler_of. rewrite registered_mem, (registered_nodes stale s a p Hna), members_app.
    rewrite members_insert by done.
    rewrite (members_one _ a (new_entry stale (task_ptr s p) p)) by apply lookup_insert_eq.
    unfold registered. destruct (list_empty (HEAD s)) eqn:He.
    + apply nodes_empty in He. by rewrite decide_True.
    + rewrite decide_False; [done|]. intros Hnil. apply nodes_empty in Hnil. congruence.
Qed.

Lemma leave_refines s p r s' :
  inv s → unreg_entry p s = Ok (r, s') → prof_step (Leave p) (profiler_of s) (profiler_of s').
Proof.
  intros Hi Hrun. pose proof (inv_wf s Hi) as Hw.
  destruct (lock s) eqn:Hl; [by rewrite unreg_entry_locked in Hrun|].
  destruct (first_with_pid s p) as [a|] eqn:Hf.
  2:{ rewrite (unreg_entry_unknown s p Hw Hl Hf) in Hrun. injection Hrun as _ <-.
      unfold profiler_of at 1. rewrite Hl. apply p_wedge.
      intros m' (b & v & Hb & Hv & ->)%elem_of_members.
      pose proof (proj1 (find_map_None _ _) Hf b Hb) as Hn. unfold has_pid in Hn.
      rewrite Hv in Hn. by destruct (Z.eqb_spec (pid v) p). }
  rewrite (unreg_entry_run s p a Hw Hl (inv_running s Hi) Hf) in Hrun. injection Hrun as _ <-.
  destruct (listed_pid_Some s p a Hw Hf) as (Hin & _ & v & Hv & Hp).
  apply find_map_Some in Hf as (pre & x & post & Hn & Hx & Hpre).
  assert (x = a) as -> by (unfold has_pid in Hx; by cases).
  pose proof (wf_nodup s Hw) as Hnd. rewrite Hn in Hnd.
  apply NoDup_app in Hnd as (_ & Hd & [Hpo _]%NoDup_cons).
  assert (a ∉ pre) as Hpr by (intros Hin'; apply (Hd a Hin'), elem_of_cons; by left).
  pose proof (unregistered_nodes s a Hw Hin) as Hn'.
  rewrite Hn, filter_app, filter_cons_False, !filter_not_in in Hn' by (done || naive_solver).
  assert (members_of (mem s) (nodes s) =
    members_of (mem s) pre ++ member_of v :: members_of (mem s) post) as Hm.
  { rewrite Hn, members_app. f_equal. change (a :: post) with ([a] ++ post).
    by rewrite members_app, (members_one _ a v). }
  unfold profiler_of at 1. rewrite Hl, Hm. eapply eq_ind; [apply (p_leave p _ (member_of v))|].
  { intros m' (b & u & Hb & Hu & ->)%elem_of_members. specialize (Hpre b Hb).
    unfold has_pid in Hpre. rewrite Hu in Hpre. by destruct (Z.eqb_spec (pid u) p). }
  { done. }
  rewrite <- members_app.
  rewrite (decide_ext _ (pre ++ post = [])).
  2:{ apply members_empty. intros b Hb. apply (wf_mem s Hw). rewrite Hn. set_solver. }
  unfold profiler_of. rewrite unregistered_mem, Hn', members_delete by set_solver.
  pose proof (unregistered_empty s a Hw Hin) as He. rewrite Hn' in He. unfold unregistered.
  case_decide as Hnil.
  - rewrite (proj2 He Hnil), Hnil. done.
  - destruct (list_empty (list_del a (HEAD s))); [by destruct Hnil; apply He|done].
Qed.

(** ** Every step is a step of the specification *)

(** What an event asks for; a write is read as [mywrite] reads it. *)
Definition request_of (e : event) : option request :=
  match e with
  | Write ubuf =>
      let buff := ubuf ++ [NUL] in
      let op := hd NUL buff in
      if (bool_decide (op ≠ ch "R") && bool_decide (op ≠ ch "U")) || (strlen buff <? 3)
      then Some Ignored
      else match string_at buff 2 with
           | Ok arg =>
               let p := kstrtoint_into arg 0 in
               if (p =? 0) || (p <? 0) then Some Ignored
               else if decide (op = ch "R") then Some (Enroll p)
               else if decide (op = ch "U") then Some (Leave p) else Some Ignored
           | Oops _ => None
           end
  | Work => Some Sample
  | Kernel _ _ _ => Some Outside
  end.

Lemma write_refines stale ubuf s r s' :
  inv s → mywrite stale ubuf s = Ok (r, s') →
  ∃ q, request_of (Write ubuf) = Some q ∧ prof_step q (profiler_of s) (profiler_of s').
Proof.
  intros Hi Hrun. unfold mywrite in Hrun. unfold request_of.
  case_match; [injection Hrun as _ <-; eexists; split; [done|apply p_ignored]|].
  run_inv Hrun. unfold lift in Hrun0. destruct (string_at _ 2) as [arg|]; [|done].
  injection Hrun0 as <- <-.
  case_match; [injection Hrun as _ <-; eexists; split; [done|apply p_ignored]|].
  run_inv Hrun. unfold ret in Hrun. simplify_eq.
  repeat case_decide; try run_inv Hrun0; unfold ret in Hrun0; simplify_eq;
    (eexists; split; [done|]);
    first [by eapply enroll_refines | by eapply leave_refines | apply p_ignored].
Qed.

(** C3: The module implements the abstract profiler.  Loading leaves nobody
    registered, nothing recorded and no sample due; in a reachable state every
    write, every run of the work and every change of the kernel is a step of the
    specification: a registration of a live process adds it at the end and, when
    it is the first, makes a sample due; a process that leaves is removed, and
    the last one takes the record and the sample due with it; a sample appends
    the time and the sums of the usage of the members, whose counters it resets,
    until the buffer is full; a request for an unknown pid keeps the lock. *)
Theorem profiler_refines stale :
  (∀ s, loaded s → members (profiler_of s) = [] ∧ recorded (profiler_of s) = [] ∧
     armed (profiler_of s) = None ∧ held (profiler_of s) = false) ∧
  (∀ s e s', reachable stale s → step stale e s s' →
     ∃ q, request_of e = Some q ∧ prof_step q (profiler_of s) (profiler_of s')).
Proof.
  split.
  - intros s Hl. destruct (loaded_inv s Hl) as ([_ _ Hidle _] & Hn & Hlk & Ho).
    unfold profiler_of. cbn. rewrite Hn, Ho, Hlk, Hidle by done. done.
  - intros s e s' Hi%profiler_reachable_inv Hstep.
    destruct Hstep as [ubuf r s s1 Hrun|d s s1 Hd Hdue Hrun|j p t s Hk].
    + by eapply write_refines.
    + eexists. split; [done|]. by eapply sampling_refines.
    + eexists. split; [done|]. apply p_outside.
Qed.
End refine.

(** ** A registration *)

#[local] Existing Instance arch64.
#[local] Opaque garbage.

Theorem profiler_refines_witness :
  request_of (Write (str "R 1" ++ [newline])) = Some (Enroll 1) ∧
  prof_step (Enroll 1) (profiler_of (boot arch64 (garbage 8)))
    (profiler_of (one_entry arch64 (garbage 8))).
Proof.
  destruct (profiler_refines stale_entry) as [_ Hstep].
  destruct (Hstep (boot arch64 (garbage 8)) _ (one_entry arch64 (garbage 8)) booted_reachable
    (step_write stale_entry _ _ _ _ (one_entry64 (garbage 8)))) as (q & Hq & Hp).
  assert (request_of (Write (str "R 1" ++ [newline])) = Some (Enroll 1)) as He by by vm_compute.
  split; [exact He|]. rewrite He in Hq. injection Hq as <-. exact Hp.
Defined.
