(* ===== verification/Mp3Work.v ===== *)
(** * MP3: the workload

    src/MP3/work.c: the program whose page faults the profiler counts.  It
    registers, allocates blocks of one megabyte, touches them at random places
    and unregisters.  [malloc] and [rand] are parameters; the state is the
    array of blocks, the blocks that are allocated, and what leaves the
    program. *)
From Stdlib Require Import Ascii String.
From stdpp Require Import base gmap sets list strings.
From Stdlib Require Import ZArith Lia.
From S2P Require Import Prelude CString Kernel.

Open Scope Z_scope.
Open Scope c_scope.

(** The [n]-th call: a block that is not in use or NULL; a number up to
    RAND_MAX. *)
Class Libc : Type := {
  malloc : nat → gset Z → Z;
  rand : nat → Z
}.

Class LibcLaws `{Libc} : Prop := {
  malloc_fresh : ∀ n used, malloc n used ≠ NULL → malloc n used ∉ used;
  rand_range : ∀ n, 0 <= rand n <= INT_MAX
}.

Module Work.
Section work.
Context `{!Libc}.

Definition N_ITERATION : nat := 20.
Definition MB : Z := 1024 * 1024.

Record work : Type := mkWork {
  buffer : list Z;
  msize : Z;
  live : gset Z;
  n_malloc : nat;
  n_rand : nat;
  cmds : list (list ascii);
  out : list (list ascii)
}.

Definition set_buffer x w := mkWork x (msize w) (live w) (n_malloc w) (n_rand w) (cmds w) (out w).
Definition set_msize x w := mkWork (buffer w) x (live w) (n_malloc w) (n_rand w) (cmds w) (out w).
Definition set_live x w := mkWork (buffer w) (msize w) x (n_malloc w) (n_rand w) (cmds w) (out w).

Definition system (cmd : list ascii) : M work unit :=
  modify (λ w, mkWork (buffer w) (msize w) (live w) (n_malloc w) (n_rand w) (cmds w ++ [cmd]) (out w)).
Definition printf (line : list ascii) : M work unit :=
  modify (λ w, mkWork (buffer w) (msize w) (live w) (n_malloc w) (n_rand w) (cmds w) (out w ++ [line])).

Definition do_rand : M work Z := λ w,
  Ok (rand (n_rand w),
      mkWork (buffer w) (msize w) (live w) (n_malloc w) (S (n_rand w)) (cmds w) (out w)).

Definition do_malloc : M work Z := λ w,
  let p := malloc (n_malloc w) (live w) in
  Ok (p, mkWork (buffer w) (msize w) (if p =? NULL then live w else {[p]} ∪ live w)
           (S (n_malloc w)) (n_rand w) (cmds w) (out w)).

Definition free (p : Z) : M work unit := λ w,
  if p =? NULL then Ok (tt, w)
  else if decide (p ∈ live w) then Ok (tt, set_live (live w ∖ {[p]}) w) else Oops BadAccess.

(** [buffer[i]], an array of 1024 pointers. *)
Definition buffer_at (i : Z) : M work Z := λ w,
  if i <? 0 then Oops OutOfBounds
  else match buffer w !! Z.to_nat i with Some p => Ok (p, w) | None => Oops OutOfBounds end.
Definition set_buffer_at (i p : Z) : M work unit :=
  let! _ := buffer_at i in modify (λ w, set_buffer (<[Z.to_nat i := p]> (buffer w)) w).

(** [p[i] = '*'] in a block of one megabyte. *)
Definition touch (p i : Z) : M work unit := λ w,
  if p =? NULL then Oops NullDeref
  else if decide (p ∈ live w) then
    if (0 <=? i) && (i <? MB) then Ok (tt, w) else Oops OutOfBounds
  else Oops BadAccess.

(** The operators [%] and [/] round towards zero. *)
Definition rand_access : M work unit :=
  let! r := do_rand in
  let! w := get in
  let target := Z.rem r (i32 (msize w * MB)) in
  let target := if target <? 0 then i32 (- target) else target in
  let blk := Z.quot (Z.quot target 1024) 1024 in
  let! p := buffer_at blk in
  touch p (target - blk * MB).

Definition local_access (addr : Z) : M work Z :=
  let! r := do_rand in
  if r <? 0 then ret (i32 (addr + 1))
  else let! r := do_rand in ret (i32 (addr + Z.rem r 300)).

(** [for(i--; i>=0; i--) free(buffer[i]);] from [i = n] *)
Fixpoint free_back (n : nat) : M work unit :=
  match n with
  | O => ret tt
  | S n' => let! p := buffer_at (Z.of_nat n') in free p ;! free_back n'
  end.

(** The allocations from [i] on: whether all were made. *)
Fixpoint alloc_loop (fuel i : nat) : M work bool :=
  match fuel with
  | O => ret true
  | S fuel' =>
      let! p := do_malloc in
      set_buffer_at (Z.of_nat i) p ;!
      if p =? NULL then
        free_back i ;!
        printf (str "Out of memory error! (failed at " ++ fmt_d (-1) ++ str "MB)" ++ [newline]) ;!
        ret false
      else alloc_loop fuel' (S i)
  end.

Fixpoint times {A} (n : nat) (body : A → M work A) (a : A) : M work A :=
  match n with
  | O => ret a
  | S n' => let! a' := body a in times n' body a'
  end.

(** One access of the temporal pattern. *)
Definition mixed_access (addr : Z) : M work Z :=
  let! r := do_rand in
  let locality := Z.rem r 10 in
  if (-2 <? locality) && (locality <? 2) then rand_access ;! ret addr else local_access addr.

Definition iteration (mypid locality naccess : Z) (k : nat) (addr : Z) : M work Z :=
  printf (str "[" ++ fmt_d mypid ++ str "] " ++ fmt_d (Z.of_nat k) ++ str " iteration" ++ [newline]) ;!
  if locality =? 0 then times (Z.to_nat naccess) (λ addr, rand_access ;! ret addr) addr
  else times (Z.to_nat naccess) mixed_access addr.

Definition command (op : string) (mypid : Z) : list ascii :=
  str "echo '" ++ str op ++ str " " ++ fmt_u mypid ++ str "'>//proc/mp3/status".

Fixpoint free_loop (fuel i : nat) : M work unit :=
  match fuel with
  | O => ret tt
  | S fuel' => let! p := buffer_at (Z.of_nat i) in free p ;! free_loop fuel' (S i)
  end.

(** [main], with the numbers [atoi] gives and the first character of the second
    argument. *)
Definition main (argc memsize : Z) (pattern : ascii) (naccess mypid : Z) : M work Z :=
  if argc <? 4 then ret (-1)
  else
    modify (set_msize memsize) ;!
    if (1024 <? memsize) || (memsize <? 1) then ret (-1)
    else
      let locality := if decide (pattern = ch "R") then 0 else 1 in
      if naccess <? 1 then ret (-1)
      else
        let! cmd := lift (sprintf (replicate 120 NUL) 0 (command "R" mypid)) in
        system (c_str cmd) ;!
        let! ok := alloc_loop (Z.to_nat memsize) 0 in
        if negb ok then ret (-1)
        else
          fold_each (seq 0 N_ITERATION) 0 (λ addr k, iteration mypid locality naccess k addr) ;!
          free_loop (Z.to_nat memsize) 0 ;!
          let! cmd := lift (sprintf cmd 0 (command "U" mypid)) in
          system (c_str cmd) ;!
          ret 0.

(** ** The memory accesses *)

Context `{!LibcLaws}.
Implicit Types w : work.

(** The first [n] pointers are distinct blocks, and these are the blocks
    allocated since [live] was [l0]. *)
Record owns (l0 : gset Z) (n : nat) w : Prop := mkOwns {
  ow_length : length (buffer w) = 1024%nat;
  ow_nodup : NoDup (take n (buffer w));
  ow_live : live w = list_to_set (take n (buffer w)) ∪ l0;
  ow_fresh : ∀ p, p ∈ take n (buffer w) → p ∉ l0;
  ow_null : ∀ p, p ∈ take n (buffer w) → p ≠ NULL
}.

(** The rest of the state an access leaves alone. *)
Definition same w w' : Prop :=
  buffer w' = buffer w ∧ msize w' = msize w ∧ live w' = live w ∧ cmds w' = cmds w.

Lemma same_refl w : same w w.
Proof. done. Qed.

Lemma same_trans w1 w2 w3 : same w1 w2 → same w2 w3 → same w1 w3.
Proof. unfold same. intuition congruence. Qed.

Lemma owns_same l0 n w w' : owns l0 n w → same w w' → owns l0 n w'.
Proof. intros [] (Hb & _ & Hl & _). by split; rewrite ?Hb, ?Hl. Qed.

(** An access stays inside the blocks: [0 <= target < msize MB]. *)
Lemma rand_access_wp l0 w (Q : unit → work → Prop) :
  owns l0 (Z.to_nat (msize w)) w → 1 <= msize w <= 1024 →
  (∀ w', same w w' → Q tt w') → wp rand_access Q safe w.
Proof.
  intros Ho Hm HQ. unfold rand_access. apply wp_bind. unfold wp at 1, do_rand.
  pose proof (rand_range (n_rand w)) as Hr. set (r := rand _) in *.
  set (w1 := mkWork _ _ _ _ _ _ _). wp_pure. change (msize w1) with (msize w).
  assert (i32 (msize w * MB) = msize w * MB) as ->.
  { apply i32_id. unfold is_i32, INT_MIN, INT_MAX, MB. lia. }
  assert (0 <= Z.rem r (msize w * MB) < msize w * MB) as Ht
    by (apply Z.rem_bound_pos; unfold MB; lia).
  set (target := Z.rem r (msize w * MB)) in *.
  rewrite (proj2 (Z.ltb_ge target 0)) by lia.
  assert (Z.quot (Z.quot target 1024) 1024 = target / MB) as ->.
  { pose proof (Z.div_pos target 1024 ltac:(lia) ltac:(lia)).
    rewrite (Z.quot_div_nonneg target), (Z.quot_div_nonneg (target / 1024)) by lia.
    by rewrite Z.div_div by lia. }
  assert (0 <= target / MB < msize w) as Hblk.
  { split; [apply Z.div_pos; unfold MB; lia|]. apply Z.div_lt_upper_bound; unfold MB in *; lia. }
  set (blk := target / MB) in *.
  destruct (lookup_lt_is_Some_2 (buffer w) (Z.to_nat blk)) as [p Hp];
    [rewrite (ow_length _ _ _ Ho); lia|].
  unfold wp at 1, buffer_at. rewrite (proj2 (Z.ltb_ge blk 0)) by lia.
  change (buffer w1) with (buffer w). rewrite Hp.
  assert (p ∈ take (Z.to_nat (msize w)) (buffer w)) as Hin.
  { apply list_elem_of_lookup. exists (Z.to_nat blk). by rewrite lookup_take_lt by lia. }
  unfold wp, touch. rewrite (proj2 (Z.eqb_neq p NULL)) by by apply (ow_null _ _ _ Ho).
  rewrite decide_True.
  - assert (target - blk * MB = target mod MB) as ->.
    { unfold blk. rewrite (Z.div_mod target MB) at 1 by done. lia. }
    pose proof (Z.mod_pos_bound target MB ltac:(done)) as Hidx.
    rewrite (proj2 (Z.leb_le _ _)), (proj2 (Z.ltb_lt _ _)) by lia. by apply HQ.
  - change (live w1) with (live w). rewrite (ow_live _ _ _ Ho). set_solver.
Qed.

(** Two steps that keep the rest of the state. *)
Definition keeps {A} (m : M work A) w : Prop := wp m (λ _ w', same w w') safe w.

Lemma keeps_bind {A B} (m : M work A) (f : A → M work B) w :
  keeps m w → (∀ a w', same w w' → keeps (f a) w') → keeps (bind m f) w.
Proof.
  intros Hm Hf. apply wp_bind. eapply wp_mono; [exact Hm| |done].
  intros a w' Hs. eapply wp_mono; [by apply Hf| |done]. intros b w'' Hs'. exact (same_trans _ _ _ Hs Hs').
Qed.

Lemma keeps_ret {A} (a : A) w : keeps (ret a) w.
Proof. done. Qed.

Lemma keeps_rand w : keeps do_rand w.
Proof. done. Qed.

Lemma keeps_printf l w : keeps (printf l) w.
Proof. done. Qed.

Section accesses.
Variables (l0 : gset Z) (w0 : work).
Hypothesis size_ok : 1 <= msize w0 <= 1024.

Definition ready w : Prop := owns l0 (Z.to_nat (msize w0)) w ∧ msize w = msize w0.

Lemma ready_same w w' : ready w → same w w' → ready w'.
Proof.
  intros [Ho Hm] Hs. split; [by eapply owns_same|]. destruct Hs as (_ & -> & _). done.
Qed.

Lemma keeps_rand_access w : ready w → keeps rand_access w.
Proof. intros [Ho Hm]. eapply rand_access_wp; rewrite ?Hm; [done|done|done]. Qed.

Lemma keeps_local_access a w : keeps (local_access a) w.
Proof.
  unfold local_access. apply keeps_bind; [apply keeps_rand|]. intros r w' _.
  destruct (r <? 0); [apply keeps_ret|].
  apply keeps_bind; [apply keeps_rand|intros; apply keeps_ret].
Qed.

Lemma keeps_mixed a w : ready w → keeps (mixed_access a) w.
Proof.
  intros Hr. unfold mixed_access. apply keeps_bind; [apply keeps_rand|]. intros r w' Hs.
  destruct (_ && _); [|apply keeps_local_access].
  apply keeps_bind; [by eapply keeps_rand_access, ready_same|intros; apply keeps_ret].
Qed.

Lemma keeps_times {A} n (body : A → M work A) : ∀ a w,
  ready w → (∀ a w, ready w → keeps (body a) w) → keeps (times n body a) w.
Proof.
  induction n as [|n IH]; intros a w Hr Hb; [apply keeps_ret|]. cbn [times].
  apply keeps_bind; [by apply Hb|]. intros a' w' Hs. apply IH; [by eapply ready_same|done].
Qed.

Lemma keeps_iteration pid loc na k a w : ready w → keeps (iteration pid loc na k a) w.
Proof.
  intros Hr. unfold iteration. apply keeps_bind; [apply keeps_printf|]. intros _ w' Hs.
  assert (ready w') as Hr' by by eapply ready_same.
  destruct (loc =? 0); apply keeps_times; try done; intros a' w2 Hr2; [|by apply keeps_mixed].
  apply keeps_bind; [by apply keeps_rand_access|intros; apply keeps_ret].
Qed.

Lemma keeps_iterations pid loc na ks : ∀ a w,
  ready w → keeps (fold_each ks a (λ addr k, iteration pid loc na k addr)) w.
Proof.
  induction ks as [|k ks IH]; intros a w Hr; [apply keeps_ret|]. cbn [fold_each].
  apply keeps_bind; [by apply keeps_iteration|]. intros a' w' Hs.
  apply IH. by eapply ready_same.
Qed.
End accesses.

(** ** Allocating and freeing *)

(** [ps] are distinct blocks, those allocated since [live] was [l0]. *)
Record holds (l0 : gset Z) (ps : list Z) w : Prop := mkHolds {
  ho_nodup : NoDup ps;
  ho_live : live w = list_to_set ps ∪ l0;
  ho_fresh : ∀ p, p ∈ ps → p ∉ l0;
  ho_null : ∀ p, p ∈ ps → p ≠ NULL
}.

Lemma owns_holds l0 n w :
  owns l0 n w ↔ length (buffer w) = 1024%nat ∧ holds l0 (take n (buffer w)) w.
Proof. split; [intros []; by split|intros (? & [])]; by split. Qed.

Lemma holds_nil l0 w : holds l0 [] w → live w = l0.
Proof. intros Hh. rewrite (ho_live _ _ _ Hh). set_solver. Qed.

(** [free] gives one of them back. *)
Lemma free_wp l0 p ps w (Q : unit → work → Prop) :
  holds l0 (p :: ps) w →
  (holds l0 ps (set_live (live w ∖ {[p]}) w) → Q tt (set_live (live w ∖ {[p]}) w)) →
  wp (free p) Q safe w.
Proof.
  intros [Hnd Hl Hf Hn] HQ. apply NoDup_cons in Hnd as [Hp Hnd]. unfold wp, free.
  rewrite (proj2 (Z.eqb_neq p NULL)) by set_solver. rewrite decide_True by set_solver.
  apply HQ. assert (p ∉ l0) as Hp0 by (apply Hf; set_solver).
  split; [done| |set_solver..]. change (live w ∖ {[p]} = list_to_set ps ∪ l0). rewrite Hl.
  apply set_eq. intros x. rewrite elem_of_difference, !elem_of_union, !elem_of_list_to_set.
  rewrite elem_of_cons, elem_of_singleton. split; [naive_solver|].
  intros [Hx|Hx]; (split; [naive_solver|by intros ->]).
Qed.

Lemma buffer_at_wp i p w (Q : Z → work → Prop) :
  buffer w !! i = Some p → Q p w → wp (buffer_at (Z.of_nat i)) Q safe w.
Proof.
  intros Hp HQ. unfold wp, buffer_at. rewrite (proj2 (Z.ltb_ge _ 0)) by lia.
  by rewrite Nat2Z.id, Hp.
Qed.

Definition only_live w w' : Prop :=
  buffer w' = buffer w ∧ msize w' = msize w ∧ cmds w' = cmds w.

Lemma free_back_wp l0 n : ∀ w,
  (n <= length (buffer w))%nat → holds l0 (take n (buffer w)) w →
  wp (free_back n) (λ _ w', live w' = l0 ∧ only_live w w') safe w.
Proof.
  induction n as [|n IH]; intros w Hlen Hh; cbn [free_back].
  - split; [by apply holds_nil|done].
  - destruct (lookup_lt_is_Some_2 (buffer w) n) as [p Hp]; [lia|].
    rewrite (take_S_r _ _ p Hp) in Hh. apply wp_bind. apply (buffer_at_wp n p); [done|].
    apply wp_bind. apply (free_wp l0 p (take n (buffer w))).
    + destruct Hh as [Hnd Hl Hf Hn]. split.
      * by rewrite Permutation_cons_append.
      * rewrite Hl. set_solver.
      * intros x Hx. apply Hf. set_solver.
      * intros x Hx. apply Hn. set_solver.
    + intros Hh'. eapply wp_mono; [apply IH; [|exact Hh']| |done]; [cbn; lia|].
      intros _ w' [Hl Ho]. by split.
Qed.

Lemma free_loop_wp l0 fuel : ∀ i w,
  (i + fuel <= length (buffer w))%nat → holds l0 (take fuel (drop i (buffer w))) w →
  wp (free_loop fuel i) (λ _ w', live w' = l0 ∧ only_live w w') safe w.
Proof.
  induction fuel as [|fuel IH]; intros i w Hlen Hh; cbn [free_loop].
  - split; [by apply holds_nil|done].
  - destruct (lookup_lt_is_Some_2 (buffer w) i) as [p Hp]; [lia|].
    rewrite (drop_S _ p i Hp) in Hh. cbn [take] in Hh.
    apply wp_bind. apply (buffer_at_wp i p); [done|]. apply wp_bind.
    apply (free_wp l0 p (take fuel (drop (S i) (buffer w)))); [done|]. intros Hh'.
    eapply wp_mono; [apply IH; [|exact Hh']| |done]; [cbn; lia|].
    intros _ w' [Hl Ho]. by split.
Qed.

(** Whether [k] requests from the [n]-th on, with [used] in use, all succeed. *)
Fixpoint all_allocated (k n : nat) (used : gset Z) : bool :=
  match k with
  | O => true
  | S k' => let p := malloc n used in
            if p =? NULL then false else all_allocated k' (S n) ({[p]} ∪ used)
  end.

Lemma alloc_loop_wp l0 fuel : ∀ i w,
  length (buffer w) = 1024%nat → (i + fuel <= 1024)%nat → holds l0 (take i (buffer w)) w →
  wp (alloc_loop fuel i) (λ ok w', length (buffer w') = 1024%nat ∧ msize w' = msize w ∧
    cmds w' = cmds w ∧ ok = all_allocated fuel (n_malloc w) (live w) ∧
    if (ok : bool) then holds l0 (take (i + fuel) (buffer w')) w' else live w' = l0)
    safe w.
Proof.
  induction fuel as [|fuel IH]; intros i w Hb Hi Hh; cbn [alloc_loop].
  - rewrite Nat.add_0_r. by split_and!.
  - apply wp_bind. unfold wp at 1, do_malloc. pose proof (malloc_fresh (n_malloc w) (live w)) as Hm.
    set (p := malloc _ _) in *. set (w1 := mkWork _ _ _ _ _ _ _).
    destruct (lookup_lt_is_Some_2 (buffer w1) i) as [q Hq]; [change (buffer w1) with (buffer w); lia|].
    apply wp_bind. unfold set_buffer_at. apply wp_bind. apply (buffer_at_wp i q); [done|]. wp_pure.
    set (w2 := set_buffer _ w1).
    assert (buffer w2 = <[i := p]> (buffer w)) as Hb2
      by (unfold w2, w1; cbn [set_buffer buffer]; by rewrite Nat2Z.id).
    assert (length (buffer w2) = 1024%nat) as Hlen2 by by rewrite Hb2, length_insert.
    assert (take i (buffer w2) = take i (buffer w)) as Ht2 by by rewrite Hb2, take_insert_ge.
    assert (live w2 = if p =? NULL then live w else {[p]} ∪ live w) as Hl2 by done.
    cbn [all_allocated]. fold p. assert (n_malloc w2 = S (n_malloc w)) as Hn2 by done.
    assert (msize w2 = msize w ∧ cmds w2 = cmds w) as [Hm2 Hc2] by done.
    clearbody w2. destruct (Z.eqb_spec p NULL) as [Hp|Hp].
    + apply wp_bind. eapply wp_mono; [apply (free_back_wp l0 i w2)| |done].
      * lia.
      * rewrite Ht2. destruct Hh. by split; rewrite ?Hl2.
      * intros _ w3 (Hl3 & Hb3 & Hm3 & Hc3). wp_pure. unfold printf. wp_pure.
        split_and!; [by cbn; rewrite Hb3|by cbn; rewrite Hm3|by cbn; rewrite Hc3|done|exact Hl3].
    + eapply wp_mono; [apply (IH (S i) w2); [done|lia|]| |done].
      * rewrite (take_S_r _ _ p) by (rewrite Hb2; apply list_lookup_insert_eq; lia). rewrite Ht2.
        destruct Hh as [Hnd Hl Hf Hn]. specialize (Hm Hp). rewrite Hl in Hm. split.
        -- apply NoDup_app. split_and!; [done| |apply NoDup_singleton].
           intros x Hx ->%list_elem_of_singleton. set_solver.
        -- rewrite Hl2, Hl. set_solver.
        -- intros x Hx. set_solver.
        -- intros x [Hx| ->%list_elem_of_singleton]%elem_of_app; [by apply Hn|done].
      * intros ok w3 (? & Hm3 & Hc3 & Hok & Hh3). rewrite <- Nat.add_succ_comm.
        rewrite Hn2, Hl2 in Hok. split_and!; [done|by rewrite Hm3|by rewrite Hc3|done|done].
Qed.

(** ** The whole program *)

Lemma command_length op mypid :
  (length (str op) = 1)%nat → (length (command op mypid) <= 40)%nat.
Proof.
  intros Hop. unfold command. rewrite !length_app, Hop. pose proof (fmt_u_length mypid).
  change (length (str "echo '")) with 6%nat. change (length (str " ")) with 1%nat.
  change (length (str "'>//proc/mp3/status")) with 19%nat. lia.
Qed.

Lemma command_NUL op mypid : NUL ∉ str op → NUL ∉ command op mypid.
Proof.
  intros Hop. unfold command. rewrite !elem_of_app. intros [Hin|[Hin|[Hin|[Hin|Hin]]]];
    [|done| |by apply fmt_u_NUL in Hin|];
    revert Hin; apply (bool_decide_unpack _); by vm_compute.
Qed.

(** [sprintf(cmd, ...)] into the array of 120 bytes. *)
Lemma sprintf_command buf op mypid :
  length buf = 120%nat → (length (str op) = 1)%nat → NUL ∉ str op →
  ∃ buf', sprintf buf 0 (command op mypid) = Ok buf' ∧ length buf' = 120%nat ∧
    c_str buf' = command op mypid.
Proof.
  intros Hb Ho Hn. pose proof (command_length op mypid Ho) as Hl.
  destruct (sprintf_at [] buf (command op mypid)) as (rest & Hs & Hlen); [cbn [length app]; lia|].
  eexists. split; [exact Hs|]. split; [by rewrite Hlen|].
  cbn [app]. apply c_str_app_NUL. by apply command_NUL.
Qed.

(** C18: The workload is memory safe and balanced, whatever malloc and rand give:
    every access falls inside a block it has allocated, it ends, and all blocks
    are freed.  With the arguments it accepts, exactly when all the allocations it
    asks for succeed ([all_allocated]) it registers its pid, unregisters it and
    returns 0; otherwise it returns -1 and leaves its pid registered. *)
Theorem work_balanced memsize pattern naccess mypid w :
  1 <= memsize <= 1024 → 1 <= naccess → length (buffer w) = 1024%nat →
  ∃ r w', main 4 memsize pattern naccess mypid w = Ok (r, w') ∧ live w' = live w ∧
    if all_allocated (Z.to_nat memsize) (n_malloc w) (live w)
    then r = 0 ∧ cmds w' = cmds w ++ [command "R" mypid; command "U" mypid]
    else r = -1 ∧ cmds w' = cmds w ++ [command "R" mypid].
Proof.
  intros Hm Hna Hb. apply wp_safe_runs. unfold main.
  change (4 <? 4) with false. cbn iota. wp_pure.
  rewrite (proj2 (Z.ltb_ge 1024 memsize)), (proj2 (Z.ltb_ge memsize 1)) by lia. cbn [orb].
  rewrite (proj2 (Z.ltb_ge naccess 1)) by lia.
  destruct (sprintf_command (replicate 120 NUL) "R" mypid) as (cmd & Hs & Hlen & Hc);
    [done|done|apply (bool_decide_unpack _); by vm_compute|].
  wp_pure. unfold wp at 1, lift. rewrite Hs. unfold system. wp_pure. rewrite Hc.
  set (w1 := mkWork _ _ _ _ _ _ _).
  eapply wp_mono; [apply (alloc_loop_wp (live w) (Z.to_nat memsize) 0 w1); [done|lia|]| |done].
  { cbn [take]. split; [constructor|cbn; set_solver|set_solver|set_solver]. }
  intros ok w2 (Hb2 & Hm2 & Hc2 & Hall & Hok). 
  change (all_allocated _ _ _) with (all_allocated (Z.to_nat memsize) (n_malloc w) (live w)) in Hall.
  rewrite <- Hall.
  destruct ok; cbn [negb].
  2:{ wp_pure. by split. }
  change (msize w1) with memsize in Hm2. rewrite Nat.add_0_l in Hok.
  assert (ready (live w) w2 w2) as Hr.
  { split; [|done]. rewrite Hm2. by apply owns_holds. }
  wp_pure. eapply wp_mono;
    [apply (keeps_iterations (live w) w2 ltac:(rewrite Hm2; lia) mypid _ naccess _ 0 w2 Hr)| |done].
  intros _ w3 (Hb3 & Hm3 & Hl3 & Hc3). wp_pure.
  eapply wp_mono; [apply (free_loop_wp (live w) (Z.to_nat memsize) 0 w3)| |done].
  - rewrite Hb3, Hb2. lia.
  - rewrite drop_0, Hb3. destruct Hok. by split; rewrite ?Hl3.
  - intros _ w4 (Hl4 & Hb4 & Hm4 & Hc4).
    destruct (sprintf_command cmd "U" mypid) as (cmd' & Hs' & _ & Hcu);
      [done|done|apply (bool_decide_unpack _); by vm_compute|].
    wp_pure. unfold wp at 1, lift. rewrite Hs'. wp_pure. split; [exact Hl4|]. split; [done|].
    cbn [cmds]. rewrite Hcu, Hc4, Hc3, Hc2. cbn. by rewrite <- app_assoc.
Qed.
End work.
End Work.

(** ** Witness *)

(** Blocks above all live ones; a simple generator. *)
#[export] Instance ref_libc : Libc := {
  malloc _ used := Reference.top used + 1;
  rand n := (Z.of_nat n * 1103515245 + 12345) mod 2147483648
}.

#[export] Instance ref_libc_laws : LibcLaws.
Proof.
  split.
  - intros n used _ Hin%Reference.top_bound. cbn in Hin. lia.
  - intros n. pose proof (Z.mod_pos_bound (Z.of_nat n * 1103515245 + 12345) 2147483648).
    cbn [rand ref_libc]. unfold INT_MAX. lia.
Qed.

Lemma work_balanced_witness :
  let w := Work.mkWork (replicate 1024 NULL) 0 ∅ 0 0 [] [] in
  Work.all_allocated 2 0 ∅ = true ∧
  ∃ r w', Work.main 4 2 (ch "T") 3 77 w = Ok (r, w') ∧ Work.live w' = ∅ ∧
    r = 0 ∧ Work.cmds w' = [Work.command "R" 77; Work.command "U" 77].
Proof.
  intros w. assert (Work.all_allocated 2 0 ∅ = true) as Hall by by vm_compute.
  split; [exact Hall|].
  destruct (Work.work_balanced 2 (ch "T") 3 77 w) as (r & w' & Hrun & Hl & Hc);
    [lia|lia|reflexivity|].
  exists r, w'. split; [exact Hrun|]. split; [exact Hl|].
  change (Work.all_allocated _ _ _) with (Work.all_allocated 2 0 ∅) in Hc. rewrite Hall in Hc. exact Hc.
Defined.
