(* ===== verification/Mp4.v ===== *)
(** * MP4: the mandatory access control module

    src/MP4/mp4.c and src/MP4/mp4_given.h, function by function, over the part
    of the kernel's state the hooks see: the blocks they allocate, the
    credentials with their security pointers, the inodes, and the reference
    counts of dentries.  [Masks] and [Vfs] stand for <linux/fs.h> and the
    filesystem code the hooks call. *)
From Stdlib Require Import Ascii String.
From stdpp Require Import base gmap sets list strings.
From Stdlib Require Import ZArith Lia.
From S2P Require Import Prelude CString Kernel.

Open Scope Z_scope.
Open Scope c_scope.

(** ** The kernel headers and the filesystem *)

Class Masks : Type := {
  MAY_EXEC : Z; MAY_WRITE : Z; MAY_READ : Z; MAY_APPEND : Z; MAY_ACCESS : Z
}.

(** Each mask is one bit, and they are five different bits. *)
Class MasksLaws `{Masks} : Prop := {
  mask_bits : ∃ e w r a x, NoDup [e; w; r; a; x] ∧ Forall (Z.le 0) [e; w; r; a; x] ∧
    MAY_EXEC = 2 ^ e ∧ MAY_WRITE = 2 ^ w ∧ MAY_READ = 2 ^ r ∧ MAY_APPEND = 2 ^ a ∧
    MAY_ACCESS = 2 ^ x
}.

Class Vfs : Type := {
  (** on [i_mode] *)
  S_ISDIR : Z → bool;
  (** the value returned and the bytes written to the buffer *)
  getxattr : Z → list ascii → nat → Z * list ascii;
  (** an error pointer, or the path *)
  dentry_path_raw : Z → nat → Z + list ascii
}.

Class VfsLaws `{Vfs} : Prop := {
  getxattr_fits : ∀ d name n r bytes, getxattr d name n = (r, bytes) → 0 <= r →
    Z.of_nat (length bytes) = r ∧ r <= Z.of_nat n;
  path_free : ∀ d n p, dentry_path_raw d n = inr p → NUL ∉ p
}.

(** ** mp4_given.h *)

Definition XATTR_MP4_SUFFIX : list ascii := str "mp4".
(** [XATTR_SECURITY_PREFIX] is "security." *)
Definition XATTR_NAME_MP4 : list ascii := str "security." ++ XATTR_MP4_SUFFIX.

Definition MP4_NO_ACCESS : Z := 0.
Definition MP4_READ_OBJ : Z := 1.
Definition MP4_READ_WRITE : Z := 2.
Definition MP4_WRITE_OBJ : Z := 3.
Definition MP4_EXEC_OBJ : Z := 4.
Definition MP4_READ_DIR : Z := 5.
Definition MP4_RW_DIR : Z := 6.
Definition MP4_TARGET_SID : Z := 7.

Record mp4_security : Type := mkSec { mp4_flags : Z }.

Definition __cred_ctx_to_sid (cred_ctx : list ascii) : Z :=
  if strcmp cred_ctx (str "read-only") =? 0 then MP4_READ_OBJ
  else if strcmp cred_ctx (str "read-write") =? 0 then MP4_READ_WRITE
  else if strcmp cred_ctx (str "exec") =? 0 then MP4_EXEC_OBJ
  else if strcmp cred_ctx (str "target") =? 0 then MP4_TARGET_SID
  else if strcmp cred_ctx (str "write-only") =? 0 then MP4_WRITE_OBJ
  else if strcmp cred_ctx (str "dir") =? 0 then MP4_READ_DIR
  else if strcmp cred_ctx (str "dir-write") =? 0 then MP4_RW_DIR
  else MP4_NO_ACCESS.

Definition mp4_should_skip_path (dir : list ascii) : bool :=
  (strncmp dir (str "/dev") 4 =? 0) ||
  (strncmp dir (str "/proc") 5 =? 0) ||
  (strncmp dir (str "/lib") 4 =? 0) ||
  (strncmp dir (str "/events") 7 =? 0) ||
  (strncmp dir (str "/mnt") 4 =? 0) ||
  (strncmp dir (str "/run") 4 =? 0) ||
  (strncmp dir (str "/lvm") 4 =? 0) ||
  (strncmp dir (str "/conf") 5 =? 0) ||
  (strncmp dir (str "/usr") 4 =? 0) ||
  (strncmp dir (str "/bin") 4 =? 0) ||
  (strcmp dir (str "/") =? 0).

(** ** The state the hooks see *)

(** What they allocate: labels and byte buffers. *)
Inductive block : Type :=
  | SEC (sec : mp4_security)
  | BUF (bytes : list ascii).

(** [i_alias] is the dentry [d_find_alias] finds; the flags tell whether
    [i_op] and [i_op->getxattr] are there. *)
Record inode : Type := mkInode {
  i_mode : Z;
  i_op : bool;
  i_op_getxattr : bool;
  i_alias : option Z
}.

(** [file] is the inode of [bprm->file], None when that is NULL. *)
Record linux_binprm : Type := mkBprm {
  file : option Z;
  bprm_cred : Z;
  cred_prepared : bool
}.

Inductive hook : Type :=
  | inode_init_security | inode_permission | bprm_set_creds
  | cred_alloc_blank | cred_free | cred_prepare.

(** [creds] maps a [struct cred] to its [security] pointer; [dentries] a dentry
    to its reference count. *)
Record mp4 : Type := mkMp4 {
  slabs : heap block;
  creds : gmap Z Z;
  inodes : gmap Z inode;
  dentries : gmap Z Z;
  current : Z;
  hooks : list hook
}.

Definition set_slabs h s := mkMp4 h (creds s) (inodes s) (dentries s) (current s) (hooks s).
Definition set_creds c s := mkMp4 (slabs s) c (inodes s) (dentries s) (current s) (hooks s).
Definition set_dentries d s := mkMp4 (slabs s) (creds s) (inodes s) d (current s) (hooks s).
Definition set_hooks h s := mkMp4 (slabs s) (creds s) (inodes s) (dentries s) (current s) h.

#[export, refine] Instance mp4_heap : HasHeap mp4 block := {
  heap_of := slabs; with_heap := set_slabs }.
Proof. all: intros; try done. by destruct s. Defined.

Section mp4.
Context `{!KConst, !Allocator, !Masks, !Vfs}.

(** ** Kernel structures *)

Definition deref {V} (m : mp4 → gmap Z V) (p : Z) : M mp4 V := λ s,
  if p =? NULL then Oops NullDeref
  else match m s !! p with Some v => Ok (v, s) | None => Oops BadAccess end.

(** [cred->security] and assignments to it. *)
Definition get_security (c : Z) : M mp4 Z := deref creds c.
Definition set_security (c p : Z) : M mp4 unit :=
  let! _ := deref creds c in modify (λ s, set_creds (<[c := p]> (creds s)) s).

(** [ptr->mp4_flags] *)
Definition get_flags (p : Z) : M mp4 Z :=
  let! b := load p in
  match b with SEC sec => ret (mp4_flags sec) | BUF _ => fail BadAccess end.
Definition set_flags (p : Z) (sid : Z) : M mp4 unit :=
  let! _ := get_flags p in update p (λ _, SEC (mkSec sid)).

(** [kzalloc(sizeof(struct mp4_security))], [kzalloc(len)], [kmemdup] and
    [kstrdup]. *)
Definition kzalloc_sec : M mp4 Z := kmalloc (SEC (mkSec 0)).
Definition kzalloc (len : nat) : M mp4 Z := kmalloc (BUF (replicate len NUL)).
Definition kmemdup (p : Z) : M mp4 Z := let! b := load p in kmalloc b.
Definition kstrdup (t : list ascii) : M mp4 Z := kmalloc (BUF (t ++ [NUL])).

(** A reference to an alias of the inode is taken, or NULL. *)
Definition d_find_alias (i : Z) : M mp4 Z :=
  let! node := deref inodes i in
  match i_alias node with
  | None => ret NULL
  | Some d =>
      let! n := deref dentries d in
      modify (λ s, set_dentries (<[d := n + 1]> (dentries s)) s) ;!
      ret d
  end.

Definition dput (d : Z) : M mp4 unit :=
  if d =? NULL then ret tt
  else
    let! n := deref dentries d in
    modify (λ s, set_dentries (<[d := n - 1]> (dentries s)) s).

(** ** mp4.c *)

Definition get_inode_sid (inode : Z) : M mp4 Z :=
  let! supported :=
    (if inode =? NULL then ret false
     else let! node := deref inodes inode in ret (i_op node && i_op_getxattr node)) in
  if negb supported then ret MP4_NO_ACCESS
  else
    let! de := d_find_alias inode in
    if de =? NULL then ret MP4_NO_ACCESS
    else
      let! ctx := kzalloc 256 in
      if ctx =? NULL then dput de ;! ret MP4_NO_ACCESS
      else
        let '(r, bytes) := getxattr de XATTR_NAME_MP4 256 in
        if r <? 0 then kfree ctx ;! dput de ;! ret MP4_NO_ACCESS
        else
          let! b := load ctx in
          let! written :=
            (match b with BUF old => lift (put old 0 bytes) | SEC _ => fail BadAccess end) in
          update ctx (λ _, BUF written) ;!
          let sid := __cred_ctx_to_sid written in
          dput de ;!
          kfree ctx ;!
          ret sid.

Definition mp4_bprm_set_creds (bprm : option linux_binprm) : M mp4 Z :=
  match bprm with
  | None => ret (- ENOENT)
  | Some b =>
      match file b with
      | None => ret (- ENOENT)
      | Some node =>
          if node =? NULL then ret (- ENOENT)
          else if bprm_cred b =? NULL then ret (- ENOENT)
          else
            let! ptr := get_security (bprm_cred b) in
            if ptr =? NULL then ret (- ENOENT)
            else if cred_prepared b then ret 0
            else
              let! sid := get_inode_sid node in
              when (sid =? MP4_TARGET_SID) (set_flags ptr sid) ;!
              ret 0
      end
  end.

Definition mp4_cred_alloc_blank (cred : Z) : M mp4 Z :=
  if cred =? NULL then ret (- ENOENT)
  else
    let! ptr := kzalloc_sec in
    if ptr =? NULL then ret (- ENOMEM)
    else
      set_security cred ptr ;!
      set_flags ptr MP4_NO_ACCESS ;!
      ret 0.

Definition POISON : Z := 7.

Definition mp4_cred_free (cred : Z) : M mp4 unit :=
  if cred =? NULL then ret tt
  else
    let! ptr := get_security cred in
    if ptr =? NULL then ret tt
    else if ptr <? PAGE_SIZE then fail BugOn
    else
      set_security cred POISON ;!
      kfree ptr.

Definition mp4_cred_prepare (new old : Z) : M mp4 Z :=
  if new =? NULL then ret (- ENOENT)
  else
    let! old_tsec := get_security old in
    if old_tsec =? NULL then
      let! tsec := kzalloc_sec in
      if tsec =? NULL then ret (- ENOMEM)
      else
        set_security new tsec ;!
        set_flags tsec MP4_NO_ACCESS ;!
        ret 0
    else
      let! tsec := kmemdup old_tsec in
      if tsec =? NULL then ret (- ENOMEM)
      else
        set_security new tsec ;!
        ret 0.

(** What [mp4_inode_init_security] writes through its three out pointers. *)
Record xattr_out : Type := mkOut {
  out_name : option (list ascii);
  out_value : option Z;
  out_len : option Z
}.
Definition no_out : xattr_out := mkOut None None None.

(** [name], [value] and [len] tell whether the caller's pointers are not
    NULL. *)
Definition mp4_inode_init_security (inode dir : Z) (name value len : bool)
  : M mp4 (Z * xattr_out) :=
  let! s := get in
  let cred := current s in
  if cred =? NULL then ret (- EOPNOTSUPP, no_out)
  else
    let! sec := get_security cred in
    if sec =? NULL then ret (- EOPNOTSUPP, no_out)
    else if (inode =? NULL) || (dir =? NULL) then ret (- EOPNOTSUPP, no_out)
    else if negb name then ret (- ENOMEM, no_out)
    else
      let! flags := get_flags sec in
      if flags =? MP4_TARGET_SID then
        if negb value || negb len then
          ret (- ENOMEM, mkOut (Some XATTR_MP4_SUFFIX) None None)
        else
          let! node := deref inodes inode in
          let! v :=
            (if S_ISDIR (i_mode node) then kstrdup (str "dir-write")
             else kstrdup (str "read-write")) in
          let n := if S_ISDIR (i_mode node) then 10 else 11 in
          ret (- EOPNOTSUPP, mkOut (Some XATTR_MP4_SUFFIX) (Some v) (Some n))
      else ret (- EOPNOTSUPP, mkOut (Some XATTR_MP4_SUFFIX) None None).

(** The int a C comparison gives. *)
Definition c_eq (a b : Z) : Z := if a =? b then 1 else 0.

(** The operators group as in C: in the test of line 303, [==] binds tighter
    than [|]. *)
Definition mp4_has_permission (ssid osid mask : Z) : Z :=
  if mask =? 0 then 0
  else if osid =? MP4_NO_ACCESS then
    if ssid =? MP4_TARGET_SID then - EACCES else 0
  else if osid =? MP4_READ_WRITE then
    if mask =? MAY_READ then 0
    else if Z.lor (Z.lor (Z.lor mask MAY_READ) MAY_WRITE) MAY_APPEND
              =? Z.lor (Z.lor MAY_READ MAY_WRITE) MAY_APPEND then
      if ssid =? MP4_TARGET_SID then 0 else - EACCES
    else - EACCES
  else if osid =? MP4_READ_OBJ then
    if mask =? MAY_READ then 0 else - EACCES
  else if osid =? MP4_EXEC_OBJ then
    if negb (Z.lor (c_eq (Z.lor (Z.lor mask MAY_EXEC) MAY_READ) MAY_EXEC) MAY_READ =? 0)
    then 0 else - EACCES
  else if osid =? MP4_READ_DIR then
    if Z.lor (Z.lor (Z.lor mask MAY_READ) MAY_EXEC) MAY_ACCESS
         =? Z.lor (Z.lor MAY_READ MAY_EXEC) MAY_ACCESS
    then 0 else - EACCES
  else if osid =? MP4_RW_DIR then
    if ssid =? MP4_TARGET_SID then 0 else 0
  else - EACCES.

Definition efficient_bits : Z :=
  Z.lor (Z.lor (Z.lor (Z.lor MAY_EXEC MAY_WRITE) MAY_READ) MAY_APPEND) MAY_ACCESS.

(** The strings of an error pointer cannot be read. *)
Definition skip_path (path_ret : Z + list ascii) : M mp4 bool :=
  match path_ret with
  | inl _ => fail BadAccess
  | inr p => ret (mp4_should_skip_path p)
  end.

(** [dentry_path_raw] gives an error pointer or a pointer into the buffer,
    never NULL, so lines 386-392 are not taken. *)
Definition mp4_inode_permission (inode mask : Z) : M mp4 Z :=
  if inode =? NULL then ret (- EACCES)
  else
    let! path_de := d_find_alias inode in
    if path_de =? NULL then ret (- EACCES)
    else
      let! s := get in
      let cred := current s in
      if cred =? NULL then dput path_de ;! ret (- EACCES)
      else
        let mask := Z.land mask efficient_bits in
        if mask =? 0 then dput path_de ;! ret 0
        else
          let! path_buff := kzalloc 256 in
          if path_buff =? NULL then dput path_de ;! ret (- EACCES)
          else
            let path_ret := dentry_path_raw path_de 256 in
            let! skip := skip_path path_ret in
            if (skip : bool) then
              dput path_de ;! kfree path_buff ;! ret 0
            else
              let! sec := get_security cred in
              if sec =? NULL then
                dput path_de ;! kfree path_buff ;! ret (- EACCES)
              else
                let! ssid := get_flags sec in
                let! osid := get_inode_sid inode in
                let! r :=
                  (if ssid =? MP4_TARGET_SID then
                     ret (if mp4_has_permission ssid osid mask =? 0 then 0 else - EACCES)
                   else
                     let! node := deref inodes inode in
                     if S_ISDIR (i_mode node) then ret 0
                     else ret (if mp4_has_permission ssid osid mask =? 0 then 0
                               else - EACCES)) in
                dput path_de ;!
                kfree path_buff ;!
                ret r.

Definition mp4_hooks : list hook :=
  [inode_init_security; inode_permission; bprm_set_creds; cred_alloc_blank; cred_free;
   cred_prepare].

(** [enabled] is what [security_module_enable] answers. *)
Definition mp4_init (enabled : bool) : M mp4 Z :=
  if negb enabled then ret 0
  else modify (λ s, set_hooks (hooks s ++ mp4_hooks) s) ;! ret 0.
End mp4.
