(* ===== verification/Mp4Run.v ===== *)
(** * MP4: a concrete kernel for the hooks

    Instances of [Masks] and [Vfs] with the values of Linux 4.4, and a small
    system: the states at which the MP4 theorems are instantiated. *)
From Stdlib Require Import Ascii String.
From stdpp Require Import base gmap sets list strings.
From Stdlib Require Import ZArith Lia.
From S2P Require Import Prelude CString Kernel Mp4.
Import Reference.

Open Scope Z_scope.

#[export] Instance ref_masks : Masks := {
  MAY_EXEC := 1; MAY_WRITE := 2; MAY_READ := 4; MAY_APPEND := 8; MAY_ACCESS := 16
}.

#[export] Instance ref_masks_laws : MasksLaws.
Proof.
  split. exists 0, 1, 2, 3, 4. split_and!; [|by repeat constructor|done..].
  apply (bool_decide_unpack _). by vm_compute.
Qed.

(** The dentries of the system, with their paths and their attributes. *)
Definition path_table : gmap Z (list ascii * list ascii) := list_to_map [
  (301, (str "/etc/shadow", str "read-only"));
  (302, (str "/etc", str "dir-write"));
  (303, (str "/usr/bin/passwd", str "target"));
  (304, (str "/home/notes", str "secret"));
  (305, (str "/etc/krb5.conf", str "exec"))
].

#[export] Instance ref_vfs : Vfs := {
  S_ISDIR m := Z.land m 61440 =? 16384;
  getxattr d name n :=
    match path_table !! d with
    | Some (_, v) =>
        if (length v <=? n)%nat then (Z.of_nat (length v), v) else (-34, [])
    | None => (-61, [])
    end;
  dentry_path_raw d n :=
    match path_table !! d with
    | Some (p, _) => if decide (NUL ∉ p) then inr p else inl (-36)
    | None => inl (-36)
    end
}.

#[export] Instance ref_vfs_laws : VfsLaws.
Proof.
  split.
  - intros d name n r bytes. unfold getxattr, ref_vfs.
    destruct (path_table !! d) as [[p v]|]; [|intros [= <- <-]; lia].
    destruct (Nat.leb_spec (length v) n); intros [= <- <-]; lia.
  - intros d n p. unfold dentry_path_raw, ref_vfs.
    destruct (path_table !! d) as [[p' v]|]; [|done]. case_decide; [|done]. by intros [= <-].
Qed.

(** Inode [200 + k] has the alias [300 + k]; the second is a directory. *)
Definition file_at (d : Z) : inode := mkInode 33188 true true (Some d).
Definition dir_at (d : Z) : inode := mkInode 16877 true true (Some d).

(** Credential 101 belongs to an ordinary task and 102 to the confined one. *)
Definition system : mp4 :=
  mkMp4
    (mkHeap (list_to_map [(4097, SEC (mkSec 0)); (4098, SEC (mkSec 7))]) 2)
    (list_to_map [(101, 4097); (102, 4098)])
    (list_to_map [(201, file_at 301); (202, dir_at 302); (203, file_at 303);
                  (204, file_at 304); (205, file_at 305)])
    (list_to_map [(301, 1); (302, 1); (303, 1); (304, 1); (305, 1)])
    102 [].

Definition run_as (cred : Z) (s : mp4) : mp4 :=
  mkMp4 (slabs s) (creds s) (inodes s) (dentries s) cred (hooks s).
