(* ===== verification/Mp4Policy.v ===== *)
(** * MP4: the access policy

    The pure part of src/MP4: the decision [mp4_has_permission] against the
    meaning of the labels that mp4_given.h documents (and its NOTE on
    directories), the reading of a label from an attribute, and the paths that are exempt. *)
From Stdlib Require Import Ascii String.
From stdpp Require Import base gmap sets list strings.
From Stdlib Require Import ZArith Lia.
From S2P Require Import Prelude CString Kernel Mp4 Mp4Run.

Open Scope Z_scope.

(** ** Operation masks as sets of operations *)

Inductive op : Type := Exec | Write | Read | Append | Access.

#[export] Instance op_eq_dec : EqDecision op.
Proof. solve_decision. Defined.

Section masks.
Context `{!Masks, !MasksLaws}.

Definition bit_of (o : op) : Z :=
  match o with
  | Exec => MAY_EXEC | Write => MAY_WRITE | Read => MAY_READ | Append => MAY_APPEND
  | Access => MAY_ACCESS
  end.

(** The request contains the operation. *)
Definition asks (mask : Z) (o : op) : Prop := Z.land mask (bit_of o) ≠ 0.

(** Every operation the request contains is one of [l], and it contains no
    other bit. *)
Definition only (mask : Z) (l : list op) : Prop :=
  ∀ i, Z.testbit mask i = true → ∃ o, o ∈ l ∧ Z.testbit (bit_of o) i = true.

Lemma bit_position o : ∃ n, 0 <= n ∧ bit_of o = 2 ^ n.
Proof.
  destruct mask_bits as (e & w & r & a & x & _ & Hpos & He & Hw & Hr & Ha & Hx).
  rewrite !Forall_cons in Hpos. destruct o; simpl; naive_solver.
Qed.

Lemma bit_distinct o o' : bit_of o = bit_of o' → o = o'.
Proof.
  destruct mask_bits as (e & w & r & a & x & Hnd & Hpos & He & Hw & Hr & Ha & Hx).
  rewrite !Forall_cons in Hpos. rewrite !NoDup_cons, !not_elem_of_cons in Hnd.
  intros Heq. destruct o, o'; simpl in Heq; try done; exfalso;
    rewrite ?He, ?Hw, ?Hr, ?Ha, ?Hx in Heq;
    apply Z.pow_inj_r in Heq; naive_solver lia.
Qed.

Lemma bit_testbit o n : 0 <= n → bit_of o = 2 ^ n → ∀ i, Z.testbit (bit_of o) i = true ↔ i = n.
Proof.
  intros Hn -> i. rewrite Z.pow2_bits_eqb by done. rewrite Z.eqb_eq. naive_solver.
Qed.

Lemma bit_pos o : 0 < bit_of o.
Proof. destruct (bit_position o) as (n & Hn & ->). lia. Qed.

(** The bits of two operations do not overlap. *)
Lemma bit_overlap o o' i :
  Z.testbit (bit_of o) i = true → Z.testbit (bit_of o') i = true → o = o'.
Proof.
  destruct (bit_position o) as (n & Hn & Ho), (bit_position o') as (n' & Hn' & Ho').
  rewrite (bit_testbit o n), (bit_testbit o' n') by done. intros -> ->.
  apply bit_distinct. congruence.
Qed.

Lemma asks_testbit mask o n :
  0 <= n → bit_of o = 2 ^ n → asks mask o ↔ Z.testbit mask n = true.
Proof.
  intros Hn Ho. unfold asks. rewrite Ho. split.
  - intros Hne. destruct (Z.testbit mask n) eqn:Hb; [done|]. destruct Hne.
    apply Z.bits_inj'. intros i Hi. rewrite Z.land_spec, Z.pow2_bits_eqb, Z.bits_0 by done.
    destruct (Z.eqb_spec n i) as [->|]; [by rewrite Hb|by rewrite andb_false_r].
  - intros Hb Hz0. assert (Z.testbit (Z.land mask (2 ^ n)) n = true) as Ht.
    { by rewrite Z.land_spec, Hb, Z.pow2_bits_true. }
    by rewrite Hz0, Z.bits_0 in Ht.
Qed.

(** [only] bounds what is asked. *)
Lemma only_asks mask l o : only mask l → asks mask o → o ∈ l.
Proof.
  intros Hl Ha. destruct (bit_position o) as (n & Hn & Ho).
  apply (asks_testbit mask o n Hn Ho) in Ha. destruct (Hl n Ha) as (o' & Hin & Hb).
  assert (o' = o) as <-; [|done]. apply (bit_overlap o' o n); [done|].
  by apply (bit_testbit o n).
Qed.

(** The test [(mask | a | b) == (a | b)]. *)
Definition union (l : list op) : Z := foldr (λ o, Z.lor (bit_of o)) 0 l.

Lemma union_testbit l i :
  Z.testbit (union l) i = true ↔ ∃ o, o ∈ l ∧ Z.testbit (bit_of o) i = true.
Proof.
  induction l as [|o l IH]; simpl.
  - rewrite Z.bits_0. split; [done|]. by intros (o & ?%elem_of_nil & _).
  - rewrite Z.lor_spec, orb_true_iff, IH. split.
    + intros [Ho|(o' & Ho' & Hb)]; eexists; (split; [|done]); set_solver.
    + intros (o' & [->|Ho']%elem_of_cons & Hb); [by left|right]. by exists o'.
Qed.

Lemma lor_included mask l : Z.lor mask (union l) = union l ↔ only mask l.
Proof.
  unfold only. split.
  - intros Heq i Hi. apply union_testbit. by rewrite <- Heq, Z.lor_spec, Hi.
  - intros Hl. apply Z.bits_inj'. intros i _. rewrite Z.lor_spec.
    destruct (Z.testbit mask i) eqn:Hi; [|done]. apply Hl, union_testbit in Hi. by rewrite Hi.
Qed.

Lemma only_single mask o : mask ≠ 0 → mask = bit_of o ↔ only mask [o].
Proof.
  intros Hm. split.
  - intros -> i Hi. exists o. split; [apply elem_of_cons; by left|done].
  - intros Hl. apply Z.bits_inj'. intros i Hi.
    destruct (bit_position o) as (n & Hn & Ho).
    assert (∀ j, Z.testbit mask j = true → j = n) as Hj.
    { intros j Hb. destruct (Hl j Hb) as (o' & ->%list_elem_of_singleton & Hb').
      by apply (bit_testbit o n Hn Ho). }
    destruct (Z.testbit mask i) eqn:Hb; [symmetry; by apply (bit_testbit o n Hn Ho), Hj|].
    symmetry. apply not_true_iff_false. intros Hc.
    apply (bit_testbit o n Hn Ho) in Hc. subst i.
    apply Hm, Z.bits_inj'. intros j Hj0. rewrite Z.bits_0. apply not_true_iff_false.
    intros Hjb. rewrite (Hj j Hjb) in Hjb. congruence.
Qed.
End masks.

(** ** The decision *)

Section policy.
Context `{!KConst, !KConstLaws, !Masks, !MasksLaws}.

(** What mp4_given.h (lines 11-27) allows: [target] tells whether the subject is
    the confined program, [directory] whether the object is a directory; one rule
    for the NOTE on directories and one for each label. *)
Inductive documented (target directory : bool) (mask : Z) : Z → Prop :=
  | doc_regular osid : directory = true → target = false → documented target directory mask osid
  | doc_no_access : target = false → documented target directory mask MP4_NO_ACCESS
  | doc_read_obj : only mask [Read] → documented target directory mask MP4_READ_OBJ
  | doc_read_write :
      only mask (if target then [Read; Write; Append] else [Read]) →
      documented target directory mask MP4_READ_WRITE
  | doc_write_obj :
      only mask (if target then [Write; Append] else [Read]) →
      documented target directory mask MP4_WRITE_OBJ
  | doc_exec_obj : only mask [Read; Exec] → documented target directory mask MP4_EXEC_OBJ
  | doc_read_dir : only mask [Read; Exec; Access] → documented target directory mask MP4_READ_DIR
  | doc_rw_dir : target = true → documented target directory mask MP4_RW_DIR.

Lemma rwa_test mask :
  Z.lor (Z.lor (Z.lor mask MAY_READ) MAY_WRITE) MAY_APPEND
    = Z.lor (Z.lor MAY_READ MAY_WRITE) MAY_APPEND ↔ only mask [Read; Write; Append].
Proof. rewrite <- lor_included. simpl. by rewrite Z.lor_0_r, !Z.lor_assoc. Qed.

Lemma rea_test mask :
  Z.lor (Z.lor (Z.lor mask MAY_READ) MAY_EXEC) MAY_ACCESS
    = Z.lor (Z.lor MAY_READ MAY_EXEC) MAY_ACCESS ↔ only mask [Read; Exec; Access].
Proof. rewrite <- lor_included. simpl. by rewrite Z.lor_0_r, !Z.lor_assoc. Qed.

Lemma read_test mask : mask ≠ 0 → mask = MAY_READ ↔ only mask [Read].
Proof. apply (only_single mask Read). Qed.

Lemma only_weaken mask l l' : only mask l → l ⊆ l' → only mask l'.
Proof. intros Hl Hs i Hi. destruct (Hl i Hi) as (o & Ho & Hb). exists o. naive_solver. Qed.

Lemma decision_binary ssid osid mask :
  mp4_has_permission ssid osid mask = 0 ∨ mp4_has_permission ssid osid mask = - EACCES.
Proof. unfold mp4_has_permission. repeat case_match; auto. Qed.

Lemma denied_not_granted : - EACCES ≠ 0.
Proof. pose proof errno_pos. lia. Qed.

(** The line 303 of mp4.c: a bit of MAY_READ remains whatever the mask. *)
Lemma exec_test mask :
  (Z.lor (c_eq (Z.lor (Z.lor mask MAY_EXEC) MAY_READ) MAY_EXEC) MAY_READ =? 0) = false.
Proof.
  apply Z.eqb_neq. intros [_ Hr]%Z.lor_eq_0_iff.
  pose proof (bit_pos Read) as Hp. simpl in Hp. lia.
Qed.

(** The cases of a decision over a known label. *)
Ltac decide_label :=
  unfold mp4_has_permission, MP4_NO_ACCESS, MP4_READ_OBJ, MP4_READ_WRITE,
    MP4_WRITE_OBJ, MP4_EXEC_OBJ, MP4_READ_DIR, MP4_RW_DIR;
  simpl; pose proof denied_not_granted as Hne.

Lemma no_access_decision ssid mask :
  mask ≠ 0 →
  mp4_has_permission ssid MP4_NO_ACCESS mask = 0 ↔ (ssid =? MP4_TARGET_SID) = false.
Proof.
  intros Hm. decide_label. rewrite (proj2 (Z.eqb_neq _ _) Hm).
  by destruct (ssid =? MP4_TARGET_SID).
Qed.

Lemma read_write_decision ssid mask :
  mask ≠ 0 →
  mp4_has_permission ssid MP4_READ_WRITE mask = 0 ↔
    only mask (if ssid =? MP4_TARGET_SID then [Read; Write; Append] else [Read]).
Proof.
  intros Hm. decide_label. rewrite (proj2 (Z.eqb_neq _ _) Hm).
  destruct (Z.eqb_spec mask MAY_READ) as [Hr|Hr]; rewrite (read_test _ Hm) in Hr.
  - split; [|done]. intros _. case_match; [|done]. eapply only_weaken; [done|set_solver].
  - destruct (Z.eqb_spec (Z.lor (Z.lor (Z.lor mask MAY_READ) MAY_WRITE) MAY_APPEND)
                (Z.lor (Z.lor MAY_READ MAY_WRITE) MAY_APPEND)) as [Hw|Hw];
      rewrite rwa_test in Hw; destruct (ssid =? MP4_TARGET_SID); naive_solver.
Qed.

Lemma read_decision ssid mask :
  mask ≠ 0 → mp4_has_permission ssid MP4_READ_OBJ mask = 0 ↔ only mask [Read].
Proof.
  intros Hm. decide_label. rewrite (proj2 (Z.eqb_neq _ _) Hm), <- (read_test _ Hm).
  destruct (Z.eqb_spec mask MAY_READ); naive_solver.
Qed.

Lemma read_dir_decision ssid mask :
  mask ≠ 0 → mp4_has_permission ssid MP4_READ_DIR mask = 0 ↔ only mask [Read; Exec; Access].
Proof.
  intros Hm. decide_label. rewrite (proj2 (Z.eqb_neq _ _) Hm), <- rea_test.
  destruct (Z.eqb_spec (Z.lor (Z.lor (Z.lor mask MAY_READ) MAY_EXEC) MAY_ACCESS)
              (Z.lor (Z.lor MAY_READ MAY_EXEC) MAY_ACCESS)); naive_solver.
Qed.

Lemma other_decision ssid osid mask :
  mask ≠ 0 → osid ≠ MP4_NO_ACCESS → osid ≠ MP4_READ_OBJ → osid ≠ MP4_READ_WRITE →
  osid ≠ MP4_EXEC_OBJ → osid ≠ MP4_READ_DIR →
  mp4_has_permission ssid osid mask = 0 ↔ osid = MP4_RW_DIR.
Proof.
  intros Hm Hn1 Hn2 Hn3 Hn4 Hn5. unfold mp4_has_permission. pose proof denied_not_granted.
  rewrite !(proj2 (Z.eqb_neq _ _)) by done.
  destruct (Z.eqb_spec osid MP4_RW_DIR); [by case_match | done].
Qed.

(** Outside the note on directories, only the rule of a label allows. *)
Lemma documented_label target directory mask osid :
  directory = false ∨ target = true →
  documented target directory mask osid ↔
  (osid = MP4_NO_ACCESS ∧ target = false) ∨ (osid = MP4_READ_OBJ ∧ only mask [Read]) ∨
  (osid = MP4_READ_WRITE ∧ only mask (if target then [Read; Write; Append] else [Read])) ∨
  (osid = MP4_WRITE_OBJ ∧ only mask (if target then [Write; Append] else [Read])) ∨
  (osid = MP4_EXEC_OBJ ∧ only mask [Read; Exec]) ∨
  (osid = MP4_READ_DIR ∧ only mask [Read; Exec; Access]) ∨ (osid = MP4_RW_DIR ∧ target = true).
Proof.
  intros Hnote. split.
  - intros []; [destruct Hnote; congruence|tauto..].
  - intros Hor. repeat (destruct Hor as [[-> Hor]|Hor]); [by constructor..|].
    destruct Hor as [-> Hor]. by constructor.
Qed.

(** A directory label on an object that is none is read as on a directory. *)
Lemma granted_documented ssid osid mask directory :
  mask ≠ 0 → osid ≠ MP4_EXEC_OBJ → osid ≠ MP4_WRITE_OBJ →
  directory = false ∨ (ssid =? MP4_TARGET_SID) = true →
  mp4_has_permission ssid osid mask = 0 ↔
    documented (ssid =? MP4_TARGET_SID) directory mask osid ∨
    (ssid =? MP4_TARGET_SID) = false ∧ osid = MP4_RW_DIR.
Proof.
  intros Hm He Hwo Hnote. rewrite documented_label by done.
  destruct (decide (osid = MP4_NO_ACCESS)) as [->|Hn1];
    [rewrite no_access_decision by done; naive_solver|].
  destruct (decide (osid = MP4_READ_OBJ)) as [->|Hn2];
    [rewrite read_decision by done; naive_solver|].
  destruct (decide (osid = MP4_READ_WRITE)) as [->|Hn3];
    [rewrite read_write_decision by done; naive_solver|].
  destruct (decide (osid = MP4_READ_DIR)) as [->|Hn4];
    [rewrite read_dir_decision by done; naive_solver|].
  rewrite other_decision by done. destruct (ssid =? MP4_TARGET_SID); naive_solver.
Qed.

(** C9: The access decision is the documented meaning of the labels, for the
    calls [mp4_inode_permission] makes: it asks for every subject on objects that
    are no directories, and for the target alone on directories, as the NOTE of
    mp4_given.h requires.  On an object with one of the labels NO_ACCESS,
    READ_OBJ and READ_WRITE, or on a directory with one of the two directory
    labels, such a request is granted exactly when the documentation of the
    label allows the subject every operation it asks for, and is answered
    -EACCES otherwise.  The decision does not know of directories itself: asked
    to write a READ_DIR object, it refuses every subject, whom the NOTE leaves to
    the regular access control. *)
Theorem permission_as_documented ssid osid mask directory :
  mask ≠ 0 →
  osid ∈ [MP4_NO_ACCESS; MP4_READ_OBJ; MP4_READ_WRITE] ∨
    directory = true ∧ osid ∈ [MP4_READ_DIR; MP4_RW_DIR] →
  directory = false ∨ ssid = MP4_TARGET_SID →
  (mp4_has_permission ssid osid mask = 0 ↔
     documented (ssid =? MP4_TARGET_SID) directory mask osid) ∧
  (mp4_has_permission ssid osid mask ≠ 0 →
     mp4_has_permission ssid osid mask = - EACCES) ∧
  (asks mask Write → mp4_has_permission ssid MP4_READ_DIR mask = - EACCES ∧
     documented false true mask MP4_READ_DIR).
Proof.
  intros Hm Hlabel Hcall. split_and!.
  - rewrite granted_documented.
    + split; [|by left]. intros [?|[Hs ->]]; [done|]. destruct Hlabel as [Hl|[-> _]].
      * apply (bool_decide_eq_true_2 _) in Hl. by vm_compute in Hl.
      * by destruct Hcall as [? | ->].
    + done.
    + intros ->. by destruct Hlabel as [Hl|[_ Hl]]; apply (bool_decide_eq_true_2 _) in Hl.
    + intros ->. by destruct Hlabel as [Hl|[_ Hl]]; apply (bool_decide_eq_true_2 _) in Hl.
    + destruct Hcall as [? | ->]; [by left|by right].
  - intros. by destruct (decision_binary ssid osid mask).
  - intros Ha. split; [|by apply doc_regular].
    destruct (decision_binary ssid MP4_READ_DIR mask) as [Hg|?]; [|done].
    apply read_dir_decision in Hg; [|done]. pose proof (only_asks _ _ _ Hg Ha). set_solver.
Qed.

(** The exec label protects nothing.  It is documented as "may be read
    and executed by all", but the test of line 303 groups as
    [(... == MAY_EXEC) | MAY_READ], which is never 0: every request is
    granted to every subject, writing included, which the documentation does
    not allow. *)
Theorem exec_label_grants_all ssid mask :
  mp4_has_permission ssid MP4_EXEC_OBJ mask = 0 ∧
  ∀ target, ¬ documented target false MAY_WRITE MP4_EXEC_OBJ.
Proof.
  split.
  - unfold mp4_has_permission. simpl. rewrite exec_test. by case_match.
  - intros target Hd. apply documented_label in Hd; [|by left].
    assert (only MAY_WRITE [Read; Exec]) as Hx by naive_solver.
    destruct (bit_position Write) as (n & Hn & Hw).
    destruct (Hx n) as (o & Ho & Hb); [by apply (bit_testbit Write n Hn Hw)|].
    assert (o = Write) as ->; [|set_solver].
    apply (bit_overlap o Write n); [done|]. by apply (bit_testbit Write n Hn Hw).
Qed.

(** The write-only label denies everything.  It is documented as writable
    by the target and readable by others, but no branch of the decision
    handles it, so every request is answered -EACCES; the same holds of
    objects that carry the target label. *)
Theorem write_label_denies_all ssid mask :
  mask ≠ 0 →
  mp4_has_permission ssid MP4_WRITE_OBJ mask = - EACCES ∧
  mp4_has_permission ssid MP4_TARGET_SID mask = - EACCES ∧
  documented true false MAY_WRITE MP4_WRITE_OBJ ∧ documented false false MAY_READ MP4_WRITE_OBJ.
Proof.
  intros Hm. unfold mp4_has_permission. rewrite (proj2 (Z.eqb_neq _ _) Hm).
  split_and!; [done..| |].
  - apply doc_write_obj. intros i Hi. exists Write. set_solver.
  - apply doc_write_obj. intros i Hi. exists Read. set_solver.
Qed.

(** What a confined program can write.  If the target is granted a
    request that asks to write, then the object is labelled read-write, exec
    or dir-write. *)
Theorem target_write_confined osid mask :
  asks mask Write → mp4_has_permission MP4_TARGET_SID osid mask = 0 →
  osid = MP4_READ_WRITE ∨ osid = MP4_EXEC_OBJ ∨ osid = MP4_RW_DIR.
Proof.
  intros Ha Hg. assert (mask ≠ 0) as Hm by (intros ->; destruct Ha; by rewrite Z.land_0_l).
  assert (∀ l, Write ∉ l → ¬ only mask l) as Hno.
  { intros l Hl Ho. by apply Hl, (only_asks mask). }
  destruct (decide (osid = MP4_NO_ACCESS)) as [->|Hn1].
  { by apply no_access_decision in Hg. }
  destruct (decide (osid = MP4_READ_OBJ)) as [->|Hn2].
  { apply read_decision in Hg; [|done]. by apply Hno in Hg; [|set_solver]. }
  destruct (decide (osid = MP4_READ_DIR)) as [->|Hn4].
  { apply read_dir_decision in Hg; [|done]. by apply Hno in Hg; [|set_solver]. }
  destruct (decide (osid = MP4_READ_WRITE)); [by left|].
  destruct (decide (osid = MP4_EXEC_OBJ)); [by right; left|].
  right; right. by apply other_decision in Hg.
Qed.
End policy.

(** ** Labels in attributes *)

(** The attribute value that stands for a label. *)
Definition label_name (sid : Z) : option (list ascii) :=
  if sid =? MP4_READ_OBJ then Some (str "read-only")
  else if sid =? MP4_READ_WRITE then Some (str "read-write")
  else if sid =? MP4_EXEC_OBJ then Some (str "exec")
  else if sid =? MP4_TARGET_SID then Some (str "target")
  else if sid =? MP4_WRITE_OBJ then Some (str "write-only")
  else if sid =? MP4_READ_DIR then Some (str "dir")
  else if sid =? MP4_RW_DIR then Some (str "dir-write")
  else None.

Lemma strcmp_test s t : (strcmp s t =? 0) = bool_decide (c_str s = c_str t).
Proof. apply eq_true_iff_eq. by rewrite Z.eqb_eq, strcmp_eq, bool_decide_eq_true. Qed.

(** Decoding a label inverts its name: an attribute reads as a label other
    than NO_ACCESS iff its bytes up to the first NUL are that label's name; so
    distinct labels have distinct names, trailing bytes do not matter, and
    unknown attributes read as NO_ACCESS. *)
Theorem label_decoded ctx sid :
  sid ≠ MP4_NO_ACCESS →
  __cred_ctx_to_sid ctx = sid ↔ label_name sid = Some (c_str ctx).
Proof.
  intros Hne. unfold __cred_ctx_to_sid. rewrite !strcmp_test. split.
  - repeat (case_bool_decide as He; [intros <-; rewrite He; by vm_compute|clear He]). by intros <-.
  - unfold label_name. intros Hl.
    repeat (case_match; zbool; [injection Hl as Hl; subst sid; rewrite <- Hl; by vm_compute|]).
    done.
Qed.

(** ** Exempt paths *)

Definition exempt : list (list ascii) :=
  str <$> ["/dev"; "/proc"; "/lib"; "/events"; "/mnt"; "/run"; "/lvm"; "/conf"; "/usr"; "/bin"]%string.

(** A path is exempt iff it is "/" or begins with one of the ten names; the
    comparison is of characters, not of path components, so "/runaway" and
    "/binary" are exempt too. *)
Theorem exempt_paths p :
  NUL ∉ p →
  mp4_should_skip_path p = true ↔ p = str "/" ∨ ∃ q, q ∈ exempt ∧ q `prefix_of` p.
Proof.
  intros Hp. unfold mp4_should_skip_path.
  assert (∀ (t : list ascii) n, NUL ∉ t → length t = n →
    (strncmp p t n =? 0) = true ↔ t `prefix_of` p) as Hpre.
  { intros t n Ht <-. by rewrite Z.eqb_eq, strncmp_prefix. }
  rewrite !orb_true_iff, !Hpre, Z.eqb_eq, strcmp_eq, (c_str_id p) by
    first [done | apply (bool_decide_unpack _); by vm_compute].
  change (c_str (str "/")) with (str "/"). unfold exempt.
  setoid_rewrite list_elem_of_fmap. setoid_rewrite elem_of_cons.
  split.
  - intros Hor. repeat (destruct Hor as [Hor|Hor]); [..|by left];
      right; eexists; (split; [|exact Hor]); eexists; (split; [reflexivity|]);
      rewrite !elem_of_cons; tauto.
  - intros [Heq|(q & (t & -> & Ht) & Hq)]; [by right|].
    repeat (destruct Ht as [->|Ht]; [tauto|try rewrite elem_of_cons in Ht]).
    by apply elem_of_nil in Ht.
Qed.

(** ** Witnesses *)

Import Reference.

Lemma permission_as_documented_witness :
  mp4_has_permission MP4_TARGET_SID MP4_READ_WRITE 10 = 0 ∧
  documented true false 10 MP4_READ_WRITE ∧ ¬ documented false false 10 MP4_READ_WRITE.
Proof.
  assert (mp4_has_permission MP4_TARGET_SID MP4_READ_WRITE 10 = 0) as Hg by by vm_compute.
  split; [exact Hg|]. split.
  - destruct (permission_as_documented MP4_TARGET_SID MP4_READ_WRITE 10 false) as (Hd & _);
      [done|left; set_solver|by left|]. by apply Hd in Hg.
  - destruct (permission_as_documented 0 MP4_READ_WRITE 10 false) as (Hd & _);
      [done|left; set_solver|by left|]. intros Hdoc. apply Hd in Hdoc. by vm_compute in Hdoc.
Defined.

Lemma exec_label_grants_all_witness :
  mp4_has_permission 0 MP4_EXEC_OBJ MAY_WRITE = 0 ∧
  ∀ target, ¬ documented target false MAY_WRITE MP4_EXEC_OBJ.
Proof. apply (exec_label_grants_all 0 MAY_WRITE). Defined.

Lemma write_label_denies_all_witness :
  mp4_has_permission MP4_TARGET_SID MP4_WRITE_OBJ MAY_WRITE = - EACCES.
Proof. refine (proj1 (write_label_denies_all MP4_TARGET_SID MAY_WRITE _)). by vm_compute. Defined.

Lemma target_write_confined_witness :
  MP4_RW_DIR = MP4_READ_WRITE ∨ MP4_RW_DIR = MP4_EXEC_OBJ ∨ MP4_RW_DIR = MP4_RW_DIR.
Proof. apply (target_write_confined MP4_RW_DIR 3); by vm_compute. Defined.

Lemma label_decoded_witness :
  __cred_ctx_to_sid (str "dir-write" ++ [NUL; ch "x"]) = MP4_RW_DIR ↔
  label_name MP4_RW_DIR = Some (c_str (str "dir-write" ++ [NUL; ch "x"])).
Proof. apply (label_decoded _ MP4_RW_DIR). by vm_compute. Defined.

Lemma exempt_paths_witness :
  mp4_should_skip_path (str "/runaway") = true ↔
  str "/runaway" = str "/" ∨ ∃ q, q ∈ exempt ∧ q `prefix_of` str "/runaway".
Proof. apply exempt_paths. apply (bool_decide_unpack _). by vm_compute. Defined.
