(* ===== verification/Mp4Hooks.v ===== *)
(** * MP4: what the hooks do to the kernel

    The effects of the hooks of src/MP4/mp4.c: reading a label and checking a
    permission leave references, blocks and credentials as they were on every
    path, failures included; the permission decided is that of the policy. *)
From Stdlib Require Import Ascii String.
From stdpp Require Import base gmap sets list strings.
From Stdlib Require Import ZArith Lia.
From S2P Require Import Prelude CString Kernel Mp4 Mp4Run Mp4Policy.

Open Scope Z_scope.
Open Scope c_scope.

Section hooks.
Context `{!KConst, !Allocator, !Masks, !Vfs}.
Context `{!KConstLaws, !AllocatorLaws, !MasksLaws, !VfsLaws}.
Implicit Types s : mp4.

(** The filesystem keeps a live dentry behind every alias. *)
Definition vfs_ok s : Prop :=
  ∀ i node d, inodes s !! i = Some node → i_alias node = Some d →
    d ≠ NULL ∧ is_Some (dentries s !! d).

(** A run that has given back all it took: only the allocator has moved on. *)
Definition quiet s s' : Prop := ∃ k, s' = set_slabs (mkHeap (mem s) k) s.

Lemma quiet_refl s : quiet s s.
Proof. exists (n_alloc (slabs s)). by destruct s as [[]]. Qed.

Lemma quiet_trans s1 s2 s3 : quiet s1 s2 → quiet s2 s3 → quiet s1 s3.
Proof. intros [k ->] [k' ->]. by exists k'. Qed.

(** ** Rules for the kernel's structures *)

Lemma wp_deref {V} (m : mp4 → gmap Z V) p v (Q : V → mp4 → Prop) E s :
  p ≠ NULL → m s !! p = Some v → Q v s → wp (deref m p) Q E s.
Proof.
  intros Hp Hv HQ. unfold wp, deref. by rewrite (proj2 (Z.eqb_neq p NULL) Hp), Hv.
Qed.

(** A reference held on [d]. *)
Definition hold (d : Z) s : mp4 :=
  match dentries s !! d with
  | Some n => set_dentries (<[d := n + 1]> (dentries s)) s
  | None => s
  end.

Lemma wp_d_find_alias i node (Q : Z → mp4 → Prop) E s :
  vfs_ok s → i ≠ NULL → inodes s !! i = Some node →
  match i_alias node with
  | None => Q NULL s
  | Some d => d ≠ NULL → is_Some (dentries s !! d) → Q d (hold d s)
  end → wp (d_find_alias i) Q E s.
Proof.
  intros Hv Hi Hn HQ. unfold d_find_alias. apply wp_bind. eapply wp_deref; [done..|].
  destruct (i_alias node) as [d|] eqn:Ha; [|by wp_pure].
  destruct (Hv i node d Hn Ha) as [Hd [n Hdn]]. apply wp_bind. eapply wp_deref; [done..|].
  wp_pure. unfold hold in HQ. rewrite Hdn in HQ. by apply HQ.
Qed.

(** Releasing a reference that was held, whatever the blocks are by then. *)
Lemma wp_dput_hold d h (Q : unit → mp4 → Prop) E s :
  d ≠ NULL → is_Some (dentries s !! d) → Q tt (set_slabs h s) →
  wp (dput d) Q E (set_slabs h (hold d s)).
Proof.
  intros Hd [n Hn] HQ. unfold dput. rewrite (proj2 (Z.eqb_neq d NULL) Hd).
  unfold hold. rewrite Hn. apply wp_bind.
  eapply (wp_deref dentries d (n + 1)); [done|by apply lookup_insert_eq|]. wp_pure.
  assert (set_dentries (<[d:=n + 1 - 1]> (<[d:=n + 1]> (dentries s))) (set_slabs h s)
          = set_slabs h s) as Heq.
  { rewrite insert_insert_eq, insert_id by (rewrite Hn; f_equal; lia). by destruct s. }
  unfold set_slabs, set_dentries in *. cbn in *. by rewrite Heq.
Qed.

Lemma vfs_ok_hold d s : vfs_ok s → vfs_ok (hold d s).
Proof.
  intros Hv i node d' Hi Ha. unfold hold in *. destruct (dentries s !! d) as [n|]; [|by eapply Hv].
  destruct (Hv i node d' Hi Ha) as [Hd Hs]. split; [done|]. cbn.
  rewrite lookup_insert. by case_decide.
Qed.

(** The next allocation fails. *)
Definition short_of_memory s : bool :=
  bool_decide (alloc_addr (n_alloc (slabs s)) (dom (mem s)) = None).

Lemma short_hold d s : short_of_memory (hold d s) = short_of_memory s.
Proof. unfold hold. by case_match. Qed.

(** A buffer of zeros, or NULL. *)
Lemma wp_kzalloc len (Q : Z → mp4 → Prop) E s :
  (∀ k, short_of_memory s = true → Q NULL (set_slabs (mkHeap (mem s) k) s)) →
  (∀ p k, short_of_memory s = false → p ≠ NULL → mem s !! p = None →
     Q p (set_slabs (mkHeap (<[p := BUF (replicate len NUL)]> (mem s)) k) s)) →
  wp (kzalloc len) Q E s.
Proof.
  intros Hno Hyes. unfold wp, kzalloc, kmalloc. unfold short_of_memory in Hno, Hyes.
  destruct (alloc_addr _ _) as [p|] eqn:Ha.
  - apply Hyes; [done|by eapply alloc_not_null|]. apply not_elem_of_dom. by eapply alloc_fresh.
  - by apply Hno.
Qed.

Lemma wp_kfree_at p b m k (Q : unit → mp4 → Prop) E s :
  p ≠ NULL → m !! p = None → Q tt (set_slabs (mkHeap m k) s) →
  wp (kfree p) Q E (set_slabs (mkHeap (<[p := b]> m) k) s).
Proof.
  intros Hp Hm HQ. eapply (wp_kfree p b); [done| |].
  - unfold mem. cbn. apply lookup_insert_eq.
  - unfold set_mem, mem. cbn. unfold set_slabs in *. cbn.
    by rewrite delete_insert_eq, delete_id.
Qed.

(** ** The label of an inode *)

(** The label the attribute of an inode stands for. *)
Definition attr_sid (node : inode) : Z :=
  match i_alias node with
  | Some d =>
      if i_op node && i_op_getxattr node then
        let '(r, bytes) := getxattr d XATTR_NAME_MP4 256 in
        if r <? 0 then MP4_NO_ACCESS else __cred_ctx_to_sid bytes
      else MP4_NO_ACCESS
  | None => MP4_NO_ACCESS
  end.

(** The label that is read: NO_ACCESS also stands for a failed allocation. *)
Definition read_sid s (node : inode) : Z :=
  if short_of_memory s then MP4_NO_ACCESS else attr_sid node.

Lemma sid_zeros bytes n :
  __cred_ctx_to_sid (bytes ++ replicate n NUL) = __cred_ctx_to_sid bytes.
Proof.
  assert (c_str (bytes ++ replicate n NUL) = c_str bytes) as Hc.
  { induction bytes as [|c bytes IH]; simpl; [by destruct n|]. case_decide; [done|].
    by rewrite IH. }
  unfold __cred_ctx_to_sid. by rewrite !strcmp_test, Hc.
Qed.

Lemma get_inode_sid_wp E i node s :
  vfs_ok s → i ≠ NULL → inodes s !! i = Some node →
  wp (get_inode_sid i) (λ sid s', quiet s s' ∧ sid = read_sid s node) E s.
Proof.
  intros Hv Hi Hn. unfold get_inode_sid. rewrite (proj2 (Z.eqb_neq i NULL) Hi).
  apply wp_bind, wp_bind. eapply wp_deref; [done..|]. wp_pure.
  unfold read_sid, attr_sid. destruct (i_op node && i_op_getxattr node); simpl.
  2:{ wp_pure. split; [apply quiet_refl|]. by repeat case_match. }
  apply wp_bind. eapply wp_d_find_alias; [done..|].
  destruct (i_alias node) as [d|]; [|simpl; wp_pure; split; [apply quiet_refl|by case_match]].
  intros Hd Hdn. rewrite (proj2 (Z.eqb_neq d NULL) Hd).
  apply wp_bind, wp_kzalloc; rewrite short_hold.
  { intros k ->. simpl. apply wp_bind. apply wp_dput_hold; [done..|]. wp_pure. split; [|done].
    exists k. unfold hold. by case_match. }
  intros p k -> Hp Hpm. rewrite (proj2 (Z.eqb_neq p NULL) Hp).
  assert (mem (hold d s) = mem s) as Hmem by (unfold hold; by case_match).
  rewrite Hmem in *.
  destruct (getxattr d XATTR_NAME_MP4 256) as [r bytes] eqn:Hx.
  destruct (Z.ltb_spec r 0) as [Hr|Hr].
  { apply wp_bind, wp_kfree_at; [done..|]. apply wp_bind, wp_dput_hold; [done..|]. wp_pure.
    by split; [exists k|]. }
  destruct (getxattr_fits _ _ _ _ _ Hx Hr) as [Hlen Hle].
  apply wp_bind. eapply (wp_load p (BUF (replicate 256 NUL))); [done|apply lookup_insert_eq|].
  apply wp_bind. unfold put. rewrite decide_True by (rewrite length_replicate; lia).
  unfold lift. unfold wp at 1. simpl take. rewrite app_nil_l, Nat.add_0_l, drop_replicate.
  set (written := bytes ++ _).
  apply wp_bind. eapply (wp_update p (BUF (replicate 256 NUL))); [done|apply lookup_insert_eq|].
  unfold set_mem, mem. cbn -[__cred_ctx_to_sid hold replicate]. rewrite insert_insert_eq.
  apply wp_bind. unfold set_slabs at 1. cbn -[__cred_ctx_to_sid hold replicate].
  apply (wp_dput_hold d _ _ _ s); [done..|].
  apply wp_bind. apply wp_kfree_at; [done..|]. wp_pure.
  split; [by exists k|]. apply sid_zeros.
Qed.
(** ** Checking a permission *)

(** The label of a credential; None when it has no security blob. *)
Definition cred_label s (c : Z) : option Z :=
  match creds s !! c with
  | Some p => match mem s !! p with Some (SEC sec) => Some (mp4_flags sec) | _ => None end
  | None => None
  end.

(** The current credential is missing, has no security blob, or has a label. *)
Definition current_ok s : Prop :=
  current s = NULL ∨
  creds s !! current s = Some NULL ∧ mem s !! NULL = None ∨
  ∃ p sec, p ≠ NULL ∧ creds s !! current s = Some p ∧ mem s !! p = Some (SEC sec).

(** The decision on an object whose label was read as [osid]. *)
Definition decide_on (ssid osid mask : Z) (node : inode) : Z :=
  if negb (ssid =? MP4_TARGET_SID) && S_ISDIR (i_mode node) then 0
  else mp4_has_permission ssid osid mask.

Definition decision s (node : inode) (mask : Z) : Z :=
  let mask := Z.land mask efficient_bits in
  match i_alias node with
  | None => - EACCES
  | Some d =>
      if current s =? NULL then - EACCES
      else if mask =? 0 then 0
      else match dentry_path_raw d 256 with
           | inl _ => - EACCES
           | inr p =>
               if mp4_should_skip_path p then 0
               else match cred_label s (current s) with
                    | None => - EACCES
                    | Some ssid => decide_on ssid (attr_sid node) mask node
                    end
           end
  end.

Definition never_fails : Prop := ∀ n used, alloc_addr n used ≠ None.

(** What a check answers, allocation failures included. *)
Definition answer s (node : inode) (mask r : Z) : Prop :=
  (r = 0 ∨ r = - EACCES) ∧ (never_fails → r = decision s node mask) ∧
  (cred_label s (current s) = Some MP4_TARGET_SID → r = 0 → decision s node mask = 0).

(** An error pointer for a path is followed as if it were the path. *)
Definition bad_path (node : inode) (e : fault) : Prop :=
  e = BadAccess ∧ ∃ d err, i_alias node = Some d ∧ dentry_path_raw d 256 = inl err.

Lemma answer_denied s node mask :
  (never_fails → decision s node mask = - EACCES) → answer s node mask (- EACCES).
Proof.
  intros Hd. split_and!; [by right|intros Hnf; by rewrite Hd|]. intros _ Hz. by apply denied_not_granted in Hz.
Qed.

Lemma answer_granted s node mask : decision s node mask = 0 → answer s node mask 0.
Proof. intros Hd. split_and!; [by left|by rewrite Hd|done]. Qed.

Lemma decide_on_binary ssid osid mask node :
  (if ssid =? MP4_TARGET_SID then
     (if mp4_has_permission ssid osid mask =? 0 then 0 else - EACCES)
   else if S_ISDIR (i_mode node) then 0
   else (if mp4_has_permission ssid osid mask =? 0 then 0 else - EACCES))
  = decide_on ssid osid mask node.
Proof.
  unfold decide_on. pose proof denied_not_granted as Hne.
  destruct (decision_binary ssid osid mask) as [->| ->];
    rewrite ?(proj2 (Z.eqb_neq (- EACCES) 0) Hne); simpl;
    by destruct (ssid =? MP4_TARGET_SID), (S_ISDIR (i_mode node)).
Qed.

(** A label that could not be read is NO_ACCESS, which denies the target. *)
Lemma decide_on_answer s s2 node mask ssid :
  let m := Z.land mask efficient_bits in
  m ≠ 0 → cred_label s (current s) = Some ssid →
  decision s node mask = decide_on ssid (attr_sid node) m node →
  answer s node mask (decide_on ssid (read_sid s2 node) m node).
Proof.
  intros m Hm Hl Hd. unfold read_sid. destruct (short_of_memory s2) eqn:Hfail.
  2:{ unfold answer. rewrite Hd. split_and!; [|done|done].
    unfold decide_on. case_match; [by left|apply decision_binary]. }
  - split_and!.
    + unfold decide_on. case_match; [by left|apply decision_binary].
    + intros Hnf. by apply bool_decide_eq_true, Hnf in Hfail.
    + rewrite Hl. intros [= ->]. unfold decide_on. simpl. intros Hg.
      by apply no_access_decision in Hg.
Qed.

Lemma decision_unfold s node mask d :
  i_alias node = Some d → current s ≠ NULL → Z.land mask efficient_bits ≠ 0 →
  decision s node mask =
    match dentry_path_raw d 256 with
    | inl _ => - EACCES
    | inr q => if mp4_should_skip_path q then 0
               else match cred_label s (current s) with
                    | None => - EACCES
                    | Some ssid => decide_on ssid (attr_sid node) (Z.land mask efficient_bits) node
                    end
    end.
Proof.
  intros Ha Hc Hm. unfold decision.
  by rewrite Ha, (proj2 (Z.eqb_neq _ _) Hc), (proj2 (Z.eqb_neq _ _) Hm).
Qed.

(** The state while a path is looked at: a reference on [d], a buffer at [p]. *)
Definition looking (d p : Z) k s : mp4 :=
  set_slabs (mkHeap (<[p := BUF (replicate 256 NUL)]> (mem s)) k) (hold d s).

Lemma hold_frame d s :
  current (hold d s) = current s ∧ creds (hold d s) = creds s ∧ mem (hold d s) = mem s ∧
  inodes (hold d s) = inodes s ∧ hold d s = set_slabs (slabs s) (hold d s).
Proof. unfold hold. destruct (dentries s !! d); split_and!; try done; by destruct s. Qed.

Lemma same_slabs s : set_slabs (slabs s) s = s.
Proof. by destruct s. Qed.

(** Every end of the check after the buffer is allocated. *)
Lemma wp_give_back d p k r (Q : Z → mp4 → Prop) E s :
  d ≠ NULL → is_Some (dentries s !! d) → p ≠ NULL → mem s !! p = None →
  Q r (set_slabs (mkHeap (mem s) k) s) →
  wp (dput d ;! kfree p ;! ret r) Q E (looking d p k s).
Proof.
  intros Hd Hdn Hp Hpm HQ. apply wp_bind, wp_dput_hold; [done..|].
  apply wp_bind, wp_kfree_at; [done..|]. by wp_pure.
Qed.

(** The part of the check that reads both labels. *)
Lemma permission_labels i node d p k mask s E :
  let m := Z.land mask efficient_bits in
  vfs_ok s → current s ≠ NULL → current_ok s → i ≠ NULL → inodes s !! i = Some node →
  d ≠ NULL → is_Some (dentries s !! d) → p ≠ NULL → mem s !! p = None → m ≠ 0 →
  decision s node mask =
    match cred_label s (current s) with
    | None => - EACCES
    | Some ssid => decide_on ssid (attr_sid node) m node
    end →
  wp (let! sec := get_security (current s) in
      if sec =? NULL then dput d ;! kfree p ;! ret (- EACCES)
      else
        let! ssid := get_flags sec in
        let! osid := get_inode_sid i in
        let! r :=
          (if ssid =? MP4_TARGET_SID then
             ret (if mp4_has_permission ssid osid m =? 0 then 0 else - EACCES)
           else
             let! node := deref inodes i in
             if S_ISDIR (i_mode node) then ret 0
             else ret (if mp4_has_permission ssid osid m =? 0 then 0 else - EACCES)) in
        dput d ;! kfree p ;! ret r)
    (λ r s', quiet s s' ∧ answer s node mask r) E (looking d p k s).
Proof.
  intros m Hv Hcn Hc Hi Hn Hd Hdn Hp Hpm Hm Hdec.
  destruct (hold_frame d s) as (Hcur & Hcr & Hmem & Hin & _).
  set (s2 := looking d p k s).
  assert (∀ h, inodes (set_slabs h s2) !! i = Some node) as Hn2
    by (intros; change (inodes (hold d s) !! i = Some node); by rewrite Hin).
  apply wp_bind. unfold get_security.
  destruct Hc as [?|[[Hsec Hnull]|(ptr & sec & Hptr & Hsec & Hlab)]]; [done|..].
  { apply (wp_deref creds _ NULL); [done|change (creds (hold d s) !! current s = Some NULL); by rewrite Hcr|].
    simpl. apply wp_give_back; try done. split; [by exists k|]. apply answer_denied. intros _.
    rewrite Hdec. unfold cred_label. by rewrite Hsec, Hnull. }
  apply (wp_deref creds _ ptr); [done|change (creds (hold d s) !! current s = Some ptr); by rewrite Hcr|].
  rewrite (proj2 (Z.eqb_neq ptr NULL) Hptr). apply wp_bind. unfold get_flags. apply wp_bind.
  eapply (wp_load ptr (SEC sec)); [done| |].
  { unfold mem, s2. cbn. rewrite lookup_insert_ne; [done|]. intros ->. congruence. }
  wp_pure. assert (cred_label s (current s) = Some (mp4_flags sec)) as Hcl
    by (unfold cred_label; by rewrite Hsec, Hlab).
  rewrite Hcl in Hdec.
  eapply wp_mono; [apply (get_inode_sid_wp _ i node); [exact (vfs_ok_hold d s Hv)|done|apply (Hn2 (slabs s2))]| |done].
  intros osid s3 [[k' ->] ->]. apply wp_bind.
  eapply (wp_of_run _ _ _ _ (decide_on (mp4_flags sec) (read_sid s2 node) m node)).
  { rewrite <- decide_on_binary. destruct (_ =? MP4_TARGET_SID); [done|].
    unfold bind, deref. rewrite (proj2 (Z.eqb_neq i NULL) Hi), Hn2. by case_match. }
  apply (wp_give_back d p k'); try done. split; [by exists k'|]. by apply (decide_on_answer s s2).
Qed.

Lemma permission_wp i node mask s :
  vfs_ok s → current_ok s → i ≠ NULL → inodes s !! i = Some node →
  wp (mp4_inode_permission i mask) (λ r s', quiet s s' ∧ answer s node mask r) (bad_path node) s.
Proof.
  intros Hv Hc Hi Hn. unfold mp4_inode_permission. rewrite (proj2 (Z.eqb_neq i NULL) Hi).
  apply wp_bind. eapply wp_d_find_alias; [done..|].
  destruct (i_alias node) as [d|] eqn:Ha.
  2:{ simpl. wp_pure. split; [apply quiet_refl|]. apply answer_denied. unfold decision.
      by rewrite Ha. }
  intros Hd Hdn. rewrite (proj2 (Z.eqb_neq d NULL) Hd). wp_pure.
  destruct (hold_frame d s) as (Hcur & _ & Hmem & _ & Hsl). rewrite Hcur.
  destruct (Z.eqb_spec (current s) NULL) as [Hcn|Hcn].
  { rewrite Hsl. apply wp_bind, wp_dput_hold; [done..|]. wp_pure. rewrite same_slabs.
    split; [apply quiet_refl|]. apply answer_denied. unfold decision. by rewrite Ha, Hcn. }
  set (m := Z.land mask efficient_bits).
  destruct (Z.eqb_spec m 0) as [Hm|Hm].
  { rewrite Hsl. apply wp_bind, wp_dput_hold; [done..|]. wp_pure. rewrite same_slabs.
    split; [apply quiet_refl|]. apply answer_granted. unfold decision.
    rewrite Ha, (proj2 (Z.eqb_neq _ _) Hcn). fold m. by rewrite Hm. }
  clear Hsl. apply wp_bind, wp_kzalloc; rewrite ?Hmem.
  { intros k Hfail. simpl. apply wp_bind, wp_dput_hold; [done..|]. wp_pure.
    split; [by exists k|]. apply answer_denied. intros Hnf.
    by rewrite short_hold in Hfail; apply bool_decide_eq_true, Hnf in Hfail. }
  intros p k _ Hp Hpm. rewrite (proj2 (Z.eqb_neq p NULL) Hp). fold (looking d p k s).
  pose proof (decision_unfold s node mask d Ha Hcn Hm) as Hdec.
  destruct (dentry_path_raw d 256) as [err|q] eqn:Hpath.
  { unfold skip_path. wp_pure. apply wp_fail. split; [done|by do 2 eexists]. }
  unfold skip_path. wp_pure. destruct (mp4_should_skip_path q).
  - apply wp_give_back; try done. split; [by exists k|]. by apply answer_granted.
  - by apply (permission_labels i node d p k mask s).
Qed.

(** C13: The permission check decides as the policy says.  While allocations
    succeed and the path of the inode is available, [mp4_inode_permission]
    answers [decision]: -EACCES without a dentry or credential; 0 for an empty
    mask or an exempt path; else the policy on the labels of the current
    credential and of the inode, except that a directory is left to the
    regular access control for every program but the target. *)
Theorem permission_decides i node mask s :
  vfs_ok s → current_ok s → i ≠ NULL → inodes s !! i = Some node → never_fails →
  (∀ d err, i_alias node = Some d → dentry_path_raw d 256 ≠ inl err) →
  ∃ s', mp4_inode_permission i mask s = Ok (decision s node mask, s') ∧ quiet s s'.
Proof.
  intros Hv Hc Hi Hn Hnf Hpath.
  pose proof (permission_wp i node mask s Hv Hc Hi Hn) as Hrun. unfold wp in Hrun.
  destruct (mp4_inode_permission i mask s) as [[r s']|e].
  - destruct Hrun as [Hq (_ & Hr & _)]. exists s'. by rewrite Hr.
  - destruct Hrun as [_ (d & err & Ha & Hd)]. by destruct (Hpath d err).
Qed.

(** C28: Whatever fails on the way, a permission check leaks nothing and never
    helps the target: when it returns, the references and blocks it took are
    given back, the answer is 0 or -EACCES, and the target is granted nothing
    that the policy denies; and the only fault it can meet is a path that is
    an error pointer, which the code does not test for. *)
Theorem permission_leaves_no_trace i node mask s :
  vfs_ok s → current_ok s → i ≠ NULL → inodes s !! i = Some node →
  match mp4_inode_permission i mask s with
  | Ok (r, s') =>
      mem s' = mem s ∧ dentries s' = dentries s ∧ creds s' = creds s ∧
      inodes s' = inodes s ∧ (r = 0 ∨ r = - EACCES) ∧
      (cred_label s (current s) = Some MP4_TARGET_SID → r = 0 → decision s node mask = 0)
  | Oops e => e = BadAccess ∧ ∃ d err, i_alias node = Some d ∧ dentry_path_raw d 256 = inl err
  end.
Proof.
  intros Hv Hc Hi Hn.
  pose proof (permission_wp i node mask s Hv Hc Hi Hn) as Hrun. unfold wp in Hrun.
  destruct (mp4_inode_permission i mask s) as [[r s']|e]; [|done].
  destruct Hrun as [[k ->] (Hb & _ & Ht)]. by split_and!.
Qed.
(** ** New inodes *)

(** A new inode is never labelled.  The documentation of
    [mp4_inode_init_security] promises 0 when all goes well, and for a target
    program it does prepare the attribute that decodes as dir-write (for a
    directory) or read-write; but every path returns an error, -EOPNOTSUPP at
    the end, which tells the kernel to skip the attribute. *)
Theorem new_inodes_unlabelled i dir node p sec name value len s :
  i ≠ NULL → dir ≠ NULL → inodes s !! i = Some node →
  current s ≠ NULL → creds s !! current s = Some p → p ≠ NULL →
  mem s !! p = Some (SEC sec) →
  ∃ r out s', mp4_inode_init_security i dir name value len s = Ok ((r, out), s') ∧ r < 0 ∧
    (mp4_flags sec ≠ MP4_TARGET_SID → s' = s ∧ out_value out = None) ∧
    (mp4_flags sec = MP4_TARGET_SID → name = true → value = true → len = true →
       r = - EOPNOTSUPP ∧ ∃ v text, out_value out = Some v ∧
         out_name out = Some XATTR_MP4_SUFFIX ∧
         out_len out = Some (Z.of_nat (length (text ++ [NUL]))) ∧
         (v ≠ NULL → mem s' !! v = Some (BUF (text ++ [NUL]))) ∧
         __cred_ctx_to_sid (text ++ [NUL]) =
           if S_ISDIR (i_mode node) then MP4_RW_DIR else MP4_READ_WRITE).
Proof.
  intros Hi Hd Hn Hc Hp Hpn Hs. pose proof errno_pos as (_ & _ & He1 & He2).
  assert (get_flags p s = Ok (mp4_flags sec, s)) as Hflags.
  { unfold get_flags, bind, load. by rewrite (proj2 (Z.eqb_neq p NULL) Hpn), Hs. }
  assert (get_security (current s) s = Ok (p, s)) as Hsec.
  { unfold get_security, deref. by rewrite (proj2 (Z.eqb_neq _ NULL) Hc), Hp. }
  assert (deref inodes i s = Ok (node, s)) as Hnode.
  { unfold deref. by rewrite (proj2 (Z.eqb_neq i NULL) Hi), Hn. }
  unfold mp4_inode_init_security. unfold bind at 1, get.
  rewrite (proj2 (Z.eqb_neq _ NULL) Hc). unfold bind at 1. rewrite Hsec.
  rewrite (proj2 (Z.eqb_neq p NULL) Hpn), (proj2 (Z.eqb_neq i NULL) Hi),
    (proj2 (Z.eqb_neq dir NULL) Hd). simpl.
  destruct name; simpl; [|do 3 eexists; split_and!; [done|lia|done|done]].
  unfold bind at 1. rewrite Hflags.
  destruct (Z.eqb_spec (mp4_flags sec) MP4_TARGET_SID) as [Ht|Ht].
  2:{ do 3 eexists; split_and!; [done|lia|done|done]. }
  destruct value, len; simpl; try (do 3 eexists; split_and!; [done|lia|done|done]).
  unfold bind at 1. rewrite Hnode. unfold bind, kstrdup, kmalloc.
  cbn [heap_of mp4_heap with_heap].
  destruct (S_ISDIR (i_mode node));
    (destruct (alloc_addr _ _) as [v|];
     (do 3 eexists; split_and!; [done|lia|done|];
      intros _ _ _ _; split; [done|];
      first [exists NULL, (str "dir-write"); split_and!; [done..|by vm_compute]
            |exists NULL, (str "read-write"); split_and!; [done..|by vm_compute]
            |exists v, (str "dir-write"); split_and!; [done..|intros _; apply lookup_insert_eq|by vm_compute]
            |exists v, (str "read-write"); split_and!; [done..|intros _; apply lookup_insert_eq|by vm_compute]])).
Qed.
End hooks.

(** ** Witnesses *)

Import Reference.

Lemma system_vfs_ok cred : vfs_ok (run_as cred system).
Proof.
  intros i node d Hi Ha. unfold run_as, system in Hi. cbn in Hi.
  repeat (rewrite lookup_insert in Hi; case_decide; [simplify_eq; injection Ha as <-;
    split; [done|]; eexists; by vm_compute|]). by rewrite lookup_empty in Hi.
Qed.

Lemma system_current_ok : current_ok system.
Proof. right; right. exists 4098, (mkSec 7). split_and!; by vm_compute. Qed.

(** The target may read /etc/shadow, and not write it. *)
Lemma permission_decides_witness :
  decision system (file_at 301) 2 = -13 ∧
  ∃ s', @mp4_inode_permission _ alloc_always _ _ 201 4 system
          = Ok (decision system (file_at 301) 4, s') ∧ quiet system s'.
Proof.
  split; [by vm_compute|].
  apply (@permission_decides _ alloc_always _ _ _ alloc_always_laws _ 201 (file_at 301) 4);
    [apply (system_vfs_ok 102) | apply system_current_ok | done | by vm_compute | done |].
  intros d err [= <-]. by vm_compute.
Defined.

Lemma permission_leaves_no_trace_witness :
  match @mp4_inode_permission _ (ref_alloc 3) _ _ 201 4 system with
  | Ok (r, s') =>
      mem s' = mem system ∧ dentries s' = dentries system ∧ creds s' = creds system ∧
      inodes s' = inodes system ∧ (r = 0 ∨ r = -13) ∧
      (cred_label system (current system) = Some MP4_TARGET_SID → r = 0 →
         decision system (file_at 301) 4 = 0)
  | Oops e => e = BadAccess ∧ ∃ d err, i_alias (file_at 301) = Some d ∧
                                        dentry_path_raw d 256 = inl err
  end.
Proof.
  apply (@permission_leaves_no_trace _ (ref_alloc 3) _ _ _ (ref_alloc_laws 3) _ 201 (file_at 301) 4);
    [apply (system_vfs_ok 102) | apply system_current_ok | done | by vm_compute].
Defined.

Lemma new_inodes_unlabelled_witness :
  ∃ r out s', mp4_inode_init_security 202 201 true true true system = Ok ((r, out), s') ∧ r < 0.
Proof.
  destruct (new_inodes_unlabelled 202 201 (dir_at 302) 4098 (mkSec 7) true true true system)
    as (r & out & s' & Hrun & Hr & _); [by vm_compute..|]. by exists r, out, s'.
Defined.
