(* ===== verification/Mp4Cred.v ===== *)
(** * MP4: the life of a credential's label

    The credential hooks of src/MP4/mp4.c as steps of a system: each credential
    owns its label and no label is lost or shared, whatever the order of
    allocation, preparation, execution and release; labels flow from parent to
    child and change only by executing a target-labelled file. *)
From Stdlib Require Import Ascii String.
From stdpp Require Import base gmap sets list strings relations.
From Stdlib Require Import ZArith Lia.
From S2P Require Import Prelude CString Kernel Mp4 Mp4Run Mp4Policy Mp4Hooks.

Open Scope Z_scope.
Open Scope c_scope.

Section creds.
Context `{!KConst, !Allocator, !Masks, !Vfs}.
Context `{!KConstLaws, !AllocatorLaws, !MasksLaws, !VfsLaws}.
Implicit Types s : mp4.

Record cred_inv s : Prop := mkCredInv {
  ci_ptr : ∀ c p, creds s !! c = Some p →
    p = NULL ∨ p = POISON ∨ PAGE_SIZE <= p ∧ ∃ sec, mem s !! p = Some (SEC sec);
  ci_inj : ∀ c c' p, creds s !! c = Some p → creds s !! c' = Some p → PAGE_SIZE <= p → c = c';
  ci_owner : ∀ p sec, mem s !! p = Some (SEC sec) → ∃ c, creds s !! c = Some p;
  ci_page : ∀ p b, mem s !! p = Some b → PAGE_SIZE <= p;
  ci_label : ∀ p sec, mem s !! p = Some (SEC sec) →
    mp4_flags sec = MP4_NO_ACCESS ∨ mp4_flags sec = MP4_TARGET_SID;
  ci_null : creds s !! NULL = None;
  ci_vfs : vfs_ok s
}.

Lemma page_not_null p : PAGE_SIZE <= p → p ≠ NULL ∧ p ≠ POISON.
Proof. pose proof page_large. unfold NULL, POISON. lia. Qed.

(** ** The hooks' effects *)

Definition with_label (c p l : Z) s : mp4 :=
  set_creds (<[c := p]> (creds s))
    (set_slabs (mkHeap (<[p := SEC (mkSec l)]> (mem s)) (S (n_alloc (slabs s)))) s).

Definition no_memory s : mp4 := set_slabs (mkHeap (mem s) (S (n_alloc (slabs s)))) s.

(** [cred->security = ptr; ptr->mp4_flags = l], after an allocation. *)
Lemma attach_run c q p l0 l s :
  c ≠ NULL → creds s !! c = Some q → p ≠ NULL →
  (set_security c p ;! set_flags p l ;! ret 0)
    (set_slabs (mkHeap (<[p := SEC (mkSec l0)]> (mem s)) (S (n_alloc (slabs s)))) s) =
  Ok (0, with_label c p l s).
Proof.
  intros Hc Hq Hp. apply run_of_wp. unfold set_security, set_flags, get_flags.
  apply wp_bind, wp_bind. apply (wp_deref creds c q); [done..|]. wp_pure.
  apply (wp_load p (SEC (mkSec l0))); [done|apply lookup_insert_eq|]. wp_pure.
  apply (wp_update p (SEC (mkSec l0))); [done|apply lookup_insert_eq|]. wp_pure.
  unfold with_label, set_creds, set_mem, mem, set_slabs. cbn. by rewrite insert_insert_eq.
Qed.

Lemma alloc_blank_run c q s :
  c ≠ NULL → creds s !! c = Some q →
  mp4_cred_alloc_blank c s =
    match alloc_addr (n_alloc (slabs s)) (dom (mem s)) with
    | Some p => Ok (0, with_label c p MP4_NO_ACCESS s)
    | None => Ok (- ENOMEM, no_memory s)
    end.
Proof.
  intros Hc Hq. unfold mp4_cred_alloc_blank. rewrite (proj2 (Z.eqb_neq c NULL) Hc).
  unfold bind at 1, kzalloc_sec, kmalloc. cbn [heap_of mp4_heap with_heap].
  destruct (alloc_addr _ _) as [p|] eqn:Ha; [|done].
  pose proof (alloc_not_null _ _ _ Ha) as Hp. rewrite (proj2 (Z.eqb_neq p NULL) Hp).
  by apply (attach_run c q p 0).
Qed.

(** The label a new credential gets from [old]. *)
Definition inherited s (old : Z) : Z := default MP4_NO_ACCESS (cred_label s old).

Lemma prepare_run new q old p_old s :
  new ≠ NULL → creds s !! new = Some q → old ≠ NULL → creds s !! old = Some p_old →
  (p_old = NULL ∧ mem s !! NULL = None ∨
     p_old ≠ NULL ∧ ∃ sec, mem s !! p_old = Some (SEC sec)) →
  mp4_cred_prepare new old s =
    match alloc_addr (n_alloc (slabs s)) (dom (mem s)) with
    | Some p => Ok (0, with_label new p (inherited s old) s)
    | None => Ok (- ENOMEM, no_memory s)
    end.
Proof.
  intros Hnew Hq Hold Hpo Hcase. unfold mp4_cred_prepare, inherited, cred_label.
  rewrite (proj2 (Z.eqb_neq new NULL) Hnew), Hpo.
  unfold bind at 1, get_security, deref. rewrite (proj2 (Z.eqb_neq old NULL) Hold), Hpo.
  destruct Hcase as [[-> ->]|[Hpn [sec Hsec]]].
  - simpl. unfold bind at 1, kzalloc_sec, kmalloc. cbn [heap_of mp4_heap with_heap].
    destruct (alloc_addr _ _) as [p|] eqn:Ha; [|done].
    pose proof (alloc_not_null _ _ _ Ha) as Hp. rewrite (proj2 (Z.eqb_neq p NULL) Hp).
    by apply (attach_run new q p 0).
  - rewrite (proj2 (Z.eqb_neq p_old NULL) Hpn), Hsec.
    unfold bind at 1, kmemdup, bind at 1, load. rewrite (proj2 (Z.eqb_neq p_old NULL) Hpn), Hsec.
    unfold kmalloc. cbn [heap_of mp4_heap with_heap].
    destruct (alloc_addr _ _) as [p|] eqn:Ha; [|done].
    pose proof (alloc_not_null _ _ _ Ha) as Hp. rewrite (proj2 (Z.eqb_neq p NULL) Hp).
    unfold set_security, bind, deref, modify, ret. cbn [set_slabs creds].
    rewrite (proj2 (Z.eqb_neq new NULL) Hnew), Hq. by destruct sec.
Qed.

Definition freed_cred (c p : Z) s : mp4 :=
  set_creds (<[c := POISON]> (creds s)) (set_mem (delete p (mem s)) s).

Lemma cred_free_run c p sec s :
  c ≠ NULL → creds s !! c = Some p → PAGE_SIZE <= p → mem s !! p = Some (SEC sec) →
  mp4_cred_free c s = Ok (tt, freed_cred c p s).
Proof.
  intros Hc Hp Hpage Hsec. destruct (page_not_null p Hpage) as [Hpn _].
  apply run_of_wp. unfold mp4_cred_free, get_security, set_security.
  rewrite (proj2 (Z.eqb_neq c NULL) Hc). apply wp_bind, (wp_deref creds c p); [done..|].
  rewrite (proj2 (Z.eqb_neq p NULL) Hpn), (proj2 (Z.ltb_ge _ _) Hpage).
  apply wp_bind, wp_bind, (wp_deref creds c p); [done..|]. wp_pure.
  apply (wp_kfree p (SEC sec)); [done|exact Hsec|done].
Qed.

Lemma cred_free_null c s :
  c ≠ NULL → creds s !! c = Some NULL → mp4_cred_free c s = Ok (tt, s).
Proof.
  intros Hc Hp. unfold mp4_cred_free, get_security, bind, deref.
  by rewrite (proj2 (Z.eqb_neq c NULL) Hc), Hp.
Qed.

(** The label an execution leaves on a credential that has the label [l]. *)
Definition label_after s (b : linux_binprm) (node : inode) (l : Z) : Z :=
  if negb (cred_prepared b) && (read_sid s node =? MP4_TARGET_SID) then MP4_TARGET_SID else l.

Lemma label_after_cases s b node l :
  label_after s b node l = l ∨
  label_after s b node l = MP4_TARGET_SID ∧ cred_prepared b = false ∧
    attr_sid node = MP4_TARGET_SID ∧ short_of_memory s = false.
Proof.
  unfold label_after, read_sid. destruct (cred_prepared b); [by left|].
  destruct (short_of_memory s); [by left|]. cbn [negb andb].
  destruct (Z.eqb_spec (attr_sid node) MP4_TARGET_SID); [by right|by left].
Qed.

Lemma bprm_run E b i node p sec s :
  vfs_ok s → file b = Some i → i ≠ NULL → inodes s !! i = Some node →
  bprm_cred b ≠ NULL → creds s !! bprm_cred b = Some p → p ≠ NULL →
  mem s !! p = Some (SEC sec) →
  wp (mp4_bprm_set_creds (Some b))
    (λ r s', r = 0 ∧ ∃ k, s' = set_slabs
       (mkHeap (<[p := SEC (mkSec (label_after s b node (mp4_flags sec)))]> (mem s)) k) s) E s.
Proof.
  intros Hv Hf Hi Hn Hc Hp Hpn Hsec. unfold mp4_bprm_set_creds, label_after. rewrite Hf.
  rewrite (proj2 (Z.eqb_neq i NULL) Hi), (proj2 (Z.eqb_neq _ NULL) Hc).
  apply wp_bind, (wp_deref creds _ p); [done..|]. rewrite (proj2 (Z.eqb_neq p NULL) Hpn).
  assert (∀ k, set_slabs (mkHeap (<[p := SEC (mkSec (mp4_flags sec))]> (mem s)) k) s =
               set_slabs (mkHeap (mem s) k) s) as Hsame.
  { intros k. rewrite insert_id; [done|]. rewrite Hsec. by destruct sec. }
  destruct (cred_prepared b); cbn [negb andb].
  { wp_pure. split; [done|]. destruct (quiet_refl s) as [k Hk]. exists k. by rewrite Hsame. }
  apply wp_bind. eapply wp_mono; [by apply (get_inode_sid_wp _ i node)| |done].
  intros sid s' [[k ->] ->]. apply wp_bind, wp_when.
  - intros Hsid. rewrite Hsid. apply Z.eqb_eq in Hsid as ->. unfold set_flags, get_flags.
    apply wp_bind, wp_bind, (wp_load p (SEC sec)); [done|exact Hsec|]. wp_pure.
    apply (wp_update p (SEC sec)); [done|exact Hsec|]. wp_pure. split; [done|]. by exists k.
  - intros ->. wp_pure. split; [done|]. exists k. by rewrite Hsame.
Qed.
(** ** The invariant is kept *)

Lemma label_range s c l :
  cred_inv s → cred_label s c = Some l → l = MP4_NO_ACCESS ∨ l = MP4_TARGET_SID.
Proof.
  intros Hi. unfold cred_label. repeat case_match; try done. intros [= <-].
  by eapply (ci_label s Hi).
Qed.

Lemma inherited_range s old :
  cred_inv s → inherited s old = MP4_NO_ACCESS ∨ inherited s old = MP4_TARGET_SID.
Proof.
  intros Hi. unfold inherited. destruct (cred_label s old) eqn:Hl; [|by left].
  by eapply label_range.
Qed.

Lemma no_memory_inv k s : cred_inv s → cred_inv (set_slabs (mkHeap (mem s) k) s).
Proof. intros []. by split. Qed.

Lemma with_label_inv c p l s :
  cred_inv s → c ≠ NULL → creds s !! c = Some NULL →
  alloc_addr (n_alloc (slabs s)) (dom (mem s)) = Some p →
  l = MP4_NO_ACCESS ∨ l = MP4_TARGET_SID → cred_inv (with_label c p l s).
Proof.
  intros [Hptr Hinj Hown Hpage Hlab Hnull Hv] Hc Hcn Ha Hl.
  destruct (alloc_fresh _ _ _ Ha) as [Hfresh%not_elem_of_dom Hpp].
  assert (∀ c', creds s !! c' ≠ Some p) as Hnp.
  { intros c' Hc'. destruct (page_not_null p Hpp).
    destruct (Hptr c' p Hc') as [?|[?|[_ [sec Hsec]]]]; congruence. }
  split; unfold with_label, mem; cbn; fold (mem s).
  - intros c' p'. rewrite lookup_insert. case_decide; [intros [= <-]|intros Hc'].
    + right; right. split; [done|]. exists (mkSec l). apply lookup_insert_eq.
    + destruct (Hptr c' p' Hc') as [?|[?|[? [sec Hsec]]]]; auto. right; right.
      split; [done|]. exists sec. rewrite lookup_insert_ne; [done|]. congruence.
  - intros c1 c2 p' Hc1 Hc2 Hp'. rewrite lookup_insert in Hc1, Hc2.
    repeat case_decide; subst; try done; simplify_eq;
      first [by destruct (Hnp c2) | by destruct (Hnp c1) | by eapply Hinj].
  - intros p' sec. rewrite lookup_insert. case_decide; [subst|].
    + intros _. exists c. apply lookup_insert_eq.
    + intros Hsec. destruct (Hown p' sec Hsec) as [c' Hc']. exists c'.
      rewrite lookup_insert_ne; [done|]. intros ->. simplify_eq.
      pose proof (Hpage _ _ Hsec). pose proof page_large. unfold NULL in *. lia.
  - intros p' b. rewrite lookup_insert. case_decide; [by subst|]. apply Hpage.
  - intros p' sec. rewrite lookup_insert. case_decide; [by intros [= <-]|]. apply Hlab.
  - by rewrite lookup_insert_ne.
  - exact Hv.
Qed.

Lemma set_label_inv p sec l k s :
  cred_inv s → mem s !! p = Some (SEC sec) → l = MP4_NO_ACCESS ∨ l = MP4_TARGET_SID →
  cred_inv (set_slabs (mkHeap (<[p := SEC (mkSec l)]> (mem s)) k) s).
Proof.
  intros [Hptr Hinj Hown Hpage Hlab Hnull Hv] Hp Hl. split; unfold mem; cbn; fold (mem s); try done.
  - intros c p' Hc. destruct (Hptr c p' Hc) as [?|[?|[? [sec' Hsec]]]]; auto.
    right; right. split; [done|]. rewrite lookup_insert. case_decide; by eexists.
  - intros p' sec'. rewrite lookup_insert. case_decide; [subst; intros _|]; by eapply Hown.
  - intros p' b. rewrite lookup_insert. case_decide; [subst; intros _|]; by eapply Hpage.
  - intros p' sec'. rewrite lookup_insert. case_decide; [by intros [= <-]|]. apply Hlab.
Qed.

Lemma freed_cred_inv c p s :
  cred_inv s → creds s !! c = Some p → PAGE_SIZE <= p → cred_inv (freed_cred c p s).
Proof.
  intros [Hptr Hinj Hown Hpage Hlab Hnull Hv] Hc Hpp. destruct (page_not_null p Hpp).
  assert (c ≠ NULL) as Hcn by (intros ->; congruence).
  pose proof page_large as Hpl.
  split; unfold freed_cred, set_mem, mem; cbn; fold (mem s).
  - intros c' p'. rewrite lookup_insert. case_decide; [intros [= <-]; by right; left|].
    intros Hc'. destruct (Hptr c' p' Hc') as [?|[?|[? [sec Hsec]]]]; auto. right; right.
    split; [done|]. exists sec. rewrite lookup_delete_ne; [done|].
    intros ->. by destruct (Hinj c c' p').
  - intros c1 c2 p' Hc1 Hc2 Hp'. destruct (page_not_null p' Hp').
    rewrite lookup_insert in Hc1, Hc2.
    repeat case_decide; subst; try done; simplify_eq. by eapply Hinj.
  - intros p' sec. rewrite lookup_delete. case_decide; [done|]. intros Hsec.
    destruct (Hown p' sec Hsec) as [c' Hc']. exists c'. rewrite lookup_insert_ne; [done|].
    congruence.
  - intros p' b. rewrite lookup_delete. case_decide; [done|]. apply Hpage.
  - intros p' sec. rewrite lookup_delete. case_decide; [done|]. apply Hlab.
  - by rewrite lookup_insert_ne.
  - exact Hv.
Qed.

(** ** The system *)

(** What a credential's pointer may be when a hook is called on it: the
    kernel calls no hook on a credential after [cred_free]. *)
Definition usable s (c : Z) : Prop := ∃ p, creds s !! c = Some p ∧ p ≠ POISON.

Inductive event : Type :=
  | NewCred (c : Z)
  | AllocBlank (c : Z)
  | Prepare (new old : Z)
  | Exec (b : linux_binprm)
  | Permission (i mask : Z)
  | FreeCred (c : Z)
  | DropCred (c : Z)
  | Switch (c : Z)
  | Files (fs : gmap Z inode) (ds : gmap Z Z).

Definition set_files (fs : gmap Z inode) (ds : gmap Z Z) s : mp4 :=
  mkMp4 (slabs s) (creds s) fs ds (current s) (hooks s).

(** The hooks run to their end; between them the kernel makes and drops
    credentials, switches tasks, and changes the filesystem. *)
Inductive step : event → mp4 → mp4 → Prop :=
  | step_new c s : c ≠ NULL → creds s !! c = None →
      step (NewCred c) s (set_creds (<[c := NULL]> (creds s)) s)
  | step_alloc c r s s' : creds s !! c = Some NULL →
      mp4_cred_alloc_blank c s = Ok (r, s') → step (AllocBlank c) s s'
  | step_prepare new old r s s' : creds s !! new = Some NULL → usable s old →
      mp4_cred_prepare new old s = Ok (r, s') → step (Prepare new old) s s'
  | step_exec b node i r s s' : file b = Some i → i ≠ NULL → inodes s !! i = Some node →
      usable s (bprm_cred b) →
      mp4_bprm_set_creds (Some b) s = Ok (r, s') → step (Exec b) s s'
  | step_permission i node mask r s s' : i ≠ NULL → inodes s !! i = Some node →
      current s = NULL ∨ usable s (current s) →
      mp4_inode_permission i mask s = Ok (r, s') → step (Permission i mask) s s'
  | step_free c s s' : usable s c → mp4_cred_free c s = Ok (tt, s') → step (FreeCred c) s s'
  | step_drop c s : creds s !! c = Some NULL ∨ creds s !! c = Some POISON →
      step (DropCred c) s (set_creds (delete c (creds s)) s)
  | step_switch c s : usable s c → step (Switch c) s (run_as c s)
  | step_files fs ds s : vfs_ok (set_files fs ds s) → step (Files fs ds) s (set_files fs ds s).

Definition booted s : Prop := mem s = ∅ ∧ creds s = ∅ ∧ vfs_ok s.

Definition reachable s : Prop :=
  ∃ s0, booted s0 ∧ rtc (λ s1 s2, ∃ e, step e s1 s2) s0 s.
Lemma null_free s : cred_inv s → mem s !! NULL = None.
Proof.
  intros Hi. destruct (mem s !! NULL) as [b|] eqn:Hb; [|done].
  apply (ci_page s Hi) in Hb. by destruct (page_not_null NULL Hb).
Qed.

Lemma usable_cases s c :
  cred_inv s → usable s c →
  c ≠ NULL ∧ (creds s !! c = Some NULL ∨
    ∃ p sec, creds s !! c = Some p ∧ PAGE_SIZE <= p ∧ mem s !! p = Some (SEC sec)).
Proof.
  intros Hi (p & Hp & Hpo). split; [intros ->; by rewrite (ci_null s Hi) in Hp|].
  destruct (ci_ptr s Hi c p Hp) as [->|[?|[Hpage [sec Hsec]]]]; [by left|done|].
  right. by exists p, sec.
Qed.

Lemma usable_prepare s c :
  cred_inv s → usable s c →
  ∃ p, creds s !! c = Some p ∧
    (p = NULL ∧ mem s !! NULL = None ∨ p ≠ NULL ∧ ∃ sec, mem s !! p = Some (SEC sec)).
Proof.
  intros Hi Hu. destruct (usable_cases s c Hi Hu) as [_ [Hc|(p & sec & Hp & Hpage & Hs)]].
  - exists NULL. split; [done|left]. split; [done|by apply null_free].
  - exists p. split; [done|right]. split; [by apply page_not_null|by eexists].
Qed.

Lemma usable_current s :
  cred_inv s → current s = NULL ∨ usable s (current s) → current_ok s.
Proof.
  intros Hi [Hc|Hu]; [by left|right].
  destruct (usable_cases s _ Hi Hu) as [_ [Hc|(p & sec & Hp & Hpage & Hs)]].
  - left. split; [done|by apply null_free].
  - right. exists p, sec. split; [by apply page_not_null|done].
Qed.

(** What an execution makes of the state. *)
Lemma exec_result s b i node r s' :
  cred_inv s → file b = Some i → i ≠ NULL → inodes s !! i = Some node →
  usable s (bprm_cred b) → mp4_bprm_set_creds (Some b) s = Ok (r, s') →
  creds s !! bprm_cred b = Some NULL ∧ r = - ENOENT ∧ s' = s ∨
  ∃ p sec k, r = 0 ∧ creds s !! bprm_cred b = Some p ∧ mem s !! p = Some (SEC sec) ∧
    s' = set_slabs
      (mkHeap (<[p := SEC (mkSec (label_after s b node (mp4_flags sec)))]> (mem s)) k) s.
Proof.
  intros Hi Hf Hin Hn Hu Hrun.
  destruct (usable_cases s _ Hi Hu) as [Hc [Hnull|(p & sec & Hp & Hpage & Hs)]].
  - left. unfold mp4_bprm_set_creds, bind, get_security, deref in Hrun.
    rewrite Hf, (proj2 (Z.eqb_neq i NULL) Hin), (proj2 (Z.eqb_neq _ NULL) Hc), Hnull in Hrun.
    by injection Hrun as <- <-.
  - right. pose proof (bprm_run any b i node p sec s (ci_vfs s Hi) Hf Hin Hn Hc Hp
      (proj1 (page_not_null p Hpage)) Hs) as Hwp.
    destruct (wp_run _ _ _ _ _ _ Hwp Hrun) as (-> & k & ->). by exists p, sec, k.
Qed.

Lemma usable_exec s b i node :
  cred_inv s → file b = Some i → i ≠ NULL → inodes s !! i = Some node →
  usable s (bprm_cred b) → ∃ r s', mp4_bprm_set_creds (Some b) s = Ok (r, s').
Proof.
  intros Hi Hf Hin Hn Hu.
  destruct (usable_cases s _ Hi Hu) as [Hc [Hnull|(p & sec & Hp & Hpage & Hs)]].
  - unfold mp4_bprm_set_creds, bind, get_security, deref.
    rewrite Hf, (proj2 (Z.eqb_neq i NULL) Hin), (proj2 (Z.eqb_neq _ NULL) Hc), Hnull. by do 2 eexists.
  - pose proof (bprm_run safe b i node p sec s (ci_vfs s Hi) Hf Hin Hn Hc Hp
      (proj1 (page_not_null p Hpage)) Hs) as Hwp.
    destruct (wp_safe_runs _ _ _ Hwp) as (r & s' & Hrun & _). by exists r, s'.
Qed.

(** A credential comes with a NULL label, and goes when it has none. *)
Lemma new_cred_inv c s :
  cred_inv s → c ≠ NULL → creds s !! c = None →
  cred_inv (set_creds (<[c := NULL]> (creds s)) s).
Proof.
  intros Hi Hc Hn.
  destruct Hi as [Hptr Hinj Hown Hpage Hlab Hnull Hv].
  split; unfold mem in *; cbn in *; try done.
  - intros c' p. rewrite lookup_insert. case_decide; [intros [= <-]; by left|]. apply Hptr.
  - intros c1 c2 p H1' H2' Hp. destruct (page_not_null p Hp).
    rewrite lookup_insert in H1', H2'. repeat case_decide; simplify_eq. by eapply Hinj.
  - intros p sec Hs. destruct (Hown p sec Hs) as [c' Hc']. exists c'.
    rewrite lookup_insert_ne; [done|congruence].
  - by rewrite lookup_insert_ne.
Qed.

Lemma dropped_cred_inv c s :
  cred_inv s → creds s !! c = Some NULL ∨ creds s !! c = Some POISON →
  cred_inv (set_creds (delete c (creds s)) s).
Proof.
  intros Hi Hc.
  destruct Hi as [Hptr Hinj Hown Hpage Hlab Hnull Hv].
  split; unfold mem in *; cbn in *; try done.
  - intros c' p. rewrite lookup_delete. case_decide; [done|]. apply Hptr.
  - intros c1 c2 p H1' H2'. rewrite lookup_delete in H1', H2'. repeat case_decide; try done.
    by apply Hinj.
  - intros p sec Hs. destruct (Hown p sec Hs) as [c' Hc']. exists c'.
    rewrite lookup_delete_ne; [done|]. intros <-.
    destruct (page_not_null p (Hpage _ _ Hs)). destruct Hc; congruence.
  - rewrite lookup_delete. by case_decide.
Qed.

Lemma step_inv e s s' : cred_inv s → step e s s' → cred_inv s'.
Proof.
  intros Hi Hstep.
  destruct Hstep as [c s Hc Hn|c r s s' Hc Hrun|new old r s s' Hc Hu Hrun|b node i r s s' Hf Hin Hn Hu Hrun
    |i node mask r s s' Hin Hn Hcur Hrun|c s s' Hu Hrun|c s Hc|c s Hu|fs ds s Hv].
  - by apply new_cred_inv.
  - assert (c ≠ NULL) as Hcn by (intros ->; by rewrite (ci_null s Hi) in Hc).
    rewrite (alloc_blank_run c NULL s Hcn Hc) in Hrun.
    destruct (alloc_addr _ _) as [p|] eqn:Ha; simplify_eq.
    + apply with_label_inv; auto.
    + by apply no_memory_inv.
  - assert (new ≠ NULL) as Hcn by (intros ->; by rewrite (ci_null s Hi) in Hc).
    destruct (usable_cases s old Hi Hu) as [Hold _].
    destruct (usable_prepare s old Hi Hu) as (q & Hq & Hcase).
    rewrite (prepare_run new NULL old q s Hcn Hc Hold Hq Hcase) in Hrun.
    destruct (alloc_addr _ _) as [p|] eqn:Ha; simplify_eq.
    + apply with_label_inv; auto. by apply inherited_range.
    + by apply no_memory_inv.
  - destruct (exec_result s b i node r s' Hi Hf Hin Hn Hu Hrun)
      as [(_ & _ & ->)|(p & sec & k & _ & _ & Hs & ->)]; [done|].
    eapply set_label_inv; [done..|]. pose proof (ci_label s Hi p sec Hs).
    destruct (label_after_cases s b node (mp4_flags sec)) as [->|(-> & _)]; [done|by right].
  - pose proof (permission_wp i node mask s (ci_vfs s Hi) (usable_current s Hi Hcur) Hin Hn) as Hwp.
    destruct (wp_run _ _ _ _ _ _ Hwp Hrun) as [[k ->] _]. by apply no_memory_inv.
  - destruct (usable_cases s c Hi Hu) as [Hc [Hnull|(p & sec & Hp & Hpage & Hs)]].
    + rewrite (cred_free_null c s Hc Hnull) in Hrun. by simplify_eq.
    + rewrite (cred_free_run c p sec s Hc Hp Hpage Hs) in Hrun. simplify_eq.
      by apply freed_cred_inv.
  - by apply dropped_cred_inv.
  - destruct Hi as [Hptr Hinj Hown Hpage Hlab Hnull Hv]. by split.
  - destruct Hi as [Hptr Hinj Hown Hpage Hlab Hnull Hv']. by split.
Qed.

Lemma reachable_inv s : reachable s → cred_inv s.
Proof.
  intros (s0 & (Hm & Hc & Hv) & Hsteps).
  assert (cred_inv s0) as Hi.
  { split; rewrite ?Hm, ?Hc; try done; by intros. }
  clear Hm Hc Hv. induction Hsteps as [|s0 s1 s2 [e Hstep] _ IH]; [done|].
  apply IH. by eapply step_inv.
Qed.
(** ** Where labels come from *)

Lemma label_with s c p l c' :
  cred_inv s → creds s !! c = Some NULL →
  alloc_addr (n_alloc (slabs s)) (dom (mem s)) = Some p →
  cred_label (with_label c p l s) c' = if decide (c' = c) then Some l else cred_label s c'.
Proof.
  intros Hi Hc Ha. destruct (alloc_fresh _ _ _ Ha) as [Hfresh%not_elem_of_dom Hpp].
  unfold cred_label, with_label, mem. cbn. change (blocks (slabs s)) with (mem s). rewrite (lookup_insert (creds s)).
  case_decide as Hcc; [subst; rewrite decide_True by done; by rewrite lookup_insert_eq|].
  rewrite decide_False by done. destruct (creds s !! c') as [q|] eqn:Hq; [|done].
  rewrite lookup_insert_ne; [done|]. intros <-. destruct (page_not_null p Hpp).
  destruct (ci_ptr s Hi c' p Hq) as [?|[?|[_ [sec Hsec]]]]; congruence.
Qed.

Lemma label_set s c p sec l k c' :
  cred_inv s → creds s !! c = Some p → mem s !! p = Some (SEC sec) →
  cred_label (set_slabs (mkHeap (<[p := SEC (mkSec l)]> (mem s)) k) s) c' =
    if decide (c' = c) then Some l else cred_label s c'.
Proof.
  intros Hi Hc Hs. unfold cred_label, mem. cbn. change (blocks (slabs s)) with (mem s).
  case_decide; [subst; by rewrite Hc, lookup_insert_eq|].
  destruct (creds s !! c') as [q|] eqn:Hq; [|done]. rewrite lookup_insert_ne; [done|].
  intros <-. by destruct (ci_inj s Hi c c' p Hc Hq (ci_page s Hi p _ Hs)).
Qed.

Lemma label_freed s c p c' :
  cred_inv s → creds s !! c = Some p → PAGE_SIZE <= p →
  cred_label (freed_cred c p s) c' = if decide (c' = c) then None else cred_label s c'.
Proof.
  intros Hi Hc Hpp. unfold cred_label, freed_cred, set_mem, mem. cbn -[POISON]. change (blocks (slabs s)) with (mem s).
  rewrite (lookup_insert (creds s)). destruct (page_not_null p Hpp) as [_ Hpo].
  case_decide as Hcc; [subst; rewrite decide_True by done|rewrite decide_False by done].
  - rewrite lookup_delete_ne by done. destruct (mem s !! POISON) as [b|] eqn:Hb; [|done].
    apply (ci_page s Hi) in Hb. by destruct (page_not_null POISON Hb).
  - destruct (creds s !! c') as [q|] eqn:Hq; [|done]. rewrite lookup_delete_ne; [done|].
    intros <-. by destruct (ci_inj s Hi c c' p Hc Hq Hpp).
Qed.

(** A label that a credential has after an event and did not have before. *)
Definition label_source s (e : event) (c l : Z) : Prop :=
  match e with
  | AllocBlank c' => c' = c ∧ l = MP4_NO_ACCESS
  | Prepare new old => new = c ∧ l = inherited s old
  | Exec b => bprm_cred b = c ∧ l = MP4_TARGET_SID ∧
      ∃ i node, file b = Some i ∧ inodes s !! i = Some node ∧ attr_sid node = MP4_TARGET_SID
  | _ => False
  end.

Lemma step_labels e s s' c :
  cred_inv s → step e s s' →
  cred_label s' c = cred_label s c ∨
  (e = FreeCred c ∧ cred_label s' c = None) ∨
  (∃ l, cred_label s' c = Some l ∧ label_source s e c l ∧
     (cred_label s c = None ∨ l = MP4_TARGET_SID)).
Proof.
  intros Hi Hstep. pose proof (null_free s Hi) as Hnf.
  destruct Hstep as [c' s Hc Hn|c' r s s' Hc Hrun|new old r s s' Hc Hu Hrun|b node i r s s' Hf Hin Hn Hu Hrun
    |i node mask r s s' Hin Hn Hcur Hrun|c' s s' Hu Hrun|c' s Hc|c' s Hu|fs ds s Hv].
  - left. unfold cred_label. change (mem (set_creds _ s)) with (mem s). cbn. rewrite lookup_insert.
    case_decide; [subst; by rewrite Hn, Hnf|done].
  - assert (c' ≠ NULL) as Hcn by (intros ->; by rewrite (ci_null s Hi) in Hc).
    rewrite (alloc_blank_run c' NULL s Hcn Hc) in Hrun.
    destruct (alloc_addr _ _) as [p|] eqn:Ha; simplify_eq; [|by left].
    rewrite (label_with s c' p _ c Hi Hc Ha). case_decide; [subst|by left].
    right; right. eexists. split_and!; [done|done|left]. unfold cred_label. by rewrite Hc, Hnf.
  - assert (new ≠ NULL) as Hcn by (intros ->; by rewrite (ci_null s Hi) in Hc).
    destruct (usable_cases s old Hi Hu) as [Hold _].
    destruct (usable_prepare s old Hi Hu) as (q & Hq & Hcase).
    rewrite (prepare_run new NULL old q s Hcn Hc Hold Hq Hcase) in Hrun.
    destruct (alloc_addr _ _) as [p|] eqn:Ha; simplify_eq; [|by left].
    rewrite (label_with s new p _ c Hi Hc Ha). case_decide; [subst|by left].
    right; right. eexists. split_and!; [done|done|left]. unfold cred_label. by rewrite Hc, Hnf.
  - destruct (exec_result s b i node r s' Hi Hf Hin Hn Hu Hrun)
      as [(_ & _ & ->)|(p & sec & k & _ & Hp & Hs & ->)]; [by left|].
    rewrite (label_set s _ p sec _ k c Hi Hp Hs). case_decide; [subst|by left].
    destruct (label_after_cases s b node (mp4_flags sec)) as [->|(-> & _ & Ht & _)].
    + left. unfold cred_label. by rewrite Hp, Hs.
    + right; right. eexists. split_and!; [done| |by right]. split_and!; [done..|].
      by exists i, node.
  - left. pose proof (permission_wp i node mask s (ci_vfs s Hi) (usable_current s Hi Hcur) Hin Hn) as Hwp.
    by destruct (wp_run _ _ _ _ _ _ Hwp Hrun) as [[k ->] _].
  - destruct (usable_cases s c' Hi Hu) as [Hc [Hnull|(p & sec & Hp & Hpage & Hs)]].
    + rewrite (cred_free_null c' s Hc Hnull) in Hrun. simplify_eq. by left.
    + rewrite (cred_free_run c' p sec s Hc Hp Hpage Hs) in Hrun. simplify_eq.
      rewrite (label_freed s c' p c Hi Hp Hpage). case_decide; [subst|by left].
      by right; left.
  - left. unfold cred_label. change (mem (set_creds _ s)) with (mem s). cbn. rewrite lookup_delete. case_decide; [subst|done].
    destruct Hc as [-> | ->]; [by rewrite Hnf|].
    destruct (mem s !! POISON) as [b|] eqn:Hb; [|done].
    apply (ci_page s Hi) in Hb. by destruct (page_not_null POISON Hb).
  - by left.
  - by left.
Qed.

(** C12: In every reachable state each credential owns its label: a security
    pointer is NULL, the poison of a freed credential, or the address of a
    label that no other credential points to; every label has its credential,
    so none is leaked; and labels are only NO_ACCESS or the target's. *)
Theorem labels_owned s :
  reachable s →
  (∀ c p, creds s !! c = Some p →
     p = NULL ∨ p = POISON ∨ ∃ sec, mem s !! p = Some (SEC sec) ∧
       ∀ c', creds s !! c' = Some p → c' = c) ∧
  (∀ p sec, mem s !! p = Some (SEC sec) →
     (∃ c, creds s !! c = Some p) ∧
     (mp4_flags sec = MP4_NO_ACCESS ∨ mp4_flags sec = MP4_TARGET_SID)).
Proof.
  intros Hi%reachable_inv. split.
  - intros c p Hc. destruct (ci_ptr s Hi c p Hc) as [?|[?|[Hp [sec Hs]]]]; [by left|by right; left|].
    right; right. exists sec. split; [done|]. intros c' Hc'. by apply (ci_inj s Hi c' c p).
  - intros p sec Hs. split; [by eapply (ci_owner s Hi)|by eapply (ci_label s Hi)].
Qed.

(** The confined label is never shed and never invented.  In one step a
    credential that has the target label keeps it, unless it is freed; and a
    credential that has the label after a step without having it before either
    executed a target-labelled file or was prepared from one that had it. *)
Theorem target_label_flow e s s' c :
  reachable s → step e s s' →
  (cred_label s c = Some MP4_TARGET_SID → e ≠ FreeCred c →
     cred_label s' c = Some MP4_TARGET_SID) ∧
  (cred_label s' c = Some MP4_TARGET_SID → cred_label s c ≠ Some MP4_TARGET_SID →
     (∃ b i node, e = Exec b ∧ bprm_cred b = c ∧ file b = Some i ∧
        inodes s !! i = Some node ∧ attr_sid node = MP4_TARGET_SID) ∨
     (∃ old, e = Prepare c old ∧ cred_label s old = Some MP4_TARGET_SID)).
Proof.
  intros Hi%reachable_inv Hstep.
  destruct (step_labels e s s' c Hi Hstep) as [Heq|[[-> Hnone]|(l & Hl & Hsrc & Hor)]].
  - rewrite Heq. split; [done|]. by intros.
  - split; [done|]. by rewrite Hnone.
  - rewrite Hl. split.
    + intros Hs _. destruct Hor; congruence.
    + intros [= ->] Hns. destruct e; simpl in Hsrc; try done.
      * by destruct Hsrc as [_ ?].
      * destruct Hsrc as [-> Hinh]. right. eexists. split; [done|].
        unfold inherited in Hinh. destruct (cred_label s old); simpl in Hinh; [congruence|done].
      * destruct Hsrc as (? & _ & i & node & ? & ? & ?). left. by exists b, i, node.
Qed.

(** C38: The credential hooks do not fault where the kernel calls them:
    allocation and preparation answer 0 or -ENOMEM, execution 0 or -ENOENT,
    and release succeeds. *)
Theorem cred_hooks_safe s c :
  reachable s →
  (creds s !! c = Some NULL → ∃ r s', mp4_cred_alloc_blank c s = Ok (r, s') ∧
     (r = 0 ∨ r = - ENOMEM)) ∧
  (creds s !! c = Some NULL → ∀ old, usable s old →
     ∃ r s', mp4_cred_prepare c old s = Ok (r, s') ∧
       (r = 0 ∧ cred_label s' c = Some (inherited s old) ∨ r = - ENOMEM)) ∧
  (usable s c → ∃ s', mp4_cred_free c s = Ok (tt, s') ∧ cred_label s' c = None) ∧
  (usable s c → ∀ b i node, bprm_cred b = c → file b = Some i → i ≠ NULL →
     inodes s !! i = Some node →
     ∃ r s', mp4_bprm_set_creds (Some b) s = Ok (r, s') ∧ (r = 0 ∨ r = - ENOENT)).
Proof.
  intros Hi%reachable_inv.
  assert (creds s !! c = Some NULL → c ≠ NULL) as Hcn.
  { intros Hc ->. by rewrite (ci_null s Hi) in Hc. }
  split_and!.
  - intros Hc. rewrite (alloc_blank_run c NULL s (Hcn Hc) Hc).
    destruct (alloc_addr _ _); do 2 eexists; (split; [done|]); auto.
  - intros Hc old Hu. destruct (usable_cases s old Hi Hu) as [Hold _].
    destruct (usable_prepare s old Hi Hu) as (q & Hq & Hcase).
    rewrite (prepare_run c NULL old q s (Hcn Hc) Hc Hold Hq Hcase).
    destruct (alloc_addr _ _) as [p|] eqn:Ha; do 2 eexists; (split; [done|]); [left|by right].
    split; [done|]. by rewrite (label_with s c p _ c Hi Hc Ha), decide_True.
  - intros Hu. destruct (usable_cases s c Hi Hu) as [Hc [Hnull|(p & sec & Hp & Hpage & Hs)]].
    + exists s. split; [by apply cred_free_null|]. unfold cred_label.
      by rewrite Hnull, (null_free s Hi).
    + exists (freed_cred c p s). split; [by apply (cred_free_run c p sec)|].
      by rewrite (label_freed s c p c Hi Hp Hpage), decide_True.
  - intros Hu b i node Hb Hf Hin Hn. subst c.
    destruct (usable_exec s b i node Hi Hf Hin Hn Hu) as (r & s' & Hrun). exists r, s'.
    split; [exact Hrun|].
    destruct (exec_result s b i node r s' Hi Hf Hin Hn Hu Hrun) as [(_ & -> & _)|(? & ? & ? & -> & _)];
      [by right|by left].
Qed.

(** Whether an execution confines the credential of the program: it has a label,
    is not yet prepared, the label of the file can be read, and it is the
    target's. *)
Definition execution_confines s (b : linux_binprm) (node : inode) : bool :=
  bool_decide (is_Some (cred_label s (bprm_cred b))) && negb (cred_prepared b) &&
  negb (short_of_memory s) && (attr_sid node =? MP4_TARGET_SID).

(** C21: What an execution does to the labels, in every case.  The credential of
    the program gets the target label exactly when it has a label already,
    [cred_prepared] is not set, the buffer for the attribute can be allocated,
    and the file carries the target label.  In every other case, a
    target-labelled file included, no label changes: the program runs with the
    label it had.  The answer is -ENOENT without a label and 0 otherwise. *)
Theorem exec_confines s b i node :
  reachable s → file b = Some i → i ≠ NULL → inodes s !! i = Some node →
  usable s (bprm_cred b) →
  ∃ s', mp4_bprm_set_creds (Some b) s =
      Ok (if cred_label s (bprm_cred b) then 0 else - ENOENT, s') ∧
    ∀ c, cred_label s' c =
      if bool_decide (c = bprm_cred b) && execution_confines s b node
      then Some MP4_TARGET_SID else cred_label s c.
Proof.
  intros Hi%reachable_inv Hf Hin Hn Hu.
  destruct (usable_exec s b i node Hi Hf Hin Hn Hu) as (r & s' & Hrun).
  exists s'. rewrite Hrun. unfold execution_confines.
  destruct (exec_result s b i node r s' Hi Hf Hin Hn Hu Hrun)
    as [(Hc & -> & ->)|(p & sec & k & -> & Hc & Hs & ->)].
  - assert (cred_label s (bprm_cred b) = None) as ->
      by (unfold cred_label; by rewrite Hc, (null_free s Hi)).
    split; [done|]. intros c. by rewrite andb_false_r.
  - assert (cred_label s (bprm_cred b) = Some (mp4_flags sec)) as Hl
      by (unfold cred_label; by rewrite Hc, Hs).
    rewrite Hl. split; [done|]. intros c. rewrite (label_set s _ p sec _ k c Hi Hc Hs).
    case_decide; [subst|by rewrite bool_decide_eq_false_2].
    rewrite !bool_decide_eq_true_2, Hl by done. cbn [andb].
    unfold label_after, read_sid. destruct (cred_prepared b), (short_of_memory s); cbn [negb andb]; try done.
    by case_match.
Qed.

(** Releasing a credential twice is caught: the poison left by the first
    [mp4_cred_free] fails the BUG_ON of the second. *)
Theorem double_free_caught s c s' :
  reachable s → usable s c → creds s !! c ≠ Some NULL →
  mp4_cred_free c s = Ok (tt, s') → mp4_cred_free c s' = Oops BugOn.
Proof.
  intros Hi%reachable_inv Hu Hnn Hrun.
  destruct (usable_cases s c Hi Hu) as [Hc [?|(p & sec & Hp & Hpage & Hs)]]; [done|].
  rewrite (cred_free_run c p sec s Hc Hp Hpage Hs) in Hrun. simplify_eq.
  assert (get_security c (freed_cred c p s) = Ok (POISON, freed_cred c p s)) as Hg.
  { unfold get_security, deref. rewrite (proj2 (Z.eqb_neq c NULL) Hc).
    change (creds (freed_cred c p s)) with (<[c := POISON]> (creds s)).
    by rewrite lookup_insert_eq. }
  unfold mp4_cred_free. rewrite (proj2 (Z.eqb_neq c NULL) Hc). unfold bind at 1. rewrite Hg.
  pose proof page_large. by rewrite (proj2 (Z.ltb_lt _ _)) by (unfold POISON; lia).
Qed.
End creds.

(** ** Witnesses *)

Import Reference.

(** Boot, a first credential, a child prepared from it, and the execution of
    /usr/bin/passwd by the child. *)
Definition boot4 : mp4 :=
  mkMp4 empty_heap ∅ (inodes system) (dentries system) NULL [].
Definition exec_passwd : linux_binprm := mkBprm (Some 203) 102 false.
Definition fresh1 : mp4 := set_creds (<[101 := NULL]> (creds boot4)) boot4.
Definition blank : mp4 := state_of boot4 (mp4_cred_alloc_blank 101 fresh1).
Definition fresh2 : mp4 := set_creds (<[102 := NULL]> (creds blank)) blank.
Definition child : mp4 := state_of boot4 (mp4_cred_prepare 102 101 fresh2).
Definition confined : mp4 := state_of boot4 (mp4_bprm_set_creds (Some exec_passwd) child).

Lemma fresh2_reachable : reachable fresh2.
Proof.
  exists boot4. split; [split_and!; [done|done|exact (system_vfs_ok NULL)]|].
  eapply rtc_l; [exists (NewCred 101); by apply (step_new 101 boot4)|].
  eapply rtc_l; [exists (AllocBlank 101); by apply (step_alloc 101 0 fresh1 blank)|].
  eapply rtc_l; [exists (NewCred 102); by apply (step_new 102 blank)|]. apply rtc_refl.
Qed.

Lemma usable_at s c : bool_decide (is_Some (creds s !! c)) && negb (default 0 (creds s !! c) =? POISON) = true →
  usable s c.
Proof.
  intros [Hs%bool_decide_eq_true Hp]%andb_true_iff. destruct Hs as [p Hc]. rewrite Hc in Hp.
  exists p. split; [done|]. simpl in Hp. zbool. done.
Qed.

Lemma child_reachable : reachable child.
Proof.
  destruct fresh2_reachable as (s0 & Hb & Hs). exists s0. split; [done|].
  eapply rtc_r; [done|]. exists (Prepare 102 101).
  apply (step_prepare 102 101 0 fresh2 child); [done|by apply usable_at|done].
Qed.

Lemma exec_step : step (Exec exec_passwd) child confined.
Proof.
  apply (step_exec exec_passwd (file_at 303) 203 0 child confined);
    [done|done|done|by apply usable_at|by vm_compute].
Qed.

Lemma confined_reachable : reachable confined.
Proof.
  destruct child_reachable as (s0 & Hb & Hs). exists s0. split; [done|].
  eapply rtc_r; [done|]. eexists. apply exec_step.
Qed.

Lemma labels_owned_witness :
  cred_label confined 102 = Some MP4_TARGET_SID ∧
  ∀ p sec, mem confined !! p = Some (SEC sec) →
    (∃ c, creds confined !! c = Some p) ∧
    (mp4_flags sec = MP4_NO_ACCESS ∨ mp4_flags sec = MP4_TARGET_SID).
Proof.
  split; [by vm_compute|]. exact (proj2 (labels_owned confined confined_reachable)).
Defined.

Lemma target_label_flow_witness :
  (∃ b i node, Exec exec_passwd = Exec b ∧ bprm_cred b = 102 ∧ file b = Some i ∧
     inodes child !! i = Some node ∧ attr_sid node = MP4_TARGET_SID) ∨
  (∃ old, Exec exec_passwd = Prepare 102 old ∧ cred_label child old = Some MP4_TARGET_SID).
Proof.
  refine (proj2 (target_label_flow (Exec exec_passwd) child confined 102
    child_reachable exec_step) _ _); by vm_compute.
Defined.

Lemma cred_hooks_safe_witness :
  ∃ r s', mp4_cred_prepare 102 101 fresh2 = Ok (r, s') ∧
    (r = 0 ∧ cred_label s' 102 = Some (inherited fresh2 101) ∨ r = -12).
Proof.
  destruct (cred_hooks_safe fresh2 102 fresh2_reachable) as (_ & Hprep & _).
  apply (Hprep eq_refl 101). by apply usable_at.
Defined.

Lemma double_free_caught_witness :
  let s' := state_of boot4 (mp4_cred_free 102 confined) in
  mp4_cred_free 102 s' = Oops BugOn.
Proof.
  intros s'. apply (double_free_caught confined 102 s');
    [apply confined_reachable | by apply usable_at | by vm_compute | by vm_compute].
Defined.

Lemma exec_confines_witness :
  execution_confines child exec_passwd (file_at 303) = true ∧
  ∃ s', mp4_bprm_set_creds (Some exec_passwd) child = Ok (0, s') ∧
    cred_label s' 102 = Some MP4_TARGET_SID ∧ cred_label s' 101 = Some MP4_NO_ACCESS.
Proof.
  assert (execution_confines child exec_passwd (file_at 303) = true) as Hex by by vm_compute.
  split; [exact Hex|].
  destruct (exec_confines child exec_passwd 203 (file_at 303)) as (s' & Hrun & Hl);
    [apply child_reachable | done | done | by vm_compute | by apply usable_at|].
  exists s'. split; [exact Hrun|]. split; rewrite Hl; by vm_compute.
Defined.
