(* ===== verification/Mp4Refine.v ===== *)
(** * MP4: an abstract reference monitor

    A specification of src/MP4/mp4.c without security blobs and kernel memory:
    each credential is unlabelled, labelled as confined or not, or released; the
    hooks move it between these and answer requests as mp4_given.h documents
    the labels.  Every hook is a step of it. *)
From Stdlib Require Import Ascii String.
From stdpp Require Import base gmap sets list strings relations.
From Stdlib Require Import ZArith Lia.
From S2P Require Import Prelude CString Kernel Mp4 Mp4Run Mp4Policy Mp4Hooks Mp4Cred.

Open Scope Z_scope.
Open Scope c_scope.

(** ** The specification *)





Section spec.
Context `{!KConst, !Masks, !Vfs}.



End spec.

(** ** The monitor a state of the module stands for *)

Section refine.
Context `{!KConst, !Allocator, !Masks, !Vfs}.
Context `{!KConstLaws, !AllocatorLaws, !MasksLaws, !VfsLaws}.
Implicit Types s : mp4.








(** ** What the hooks do to it *)












(** ** What the module answers *)




End refine.

(** ** The confined program and the shadow file *)

Import Reference.

